(** * UIMPIT configuration editor: [config_editor.py]

    A shallow embedding of the configuration document manager of
    [Resources/Server/EconomyTest/config_editor.py] (class [MainWindow]:
    [load_config], [populate_ui], [save_config], [reset_to_defaults],
    [apply_feature_dependencies] and the widget map built by [init_ui]),
    and the properties of its load / commit / save / reset cycle.

    Python objects that the program mutates (the dictionaries of the
    document, [FALLBACK_DEFAULTS], the widgets) live in stores addressed by
    references, so that copying and aliasing are those of the source.
    Exceptions are results that keep the state reached when they were
    raised: Python does not roll anything back. *)

From Stdlib Require Import ZArith String Ascii List Bool Lia.
From Stdlib Require Import Floats.PrimFloat Floats.SpecFloat Floats.FloatOps.
From stdpp Require Import base tactics option list.

Set Warnings "-register-all".

Open Scope string_scope.
Open Scope list_scope.
Open Scope Z_scope.

(* ===================================================================== *)
(** ** Texts: [str.strip], [int(str)] and [str(int)]

    Texts are modelled over ASCII: a character above 127 is an ordinary
    character, neither a space nor a digit. *)
(* ===================================================================== *)

Module Text.

(** [str.isspace] on one ASCII character: TAB, LF, VT, FF, CR, FS, GS, RS,
    US and the space. *)
Definition isspace (c : ascii) : bool :=
  let n := nat_of_ascii c in
  ((9 <=? n)%nat && (n <=? 13)%nat) || ((28 <=? n)%nat && (n <=? 32)%nat).

Definition is_empty (s : string) : bool :=
  match s with EmptyString => true | String _ _ => false end.

Fixpoint lstrip (s : string) : string :=
  match s with
  | EmptyString => EmptyString
  | String c r => if isspace c then lstrip r else s
  end.

Fixpoint rstrip (s : string) : string :=
  match s with
  | EmptyString => EmptyString
  | String c r =>
      let r' := rstrip r in
      if isspace c && is_empty r' then EmptyString else String c r'
  end.

(** [s.strip()] *)
Definition strip (s : string) : string := rstrip (lstrip s).

Definition digit_of (c : ascii) : option Z :=
  let n := nat_of_ascii c in
  if (48 <=? n)%nat && (n <=? 57)%nat then Some (Z.of_nat (n - 48)) else None.

(** The digits of an integer literal: decimal digits, with single
    underscores allowed between two digits. [prev] tells whether the
    previous character was a digit. *)
Fixpoint parse_digits (acc : Z) (prev : bool) (s : string) : option Z :=
  match s with
  | EmptyString => if prev then Some acc else None
  | String c r =>
      match digit_of c with
      | Some d => parse_digits (10 * acc + d) true r
      | None =>
          if Ascii.eqb c "_" && prev then parse_digits acc false r else None
      end
  end.

Definition int_literal (s : string) : option Z :=
  match s with
  | String "-" r => option_map Z.opp (parse_digits 0 false r)
  | String "+" r => parse_digits 0 false r
  | _ => parse_digits 0 false s
  end.

(** [int(s)] in base ten: surrounding white space is ignored, [None] is
    Python's [ValueError]. *)
Definition py_int (s : string) : option Z := int_literal (strip s).

Definition digit_char (d : Z) : ascii := ascii_of_nat (48 + Z.to_nat d).

Fixpoint print_digits (fuel : nat) (n : Z) (acc : string) : string :=
  match fuel with
  | O => acc
  | S fuel' =>
      let acc' := String (digit_char (n mod 10)) acc in
      if n <? 10 then acc' else print_digits fuel' (n / 10) acc'
  end.

(** [str(n)] for an integer. A number below [2 ^ k] has at most [k]
    decimal digits, which bounds the recursion. *)
Definition str_int (n : Z) : string :=
  if n <? 0
  then String "-" (print_digits (S (Z.to_nat (Z.log2 (- n)))) (- n) "")
  else print_digits (S (Z.to_nat (Z.log2 n))) n "".

Example str_int_120000 : str_int 120000 = "120000".
Proof. reflexivity. Qed.
Example str_int_neg : str_int (-5) = "-5".
Proof. reflexivity. Qed.
Example str_int_0 : str_int 0 = "0".
Proof. reflexivity. Qed.
Example py_int_padded : py_int "  42 " = Some 42.
Proof. reflexivity. Qed.
Example py_int_underscore : py_int "1_000" = Some 1000.
Proof. reflexivity. Qed.
Example py_int_abc : py_int "abc" = None.
Proof. reflexivity. Qed.
Example py_int_grouped : py_int "1,234" = None.
Proof. reflexivity. Qed.
Example py_int_blank : py_int "   " = None.
Proof. reflexivity. Qed.

(** *** Stripping *)

Lemma lstrip_rstrip s : lstrip (rstrip s) = rstrip (lstrip s).
Proof.
  induction s as [|c r IH]; [reflexivity|].
  cbn [lstrip rstrip].
  destruct (isspace c) eqn:Hc; cbn [andb].
  - destruct (is_empty (rstrip r)) eqn:He.
    + rewrite <- IH. destruct (rstrip r); [reflexivity | discriminate].
    + cbn [lstrip]. rewrite Hc. exact IH.
  - cbn [lstrip rstrip]. rewrite Hc. reflexivity.
Qed.

Lemma lstrip_idem s : lstrip (lstrip s) = lstrip s.
Proof.
  induction s as [|c r IH]; [reflexivity|].
  cbn [lstrip]. destruct (isspace c) eqn:Hc; [exact IH|].
  cbn [lstrip]. rewrite Hc. reflexivity.
Qed.

Lemma rstrip_idem s : rstrip (rstrip s) = rstrip s.
Proof.
  induction s as [|c r IH]; [reflexivity|].
  cbn [rstrip].
  destruct (isspace c && is_empty (rstrip r)) eqn:Hc; [reflexivity|].
  cbn [rstrip]. rewrite IH, Hc. reflexivity.
Qed.

Lemma strip_idem s : strip (strip s) = strip s.
Proof.
  unfold strip. rewrite lstrip_rstrip, lstrip_idem, rstrip_idem. reflexivity.
Qed.

(** [int] ignores the white space that [strip] removes. *)
Lemma py_int_strip s : py_int (strip s) = py_int s.
Proof. unfold py_int. rewrite strip_idem. reflexivity. Qed.

(** *** Printing and reading back *)

Lemma digit_of_digit_char d : 0 <= d < 10 -> digit_of (digit_char d) = Some d.
Proof.
  intros Hd.
  assert (Hc : In d [0; 1; 2; 3; 4; 5; 6; 7; 8; 9]).
  { cbn [In]. lia. }
  cbn [In] in Hc.
  repeat (destruct Hc as [<- | Hc]; [reflexivity|]). contradiction.
Qed.

Lemma isspace_digit_char d : 0 <= d < 10 -> isspace (digit_char d) = false.
Proof.
  intros Hd.
  assert (Hc : In d [0; 1; 2; 3; 4; 5; 6; 7; 8; 9]).
  { cbn [In]. lia. }
  cbn [In] in Hc.
  repeat (destruct Hc as [<- | Hc]; [reflexivity|]). contradiction.
Qed.

Lemma parse_print_digits fuel : forall n rest,
  0 <= n < 2 ^ Z.of_nat (S fuel) ->
  exists k, 0 <= k /\ forall acc prev,
    parse_digits acc prev (print_digits (S fuel) n rest)
    = parse_digits (acc * 10 ^ k + n) true rest.
Proof.
  assert (Hone : forall n rest acc prev, 0 <= n < 10 ->
    parse_digits acc prev (String (digit_char (n mod 10)) rest)
    = parse_digits (acc * 10 ^ 1 + n) true rest).
  { intros n rest acc prev Hn. cbn [parse_digits].
    rewrite Z.mod_small by lia. rewrite digit_of_digit_char by lia.
    f_equal. lia. }
  induction fuel as [|fuel IH]; intros n rest Hn.
  - exists 1. split; [lia|]. intros acc prev.
    change (2 ^ Z.of_nat 1) with 2 in Hn.
    cbn [print_digits]. destruct (n <? 10); apply Hone; lia.
  - remember (S fuel) as f eqn:Hf. cbn [print_digits].
    destruct (Z.ltb_spec n 10) as [Hlt | Hge].
    + exists 1. split; [lia|]. intros acc prev. apply Hone. lia.
    + destruct (IH (n / 10) (String (digit_char (n mod 10)) rest)) as (k & Hk & IHk).
      { subst f. rewrite Nat2Z.inj_succ, Z.pow_succ_r in Hn by lia.
        split; [apply Z.div_pos; lia|].
        apply Z.div_lt_upper_bound; lia. }
      exists (k + 1). split; [lia|]. intros acc prev.
      rewrite IHk. cbn [parse_digits].
      rewrite digit_of_digit_char by (apply Z.mod_pos_bound; lia).
      f_equal. rewrite Z.pow_add_r by lia.
      pose proof (Z.div_mod n 10). lia.
Qed.

Lemma log2_fuel n : 0 <= n -> n < 2 ^ Z.of_nat (S (Z.to_nat (Z.log2 n))).
Proof.
  intros Hn. rewrite Nat2Z.inj_succ, Z2Nat.id by apply Z.log2_nonneg.
  destruct (Z.eq_dec n 0) as [-> | Hne]; [reflexivity|].
  apply Z.log2_spec. lia.
Qed.

Lemma print_digits_head fuel : forall n rest,
  0 <= n -> exists c r, print_digits (S fuel) n rest = String c r
    /\ isspace c = false /\ c <> "-"%char /\ c <> "+"%char.
Proof.
  assert (Hd : forall d, 0 <= d < 10 -> digit_char d <> "-"%char /\ digit_char d <> "+"%char).
  { intros d Hd.
    assert (Hc : In d [0; 1; 2; 3; 4; 5; 6; 7; 8; 9]) by (cbn [In]; lia).
    cbn [In] in Hc.
    repeat (destruct Hc as [<- | Hc]; [split; discriminate|]). contradiction. }
  induction fuel as [|fuel IH]; intros n rest Hn.
  - cbn [print_digits].
    assert (0 <= n mod 10 < 10) by (apply Z.mod_pos_bound; lia).
    destruct (n <? 10); eexists _, _; (split; [reflexivity|]);
      (split; [apply isspace_digit_char; lia | apply Hd; lia]).
  - remember (S fuel) as f. cbn [print_digits].
    assert (0 <= n mod 10 < 10) by (apply Z.mod_pos_bound; lia).
    destruct (n <? 10).
    + eexists _, _; (split; [reflexivity|]);
        (split; [apply isspace_digit_char; lia | apply Hd; lia]).
    + subst f. apply IH. apply Z.div_pos; lia.
Qed.

Lemma rstrip_print_digits fuel : forall n rest,
  0 <= n -> rstrip rest = rest ->
  rstrip (print_digits fuel n rest) = print_digits fuel n rest.
Proof.
  induction fuel as [|fuel IH]; intros n rest Hn Hrest; [exact Hrest|].
  assert (Hstep : rstrip (String (digit_char (n mod 10)) rest)
                  = String (digit_char (n mod 10)) rest).
  { cbn [rstrip]. rewrite Hrest.
    rewrite isspace_digit_char by (apply Z.mod_pos_bound; lia). reflexivity. }
  cbn [print_digits]. destruct (n <? 10); [exact Hstep|].
  apply IH; [apply Z.div_pos; lia | exact Hstep].
Qed.

(** [int(str(n)) == n] for every integer [n]. *)
Lemma py_int_str_int n : py_int (str_int n) = Some n.
Proof.
  unfold py_int, str_int, strip.
  destruct (Z.ltb_spec n 0) as [Hneg | Hpos].
  - set (fuel := Z.to_nat (Z.log2 (- n))).
    change (lstrip (String "-" ?r)) with (String "-" r).
    assert (Hr : rstrip (String "-" (print_digits (S fuel) (- n) ""))
                 = String "-" (print_digits (S fuel) (- n) "")).
    { cbn [rstrip]. rewrite rstrip_print_digits by (lia || reflexivity).
      reflexivity. }
    rewrite Hr. cbn [int_literal].
    destruct (parse_print_digits fuel (- n) "") as (k & Hk & Hp).
    { split; [lia|]. apply log2_fuel. lia. }
    rewrite Hp. cbn [parse_digits option_map]. f_equal. lia.
  - set (fuel := Z.to_nat (Z.log2 n)).
    destruct (print_digits_head fuel n "" Hpos) as (c & r & Hcr & Hsp & Hm & Hp).
    assert (Hl : lstrip (print_digits (S fuel) n "") = print_digits (S fuel) n "").
    { rewrite Hcr. cbn [lstrip]. rewrite Hsp. reflexivity. }
    rewrite Hl, rstrip_print_digits by (lia || reflexivity).
    assert (Hlit : int_literal (print_digits (S fuel) n "")
                 = parse_digits 0 false (print_digits (S fuel) n "")).
    { rewrite Hcr. unfold int_literal.
      destruct c as [[] [] [] [] [] [] [] []]; try reflexivity; congruence. }
    rewrite Hlit.
    destruct (parse_print_digits fuel n "") as (k & Hk & Hpd).
    { split; [lia|]. apply log2_fuel. lia. }
    rewrite Hpd. cbn [parse_digits]. f_equal; lia.
Qed.

(** A text made of decimal digits only. *)
Fixpoint all_digits (s : string) : bool :=
  match s with
  | EmptyString => true
  | String c r => match digit_of c with Some _ => all_digits r | None => false end
  end.

(** The value of a digit string, most significant digit first. *)
Fixpoint digits_value (acc : Z) (s : string) : Z :=
  match s with
  | EmptyString => acc
  | String c r =>
      match digit_of c with
      | Some d => digits_value (10 * acc + d) r
      | None => acc
      end
  end.

End Text.

(* ===================================================================== *)
(** ** Python values *)
(* ===================================================================== *)

(** What [json.load] builds: [None], [bool], [int] (unbounded), [float],
    [str], [list], and [dict] with its entries in insertion order. *)
Inductive json :=
  | JNull
  | JBool (b : bool)
  | JInt (n : Z)
  | JFloat (f : float)
  | JStr (s : string)
  | JArr (items : list json)
  | JObj (entries : list (string * json)).

(** The exceptions the program can meet. *)
Inductive exn :=
  | FileNotFoundError
  | PermissionError
  | UnicodeDecodeError
  | JSONDecodeError
  | TypeError
  | AttributeError
  | KeyError
  | ValueError.

(** [bool(value)] *)
Definition py_bool (j : json) : bool :=
  match j with
  | JNull => false
  | JBool b => b
  | JInt n => negb (n =? 0)
  | JFloat f => negb (PrimFloat.eqb f PrimFloat.zero)
  | JStr s => negb (Text.is_empty s)
  | JArr items => match items with [] => false | _ => true end
  | JObj entries => match entries with [] => false | _ => true end
  end.

(** The content of a line edit. [Repr j] stands for [str(j)] of a float,
    a list or a dict, whose characters are not spelled out: such a text is
    never blank and is never an integer literal (it holds a [.], an [e],
    [inf], [nan], or starts with a bracket). *)
Inductive content :=
  | Text (s : string)
  | Repr (j : json).

(** [str(value)] *)
Definition py_str (j : json) : content :=
  match j with
  | JNull => Text "None"
  | JBool true => Text "True"
  | JBool false => Text "False"
  | JInt n => Text (Text.str_int n)
  | JStr s => Text s
  | JFloat _ | JArr _ | JObj _ => Repr j
  end.

(** [dict] with [str] keys: the entries in insertion order. A key is
    looked up at its first entry. *)
Module Dict.
Section Dict.
Context {V : Type}.

(** [d.get(k)] *)
Fixpoint get (k : string) (d : list (string * V)) : option V :=
  match d with
  | [] => None
  | (k', v) :: r => if String.eqb k k' then Some v else get k r
  end.

(** [k in d] *)
Definition mem (k : string) (d : list (string * V)) : bool :=
  match get k d with Some _ => true | None => false end.

(** [d[k] = v]: the value is replaced in place, a new key goes last. *)
Fixpoint put (k : string) (v : V) (d : list (string * V)) : list (string * V) :=
  match d with
  | [] => [(k, v)]
  | (k', v') :: r =>
      if String.eqb k k' then (k, v) :: r else (k', v') :: put k v r
  end.

(** [d.setdefault(k, v)] *)
Definition setdefault (k : string) (v : V) (d : list (string * V))
  : list (string * V) :=
  if mem k d then d else put k v d.

Definition keys (d : list (string * V)) : list string := map fst d.
End Dict.
End Dict.

(** A value that is not a [dict]. *)
Inductive atom :=
  | ANull
  | ABool (b : bool)
  | AInt (n : Z)
  | AFloat (f : float)
  | AStr (s : string)
  | AArr (items : list json).

Definition json_of_atom (a : atom) : json :=
  match a with
  | ANull => JNull
  | ABool b => JBool b
  | AInt n => JInt n
  | AFloat f => JFloat f
  | AStr s => JStr s
  | AArr items => JArr items
  end.

Definition classify (j : json) : atom + list (string * json) :=
  match j with
  | JNull => inl ANull
  | JBool b => inl (ABool b)
  | JInt n => inl (AInt n)
  | JFloat f => inl (AFloat f)
  | JStr s => inl (AStr s)
  | JArr items => inl (AArr items)
  | JObj entries => inr entries
  end.

(* ===================================================================== *)
(** ** The state: dictionaries, widgets, the file *)
(* ===================================================================== *)

(** The program only ever touches two levels of dictionaries: the
    document (category -> fields) and the categories (field -> value).
    Both are objects in a store; what lies below a field is a [json]
    value that nothing mutates. *)
Abbreviation ref := nat (only parsing).

(** A value of a top-level dictionary. *)
Inductive value :=
  | Atom (a : atom)
  | Cat (r : ref).      (* a dictionary of fields, in the store [cats] *)

(** What [self.config_data] can be bound to. *)
Inductive top :=
  | TAtom (a : atom)
  | TDict (r : ref).    (* a dictionary of categories, in the store [tops] *)

(** [config.json], as [open] and [json.load] see it. The text format is
    abstracted: a file that holds JSON is the value it parses to. *)
Inductive file_state :=
  | Missing             (* open raises FileNotFoundError *)
  | Unreadable          (* open raises PermissionError *)
  | NotUtf8             (* reading raises UnicodeDecodeError *)
  | NotJson             (* json.load raises JSONDecodeError *)
  | Holds (j : json).

Abbreviation wid := nat (only parsing).

Inductive wclass := QWidget | QLabel | QLineEdit | QCheckBox | QGroupBox.

Record qwidget := {
  cls : wclass;
  text : content;               (* QLineEdit.text() *)
  checked : bool;               (* QCheckBox.isChecked() *)
  enabled : bool;               (* the widget's own enabled flag *)
  parent : option wid;
  validator : option (Z * Z);   (* QIntValidator(bottom, top) *)
  connected : bool              (* stateChanged -> apply_feature_dependencies *)
}.

(** An entry of [self.widgets]: a widget, or the dict of the controls of
    one category. *)
Inductive wentry :=
  | Widget (w : wid)
  | Fields (fs : list (string * wid)).

Inductive msgbox :=
  | Information
  | Critical (e : exn).

Record MainWindow := {
  tops : list (list (string * value));
  cats : list (list (string * json));
  config_data : option top;
  widgets : list (string * wentry);
  roleplay_dependent_widgets : list wid;
  qt : list qwidget;
  config_file : file_state;
  writable : bool;
  shown : list msgbox
}.

Definition with_tops (x : list (list (string * value))) (s : MainWindow) :=
  {| tops := x; cats := cats s; config_data := config_data s;
     widgets := widgets s;
     roleplay_dependent_widgets := roleplay_dependent_widgets s;
     qt := qt s; config_file := config_file s; writable := writable s;
     shown := shown s |}.

Definition with_cats (x : list (list (string * json))) (s : MainWindow) :=
  {| tops := tops s; cats := x; config_data := config_data s;
     widgets := widgets s;
     roleplay_dependent_widgets := roleplay_dependent_widgets s;
     qt := qt s; config_file := config_file s; writable := writable s;
     shown := shown s |}.

Definition with_config_data (x : option top) (s : MainWindow) :=
  {| tops := tops s; cats := cats s; config_data := x;
     widgets := widgets s;
     roleplay_dependent_widgets := roleplay_dependent_widgets s;
     qt := qt s; config_file := config_file s; writable := writable s;
     shown := shown s |}.

Definition with_widgets (x : list (string * wentry)) (s : MainWindow) :=
  {| tops := tops s; cats := cats s; config_data := config_data s;
     widgets := x;
     roleplay_dependent_widgets := roleplay_dependent_widgets s;
     qt := qt s; config_file := config_file s; writable := writable s;
     shown := shown s |}.

Definition with_dependents (x : list wid) (s : MainWindow) :=
  {| tops := tops s; cats := cats s; config_data := config_data s;
     widgets := widgets s;
     roleplay_dependent_widgets := x;
     qt := qt s; config_file := config_file s; writable := writable s;
     shown := shown s |}.

Definition with_qt (x : list qwidget) (s : MainWindow) :=
  {| tops := tops s; cats := cats s; config_data := config_data s;
     widgets := widgets s;
     roleplay_dependent_widgets := roleplay_dependent_widgets s;
     qt := x; config_file := config_file s; writable := writable s;
     shown := shown s |}.

Definition with_config_file (x : file_state) (s : MainWindow) :=
  {| tops := tops s; cats := cats s; config_data := config_data s;
     widgets := widgets s;
     roleplay_dependent_widgets := roleplay_dependent_widgets s;
     qt := qt s; config_file := x; writable := writable s;
     shown := shown s |}.

Definition with_writable (x : bool) (s : MainWindow) :=
  {| tops := tops s; cats := cats s; config_data := config_data s;
     widgets := widgets s;
     roleplay_dependent_widgets := roleplay_dependent_widgets s;
     qt := qt s; config_file := config_file s; writable := x;
     shown := shown s |}.

Definition with_shown (x : list msgbox) (s : MainWindow) :=
  {| tops := tops s; cats := cats s; config_data := config_data s;
     widgets := widgets s;
     roleplay_dependent_widgets := roleplay_dependent_widgets s;
     qt := qt s; config_file := config_file s; writable := writable s;
     shown := x |}.

(* ===================================================================== *)
(** ** Statements that may raise *)
(* ===================================================================== *)

Inductive result (A : Type) :=
  | Ok (a : A)
  | Raise (e : exn).
Arguments Ok {A} a.
Arguments Raise {A} e.

(** A statement runs from a state to a result and the state it leaves:
    an exception keeps every mutation made before it. *)
Definition St (S A : Type) : Type := S -> result A * S.

(** The statements of the program run on the window. *)
Definition M (A : Type) : Type := St MainWindow A.

Definition ret {S A} (a : A) : St S A := fun s => (Ok a, s).

Definition bind {S A B} (m : St S A) (k : A -> St S B) : St S B :=
  fun s => match m s with
           | (Ok a, s') => k a s'
           | (Raise e, s') => (Raise e, s')
           end.

Definition raise {S A} (e : exn) : St S A := fun s => (Raise e, s).

(** [try: m except: h] *)
Definition try_except {S A} (m : St S A) (h : exn -> St S A) : St S A :=
  fun s => match m s with
           | (Ok a, s') => (Ok a, s')
           | (Raise e, s') => h e s'
           end.

Definition gets {S A} (f : S -> A) : St S A := fun s => (Ok (f s), s).
Definition modify {S} (f : S -> S) : St S unit :=
  fun s => (Ok tt, f s).

Declare Scope py_scope.
Delimit Scope py_scope with py.
Notation "'let*' x := m 'in' k" := (bind m (fun x => k))
  (at level 10, x pattern, m at level 100, k at level 200) : py_scope.
Notation "m >> k" := (bind m (fun _ => k))
  (at level 80, right associativity) : py_scope.
Open Scope py_scope.

(** [for x in xs: body x] *)
Fixpoint for_ {S A} (xs : list A) (body : A -> St S unit) : St S unit :=
  match xs with
  | [] => ret tt
  | x :: rest => body x >> for_ rest body
  end.

(* --------------------------------------------------------------------- *)
(** *** Dictionary objects *)
(* --------------------------------------------------------------------- *)

(** A reference always denotes an allocated object (see [wf] below), so
    the stores are read with a total lookup. *)
Definition deref_top (s : MainWindow) (r : ref) : list (string * value) :=
  default [] (tops s !! r).
Definition deref_cat (s : MainWindow) (r : ref) : list (string * json) :=
  default [] (cats s !! r).

(** A new dictionary object: [{}], [dict.copy()], or one built by
    [json.load] or a comprehension. *)
Definition new_cat (d : list (string * json)) : M ref :=
  fun s => (Ok (length (cats s)), with_cats (cats s ++ [d]) s).
Definition new_top (d : list (string * value)) : M ref :=
  fun s => (Ok (length (tops s)), with_tops (tops s ++ [d]) s).

Fixpoint substring (needle hay : string) : bool :=
  String.prefix needle hay
  || match hay with
     | EmptyString => false
     | String _ r => substring needle r
     end.

Definition json_is_str (k : string) (j : json) : bool :=
  match j with JStr s => String.eqb s k | _ => false end.

(** [k in x] *)
Definition py_contains (k : string) (x : top) : M bool :=
  match x with
  | TDict r => gets (fun s => Dict.mem k (deref_top s r))
  | TAtom (AStr s) => ret (substring k s)
  | TAtom (AArr items) => ret (existsb (json_is_str k) items)
  | TAtom _ => raise TypeError
  end.

(** [x[k] = v] on the document *)
Definition top_setitem (x : top) (k : string) (v : value) : M unit :=
  match x with
  | TDict r => modify (fun s => with_tops (<[r := Dict.put k v (deref_top s r)]> (tops s)) s)
  | TAtom _ => raise TypeError
  end.

(** [x[k]] on the document *)
Definition top_getitem (x : top) (k : string) : M value :=
  match x with
  | TDict r =>
      let* d := gets (fun s => deref_top s r) in
      match Dict.get k d with
      | Some v => ret v
      | None => raise KeyError
      end
  | TAtom _ => raise TypeError
  end.

(** [x.items()] on a dictionary of categories *)
Definition top_items (x : top) : M (list (string * value)) :=
  match x with
  | TDict r => gets (fun s => deref_top s r)
  | TAtom _ => raise AttributeError
  end.

(** [v.items()] *)
Definition val_items (v : value) : M (list (string * json)) :=
  match v with
  | Cat r => gets (fun s => deref_cat s r)
  | Atom _ => raise AttributeError
  end.

(** [v.copy()]: a new dictionary with the same entries. A list has a
    [copy] too; the other values have none. *)
Definition val_copy (v : value) : M value :=
  match v with
  | Cat r =>
      let* d := gets (fun s => deref_cat s r) in
      let* r' := new_cat d in
      ret (Cat r')
  | Atom (AArr items) => ret (Atom (AArr items))
  | Atom _ => raise AttributeError
  end.

(** [v.setdefault(k, x)] *)
Definition val_setdefault (v : value) (k : string) (x : json) : M unit :=
  match v with
  | Cat r => modify (fun s => with_cats (<[r := Dict.setdefault k x (deref_cat s r)]> (cats s)) s)
  | Atom _ => raise AttributeError
  end.

(** [v[k] = x] *)
Definition val_setitem (v : value) (k : string) (x : json) : M unit :=
  match v with
  | Cat r => modify (fun s => with_cats (<[r := Dict.put k x (deref_cat s r)]> (cats s)) s)
  | Atom _ => raise TypeError
  end.

(** [v.get(k)]: [None] when the key is missing *)
Definition val_get (v : value) (k : string) : M json :=
  match v with
  | Cat r => gets (fun s => default JNull (Dict.get k (deref_cat s r)))
  | Atom _ => raise AttributeError
  end.

(** [self.config_data], an attribute that exists once it was assigned *)
Definition get_config_data : M top :=
  fun s => match config_data s with
           | Some x => (Ok x, s)
           | None => (Raise AttributeError, s)
           end.

Definition set_config_data (x : top) : M unit :=
  modify (with_config_data (Some x)).

(* --------------------------------------------------------------------- *)
(** *** The document as a value *)
(* --------------------------------------------------------------------- *)

Definition view_value (s : MainWindow) (v : value) : json :=
  match v with
  | Atom a => json_of_atom a
  | Cat r => JObj (deref_cat s r)
  end.

Definition view_entries (s : MainWindow) (d : list (string * value))
  : list (string * json) :=
  map (fun kv => (fst kv, view_value s (snd kv))) d.

(** The JSON value of an object: what [json.dump] writes of it. *)
Definition view_top (s : MainWindow) (x : top) : json :=
  match x with
  | TAtom a => json_of_atom a
  | TDict r => JObj (view_entries s (deref_top s r))
  end.

(** [config[c][k]] in a JSON value *)
Definition json_field (c k : string) (j : json) : option json :=
  match j with
  | JObj entries =>
      match Dict.get c entries with
      | Some (JObj fields) => Dict.get k fields
      | _ => None
      end
  | _ => None
  end.

(** [config[c]] in a JSON value *)
Definition json_category (c : string) (j : json) : option json :=
  match j with
  | JObj entries => Dict.get c entries
  | _ => None
  end.

(** The document the window holds. *)
Definition document (s : MainWindow) : option json :=
  option_map (view_top s) (config_data s).

(* --------------------------------------------------------------------- *)
(** *** [json.load] and [json.dump] on [config.json] *)
(* --------------------------------------------------------------------- *)

Fixpoint load_entries (entries : list (string * json)) : M (list (string * value)) :=
  match entries with
  | [] => ret []
  | (k, j) :: rest =>
      let* v := match classify j with
                | inl a => ret (Atom a)
                | inr fields => let* r := new_cat fields in ret (Cat r)
                end in
      let* vs := load_entries rest in
      ret ((k, v) :: vs)
  end.

(** The Python object of a parsed value: the dictionaries of the first
    two levels are new objects. *)
Definition json_loaded (j : json) : M top :=
  match classify j with
  | inl a => ret (TAtom a)
  | inr entries =>
      let* d := load_entries entries in
      let* r := new_top d in
      ret (TDict r)
  end.

(** [with open(CONFIG_FILENAME, 'r', encoding='utf-8') as f: json.load(f)] *)
Definition read_config_file : M top :=
  let* f := gets config_file in
  match f with
  | Missing => raise FileNotFoundError
  | Unreadable => raise PermissionError
  | NotUtf8 => raise UnicodeDecodeError
  | NotJson => raise JSONDecodeError
  | Holds j => json_loaded j
  end.

(** [with open(CONFIG_FILENAME, 'w', encoding='utf-8') as f:
       json.dump(x, f, indent=4, ensure_ascii=False)] *)
Definition write_config_file (x : top) : M unit :=
  let* w := gets writable in
  if w : bool
  then modify (fun s => with_config_file (Holds (view_top s x)) s)
  else raise PermissionError.

(* --------------------------------------------------------------------- *)
(** *** Qt widgets *)
(* --------------------------------------------------------------------- *)

Definition plain_widget (c : wclass) : qwidget :=
  {| cls := c; text := Text ""; checked := false; enabled := true;
     parent := None; validator := None; connected := false |}.

Definition set_text (t : content) (q : qwidget) : qwidget :=
  {| cls := cls q; text := t; checked := checked q; enabled := enabled q;
     parent := parent q; validator := validator q; connected := connected q |}.
Definition set_checked (b : bool) (q : qwidget) : qwidget :=
  {| cls := cls q; text := text q; checked := b; enabled := enabled q;
     parent := parent q; validator := validator q; connected := connected q |}.
Definition set_enabled (b : bool) (q : qwidget) : qwidget :=
  {| cls := cls q; text := text q; checked := checked q; enabled := b;
     parent := parent q; validator := validator q; connected := connected q |}.
Definition set_parent (p : option wid) (q : qwidget) : qwidget :=
  {| cls := cls q; text := text q; checked := checked q; enabled := enabled q;
     parent := p; validator := validator q; connected := connected q |}.
Definition set_validator (v : option (Z * Z)) (q : qwidget) : qwidget :=
  {| cls := cls q; text := text q; checked := checked q; enabled := enabled q;
     parent := parent q; validator := v; connected := connected q |}.
Definition set_connected (b : bool) (q : qwidget) : qwidget :=
  {| cls := cls q; text := text q; checked := checked q; enabled := enabled q;
     parent := parent q; validator := validator q; connected := b |}.

Definition widget_at (s : MainWindow) (w : wid) : qwidget :=
  default (plain_widget QWidget) (qt s !! w).

(** [QWidget()], [QLabel()], [QLineEdit()], [QCheckBox()], [QGroupBox()] *)
Definition new_widget (c : wclass) : M wid :=
  fun s => (Ok (length (qt s)), with_qt (qt s ++ [plain_widget c]) s).

Definition the_widget (w : wid) : M qwidget := gets (fun s => widget_at s w).

Definition update_widget (w : wid) (f : qwidget -> qwidget) : M unit :=
  modify (fun s => with_qt (alter f w (qt s)) s).

(** [layout.addWidget(child)] for the layout of [owner]: the child becomes
    a child widget of [owner]. *)
Definition addWidget (owner child : wid) : M unit :=
  update_widget child (set_parent (Some owner)).

Definition setEnabled (w : wid) (b : bool) : M unit :=
  update_widget w (set_enabled b).

(** [QLineEdit.setText]: the validator is not consulted. *)
Definition setText (w : wid) (t : content) : M unit :=
  update_widget w (set_text t).

(** [widget.isChecked()] *)
Definition isChecked (w : wid) : M bool :=
  let* q := the_widget w in
  match cls q with
  | QCheckBox | QGroupBox => ret (checked q)
  | _ => raise AttributeError
  end.

(** [self.widgets[k]] *)
Definition widgets_getitem (k : string) : M wentry :=
  let* ws := gets widgets in
  match Dict.get k ws with
  | Some e => ret e
  | None => raise KeyError
  end.

(** [e[k]] for an entry of [self.widgets] *)
Definition entry_getitem (e : wentry) (k : string) : M wid :=
  match e with
  | Fields fs =>
      match Dict.get k fs with
      | Some w => ret w
      | None => raise KeyError
      end
  | Widget _ => raise TypeError
  end.

(** [e.items()] for an entry of [self.widgets]: a widget has no [items]. *)
Definition entry_items (e : wentry) : M (list (string * wid)) :=
  match e with
  | Fields fs => ret fs
  | Widget _ => raise AttributeError
  end.

(** [self.widgets[k] = e] *)
Definition widgets_setitem (k : string) (e : wentry) : M unit :=
  modify (fun s => with_widgets (Dict.put k e (widgets s)) s).

(** [if category not in self.widgets: self.widgets[category] = {}]
    [self.widgets[category][key] = w] *)
Definition register_control (category key : string) (w : wid) : M unit :=
  let* ws := gets widgets in
  (if Dict.mem category ws then ret tt
   else widgets_setitem category (Fields [])) >>
  let* e := widgets_getitem category in
  match e with
  | Fields fs => widgets_setitem category (Fields (Dict.put key w fs))
  | Widget _ => raise TypeError
  end.

(** apply_feature_dependencies, lines 346-352 *)
Definition apply_feature_dependencies : M unit :=
  try_except
    (let* features := widgets_getitem "features" in
     let* cb := entry_getitem features "roleplay_enabled" in
     let* is_enabled := isChecked cb in
     let* deps := gets roleplay_dependent_widgets in
     for_ deps (fun widget => setEnabled widget is_enabled))
    (fun e => match e with KeyError => ret tt | _ => raise e end).

(** [QCheckBox.setChecked]: when the state changes, [stateChanged] runs the
    connected slot; an exception raised in a slot is printed, not passed
    on to the caller. *)
Definition setChecked (w : wid) (b : bool) : M unit :=
  let* q := the_widget w in
  update_widget w (set_checked b) >>
  if connected q && negb (Bool.eqb (checked q) b)
  then try_except apply_feature_dependencies (fun _ => ret tt)
  else ret tt.

(* --------------------------------------------------------------------- *)
(** *** The form: init_ui and its helpers, lines 139-302 *)
(* --------------------------------------------------------------------- *)

(** create_labeled_entry, lines 201-220 *)
Definition create_labeled_entry (category key label_key : string) : M wid :=
  let* widget := new_widget QWidget in
  let* label := new_widget QLabel in
  widgets_setitem ("label_" ++ label_key)%string (Widget label) >>
  let* entry := new_widget QLineEdit in
  update_widget entry (set_validator (Some (0, 999999999))) >>
  register_control category key entry >>
  addWidget widget label >>
  addWidget widget entry >>
  ret widget.

(** create_group_box, lines 222-233; the layout of the box is the box *)
Definition create_group_box (title_key : string) (dependent : bool) : M wid :=
  let* group_box := new_widget QGroupBox in
  widgets_setitem title_key (Widget group_box) >>
  (if dependent
   then modify (fun s => with_dependents (roleplay_dependent_widgets s ++ [group_box]) s)
   else ret tt) >>
  ret group_box.

(** _add_checkbox_to_grid, lines 256-264 *)
Definition _add_checkbox_to_grid (grid : wid) (category key : string) : M wid :=
  let* checkbox := new_widget QCheckBox in
  widgets_setitem ("label_" ++ key)%string (Widget checkbox) >>
  register_control category key checkbox >>
  addWidget grid checkbox >>
  ret checkbox.

Definition append_dependent (w : wid) : M unit :=
  modify (fun s => with_dependents (roleplay_dependent_widgets s ++ [w]) s).

(** create_features_settings, lines 235-254 *)
Definition create_features_settings : M wid :=
  let* grid := create_group_box "features_settings_title" false in
  let* cb_roleplay := _add_checkbox_to_grid grid "features" "roleplay_enabled" in
  update_widget cb_roleplay (set_connected true) >>
  let* cb := _add_checkbox_to_grid grid "features" "speeding_bonus_enabled" in
  append_dependent cb >>
  let* cb := _add_checkbox_to_grid grid "features" "zigzag_bonus_enabled" in
  append_dependent cb >>
  let* cb := _add_checkbox_to_grid grid "features" "police_features_enabled" in
  append_dependent cb >>
  let* _ := _add_checkbox_to_grid grid "features" "money_per_minute_enabled" in
  let* _ := _add_checkbox_to_grid grid "features" "cool_message_enabled" in
  ret grid.

Definition add_entry (grid : wid) (category key : string) : M unit :=
  let* w := create_labeled_entry category key key in
  addWidget grid w.

(** create_general_settings, lines 266-269 *)
Definition create_general_settings : M wid :=
  let* grid := create_group_box "general_settings_title" false in
  add_entry grid "general" "autosave_interval_ms" >>
  ret grid.

(** create_money_settings, lines 271-277 *)
Definition create_money_settings : M wid :=
  let* grid := create_group_box "money_settings_title" false in
  add_entry grid "money" "starting_money" >>
  add_entry grid "money" "money_per_minute_amount" >>
  add_entry grid "money" "money_per_minute_interval_ms" >>
  add_entry grid "money" "cool_message_interval_ms" >>
  ret grid.

(** create_civilian_settings, lines 279-292 *)
Definition create_civilian_settings : M wid :=
  let* grid := create_group_box "civilian_settings_title" true in
  add_entry grid "civilian" "speeding_limit_kmh" >>
  add_entry grid "civilian" "speeding_bonus_per_second" >>
  add_entry grid "civilian" "speeding_bonus_duration_ms" >>
  add_entry grid "civilian" "speeding_cooldown_ms" >>
  add_entry grid "civilian" "min_speed_kmh_for_zigzag" >>
  add_entry grid "civilian" "zigzag_min_turns" >>
  add_entry grid "civilian" "zigzag_final_bonus_amount" >>
  add_entry grid "civilian" "zigzag_prorated_bonus" >>
  add_entry grid "civilian" "zigzag_bonus_duration_ms" >>
  add_entry grid "civilian" "zigzag_cooldown_ms" >>
  add_entry grid "civilian" "wanted_fail_penalty" >>
  ret grid.

(** create_police_settings, lines 294-302 *)
Definition create_police_settings : M wid :=
  let* grid := create_group_box "police_settings_title" true in
  add_entry grid "police" "police_proximity_range_m" >>
  add_entry grid "police" "busted_range_m" >>
  add_entry grid "police" "busted_stop_time_ms" >>
  add_entry grid "police" "busted_speed_limit_kmh" >>
  add_entry grid "police" "bust_bonus_amount" >>
  add_entry grid "police" "police_bonus_per_second" >>
  ret grid.

(** init_ui, lines 139-174: the five group boxes, in this order. Window
    chrome, layouts' geometry and the two buttons hold no document data. *)
Definition init_ui : M unit :=
  let* _ := create_features_settings in
  let* _ := create_general_settings in
  let* _ := create_money_settings in
  let* _ := create_civilian_settings in
  let* _ := create_police_settings in
  ret tt.

(* --------------------------------------------------------------------- *)
(** *** FALLBACK_DEFAULTS, lines 16-36 *)
(* --------------------------------------------------------------------- *)

Definition defaults_features : list (string * json) :=
  [("roleplay_enabled", JBool true); ("money_per_minute_enabled", JBool true);
   ("cool_message_enabled", JBool true); ("speeding_bonus_enabled", JBool true);
   ("zigzag_bonus_enabled", JBool true); ("police_features_enabled", JBool true)].

Definition defaults_general : list (string * json) :=
  [("autosave_interval_ms", JInt 120000)].

Definition defaults_money : list (string * json) :=
  [("money_per_minute_interval_ms", JInt 60000); ("money_per_minute_amount", JInt 10);
   ("starting_money", JInt 3333); ("cool_message_interval_ms", JInt 30000)].

Definition defaults_civilian : list (string * json) :=
  [("speeding_limit_kmh", JInt 100); ("speeding_bonus_duration_ms", JInt 60000);
   ("speeding_cooldown_ms", JInt 200000); ("speeding_bonus_per_second", JInt 1);
   ("zigzag_bonus_duration_ms", JInt 120000); ("zigzag_cooldown_ms", JInt 200000);
   ("zigzag_final_bonus_amount", JInt 50); ("zigzag_prorated_bonus", JInt 5);
   ("min_speed_kmh_for_zigzag", JInt 10); ("zigzag_min_turns", JInt 5);
   ("wanted_fail_penalty", JInt 50)].

Definition defaults_police : list (string * json) :=
  [("police_proximity_range_m", JInt 150); ("busted_range_m", JInt 20);
   ("busted_stop_time_ms", JInt 7000); ("busted_speed_limit_kmh", JInt 5);
   ("police_bonus_per_second", JInt 2); ("bust_bonus_amount", JInt 100)].

(** The table as a value: category -> field -> default. *)
Definition DefaultsTable : list (string * list (string * json)) :=
  [("features", defaults_features); ("general", defaults_general);
   ("money", defaults_money); ("civilian", defaults_civilian);
   ("police", defaults_police)].

Definition DefaultsDocument : json :=
  JObj (map (fun cf => (fst cf, JObj (snd cf))) DefaultsTable).

(** The module-level dictionary object and its five inner dictionaries. *)
Definition FALLBACK_DEFAULTS : ref := 0%nat.

Definition module_tops : list (list (string * value)) :=
  [[("features", Cat 0%nat); ("general", Cat 1%nat); ("money", Cat 2%nat);
    ("civilian", Cat 3%nat); ("police", Cat 4%nat)]].

Definition module_cats : list (list (string * json)) :=
  [defaults_features; defaults_general; defaults_money; defaults_civilian;
   defaults_police].

(** The state when [MainWindow.__init__] starts: the module is imported,
    [self.widgets = {}], [self.roleplay_dependent_widgets = []], and
    [config.json] is whatever the disk holds. *)
Definition fresh_window (f : file_state) (wr : bool) : MainWindow :=
  {| tops := module_tops; cats := module_cats; config_data := None;
     widgets := []; roleplay_dependent_widgets := []; qt := [];
     config_file := f; writable := wr; shown := [] |}.

(* --------------------------------------------------------------------- *)
(** *** load_config, populate_ui, save_config, reset_to_defaults *)
(* --------------------------------------------------------------------- *)

(** The entries of [{k: v.copy() for k, v in items}] *)
Fixpoint copy_items (items acc : list (string * value)) : M (list (string * value)) :=
  match items with
  | [] => ret acc
  | (k, v) :: rest =>
      let* v' := val_copy v in
      copy_items rest (Dict.put k v' acc)
  end.

(** [{k: v.copy() for k, v in FALLBACK_DEFAULTS.items()}], lines 359, 402 *)
Definition copy_of_defaults : M top :=
  let* items := top_items (TDict FALLBACK_DEFAULTS) in
  let* d := copy_items items [] in
  let* r := new_top d in
  ret (TDict r).

(** The body of the inner loop of populate_ui, lines 373-376 *)
Definition populate_field (category : string) (kw : string * wid) : M unit :=
  let '(key, widget) := kw in
  let* cfg := get_config_data in
  let* c := top_getitem cfg category in
  let* value := val_get c key in
  match value with
  | JNull => ret tt
  | _ =>
      let* q := the_widget widget in
      match cls q with
      | QLineEdit => setText widget (py_str value)
      | QCheckBox => setChecked widget (py_bool value)
      | _ => ret tt
      end
  end.

(** The body of the outer loop of populate_ui, lines 371-376 *)
Definition populate_category (ce : string * wentry) : M unit :=
  let '(category, fields) := ce in
  let* cfg := get_config_data in
  let* present := py_contains category cfg in
  if present : bool then
    let* fs := entry_items fields in
    for_ fs (populate_field category)
  else ret tt.

(** populate_ui, lines 369-377 *)
Definition populate_ui : M unit :=
  let* ws := gets widgets in
  for_ ws populate_category >>
  apply_feature_dependencies.

(** The body of the inner loop of load_config, line 365 *)
Definition fill_field (category : string) (kv : string * json) : M unit :=
  let '(key, value) := kv in
  let* cfg := get_config_data in
  let* c := top_getitem cfg category in
  val_setdefault c key value.

(** The body of the outer loop of load_config, lines 362-365 *)
Definition fill_category (cf : string * value) : M unit :=
  let '(category, fields) := cf in
  let* cfg := get_config_data in
  let* present := py_contains category cfg in
  (if present : bool then ret tt
   else let* r := new_cat [] in top_setitem cfg category (Cat r)) >>
  let* fs := val_items fields in
  for_ fs (fill_field category).

(** The defaulting pass of load_config, lines 361-365 *)
Definition fill_defaults : M unit :=
  let* items := top_items (TDict FALLBACK_DEFAULTS) in
  for_ items fill_category.

(** The [try] statement of load_config, lines 355-359 *)
Definition load_config_try : M unit :=
  try_except
    (let* x := read_config_file in set_config_data x)
    (fun e =>
       match e with
       | FileNotFoundError | JSONDecodeError =>
           let* x := copy_of_defaults in set_config_data x
       | _ => raise e
       end).

(** load_config, lines 354-367 *)
Definition load_config : M unit :=
  load_config_try >>
  fill_defaults >>
  populate_ui.

(** [int(text_value) if text_value else 0] for
    [text_value = widget.text().strip()], lines 385-386 *)
Definition entered_int {S} (t : content) : St S Z :=
  match t with
  | Text txt =>
      let text_value := Text.strip txt in
      if Text.is_empty text_value then ret 0
      else match Text.py_int text_value with
           | Some n => ret n
           | None => raise ValueError
           end
  | Repr _ => raise ValueError
  end.

(** The body of the inner loop of save_config, lines 384-388 *)
Definition commit_field (category : string) (kw : string * wid) : M unit :=
  let '(key, widget) := kw in
  let* q := the_widget widget in
  match cls q with
  | QLineEdit =>
      let* n := entered_int (text q) in
      let* cfg := get_config_data in
      let* c := top_getitem cfg category in
      val_setitem c key (JInt n)
  | QCheckBox =>
      let* b := isChecked widget in
      let* cfg := get_config_data in
      let* c := top_getitem cfg category in
      val_setitem c key (JBool b)
  | _ => ret tt
  end.

(** The body of the outer loop of save_config, lines 382-388 *)
Definition commit_category (ce : string * wentry) : M unit :=
  let '(category, fields) := ce in
  let* cfg := get_config_data in
  let* present := py_contains category cfg in
  if present : bool then
    let* fs := entry_items fields in
    for_ fs (commit_field category)
  else ret tt.

(** The commit of the controls into the document, lines 381-388 *)
Definition commit : M unit :=
  let* ws := gets widgets in
  for_ ws commit_category.

Definition message (m : msgbox) : M unit :=
  modify (fun s => with_shown (shown s ++ [m]) s).

(** The write of the document, lines 390-391 *)
Definition write_config : M unit :=
  let* cfg := get_config_data in
  write_config_file cfg.

(** The [try] block of save_config, lines 381-393 *)
Definition save_config_try : M unit :=
  commit >> write_config >> message Information.

(** save_config, lines 379-396: every exception ends in the error box *)
Definition save_config : M unit :=
  try_except save_config_try (fun e => message (Critical e)).

(** reset_to_defaults, lines 398-403; [reply] is the answer to the
    confirmation box ([true] for Yes) *)
Definition reset_to_defaults (reply : bool) : M unit :=
  if reply
  then (let* x := copy_of_defaults in set_config_data x) >> populate_ui
  else ret tt.

(** [MainWindow.__init__], lines 123-137, without the language packs *)
Definition __init__ : M unit :=
  init_ui >> load_config.

(** The window once [init_ui] has run, before [load_config]. *)
Definition built_window (f : file_state) (wr : bool) : MainWindow :=
  snd (init_ui (fresh_window f wr)).

(* --------------------------------------------------------------------- *)
(** *** What happens to a window *)
(* --------------------------------------------------------------------- *)

(** A widget is enabled when it and its ancestors are ([QWidget.isEnabled]). *)
Fixpoint enabled_upto (depth : nat) (s : MainWindow) (w : wid) : bool :=
  let q := widget_at s w in
  enabled q &&
  match depth, parent q with
  | S d, Some p => enabled_upto d s p
  | _, _ => true
  end.

Definition isEnabled (s : MainWindow) (w : wid) : bool :=
  enabled_upto (length (qt s)) s w.

Inductive action :=
  | DoLoad                                  (* load_config *)
  | DoSave                                  (* the save button *)
  | DoReset (reply : bool)                  (* the reset button and the answer *)
  | DoType (w : wid) (txt : string)         (* the user edits a line edit *)
  | DoToggle (w : wid)                      (* the user clicks a check box *)
  | DoDisk (f : file_state) (wr : bool).    (* something else changes the file *)

(** The user reaches enabled controls only. Any text may end up in a line
    edit here: more than the validator lets through. *)
Definition perform (a : action) : M unit :=
  match a with
  | DoLoad => load_config
  | DoSave => save_config
  | DoReset reply => reset_to_defaults reply
  | DoType w txt =>
      fun s =>
        match cls (widget_at s w), isEnabled s w with
        | QLineEdit, true => setText w (Text txt) s
        | _, _ => (Ok tt, s)
        end
  | DoToggle w =>
      fun s =>
        match cls (widget_at s w), isEnabled s w with
        | QCheckBox, true => setChecked w (negb (checked (widget_at s w))) s
        | _, _ => (Ok tt, s)
        end
  | DoDisk f wr => modify (fun s => with_writable wr (with_config_file f s))
  end.

(** The state after a sequence of actions, whatever their outcomes. *)
Definition run (acts : list action) (s : MainWindow) : MainWindow :=
  fold_left (fun s a => snd (perform a s)) acts s.

(** The fields of the document, read through the window. *)
Definition field (s : MainWindow) (c k : string) : option json :=
  match document s with
  | Some j => json_field c k j
  | None => None
  end.

Definition file_field (f : file_state) (c k : string) : option json :=
  match f with
  | Holds j => json_field c k j
  | _ => None
  end.


(* ===================================================================== *)
(** ** Facts about dictionaries *)
(* ===================================================================== *)

Section DictFacts.
Context {V : Type}.
Implicit Types (d : list (string * V)) (k c : string) (v : V).

Lemma get_put_eq k v d : Dict.get k (Dict.put k v d) = Some v.
Proof.
  induction d as [|[k' v'] d IH]; cbn.
  - rewrite String.eqb_refl. reflexivity.
  - destruct (String.eqb k k') eqn:E; cbn; rewrite ?String.eqb_refl, ?E; auto.
Qed.

Lemma get_put_ne k k' v d :
  k <> k' -> Dict.get k' (Dict.put k v d) = Dict.get k' d.
Proof.
  intros Hne. induction d as [|[k0 v0] d IH]; cbn.
  - destruct (String.eqb_spec k' k); congruence.
  - destruct (String.eqb_spec k k0) as [-> | Hk]; cbn.
    + destruct (String.eqb_spec k' k0); congruence.
    + destruct (String.eqb_spec k' k0); auto.
Qed.

Lemma get_put k k' v d :
  Dict.get k' (Dict.put k v d)
  = if String.eqb k k' then Some v else Dict.get k' d.
Proof.
  destruct (String.eqb_spec k k') as [<- | Hne].
  - apply get_put_eq.
  - apply get_put_ne, Hne.
Qed.

Lemma put_absent k v d : Dict.get k d = None -> Dict.put k v d = d ++ [(k, v)].
Proof.
  induction d as [|[k' v'] d IH]; cbn; [reflexivity|].
  destruct (String.eqb k k'); [discriminate|].
  intros H. rewrite IH by assumption. reflexivity.
Qed.

Lemma mem_true k d : Dict.mem k d = true <-> exists v, Dict.get k d = Some v.
Proof.
  unfold Dict.mem. destruct (Dict.get k d); split; eauto; try discriminate.
  intros [? ?]; discriminate.
Qed.

Lemma mem_false k d : Dict.mem k d = false <-> Dict.get k d = None.
Proof. unfold Dict.mem. destruct (Dict.get k d); split; congruence. Qed.

Lemma mem_put k k' v d :
  Dict.mem k' (Dict.put k v d) = String.eqb k k' || Dict.mem k' d.
Proof.
  unfold Dict.mem. rewrite get_put. destruct (String.eqb k k'); reflexivity.
Qed.

Lemma put_same k v d : Dict.get k d = Some v -> Dict.put k v d = d.
Proof.
  induction d as [|[k' v'] d IH]; cbn; [discriminate|].
  destruct (String.eqb_spec k k') as [-> | Hne].
  - intros [= ->]. reflexivity.
  - intros H. rewrite IH by assumption. reflexivity.
Qed.

Lemma put_put k v v' d : Dict.put k v (Dict.put k v' d) = Dict.put k v d.
Proof.
  induction d as [|[k' v0] d IH]; cbn.
  - rewrite String.eqb_refl. reflexivity.
  - destruct (String.eqb k k') eqn:E; cbn; rewrite ?String.eqb_refl, ?E;
      [reflexivity | rewrite IH; reflexivity].
Qed.

Lemma keys_put k v d :
  Dict.keys (Dict.put k v d)
  = if Dict.mem k d then Dict.keys d else Dict.keys d ++ [k].
Proof.
  unfold Dict.keys, Dict.mem. induction d as [|[k' v'] d IH]; cbn; [reflexivity|].
  destruct (String.eqb_spec k k') as [-> | Hne]; cbn; [reflexivity|].
  rewrite IH. destruct (Dict.get k d); reflexivity.
Qed.

Lemma get_In k v d : Dict.get k d = Some v -> In (k, v) d.
Proof.
  induction d as [|[k' v'] d IH]; cbn; [discriminate|].
  destruct (String.eqb_spec k k') as [-> | Hne].
  - intros [= ->]. auto.
  - auto.
Qed.

Lemma get_None_keys k d : Dict.get k d = None <-> ~ In k (Dict.keys d).
Proof.
  unfold Dict.keys. induction d as [|[k' v'] d IH]; cbn; [tauto|].
  destruct (String.eqb_spec k k') as [-> | Hne].
  - split; [discriminate | intros H; exfalso; auto].
  - rewrite IH. split; [intros H [?|?]; congruence | tauto].
Qed.

Lemma In_get k v d : NoDup (Dict.keys d) -> In (k, v) d -> Dict.get k d = Some v.
Proof.
  unfold Dict.keys. induction d as [|[k' v'] d IH]; cbn; [contradiction|].
  intros Hnd [Heq | Hin].
  - injection Heq as -> ->. rewrite String.eqb_refl. reflexivity.
  - apply NoDup_cons in Hnd as [Hk Hnd].
    destruct (String.eqb_spec k k') as [-> | Hne]; [|auto].
    exfalso. apply Hk. apply list_elem_of_In.
    change k' with (fst (k', v)). apply in_map, Hin.
Qed.

Lemma get_app k d d' :
  Dict.get k (d ++ d')
  = match Dict.get k d with Some v => Some v | None => Dict.get k d' end.
Proof.
  induction d as [|[k' v'] d IH]; cbn; [reflexivity|].
  destruct (String.eqb k k'); auto.
Qed.

Lemma get_setdefault k k' v d :
  Dict.get k' (Dict.setdefault k v d)
  = match Dict.get k' d with
    | Some x => Some x
    | None => if String.eqb k k' then Some v else None
    end.
Proof.
  unfold Dict.setdefault, Dict.mem.
  destruct (Dict.get k d) eqn:Hk.
  - destruct (Dict.get k' d) eqn:Hk'; [reflexivity|].
    destruct (String.eqb_spec k k'); congruence.
  - rewrite get_put. destruct (String.eqb_spec k k') as [<- | Hne].
    + rewrite Hk. reflexivity.
    + destruct (Dict.get k' d); reflexivity.
Qed.
End DictFacts.

Lemma get_map_values {V W : Type} (f : V -> W) (k : string) (d : list (string * V)) :
  Dict.get k (map (fun kv => (fst kv, f (snd kv))) d) = option_map f (Dict.get k d).
Proof.
  induction d as [|[k' v'] d IH]; cbn; [reflexivity|].
  destruct (String.eqb k k'); auto.
Qed.

Lemma put_map_values {V W : Type} (f : V -> W) (k : string) (v : V) (d : list (string * V)) :
  map (fun kv => (fst kv, f (snd kv))) (Dict.put k v d)
  = Dict.put k (f v) (map (fun kv => (fst kv, f (snd kv))) d).
Proof.
  induction d as [|[k' v'] d IH]; cbn; [reflexivity|].
  destruct (String.eqb k k'); cbn; [reflexivity | rewrite IH; reflexivity].
Qed.

Lemma keys_map_values {V W : Type} (f : V -> W) (d : list (string * V)) :
  Dict.keys (map (fun kv => (fst kv, f (snd kv))) d) = Dict.keys d.
Proof. unfold Dict.keys. rewrite map_map. reflexivity. Qed.

(* ===================================================================== *)
(** ** The store invariant

    [FALLBACK_DEFAULTS] and its inner dictionaries sit at the bottom of
    the stores and every object made later is appended. The document of
    the window is an object of its own, its categories are objects of
    their own, and no two categories are the same object. *)
(* ===================================================================== *)

Definition refs_of (d : list (string * value)) : list ref :=
  omap (fun kv => match snd kv with Cat r => Some r | Atom _ => None end) d.

Definition own_dict (s : MainWindow) (r : ref) : Prop :=
  (length module_tops <= r < length (tops s))%nat
  /\ NoDup (refs_of (deref_top s r))
  /\ Forall (fun r' => (length module_cats <= r' < length (cats s))%nat)
            (refs_of (deref_top s r)).

Definition own_top (s : MainWindow) (x : top) : Prop :=
  match x with
  | TDict r => own_dict s r
  | TAtom _ => True
  end.

Record wf (s : MainWindow) : Prop := {
  wf_tops : module_tops `prefix_of` tops s;
  wf_cats : module_cats `prefix_of` cats s;
  wf_doc : forall x, config_data s = Some x -> own_top s x
}.

(** The parts of the state that the dictionaries are not. *)
Definition ui (s : MainWindow) :=
  (widgets s, roleplay_dependent_widgets s, qt s).
Definition env (s : MainWindow) :=
  (config_file s, writable s, shown s).

Definition doc_entries (s : MainWindow) (r : ref) : list (string * json) :=
  view_entries s (deref_top s r).

Lemma prefix_insert_ge {A} (l1 l2 : list A) (i : nat) (x : A) :
  l1 `prefix_of` l2 -> (length l1 <= i)%nat -> l1 `prefix_of` <[i := x]> l2.
Proof.
  intros [k ->] Hi. exists (<[(i - length l1)%nat := x]> k).
  apply insert_app_r_alt, Hi.
Qed.

Lemma view_entries_ext s s' d :
  (forall r, In r (refs_of d) -> deref_cat s' r = deref_cat s r) ->
  view_entries s' d = view_entries s d.
Proof.
  unfold view_entries. induction d as [|[k v] d IH]; cbn; intros H; [reflexivity|].
  f_equal.
  - f_equal. destruct v as [a | r]; cbn; [reflexivity|].
    rewrite H; [reflexivity|]. cbn. auto.
  - apply IH. intros r Hr. apply H. cbn. destruct v; cbn; auto.
Qed.

Lemma get_view_entries s d c :
  Dict.get c (view_entries s d) = option_map (view_value s) (Dict.get c d).
Proof. apply get_map_values. Qed.

Lemma mem_view_entries s d c : Dict.mem c (view_entries s d) = Dict.mem c d.
Proof.
  unfold Dict.mem. rewrite get_view_entries. destruct (Dict.get c d); reflexivity.
Qed.

Lemma get_refs_of c r d : Dict.get c d = Some (Cat r) -> In r (refs_of d).
Proof.
  induction d as [|[k v] d IH]; cbn; [discriminate|].
  destruct (String.eqb c k).
  - intros [= ->]. cbn. auto.
  - intros H. destruct v; cbn; auto.
Qed.

Lemma json_of_atom_not_obj a entries : json_of_atom a <> JObj entries.
Proof. destruct a; discriminate. Qed.

(** A category of the view is an object exactly when the entry is a
    dictionary of the store. *)
Lemma get_view_obj s d c fields :
  Dict.get c (view_entries s d) = Some (JObj fields) <->
  exists r, Dict.get c d = Some (Cat r) /\ deref_cat s r = fields.
Proof.
  rewrite get_view_entries. destruct (Dict.get c d) as [[a | r] |]; cbn.
  - split; [intros [= H]; destruct (json_of_atom_not_obj _ _ H)
           | intros (r & [=] & _)].
  - split; [intros [= <-]; eauto | intros (r' & [= <-] & <-); reflexivity].
  - split; [discriminate | intros (r & [=] & _)].
Qed.

Lemma get_view_atom s d c j :
  Dict.get c (view_entries s d) = Some j -> (forall fields, j <> JObj fields) ->
  exists a, Dict.get c d = Some (Atom a).
Proof.
  rewrite get_view_entries. destruct (Dict.get c d) as [[a | r] |]; cbn.
  - eauto.
  - intros [= <-] H. destruct (H _ eq_refl).
  - discriminate.
Qed.

(** Writing a category replaces, in the view, the entry of that category
    and nothing else: no other entry is the same object. *)
Lemma view_entries_update s d c r fields :
  NoDup (refs_of d) -> Dict.get c d = Some (Cat r) ->
  view_entries (with_cats (<[r := fields]> (cats s)) s) d
  = Dict.put c (JObj (deref_cat (with_cats (<[r := fields]> (cats s)) s) r))
             (view_entries s d).
Proof.
  set (s' := with_cats _ s).
  induction d as [|[k v] d IH]; cbn; [discriminate|].
  intros Hnd. destruct (String.eqb_spec c k) as [-> | Hne].
  - intros [= ->]. cbn in Hnd. apply NoDup_cons in Hnd as [Hr _].
    cbn. f_equal. apply view_entries_ext. intros r' Hr'.
    unfold deref_cat, s'; cbn. rewrite list_lookup_insert_ne; [reflexivity|].
    intros ->. apply Hr, list_elem_of_In, Hr'.
  - intros Hget. cbn. f_equal.
    + f_equal. destruct v as [a | r0]; cbn; [reflexivity|].
      cbn in Hnd. apply NoDup_cons in Hnd as [Hr _].
      unfold deref_cat, s'; cbn. rewrite list_lookup_insert_ne; [reflexivity|].
      intros ->. apply Hr, list_elem_of_In. exact (get_refs_of _ _ _ Hget).
    + apply IH; [|assumption].
      destruct v; cbn in Hnd; [assumption|]. apply NoDup_cons in Hnd. tauto.
Qed.

Lemma deref_top_with_cats x s r : deref_top (with_cats x s) r = deref_top s r.
Proof. reflexivity. Qed.

(** [self.config_data[c]] is mutated in place: the effect on the view. *)
Lemma update_cat_view s r c r' fields :
  own_dict s r -> Dict.get c (deref_top s r) = Some (Cat r') ->
  let s' := with_cats (<[r' := fields]> (cats s)) s in
  own_dict s' r
  /\ doc_entries s' r = Dict.put c (JObj fields) (doc_entries s r)
  /\ (module_cats `prefix_of` cats s -> module_cats `prefix_of` cats s').
Proof.
  intros (Hr & Hnd & Hall) Hget s'.
  assert (Hr' : (length module_cats <= r' < length (cats s))%nat).
  { rewrite Forall_forall in Hall. apply Hall, list_elem_of_In.
    exact (get_refs_of _ _ _ Hget). }
  split; [|split].
  - unfold own_dict, s'. rewrite deref_top_with_cats. cbn [tops cats with_cats].
    rewrite length_insert. auto.
  - unfold doc_entries, s'. rewrite deref_top_with_cats.
    rewrite (view_entries_update s _ c r' fields Hnd Hget). f_equal. f_equal.
    unfold deref_cat; cbn. rewrite list_lookup_insert_eq by lia. reflexivity.
  - intros Hp. unfold s'; cbn. apply prefix_insert_ge; [assumption | lia].
Qed.

Lemma refs_of_app d d' : refs_of (d ++ d') = refs_of d ++ refs_of d'.
Proof. unfold refs_of. apply omap_app. Qed.

(** [self.config_data[c] = {}] for a category that is not there yet. *)
Lemma add_cat_view s r c :
  module_tops `prefix_of` tops s -> module_cats `prefix_of` cats s ->
  own_dict s r -> Dict.mem c (deref_top s r) = false ->
  let s' := with_tops (<[r := Dict.put c (Cat (length (cats s))) (deref_top s r)]> (tops s))
              (with_cats (cats s ++ [[]]) s) in
  own_dict s' r
  /\ doc_entries s' r = Dict.put c (JObj []) (doc_entries s r)
  /\ module_tops `prefix_of` tops s'
  /\ module_cats `prefix_of` cats s'.
Proof.
  intros Hpt Hpc (Hr & Hnd & Hall) Hmem s'.
  apply mem_false in Hmem.
  assert (Hd : deref_top s' r = deref_top s r ++ [(c, Cat (length (cats s)))]).
  { unfold deref_top at 1, s'; cbn. rewrite list_lookup_insert_eq by lia.
    cbn. apply put_absent, Hmem. }
  split; [|split; [|split]].
  - assert (Ht : length (tops s') = length (tops s)).
    { unfold s'; cbn. apply length_insert. }
    assert (Hc : length (cats s') = S (length (cats s))).
    { unfold s'; cbn. rewrite length_app. cbn. lia. }
    unfold own_dict. rewrite Hd, refs_of_app, Ht, Hc. cbn [refs_of omap].
    split; [lia|]. split.
    + apply NoDup_app. split; [assumption|]. split; [|apply NoDup_singleton].
      intros x Hx [= ->]%list_elem_of_singleton.
      rewrite Forall_forall in Hall. apply Hall in Hx. lia.
    + apply Forall_app. split; [|constructor; [|constructor]].
      2:{ apply prefix_length in Hpc. lia. }
      eapply Forall_impl; [exact Hall|]. cbn. intros; lia.
  - unfold doc_entries. rewrite Hd. unfold view_entries at 1. rewrite map_app.
    fold (view_entries s' (deref_top s r)). cbn [map fst snd view_value].
    rewrite put_absent.
    2:{ rewrite get_view_entries, Hmem. reflexivity. }
    f_equal.
    + apply view_entries_ext. intros r0 Hr0.
      rewrite Forall_forall in Hall. apply list_elem_of_In, Hall in Hr0.
      unfold deref_cat, s'; cbn. rewrite lookup_app_l by lia. reflexivity.
    + unfold deref_cat, s'; cbn. rewrite list_lookup_middle by reflexivity.
      reflexivity.
  - unfold s'; cbn. apply prefix_insert_ge; [assumption | lia].
  - unfold s'; cbn. apply prefix_app_r, Hpc.
Qed.

(* ===================================================================== *)
(** ** The passes, on the document as a value

    The loops of [load_config] and [save_config], run on the entries of
    the document as [json] values. The loops on the window are shown to
    compute exactly these (the [_sim] lemmas below); the properties of the
    document are then proved on values. *)
(* ===================================================================== *)

(** [doc[c].setdefault(k, v)] *)
Definition fill_field_doc (c : string) (kv : string * json)
  : St (list (string * json)) unit :=
  fun d =>
    match Dict.get c d with
    | Some (JObj cur) =>
        (Ok tt, Dict.put c (JObj (Dict.setdefault (fst kv) (snd kv) cur)) d)
    | Some _ => (Raise AttributeError, d)
    | None => (Raise KeyError, d)
    end.

Definition fill_category_doc (cf : string * list (string * json))
  : St (list (string * json)) unit :=
  fun d =>
    for_ (snd cf) (fill_field_doc (fst cf))
      (if Dict.mem (fst cf) d then d else Dict.put (fst cf) (JObj []) d).

Definition fill_table_doc (table : list (string * list (string * json)))
  : St (list (string * json)) unit :=
  for_ table fill_category_doc.

(** [doc[c][k] = x] *)
Definition store_field_doc (c k : string) (x : json)
  : St (list (string * json)) unit :=
  fun d =>
    match Dict.get c d with
    | Some (JObj cur) => (Ok tt, Dict.put c (JObj (Dict.put k x cur)) d)
    | Some _ => (Raise TypeError, d)
    | None => (Raise KeyError, d)
    end.

(** The controls are read in the widgets [q]. *)
Definition commit_field_doc (q : wid -> qwidget) (c : string) (kw : string * wid)
  : St (list (string * json)) unit :=
  match cls (q (snd kw)) with
  | QLineEdit =>
      let* n := entered_int (text (q (snd kw))) in
      store_field_doc c (fst kw) (JInt n)
  | QCheckBox => store_field_doc c (fst kw) (JBool (checked (q (snd kw))))
  | _ => ret tt
  end.

Definition commit_category_doc (q : wid -> qwidget) (ce : string * wentry)
  : St (list (string * json)) unit :=
  fun d =>
    if Dict.mem (fst ce) d then
      match snd ce with
      | Fields fs => for_ fs (commit_field_doc q (fst ce)) d
      | Widget _ => (Raise AttributeError, d)
      end
    else (Ok tt, d).

Definition commit_doc (q : wid -> qwidget) (ws : list (string * wentry))
  : St (list (string * json)) unit :=
  for_ ws (commit_category_doc q).

(** Two loops that agree step by step agree. *)
Lemma for_sim {S T A B} (R : S -> T -> Prop) (Q : A -> B -> Prop)
    (f : A -> St S unit) (g : B -> St T unit) :
  (forall x y s t, Q x y -> R s t ->
     fst (f x s) = fst (g y t) /\ R (snd (f x s)) (snd (g y t))) ->
  forall xs ys, Forall2 Q xs ys -> forall s t, R s t ->
    fst (for_ xs f s) = fst (for_ ys g t)
    /\ R (snd (for_ xs f s)) (snd (for_ ys g t)).
Proof.
  intros Hstep xs ys HQ. induction HQ as [|x y xs ys Hxy _ IH]; intros s t HR.
  - cbn. auto.
  - cbn [for_]. unfold bind.
    destruct (Hstep x y s t Hxy HR) as [Hres HR'].
    destruct (f x s) as [[[] | e] s1], (g y t) as [[[] | e'] t1];
      cbn in Hres, HR'; try discriminate.
    + apply IH, HR'.
    + cbn. auto.
Qed.

Lemma Forall2_same {A} (xs : list A) : Forall2 eq xs xs.
Proof. induction xs; constructor; auto. Qed.

(** The window [s] holds the document [d] in the dictionary [r]; [s0] is
    where the pass started: a pass on the document leaves the widgets and
    the file alone. *)
Definition holds (s0 : MainWindow) (r : ref) (s : MainWindow)
    (d : list (string * json)) : Prop :=
  wf s /\ config_data s = Some (TDict r) /\ doc_entries s r = d
  /\ ui s = ui s0 /\ env s = env s0.

Lemma holds_update s0 r s d c r' fields :
  holds s0 r s d -> Dict.get c (deref_top s r) = Some (Cat r') ->
  holds s0 r (with_cats (<[r' := fields]> (cats s)) s) (Dict.put c (JObj fields) d).
Proof.
  intros (Hwf & Hcfg & Hd & Hui & Henv) Hget.
  destruct (update_cat_view s r c r' fields (wf_doc s Hwf _ Hcfg) Hget)
    as (Hown & Hview & Hpre).
  split; [|split; [|split; [|split]]]; try assumption.
  - split; cbn.
    + apply Hwf.
    + apply Hpre, Hwf.
    + intros x Hx. rewrite Hcfg in Hx. injection Hx as <-. exact Hown.
  - rewrite Hview, Hd. reflexivity.
Qed.

Lemma get_doc_entries s r c :
  Dict.get c (doc_entries s r) = option_map (view_value s) (Dict.get c (deref_top s r)).
Proof. apply get_view_entries. Qed.

Lemma fill_field_sim s0 r c kv s d :
  holds s0 r s d ->
  fst (fill_field c kv s) = fst (fill_field_doc c kv d)
  /\ holds s0 r (snd (fill_field c kv s)) (snd (fill_field_doc c kv d)).
Proof.
  intros H. pose proof H as (Hwf & Hcfg & Hd & Hui & Henv).
  destruct kv as [k v]. subst d.
  unfold fill_field, fill_field_doc, bind, get_config_data. rewrite Hcfg.
  cbn [top_getitem bind gets fst snd]. unfold bind, gets.
  rewrite get_doc_entries.
  destruct (Dict.get c (deref_top s r)) as [[a | r'] |] eqn:Hget; cbn.
  - destruct a; cbn; auto.
  - split; [reflexivity|]. apply holds_update; assumption.
  - auto.
Qed.

(** An entry of [FALLBACK_DEFAULTS] and the row of the table it denotes. *)
Definition names_defaults (cv : string * value)
    (cf : string * list (string * json)) : Prop :=
  fst cv = fst cf /\ exists i, snd cv = Cat i /\ module_cats !! i = Some (snd cf).

Lemma holds_add_cat s0 r s d c :
  holds s0 r s d -> Dict.mem c (deref_top s r) = false ->
  holds s0 r
    (with_tops (<[r := Dict.put c (Cat (length (cats s))) (deref_top s r)]> (tops s))
       (with_cats (cats s ++ [[]]) s))
    (Dict.put c (JObj []) d).
Proof.
  intros (Hwf & Hcfg & Hd & Hui & Henv) Hmem.
  destruct (add_cat_view s r c (wf_tops s Hwf) (wf_cats s Hwf)
              (wf_doc s Hwf _ Hcfg) Hmem) as (Hown & Hview & Hpt & Hpc).
  split; [|split; [|split; [|split]]]; try assumption.
  - split; [assumption | assumption |].
    intros x Hx. cbn in Hx. rewrite Hcfg in Hx. injection Hx as <-. exact Hown.
  - rewrite Hview, Hd. reflexivity.
Qed.

Lemma fill_category_sim s0 r cv cf s d :
  names_defaults cv cf -> holds s0 r s d ->
  fst (fill_category cv s) = fst (fill_category_doc cf d)
  /\ holds s0 r (snd (fill_category cv s)) (snd (fill_category_doc cf d)).
Proof.
  destruct cv as [c v], cf as [c' fields].
  intros [Hc (i & Hv & Hi)] H. cbn in Hc, Hv, Hi. subst c' v.
  pose proof H as (Hwf & Hcfg & Hd & Hui & Henv).
  assert (Hfields : forall s1, module_cats `prefix_of` cats s1 ->
            val_items (Cat i) s1 = (Ok fields, s1)).
  { intros s1 Hp. cbn. unfold gets, deref_cat.
    rewrite (prefix_lookup_Some _ _ _ _ Hi Hp). reflexivity. }
  assert (Hmid : exists s1,
            fill_category (c, Cat i) s = for_ fields (fill_field c) s1
            /\ holds s0 r s1 (if Dict.mem c d then d else Dict.put c (JObj []) d)).
  { assert (Hm : Dict.mem c d = Dict.mem c (deref_top s r)).
    { rewrite <- Hd. apply mem_view_entries. }
    unfold fill_category, bind, get_config_data, py_contains, gets.
    rewrite Hcfg, Hm.
    destruct (Dict.mem c (deref_top s r)) eqn:Hmem.
    - unfold ret. rewrite Hfields by apply Hwf. eauto.
    - pose proof (holds_add_cat s0 r s d c H Hmem) as H1.
      cbn [new_cat top_setitem modify]. rewrite Hfields by apply H1. eauto. }
  destruct Hmid as (s1 & -> & H1). unfold fill_category_doc. cbn [fst snd].
  apply (for_sim (holds s0 r) eq); [|apply Forall2_same | exact H1].
  intros x y s2 t2 <-. apply fill_field_sim.
Qed.

Lemma defaults_items_table :
  Forall2 names_defaults
    [("features", Cat 0%nat); ("general", Cat 1%nat); ("money", Cat 2%nat);
     ("civilian", Cat 3%nat); ("police", Cat 4%nat)]
    DefaultsTable.
Proof.
  unfold DefaultsTable.
  repeat (constructor; [split; [reflexivity | eexists; split; reflexivity]|]).
  constructor.
Qed.

Lemma top_items_defaults s :
  module_tops `prefix_of` tops s ->
  top_items (TDict FALLBACK_DEFAULTS) s
  = (Ok [("features", Cat 0%nat); ("general", Cat 1%nat); ("money", Cat 2%nat);
         ("civilian", Cat 3%nat); ("police", Cat 4%nat)], s).
Proof.
  intros [t Ht]. cbn. unfold gets, deref_top. rewrite Ht. reflexivity.
Qed.

(** The defaulting pass of [load_config] computes [fill_table_doc]. *)
Lemma fill_defaults_sim s r :
  wf s -> config_data s = Some (TDict r) ->
  fst (fill_defaults s) = fst (fill_table_doc DefaultsTable (doc_entries s r))
  /\ holds s r (snd (fill_defaults s))
       (snd (fill_table_doc DefaultsTable (doc_entries s r))).
Proof.
  intros Hwf Hcfg. unfold fill_defaults, bind.
  rewrite top_items_defaults by apply Hwf.
  apply (for_sim (holds s r) names_defaults).
  - intros x y s1 t1. apply fill_category_sim.
  - apply defaults_items_table.
  - repeat split; auto; apply Hwf.
Qed.

(* ===================================================================== *)
(** ** New objects: [json.load] and the copy of the defaults *)
(* ===================================================================== *)

Lemma classify_inl j a : classify j = inl a -> json_of_atom a = j.
Proof. destruct j; cbn; intros [= <-]; reflexivity. Qed.

Lemma classify_inr j fields : classify j = inr fields -> j = JObj fields.
Proof. destruct j; cbn; intros [= <-]; reflexivity. Qed.

Lemma deref_cat_prefix s s' r :
  cats s `prefix_of` cats s' -> (r < length (cats s))%nat ->
  deref_cat s' r = deref_cat s r.
Proof.
  intros Hp Hr. unfold deref_cat. rewrite (prefix_lookup_lt _ _ _ Hr Hp).
  reflexivity.
Qed.

(** What a statement that only allocates leaves in place. *)
Definition extends (s s' : MainWindow) : Prop :=
  tops s `prefix_of` tops s' /\ cats s `prefix_of` cats s'
  /\ config_data s' = config_data s /\ ui s' = ui s /\ env s' = env s.

Lemma extends_refl s : extends s s.
Proof. repeat split; reflexivity. Qed.

Lemma extends_trans s1 s2 s3 : extends s1 s2 -> extends s2 s3 -> extends s1 s3.
Proof.
  intros (? & ? & ? & ? & ?) (? & ? & ? & ? & ?).
  repeat split; try congruence; etransitivity; eassumption.
Qed.

Lemma extends_new_cat s d : extends s (with_cats (cats s ++ [d]) s).
Proof. repeat split; cbn; try reflexivity. apply prefix_app_r. reflexivity. Qed.

Lemma extends_new_top s d : extends s (with_tops (tops s ++ [d]) s).
Proof. repeat split; cbn; try reflexivity. apply prefix_app_r. reflexivity. Qed.

Lemma view_entries_extends s s' d :
  cats s `prefix_of` cats s' ->
  Forall (fun r => (r < length (cats s))%nat) (refs_of d) ->
  view_entries s' d = view_entries s d.
Proof.
  intros Hp Hall. apply view_entries_ext. intros r Hr.
  apply deref_cat_prefix; [assumption|].
  rewrite Forall_forall in Hall. apply Hall, list_elem_of_In, Hr.
Qed.

(** The dictionaries [json.load] builds are new, distinct, and hold what
    was parsed. *)
Lemma load_entries_spec entries : forall s,
  exists s' d,
    load_entries entries s = (Ok d, s')
    /\ extends s s' /\ tops s' = tops s
    /\ view_entries s' d = entries
    /\ NoDup (refs_of d)
    /\ Forall (fun r => (length (cats s) <= r < length (cats s'))%nat) (refs_of d).
Proof.
  induction entries as [|[k j] rest IH]; intros s.
  - exists s, []. cbn. repeat split; auto using extends_refl; constructor.
  - cbn [load_entries]. unfold bind at 1.
    destruct (classify j) as [a | fields] eqn:Hj.
    + cbn [ret]. destruct (IH s) as (s' & d & Hrun & Hext & Ht & Hv & Hnd & Hall).
      exists s', ((k, Atom a) :: d). unfold bind. rewrite Hrun. cbn.
      repeat split; try assumption; try apply Hext.
      rewrite (classify_inl _ _ Hj). f_equal. exact Hv.
    + apply classify_inr in Hj. subst j.
      unfold bind at 1. cbn [new_cat ret].
      set (s1 := with_cats (cats s ++ [fields]) s).
      destruct (IH s1) as (s' & d & Hrun & Hext & Ht & Hv & Hnd & Hall).
      exists s', ((k, Cat (length (cats s))) :: d). unfold bind. rewrite Hrun.
      assert (Hlen : length (cats s1) = S (length (cats s))).
      { unfold s1; cbn. rewrite length_app. cbn. lia. }
      assert (Hp : cats s1 `prefix_of` cats s') by apply Hext.
      assert (Hlen' : (length (cats s1) <= length (cats s'))%nat)
        by (apply prefix_length, Hp).
      split; [reflexivity|]. split; [|split; [|split; [|split]]].
      * eapply extends_trans; [apply extends_new_cat | exact Hext].
      * rewrite Ht. reflexivity.
      * cbn. f_equal; [|exact Hv]. f_equal. f_equal.
        rewrite (deref_cat_prefix s1 s') by (assumption || lia).
        unfold deref_cat, s1; cbn.
        rewrite list_lookup_middle by reflexivity. reflexivity.
      * cbn. apply NoDup_cons. split; [|assumption].
        intros Hin. rewrite Forall_forall in Hall. apply Hall in Hin. lia.
      * cbn. constructor; [lia|].
        eapply Forall_impl; [exact Hall|]. cbv beta. intros; lia.
Qed.

Lemma deref_top_new s d :
  deref_top (with_tops (tops s ++ [d]) s) (length (tops s)) = d.
Proof.
  unfold deref_top; cbn. rewrite list_lookup_middle by reflexivity. reflexivity.
Qed.

Lemma json_loaded_spec j s :
  module_tops `prefix_of` tops s -> module_cats `prefix_of` cats s ->
  exists s' x,
    json_loaded j s = (Ok x, s')
    /\ extends s s' /\ view_top s' x = j /\ own_top s' x.
Proof.
  intros Hpt Hpc. unfold json_loaded.
  destruct (classify j) as [a | entries] eqn:Hj.
  - exists s, (TAtom a). cbn. repeat split; try reflexivity.
    apply classify_inl, Hj.
  - apply classify_inr in Hj. subst j.
    destruct (load_entries_spec entries s) as (s1 & d & Hrun & Hext & Ht & Hv & Hnd & Hall).
    exists (with_tops (tops s1 ++ [d]) s1), (TDict (length (tops s1))).
    unfold bind. rewrite Hrun. cbn [new_top ret].
    split; [reflexivity|]. split; [|split].
    + eapply extends_trans; [exact Hext | apply extends_new_top].
    + cbn [view_top]. rewrite deref_top_new. f_equal. exact Hv.
    + cbn [own_top]. unfold own_dict. rewrite deref_top_new.
      cbn [tops cats with_tops]. rewrite length_app. cbn [length].
      apply prefix_length in Hpt, Hpc. rewrite Ht.
      split; [lia|]. split; [assumption|].
      eapply Forall_impl; [exact Hall|]. cbv beta. intros; lia.
Qed.

(** The rows copied so far, as a document. *)
Definition copied_doc (table : list (string * list (string * json)))
    (acc : list (string * json)) : list (string * json) :=
  fold_left (fun a cf => Dict.put (fst cf) (JObj (snd cf)) a) table acc.

Lemma refs_of_put_fresh c r d :
  NoDup (refs_of d) -> ~ In r (refs_of d) ->
  NoDup (refs_of (Dict.put c (Cat r) d))
  /\ forall x, In x (refs_of (Dict.put c (Cat r) d)) -> x = r \/ In x (refs_of d).
Proof.
  induction d as [|[k v] d IH]; cbn; intros Hnd Hr.
  - split; [apply NoDup_singleton | intros x [->|[]]; auto].
  - destruct (String.eqb c k); cbn.
    + destruct v as [a | r0]; cbn in *.
      * split; [apply NoDup_cons; split; [rewrite list_elem_of_In|]; assumption
               | intros x [->|?]; auto].
      * apply NoDup_cons in Hnd as [Hr0 Hnd].
        split; [apply NoDup_cons; split; [rewrite list_elem_of_In; tauto | assumption]
               | intros x [->|?]; auto].
    + destruct v as [a | r0]; cbn in *.
      * apply IH; assumption.
      * apply NoDup_cons in Hnd as [Hr0 Hnd].
        destruct IH as [IH1 IH2]; [assumption | tauto |].
        split.
        -- apply NoDup_cons. split; [|assumption].
           rewrite list_elem_of_In. intros Hin. apply IH2 in Hin as [-> | Hin].
           ++ tauto.
           ++ apply Hr0, list_elem_of_In, Hin.
        -- intros x [-> | Hin]; [auto|]. apply IH2 in Hin. tauto.
Qed.

Lemma copy_items_spec items table :
  Forall2 names_defaults items table ->
  forall acc s,
    module_cats `prefix_of` cats s ->
    NoDup (refs_of acc) ->
    Forall (fun r => (length module_cats <= r < length (cats s))%nat) (refs_of acc) ->
    exists s' d,
      copy_items items acc s = (Ok d, s')
      /\ extends s s' /\ tops s' = tops s
      /\ NoDup (refs_of d)
      /\ Forall (fun r => (length module_cats <= r < length (cats s'))%nat) (refs_of d)
      /\ view_entries s' d = copied_doc table (view_entries s acc).
Proof.
  induction 1 as [|[c v] [c' fields] items table [Hc (i & Hv & Hi)] _ IH];
    intros acc s Hpc Hnd Hall.
  - exists s, acc. cbn. repeat split; auto using extends_refl.
  - cbn in Hc, Hv, Hi. subst c' v.
    cbn [copy_items]. unfold bind at 1. cbn [val_copy].
    unfold bind at 1, gets. unfold bind at 1. cbn [new_cat ret].
    assert (Hd : deref_cat s i = fields).
    { unfold deref_cat. rewrite (prefix_lookup_Some _ _ _ _ Hi Hpc). reflexivity. }
    rewrite Hd.
    set (s1 := with_cats (cats s ++ [fields]) s).
    set (r := length (cats s)).
    assert (Hlen : length (cats s1) = S r).
    { unfold s1; cbn. rewrite length_app. cbn. lia. }
    assert (Hfresh : ~ In r (refs_of acc)).
    { intros Hin. rewrite Forall_forall in Hall.
      apply list_elem_of_In, Hall in Hin. unfold r in Hin. lia. }
    destruct (refs_of_put_fresh c r acc Hnd Hfresh) as [Hnd1 Hin1].
    destruct (IH (Dict.put c (Cat r) acc) s1) as (s' & d & Hrun & Hext & Ht & Hnd' & Hall' & Hv).
    { unfold s1; cbn. apply prefix_app_r, Hpc. }
    { exact Hnd1. }
    { rewrite Forall_forall. intros x Hx%list_elem_of_In.
      apply Hin1 in Hx as [-> | Hx].
      - apply prefix_length in Hpc. unfold r. lia.
      - rewrite Forall_forall in Hall. apply list_elem_of_In, Hall in Hx. lia. }
    exists s', d. split; [exact Hrun|]. split; [|split; [|split; [|split]]];
      try assumption.
    + eapply extends_trans; [apply extends_new_cat | exact Hext].
    + rewrite Hv. cbn [copied_doc fold_left fst snd]. f_equal.
      unfold view_entries at 1. rewrite put_map_values.
      fold (view_entries s1 acc). cbn [view_value]. f_equal.
      * f_equal. unfold deref_cat, s1, r; cbn.
        rewrite list_lookup_middle by reflexivity. reflexivity.
      * apply view_entries_extends; [apply extends_new_cat|].
        eapply Forall_impl; [exact Hall|]. cbv beta. intros; lia.
Qed.

(** [{k: v.copy() for k, v in FALLBACK_DEFAULTS.items()}] is a new
    document equal to the table, made of new dictionaries. *)
Lemma copy_of_defaults_spec s :
  module_tops `prefix_of` tops s -> module_cats `prefix_of` cats s ->
  exists s' r,
    copy_of_defaults s = (Ok (TDict r), s')
    /\ extends s s' /\ view_top s' (TDict r) = DefaultsDocument /\ own_dict s' r.
Proof.
  intros Hpt Hpc. unfold copy_of_defaults, bind.
  rewrite top_items_defaults by assumption.
  destruct (copy_items_spec _ _ defaults_items_table [] s Hpc)
    as (s1 & d & Hrun & Hext & Ht & Hnd & Hall & Hv).
  { constructor. }
  { constructor. }
  rewrite Hrun. cbn [new_top ret].
  exists (with_tops (tops s1 ++ [d]) s1), (length (tops s1)).
  split; [reflexivity|]. split; [|split].
  - eapply extends_trans; [exact Hext | apply extends_new_top].
  - cbn [view_top]. rewrite deref_top_new. unfold DefaultsDocument. f_equal.
    exact Hv.
  - unfold own_dict. rewrite deref_top_new. cbn [tops cats with_tops].
    rewrite length_app. cbn [length]. apply prefix_length in Hpt. rewrite Ht.
    split; [lia|]. split; assumption.
Qed.

(* ===================================================================== *)
(** ** What a statement leaves in place *)
(* ===================================================================== *)

(** [m] takes every state to one related to it by [R], however it ends. *)
Definition preserves {S A} (R : S -> S -> Prop) (m : St S A) : Prop :=
  forall s, R s (snd (m s)).

Section Preserves.
Context {S : Type} (R : S -> S -> Prop) {HR : PreOrder R}.

Lemma preserves_ret {A} (a : A) : preserves R (ret a).
Proof. intros s. cbn. reflexivity. Qed.

Lemma preserves_raise {A} e : preserves R (@raise S A e).
Proof. intros s. cbn. reflexivity. Qed.

Lemma preserves_gets {A} (f : S -> A) : preserves R (gets f).
Proof. intros s. cbn. reflexivity. Qed.

Lemma preserves_modify (f : S -> S) :
  (forall s, R s (f s)) -> preserves R (modify f).
Proof. intros H s. cbn. apply H. Qed.

Lemma preserves_bind {A B} (m : St S A) (k : A -> St S B) :
  preserves R m -> (forall a, preserves R (k a)) -> preserves R (bind m k).
Proof.
  intros Hm Hk s. unfold bind. specialize (Hm s).
  destruct (m s) as [[a | e] s1]; cbn in *; [|assumption].
  etransitivity; [exact Hm | apply Hk].
Qed.

Lemma preserves_try_except {A} (m : St S A) (h : exn -> St S A) :
  preserves R m -> (forall e, preserves R (h e)) -> preserves R (try_except m h).
Proof.
  intros Hm Hh s. unfold try_except. specialize (Hm s).
  destruct (m s) as [[a | e] s1]; cbn in *; [assumption|].
  etransitivity; [exact Hm | apply Hh].
Qed.

Lemma preserves_for {A} (xs : list A) (f : A -> St S unit) :
  (forall x, preserves R (f x)) -> preserves R (for_ xs f).
Proof.
  intros Hf. induction xs as [|x xs IH]; cbn [for_].
  - apply preserves_ret.
  - apply preserves_bind; auto.
Qed.

Lemma preserves_entered_int t : preserves R (@entered_int S t).
Proof.
  intros s. unfold entered_int.
  destruct t as [txt | j]; [|reflexivity].
  destruct (Text.is_empty (Text.strip txt)); [reflexivity|].
  destruct (Text.py_int (Text.strip txt)); reflexivity.
Qed.
End Preserves.

Create HintDb preserves.

(** One step of a proof that a statement preserves a relation: follow
    the structure of the statement, close the leaves with the lemmas of
    the hint database. *)
Ltac preserve_step :=
  match goal with
  | |- PreOrder _ => typeclasses eauto
  | |- forall _, _ => intro
  | |- preserves _ (bind _ _) => apply preserves_bind
  | |- preserves _ (ret _) => apply preserves_ret
  | |- preserves _ (raise _) => apply preserves_raise
  | |- preserves _ (gets _) => apply preserves_gets
  | |- preserves _ (try_except _ _) => apply preserves_try_except
  | |- preserves _ (for_ _ _) => apply preserves_for
  | |- preserves _ (entered_int _) => apply preserves_entered_int
  | |- preserves _ (match ?x with _ => _ end) => destruct x
  | |- preserves _ _ => solve [eauto with preserves typeclass_instances]
  end.

Ltac preserve := repeat preserve_step.

(** The shape of a widget: what [init_ui] fixes once and for all. *)
Definition shape (q : qwidget) := (cls q, parent q, validator q, connected q).

(** Only texts, check marks and enabled flags may differ. *)
Definition repaints (s s' : MainWindow) : Prop :=
  tops s' = tops s /\ cats s' = cats s /\ config_data s' = config_data s
  /\ widgets s' = widgets s
  /\ roleplay_dependent_widgets s' = roleplay_dependent_widgets s
  /\ env s' = env s
  /\ map shape (qt s') = map shape (qt s).

#[local] Instance repaints_preorder : PreOrder repaints.
Proof.
  split.
  - intros s. repeat split; reflexivity.
  - intros s1 s2 s3 (? & ? & ? & ? & ? & ? & ?) (? & ? & ? & ? & ? & ? & ?).
    repeat split; congruence.
Qed.

Lemma map_shape_alter f w (l : list qwidget) :
  (forall q, shape (f q) = shape q) -> map shape (alter f w l) = map shape l.
Proof.
  intros Hf. revert w. induction l as [|q l IH]; intros [|w]; cbn;
    rewrite ?Hf, ?IH; reflexivity.
Qed.

Lemma preserves_update_widget w f :
  (forall q, shape (f q) = shape q) -> preserves repaints (update_widget w f).
Proof.
  intros Hf. apply preserves_modify. intros s.
  repeat split; try reflexivity. cbn. apply map_shape_alter, Hf.
Qed.

Lemma preserves_setEnabled w b : preserves repaints (setEnabled w b).
Proof. apply preserves_update_widget. reflexivity. Qed.

Lemma preserves_setText w t : preserves repaints (setText w t).
Proof. apply preserves_update_widget. reflexivity. Qed.

Section Readers.
Context (R : MainWindow -> MainWindow -> Prop) {HR : PreOrder R}.

Lemma preserves_the_widget w : preserves R (the_widget w).
Proof. unfold the_widget. preserve. Qed.

Lemma preserves_isChecked w : preserves R (isChecked w).
Proof. unfold isChecked, the_widget. preserve. Qed.

Lemma preserves_widgets_getitem k : preserves R (widgets_getitem k).
Proof. unfold widgets_getitem. preserve. Qed.

Lemma preserves_entry_getitem e k : preserves R (entry_getitem e k).
Proof. unfold entry_getitem. preserve. Qed.

Lemma preserves_entry_items e : preserves R (entry_items e).
Proof. unfold entry_items. preserve. Qed.

Lemma preserves_get_config_data : preserves R get_config_data.
Proof. intros s. unfold get_config_data. destruct (config_data s); reflexivity. Qed.

Lemma preserves_py_contains k x : preserves R (py_contains k x).
Proof. unfold py_contains. preserve. Qed.

Lemma preserves_top_getitem x k : preserves R (top_getitem x k).
Proof. unfold top_getitem. preserve. Qed.

Lemma preserves_top_items x : preserves R (top_items x).
Proof. unfold top_items. preserve. Qed.

Lemma preserves_val_get v k : preserves R (val_get v k).
Proof. unfold val_get. preserve. Qed.

Lemma preserves_val_items v : preserves R (val_items v).
Proof. unfold val_items. preserve. Qed.
End Readers.

#[export] Hint Resolve preserves_setEnabled preserves_setText
  preserves_the_widget preserves_isChecked preserves_widgets_getitem
  preserves_entry_getitem preserves_entry_items preserves_get_config_data
  preserves_py_contains preserves_top_getitem preserves_top_items
  preserves_val_get preserves_val_items : preserves.

(** The dependency rule touches enabled flags only. *)
Lemma preserves_apply_feature_dependencies :
  preserves repaints apply_feature_dependencies.
Proof. unfold apply_feature_dependencies. preserve. Qed.

#[export] Hint Resolve preserves_apply_feature_dependencies : preserves.

Lemma preserves_setChecked w b : preserves repaints (setChecked w b).
Proof.
  unfold setChecked. preserve. apply preserves_update_widget. reflexivity.
Qed.

#[export] Hint Resolve preserves_setChecked : preserves.

Lemma preserves_populate_field c kw : preserves repaints (populate_field c kw).
Proof. unfold populate_field. preserve. Qed.

#[export] Hint Resolve preserves_populate_field : preserves.

Lemma preserves_populate_category ce : preserves repaints (populate_category ce).
Proof. unfold populate_category. preserve. Qed.

#[export] Hint Resolve preserves_populate_category : preserves.

(** [populate_ui] writes texts, check marks and enabled flags, and
    nothing else: the document and the file are not touched. *)
Lemma preserves_populate_ui : preserves repaints populate_ui.
Proof. unfold populate_ui. preserve. Qed.

(* ===================================================================== *)
(** ** The commit computes [commit_doc] *)
(* ===================================================================== *)

(** The integer a line edit stands for, [None] for [ValueError]. *)
Definition entered (t : content) : option Z :=
  match t with
  | Text txt =>
      if Text.is_empty (Text.strip txt) then Some 0
      else Text.py_int (Text.strip txt)
  | Repr _ => None
  end.

Lemma entered_int_eq {S} (t : content) (s : S) :
  entered_int t s
  = (match entered t with Some n => Ok n | None => Raise ValueError end, s).
Proof.
  unfold entered_int, entered. destruct t as [txt | j]; [|reflexivity].
  destruct (Text.is_empty (Text.strip txt)); [reflexivity|].
  destruct (Text.py_int (Text.strip txt)); reflexivity.
Qed.

Lemma store_field_sim s0 r c k x s d :
  holds s0 r s d ->
  let m := (let* cfg := get_config_data in
            let* c0 := top_getitem cfg c in
            val_setitem c0 k x) in
  fst (m s) = fst (store_field_doc c k x d)
  /\ holds s0 r (snd (m s)) (snd (store_field_doc c k x d)).
Proof.
  intros H. pose proof H as (Hwf & Hcfg & Hd & Hui & Henv). subst d.
  cbv zeta. unfold store_field_doc, bind, get_config_data. rewrite Hcfg.
  cbn [top_getitem bind gets fst snd]. unfold bind, gets.
  rewrite get_doc_entries.
  destruct (Dict.get c (deref_top s r)) as [[a | r'] |] eqn:Hget; cbn.
  - destruct a; cbn; auto.
  - split; [reflexivity|]. apply holds_update; assumption.
  - auto.
Qed.

Lemma holds_widget_at s0 r s d w : holds s0 r s d -> widget_at s w = widget_at s0 w.
Proof.
  intros (_ & _ & _ & Hui & _). unfold widget_at.
  injection Hui as _ _ ->. reflexivity.
Qed.

Lemma bind_ok {S A B} (m : St S A) (k : A -> St S B) s a s' :
  m s = (Ok a, s') -> bind m k s = k a s'.
Proof. intros H. unfold bind. rewrite H. reflexivity. Qed.

Lemma bind_raise {S A B} (m : St S A) (k : A -> St S B) s e s' :
  m s = (Raise e, s') -> bind m k s = (Raise e, s').
Proof. intros H. unfold bind. rewrite H. reflexivity. Qed.

Lemma bind_gets {S A B} (f : S -> A) (k : A -> St S B) s :
  bind (gets f) k s = k (f s) s.
Proof. reflexivity. Qed.

Lemma bind_ret {S A B} (a : A) (k : A -> St S B) s : bind (ret a) k s = k a s.
Proof. reflexivity. Qed.

Lemma bind_raise_now {S A B} e (k : A -> St S B) s :
  bind (raise e) k s = (Raise e, s).
Proof. reflexivity. Qed.

Lemma isChecked_checkbox s w :
  cls (widget_at s w) = QCheckBox ->
  isChecked w s = (Ok (checked (widget_at s w)), s).
Proof.
  intros H. unfold isChecked, the_widget. rewrite bind_gets, H. reflexivity.
Qed.

Lemma commit_field_sim s0 r c kw s d :
  holds s0 r s d ->
  fst (commit_field c kw s) = fst (commit_field_doc (widget_at s0) c kw d)
  /\ holds s0 r (snd (commit_field c kw s))
       (snd (commit_field_doc (widget_at s0) c kw d)).
Proof.
  intros H. destruct kw as [k w].
  pose proof (holds_widget_at _ _ _ _ w H) as Hw.
  unfold commit_field, commit_field_doc, the_widget. cbn [fst snd].
  rewrite bind_gets, Hw.
  destruct (cls (widget_at s0 w)) eqn:Hcls; cbn [ret fst snd]; auto.
  - destruct (entered (text (widget_at s0 w))) as [n|] eqn:Hn.
    + rewrite (bind_ok _ _ s n s), (bind_ok _ _ d n d)
        by (rewrite entered_int_eq, Hn; reflexivity).
      apply (store_field_sim s0 r c k (JInt n) s d H).
    + rewrite (bind_raise _ _ s ValueError s), (bind_raise _ _ d ValueError d)
        by (rewrite entered_int_eq, Hn; reflexivity).
      auto.
  - rewrite (bind_ok _ _ s (checked (widget_at s0 w)) s).
    2:{ rewrite isChecked_checkbox, Hw by (rewrite Hw; exact Hcls). reflexivity. }
    apply (store_field_sim s0 r c k (JBool _) s d H).
Qed.

Lemma commit_category_sim s0 r ce s d :
  holds s0 r s d ->
  fst (commit_category ce s) = fst (commit_category_doc (widget_at s0) ce d)
  /\ holds s0 r (snd (commit_category ce s))
       (snd (commit_category_doc (widget_at s0) ce d)).
Proof.
  intros H. pose proof H as (Hwf & Hcfg & Hd & Hui & Henv).
  destruct ce as [c e]. unfold commit_category, commit_category_doc. cbn [fst snd].
  rewrite (bind_ok _ _ s (TDict r) s) by (unfold get_config_data; rewrite Hcfg; reflexivity).
  rewrite (bind_ok _ _ s (Dict.mem c d) s).
  2:{ cbn. unfold gets. rewrite <- Hd. unfold doc_entries.
      rewrite mem_view_entries. reflexivity. }
  destruct (Dict.mem c d); [|cbn; auto].
  destruct e as [w | fs].
  - cbn [entry_items]. rewrite bind_raise_now. cbn. auto.
  - cbn [entry_items]. rewrite bind_ret.
    apply (for_sim (holds s0 r) eq); [|apply Forall2_same | exact H].
    intros x y s1 t1 <-. apply commit_field_sim.
Qed.

(** The commit of [save_config] computes [commit_doc]. *)
Lemma commit_sim s r :
  wf s -> config_data s = Some (TDict r) ->
  fst (commit s) = fst (commit_doc (widget_at s) (widgets s) (doc_entries s r))
  /\ holds s r (snd (commit s))
       (snd (commit_doc (widget_at s) (widgets s) (doc_entries s r))).
Proof.
  intros Hwf Hcfg. unfold commit, commit_doc. rewrite bind_gets.
  apply (for_sim (holds s r) eq); [|apply Forall2_same|].
  - intros x y s1 t1 <-. apply commit_category_sim.
  - repeat split; auto; apply Hwf.
Qed.

(** Without a dictionary in [self.config_data] the commit changes nothing. *)
Definition no_document (s : MainWindow) : Prop :=
  forall r, config_data s <> Some (TDict r).

Lemma commit_field_no_document c kw s :
  no_document s -> snd (commit_field c kw s) = s.
Proof.
  intros Hno. destruct kw as [k w]. unfold commit_field, the_widget.
  rewrite bind_gets.
  assert (Hstore : forall x,
    snd ((let* cfg := get_config_data in
          let* c0 := top_getitem cfg c in val_setitem c0 k x) s) = s).
  { intros x. unfold bind, get_config_data.
    destruct (config_data s) as [[a | r] |] eqn:E; try reflexivity.
    destruct (Hno r E). }
  destruct (cls (widget_at s w)) eqn:Hcls; try reflexivity.
  - destruct (entered (text (widget_at s w))) as [n|] eqn:Hn.
    + rewrite (bind_ok _ _ s n s) by (rewrite entered_int_eq, Hn; reflexivity).
      apply Hstore.
    + rewrite (bind_raise _ _ s ValueError s)
        by (rewrite entered_int_eq, Hn; reflexivity).
      reflexivity.
  - rewrite (bind_ok _ _ s _ s (isChecked_checkbox s w Hcls)). apply Hstore.
Qed.

Lemma for_fixed {S A} (f : A -> St S unit) (s : S) xs :
  (forall x, snd (f x s) = s) -> snd (for_ xs f s) = s.
Proof.
  intros Hf. induction xs as [|x xs IH]; cbn [for_]; [reflexivity|].
  unfold bind. specialize (Hf x).
  destruct (f x s) as [[[] | e] s1]; cbn in Hf; subst s1; [exact IH | reflexivity].
Qed.

Lemma commit_no_document s : no_document s -> snd (commit s) = s.
Proof.
  intros Hno. unfold commit. rewrite bind_gets.
  apply for_fixed. intros [c e]. unfold commit_category, bind, get_config_data.
  destruct (config_data s) as [[a | r] |] eqn:E; try reflexivity.
  - assert (Hc : exists res, py_contains c (TAtom a) s = (res, s)).
    { destruct a; cbn; eauto. }
    destruct Hc as [[[|] | e'] ->]; try reflexivity.
    destruct e as [w | fs]; cbn [entry_items]; [reflexivity|].
    unfold ret. apply for_fixed. intros kw. apply commit_field_no_document, Hno.
  - destruct (Hno r E).
Qed.

(* ===================================================================== *)
(** ** The form and the invariant of the window *)
(* ===================================================================== *)

(** The widgets as [init_ui] builds them. *)
Definition form : MainWindow := built_window Missing true.

(** The widget map, the dependent widgets and the shapes of the widgets
    never change once the form is built. *)
Definition ui_ok (s : MainWindow) : Prop :=
  widgets s = widgets form
  /\ roleplay_dependent_widgets s = roleplay_dependent_widgets form
  /\ map shape (qt s) = map shape (qt form).

Definition inv (s : MainWindow) : Prop := wf s /\ ui_ok s.

Lemma wf_same_store s s' :
  tops s' = tops s -> cats s' = cats s -> config_data s' = config_data s ->
  wf s -> wf s'.
Proof.
  intros Ht Hc Hcfg [Hpt Hpc Hdoc]. split.
  - rewrite Ht. exact Hpt.
  - rewrite Hc. exact Hpc.
  - intros x Hx. rewrite Hcfg in Hx. specialize (Hdoc x Hx).
    destruct x as [a | r]; [exact I|].
    unfold own_top, own_dict, deref_top in *. rewrite Ht, Hc. exact Hdoc.
Qed.

Lemma repaints_wf s s' : repaints s s' -> wf s -> wf s'.
Proof. intros (Ht & Hc & Hcfg & _). apply wf_same_store; assumption. Qed.

Lemma repaints_ui_ok s s' : repaints s s' -> ui_ok s -> ui_ok s'.
Proof.
  intros (_ & _ & _ & Hw & Hd & _ & Hq) (H1 & H2 & H3).
  repeat split; congruence.
Qed.

Lemma repaints_inv s s' : repaints s s' -> inv s -> inv s'.
Proof. intros H [? ?]. split; eauto using repaints_wf, repaints_ui_ok. Qed.

Lemma same_ui_ok s s' : ui s' = ui s -> ui_ok s -> ui_ok s'.
Proof.
  unfold ui. intros [= Hw Hd Hq] (H1 & H2 & H3). repeat split; congruence.
Qed.

Lemma repaints_document s s' : repaints s s' -> document s' = document s.
Proof.
  intros (Ht & Hc & Hcfg & _). unfold document. rewrite Hcfg.
  destruct (config_data s) as [[a | r] |]; cbn; try reflexivity.
  unfold view_entries, deref_top, view_value, deref_cat. rewrite Ht, Hc.
  reflexivity.
Qed.

Lemma ui_ok_built f wr : ui_ok (built_window f wr).
Proof. unfold ui_ok; split; [|split]; vm_compute; reflexivity. Qed.

Lemma wf_built f wr : wf (built_window f wr).
Proof.
  split.
  - exists []. vm_compute. reflexivity.
  - exists []. vm_compute. reflexivity.
  - intros x. vm_compute. intros [=].
Qed.

Lemma inv_built f wr : inv (built_window f wr).
Proof. split; [apply wf_built | apply ui_ok_built]. Qed.

Lemma holds_wf s0 r s d : holds s0 r s d -> wf s.
Proof. intros H. apply H. Qed.

Lemma holds_ui_ok s0 r s d : holds s0 r s d -> ui_ok s0 -> ui_ok s.
Proof. intros (_ & _ & _ & Hui & _). apply same_ui_ok, Hui. Qed.

Lemma holds_document s0 r s d : holds s0 r s d -> document s = Some (JObj d).
Proof.
  intros (_ & Hcfg & Hd & _). unfold document. rewrite Hcfg. cbn.
  fold (doc_entries s r). rewrite Hd. reflexivity.
Qed.

(* ===================================================================== *)
(** ** load_config *)
(* ===================================================================== *)

Lemma wf_set_config_data s x :
  module_tops `prefix_of` tops s -> module_cats `prefix_of` cats s ->
  own_top s x -> wf (with_config_data (Some x) s).
Proof.
  intros Hpt Hpc Hown. split; [exact Hpt | exact Hpc |].
  intros y [= <-]. destruct x; [exact I | exact Hown].
Qed.

Lemma extends_prefixes s s' :
  extends s s' -> wf s ->
  module_tops `prefix_of` tops s' /\ module_cats `prefix_of` cats s'.
Proof.
  intros (Ht & Hc & _) [Hpt Hpc _].
  split; etransitivity; eassumption.
Qed.

Lemma try_except_ok {S A} (m : St S A) h s a s' :
  m s = (Ok a, s') -> try_except m h s = (Ok a, s').
Proof. intros H. unfold try_except. rewrite H. reflexivity. Qed.

Lemma try_except_raise {S A} (m : St S A) h s e s' :
  m s = (Raise e, s') -> try_except m h s = h e s'.
Proof. intros H. unfold try_except. rewrite H. reflexivity. Qed.

(** The [try] statement of load_config: what it binds [self.config_data]
    to, for each state of the file. *)
Lemma load_config_try_spec s :
  wf s ->
  let s' := snd (load_config_try s) in
  ui s' = ui s /\ env s' = env s /\ wf s'
  /\ match config_file s with
     | Holds j => fst (load_config_try s) = Ok tt /\ document s' = Some j
     | Missing | NotJson =>
         fst (load_config_try s) = Ok tt /\ document s' = Some DefaultsDocument
     | Unreadable => fst (load_config_try s) = Raise PermissionError /\ s' = s
     | NotUtf8 => fst (load_config_try s) = Raise UnicodeDecodeError /\ s' = s
     end.
Proof.
  intros Hwf.
  assert (Hdef : exists s1 r,
    (let* x := copy_of_defaults in set_config_data x) s
      = (Ok tt, with_config_data (Some (TDict r)) s1)
    /\ extends s s1 /\ view_top s1 (TDict r) = DefaultsDocument /\ own_dict s1 r).
  { destruct (copy_of_defaults_spec s (wf_tops s Hwf) (wf_cats s Hwf))
      as (s1 & r & Hrun & Hext & Hv & Hown).
    exists s1, r. rewrite (bind_ok _ _ _ _ _ Hrun). auto. }
  assert (Hfin : forall s1 x, extends s s1 -> own_top s1 x ->
    let s2 := with_config_data (Some x) s1 in
    ui s2 = ui s /\ env s2 = env s /\ wf s2 /\ document s2 = Some (view_top s1 x)).
  { intros s1 x Hext Hown.
    destruct (extends_prefixes _ _ Hext Hwf) as [Hpt Hpc].
    destruct Hext as (_ & _ & _ & Hui & Henv).
    repeat split; try assumption.
    apply wf_set_config_data; assumption. }
  unfold load_config_try.
  assert (Hread : read_config_file s
    = match config_file s with
      | Missing => (Raise FileNotFoundError, s)
      | Unreadable => (Raise PermissionError, s)
      | NotUtf8 => (Raise UnicodeDecodeError, s)
      | NotJson => (Raise JSONDecodeError, s)
      | Holds j => json_loaded j s
      end).
  { unfold read_config_file. rewrite bind_gets. destruct (config_file s); reflexivity. }
  destruct (config_file s) as [| | | | j] eqn:Hf.
  - rewrite (try_except_raise _ _ s FileNotFoundError s)
      by (apply bind_raise, Hread).
    destruct Hdef as (s1 & r & -> & Hext & Hv & Hown). cbn [fst snd].
    destruct (Hfin s1 (TDict r) Hext Hown) as (? & ? & ? & Hdoc).
    rewrite Hv in Hdoc. auto.
  - rewrite (try_except_raise _ _ s PermissionError s)
      by (apply bind_raise, Hread).
    cbn. auto.
  - rewrite (try_except_raise _ _ s UnicodeDecodeError s)
      by (apply bind_raise, Hread).
    cbn. auto.
  - rewrite (try_except_raise _ _ s JSONDecodeError s)
      by (apply bind_raise, Hread).
    destruct Hdef as (s1 & r & -> & Hext & Hv & Hown). cbn [fst snd].
    destruct (Hfin s1 (TDict r) Hext Hown) as (? & ? & ? & Hdoc).
    rewrite Hv in Hdoc. auto.
  - destruct (json_loaded_spec j s (wf_tops s Hwf) (wf_cats s Hwf))
      as (s1 & x & Hrun & Hext & Hv & Hown).
    rewrite (try_except_ok _ _ s tt (with_config_data (Some x) s1)).
    2:{ rewrite (bind_ok _ _ s x s1) by (rewrite Hread; exact Hrun). reflexivity. }
    cbn [fst snd].
    destruct (Hfin s1 x Hext Hown) as (? & ? & ? & Hdoc).
    rewrite Hv in Hdoc. auto.
Qed.

(** When [self.config_data] is not a dictionary the defaulting pass stops
    at the first category with a [TypeError]. *)
Lemma fill_defaults_atom s a :
  wf s -> config_data s = Some (TAtom a) ->
  fst (fill_defaults s) = Raise TypeError
  /\ extends s (snd (fill_defaults s)).
Proof.
  intros Hwf Hcfg.
  assert (H1 : exists s1,
    fill_category ("features", Cat 0%nat) s = (Raise TypeError, s1) /\ extends s s1).
  { unfold fill_category.
    rewrite (bind_ok _ _ s (TAtom a) s)
      by (unfold get_config_data; rewrite Hcfg; reflexivity).
    assert (Hin : exists res, py_contains "features" (TAtom a) s = (res, s)
              /\ (res = Raise TypeError \/ exists b, res = Ok b)).
    { destruct a; cbn; eauto. }
    destruct Hin as (res & Hres & [-> | [b ->]]).
    - rewrite (bind_raise _ _ _ _ _ Hres). eauto using extends_refl.
    - rewrite (bind_ok _ _ _ _ _ Hres). destruct b.
      + rewrite (bind_ok _ _ s tt s eq_refl).
        assert (Hitems : val_items (Cat 0%nat) s = (Ok defaults_features, s)).
        { cbn. unfold gets, deref_cat.
          destruct (wf_cats s Hwf) as [k ->]. reflexivity. }
        rewrite (bind_ok _ _ _ _ _ Hitems).
        unfold defaults_features. cbn [for_]. unfold fill_field at 1.
        erewrite bind_raise; [eauto using extends_refl|].
        rewrite (bind_ok _ _ s (TAtom a) s)
          by (unfold get_config_data; rewrite Hcfg; reflexivity).
        reflexivity.
      + erewrite bind_raise; [eauto using extends_new_cat|].
        reflexivity. }
  destruct H1 as (s1 & H1 & Hext).
  unfold fill_defaults.
  rewrite (bind_ok _ _ _ _ _ (top_items_defaults s (wf_tops s Hwf))).
  cbn [for_]. rewrite (bind_raise _ _ _ _ _ H1). auto.
Qed.

Lemma extends_wf_no_document s s' :
  extends s s' -> wf s -> no_document s -> wf s'.
Proof.
  intros Hext Hwf Hno. destruct (extends_prefixes _ _ Hext Hwf) as [Hpt Hpc].
  destruct Hext as (_ & _ & Hcfg & _).
  split; [assumption | assumption |].
  intros x Hx. rewrite Hcfg in Hx. destruct x as [a | r]; [exact I|].
  destruct (Hno r Hx).
Qed.

(* --------------------------------------------------------------------- *)
(** *** populate_ui: when it raises *)
(* --------------------------------------------------------------------- *)

(** The part of [populate_ui] that can raise, on the document as a value:
    a category of the form that the document has must be a dictionary. *)
Definition populate_field_doc (c : string) (kw : string * wid)
  : St (list (string * json)) unit :=
  fun d =>
    match Dict.get c d with
    | Some (JObj _) => (Ok tt, d)
    | Some _ => (Raise AttributeError, d)
    | None => (Raise KeyError, d)
    end.

Definition populate_category_doc (ce : string * wentry)
  : St (list (string * json)) unit :=
  fun d =>
    if Dict.mem (fst ce) d then
      match snd ce with
      | Fields fs => for_ fs (populate_field_doc (fst ce)) d
      | Widget _ => (Raise AttributeError, d)
      end
    else (Ok tt, d).

Lemma setChecked_ok w b s : fst (setChecked w b s) = Ok tt.
Proof.
  unfold setChecked, the_widget. rewrite bind_gets.
  unfold bind, update_widget, modify.
  destruct (connected (widget_at s w) && negb (Bool.eqb (checked (widget_at s w)) b));
    [|reflexivity].
  unfold try_except.
  destruct (apply_feature_dependencies _) as [[[] | e] s1]; reflexivity.
Qed.

Lemma paint_ok w value s :
  fst ((let* q := the_widget w in
        match cls q with
        | QLineEdit => setText w (py_str value)
        | QCheckBox => setChecked w (py_bool value)
        | _ => ret tt
        end) s) = Ok tt.
Proof.
  unfold the_widget. rewrite bind_gets.
  destruct (cls (widget_at s w)); try reflexivity. apply setChecked_ok.
Qed.

(** The window [s1] shows the document [d] of [s], unchanged. *)
Definition shows (s : MainWindow) (r : nat) (s1 : MainWindow)
    (d : list (string * json)) : Prop :=
  repaints s s1 /\ config_data s = Some (TDict r) /\ d = doc_entries s r.

Lemma shows_store s r s1 d :
  shows s r s1 d ->
  config_data s1 = Some (TDict r) /\ deref_top s1 r = deref_top s r
  /\ forall r', deref_cat s1 r' = deref_cat s r'.
Proof.
  intros ((Ht & Hc & Hcfg & _) & Hs & _). unfold deref_top, deref_cat.
  rewrite Ht, Hc, Hcfg. auto.
Qed.

Lemma top_getitem_dict s r c :
  top_getitem (TDict r) c s
  = (match Dict.get c (deref_top s r) with
     | Some v => Ok v
     | None => Raise KeyError
     end, s).
Proof.
  cbn [top_getitem]. rewrite bind_gets.
  destruct (Dict.get c (deref_top s r)); reflexivity.
Qed.

Lemma populate_field_sim s r c kw s1 d :
  shows s r s1 d ->
  fst (populate_field c kw s1) = fst (populate_field_doc c kw d)
  /\ shows s r (snd (populate_field c kw s1)) (snd (populate_field_doc c kw d)).
Proof.
  intros H. destruct (shows_store _ _ _ _ H) as (Hcfg & Htop & Hcat).
  assert (Hsnd : shows s r (snd (populate_field c kw s1)) d).
  { destruct H as (Hrep & ? & ?). split; [|auto].
    etransitivity; [exact Hrep | apply preserves_populate_field]. }
  split; [|destruct (Dict.get c d) as [[]|] eqn:E;
           unfold populate_field_doc; rewrite E; exact Hsnd].
  destruct kw as [k w]. unfold populate_field, populate_field_doc.
  rewrite (bind_ok _ _ s1 (TDict r) s1)
    by (unfold get_config_data; rewrite Hcfg; reflexivity).
  destruct H as (_ & _ & ->). rewrite get_doc_entries.
  pose proof (top_getitem_dict s1 r c) as Hget. rewrite Htop in Hget.
  destruct (Dict.get c (deref_top s r)) as [[a | r'] |]; cbn [option_map view_value].
  - rewrite (bind_ok _ _ _ _ _ Hget). cbn [val_get]. rewrite bind_raise_now.
    destruct a; reflexivity.
  - rewrite (bind_ok _ _ _ _ _ Hget). cbn [val_get]. rewrite bind_gets.
    destruct (default JNull (Dict.get k (deref_cat s1 r'))); try apply paint_ok.
    reflexivity.
  - rewrite (bind_raise _ _ _ _ _ Hget). reflexivity.
Qed.

Lemma populate_category_sim s r ce s1 d :
  shows s r s1 d ->
  fst (populate_category ce s1) = fst (populate_category_doc ce d)
  /\ shows s r (snd (populate_category ce s1)) (snd (populate_category_doc ce d)).
Proof.
  intros H. destruct (shows_store _ _ _ _ H) as (Hcfg & Htop & Hcat).
  destruct ce as [c e]. unfold populate_category, populate_category_doc. cbn [fst snd].
  rewrite (bind_ok _ _ s1 (TDict r) s1)
    by (unfold get_config_data; rewrite Hcfg; reflexivity).
  rewrite (bind_ok _ _ s1 (Dict.mem c d) s1).
  2:{ cbn. unfold gets. rewrite Htop. destruct H as (_ & _ & ->).
      unfold doc_entries. rewrite mem_view_entries. reflexivity. }
  destruct (Dict.mem c d); [|cbn; auto].
  destruct e as [w | fs]; cbn [entry_items].
  - rewrite bind_raise_now. cbn. auto.
  - rewrite bind_ret.
    apply (for_sim (shows s r) eq); [|apply Forall2_same | exact H].
    intros x y s2 t2 <-. apply populate_field_sim.
Qed.

Lemma for_fixed_state {S A} (f : A -> St S unit) xs :
  (forall x s, snd (f x s) = s) -> forall s, snd (for_ xs f s) = s.
Proof. intros Hf s. apply for_fixed. intros x. apply Hf. Qed.

Lemma for_always_ok {S A} (f : A -> St S unit) xs :
  (forall x s, fst (f x s) = Ok tt) -> forall s, fst (for_ xs f s) = Ok tt.
Proof.
  intros Hf. induction xs as [|x xs IH]; intros s; cbn [for_]; [reflexivity|].
  unfold bind. specialize (Hf x s).
  destruct (f x s) as [[[] | e] s1]; cbn in Hf; [apply IH | discriminate].
Qed.

Lemma widget_at_shape s s' w :
  map shape (qt s') = map shape (qt s) ->
  shape (widget_at s' w) = shape (widget_at s w).
Proof.
  intros H. unfold widget_at.
  assert (Hl : shape <$> (qt s' !! w) = shape <$> (qt s !! w)).
  { rewrite <- !list_lookup_fmap. change (fmap shape) with (map shape).
    rewrite H. reflexivity. }
  destruct (qt s' !! w), (qt s !! w); cbn [fmap option_fmap option_map] in Hl;
    try discriminate; [|reflexivity].
  injection Hl as Hc Hp Hv Hn. unfold shape. simpl. congruence.
Qed.

Lemma widget_at_cls s s' w :
  map shape (qt s') = map shape (qt s) ->
  cls (widget_at s' w) = cls (widget_at s w).
Proof.
  intros H. pose proof (widget_at_shape s s' w H) as Hs.
  unfold shape in Hs. congruence.
Qed.

(** The widgets of the form, as values. *)
Definition form_widgets : list (string * wentry) :=
  Eval vm_compute in widgets form.
Definition form_dependents : list wid :=
  Eval vm_compute in roleplay_dependent_widgets form.
Definition form_classes : list wclass :=
  Eval vm_compute in map cls (qt form).

Lemma ui_ok_widgets s : ui_ok s -> widgets s = form_widgets.
Proof. intros (-> & _). vm_compute. reflexivity. Qed.

Lemma ui_ok_cls s w :
  ui_ok s -> cls (widget_at s w) = default QWidget (form_classes !! w).
Proof.
  intros (_ & _ & H). rewrite (widget_at_cls form s w H).
  unfold widget_at. change form_classes with (map cls (qt form)).
  change (map cls) with (fmap (M := list) cls). rewrite list_lookup_fmap.
  destruct (qt form !! w); reflexivity.
Qed.

Lemma widgets_getitem_eq k s :
  widgets_getitem k s
  = (match Dict.get k (widgets s) with
     | Some e => Ok e
     | None => Raise KeyError
     end, s).
Proof.
  unfold widgets_getitem. rewrite bind_gets.
  destruct (Dict.get k (widgets s)); reflexivity.
Qed.

Definition roleplay_checkbox : wid := 1%nat.

Definition form_features : list (string * wid) :=
  Eval vm_compute in
    match Dict.get "features" form_widgets with
    | Some (Fields fs) => fs
    | _ => []
    end.

(** With the form in place the dependency rule never raises: it sets the
    enabled flag of each dependent widget to the state of the check box
    of [roleplay_enabled]. *)
Lemma apply_feature_dependencies_eq s :
  ui_ok s ->
  apply_feature_dependencies s
  = for_ form_dependents
      (fun widget => setEnabled widget (checked (widget_at s roleplay_checkbox))) s.
Proof.
  intros Hui. unfold apply_feature_dependencies.
  assert (H1 : widgets_getitem "features" s = (Ok (Fields form_features), s)).
  { rewrite widgets_getitem_eq, (ui_ok_widgets s Hui). reflexivity. }
  assert (H1' : entry_getitem (Fields form_features) "roleplay_enabled" s
                = (Ok roleplay_checkbox, s)) by reflexivity.
  assert (H2 : isChecked roleplay_checkbox s
               = (Ok (checked (widget_at s roleplay_checkbox)), s)).
  { apply isChecked_checkbox. rewrite (ui_ok_cls s _ Hui). reflexivity. }
  assert (H3 : forall b, fst (for_ form_dependents (fun widget => setEnabled widget b) s) = Ok tt).
  { intros b. apply for_always_ok. reflexivity. }
  assert (Hd : roleplay_dependent_widgets s = form_dependents).
  { destruct Hui as (_ & -> & _). vm_compute. reflexivity. }
  specialize (H3 (checked (widget_at s roleplay_checkbox))).
  destruct (for_ form_dependents _ s) as [[[] | e] s1] eqn:Hfor; [|discriminate].
  apply try_except_ok.
  rewrite (bind_ok _ _ _ _ _ H1), (bind_ok _ _ _ _ _ H1'),
    (bind_ok _ _ _ _ _ H2), bind_gets, Hd.
  exact Hfor.
Qed.

Lemma apply_feature_dependencies_ok s :
  ui_ok s -> fst (apply_feature_dependencies s) = Ok tt.
Proof.
  intros Hui. rewrite apply_feature_dependencies_eq by assumption.
  apply for_always_ok. reflexivity.
Qed.

Lemma populate_field_doc_state c kw d : snd (populate_field_doc c kw d) = d.
Proof. unfold populate_field_doc. destruct (Dict.get c d) as [[]|]; reflexivity. Qed.

Lemma populate_category_doc_state ce d : snd (populate_category_doc ce d) = d.
Proof.
  unfold populate_category_doc. destruct (Dict.mem (fst ce) d); [|reflexivity].
  destruct (snd ce); [reflexivity|].
  apply for_fixed. intros x. apply populate_field_doc_state.
Qed.

(** What [populate_ui] returns is decided by the document alone. *)
Lemma populate_ui_result s r :
  inv s -> config_data s = Some (TDict r) ->
  fst (populate_ui s)
  = fst (for_ form_widgets populate_category_doc (doc_entries s r)).
Proof.
  intros [Hwf Hui] Hcfg. unfold populate_ui.
  rewrite bind_gets, (ui_ok_widgets s Hui).
  assert (Hsim : fst (for_ form_widgets populate_category s)
                 = fst (for_ form_widgets populate_category_doc (doc_entries s r))
                 /\ shows s r (snd (for_ form_widgets populate_category s))
                      (snd (for_ form_widgets populate_category_doc (doc_entries s r)))).
  { apply (for_sim (shows s r) eq); [|apply Forall2_same|].
    - intros x y s1 t1 <-. apply populate_category_sim.
    - split; [reflexivity | auto]. }
  destruct Hsim as [Hres Hshows].
  rewrite <- Hres. unfold bind.
  destruct (for_ form_widgets populate_category s) as [[[] | e] s1]; [|reflexivity].
  cbn [fst snd] in *. apply apply_feature_dependencies_ok.
  destruct Hshows as (Hrep & _). eapply repaints_ui_ok; eassumption.
Qed.

(** The rest of load_config, from a document that is a dictionary. *)
Lemma load_config_rest s r :
  inv s -> config_data s = Some (TDict r) ->
  let out := fill_table_doc DefaultsTable (doc_entries s r) in
  let s' := snd ((fill_defaults >> populate_ui) s) in
  document s' = Some (JObj (snd out)) /\ inv s' /\ env s' = env s
  /\ fst ((fill_defaults >> populate_ui) s)
     = match fst out with
       | Ok _ => fst (for_ form_widgets populate_category_doc (snd out))
       | Raise e => Raise e
       end.
Proof.
  intros [Hwf Hui] Hcfg out s'.
  destruct (fill_defaults_sim s r Hwf Hcfg) as [Hres Hholds].
  fold out in Hres, Hholds. subst s'. unfold bind.
  destruct (fill_defaults s) as [[[] | e] s1]; cbn [fst snd] in *.
  - rewrite <- Hres.
    pose proof (preserves_populate_ui s1) as Hrep.
    assert (Hinv1 : inv s1) by (split; eauto using holds_wf, holds_ui_ok).
    split; [|split; [|split]].
    + rewrite (repaints_document _ _ Hrep). eapply holds_document, Hholds.
    + eapply repaints_inv; eassumption.
    + destruct Hrep as (_ & _ & _ & _ & _ & -> & _). apply Hholds.
    + destruct Hholds as (_ & Hcfg1 & Hd1 & _).
      rewrite (populate_ui_result s1 r Hinv1 Hcfg1), Hd1. reflexivity.
  - rewrite <- Hres. split; [|split; [|split]].
    + eapply holds_document, Hholds.
    + split; eauto using holds_wf, holds_ui_ok.
    + apply Hholds.
    + reflexivity.
Qed.

Lemma same_config_no_document s s' :
  config_data s' = config_data s -> no_document s -> no_document s'.
Proof. intros H Hno r. rewrite H. apply Hno. Qed.

(** load_config keeps the invariant of the window, however it ends, and
    touches nothing of the environment. *)
Lemma load_config_inv s :
  inv s -> inv (snd (load_config s)) /\ env (snd (load_config s)) = env s.
Proof.
  intros [Hwf Hui]. unfold load_config.
  destruct (load_config_try_spec s Hwf) as (Hui1 & Henv1 & Hwf1 & Hcase).
  destruct (load_config_try s) as [[[] | e] s1] eqn:Htry; cbn [fst snd] in *.
  2:{ rewrite (bind_raise _ _ _ _ _ Htry).
      split; [split|]; eauto using same_ui_ok. }
  rewrite (bind_ok _ _ _ _ _ Htry).
  assert (Hinv1 : inv s1) by (split; eauto using same_ui_ok).
  destruct (config_data s1) as [[a | r] |] eqn:Hcfg.
  - destruct (fill_defaults_atom s1 a Hwf1 Hcfg) as [Hres Hext].
    destruct (fill_defaults s1) as [[[] | e] s2] eqn:Hfill;
      cbn [fst snd] in *; [discriminate|].
    rewrite (bind_raise _ _ _ _ _ Hfill). cbn [fst snd].
    split; [split|].
    + eapply extends_wf_no_document; [eassumption | assumption |].
      intros r. rewrite Hcfg. discriminate.
    + eapply same_ui_ok; [apply Hext | apply Hinv1].
    + destruct Hext as (_ & _ & _ & _ & ->). assumption.
  - destruct (load_config_rest s1 r Hinv1 Hcfg) as (_ & Hinv2 & Henv2 & _).
    split; [assumption | congruence].
  - exfalso. destruct (config_file s); destruct Hcase as [Hr Hdoc];
      try discriminate; unfold document in Hdoc; rewrite Hcfg in Hdoc; discriminate.
Qed.

(* ===================================================================== *)
(** ** The defaulting pass on values *)
(* ===================================================================== *)

(** [cur.setdefault(k, v)] for every field of a row, in order. *)
Definition fill_fields (fields cur : list (string * json)) : list (string * json) :=
  fold_left (fun acc kv => Dict.setdefault (fst kv) (snd kv) acc) fields cur.

(** The dictionary the pass finds or makes for a category: [None] when
    the document binds the category to something else. *)
Definition category_of (d : list (string * json)) (c : string)
  : option (list (string * json)) :=
  match Dict.get c d with
  | None => Some []
  | Some (JObj cur) => Some cur
  | Some _ => None
  end.

Lemma get_fill_fields fields : forall cur k,
  Dict.get k (fill_fields fields cur)
  = match Dict.get k cur with
    | Some x => Some x
    | None => Dict.get k fields
    end.
Proof.
  induction fields as [|[k0 v0] rest IH]; intros cur k; cbn.
  - destruct (Dict.get k cur); reflexivity.
  - unfold fill_fields in IH. rewrite IH, get_setdefault.
    rewrite (String.eqb_sym k0 k).
    destruct (Dict.get k cur); [reflexivity|].
    destruct (String.eqb k k0); reflexivity.
Qed.

Lemma fill_fields_present fields : forall cur,
  (forall k v, In (k, v) fields -> Dict.mem k cur = true) ->
  fill_fields fields cur = cur.
Proof.
  induction fields as [|[k0 v0] rest IH]; intros cur H; cbn; [reflexivity|].
  unfold Dict.setdefault. rewrite (H k0 v0) by (cbn; auto).
  apply IH. intros k v Hin. apply (H k v). cbn. auto.
Qed.

Lemma for_fill_fields c fields : forall d cur,
  Dict.get c d = Some (JObj cur) ->
  for_ fields (fill_field_doc c) d
  = (Ok tt, Dict.put c (JObj (fill_fields fields cur)) d).
Proof.
  induction fields as [|[k v] rest IH]; intros d cur Hget; cbn [for_ fill_fields fold_left].
  - cbn. rewrite put_same by assumption. reflexivity.
  - rewrite (bind_ok _ _ d tt (Dict.put c (JObj (Dict.setdefault k v cur)) d)).
    2:{ unfold fill_field_doc. rewrite Hget. reflexivity. }
    rewrite (IH _ (Dict.setdefault k v cur)) by apply get_put_eq.
    rewrite put_put. reflexivity.
Qed.

Lemma fill_category_doc_eq c fields d :
  fields <> [] ->
  fill_category_doc (c, fields) d
  = match category_of d c with
    | Some cur => (Ok tt, Dict.put c (JObj (fill_fields fields cur)) d)
    | None => (Raise AttributeError, d)
    end.
Proof.
  intros Hne. unfold fill_category_doc, category_of, Dict.mem. cbn [fst snd].
  destruct (Dict.get c d) as [j|] eqn:Hget.
  - destruct j; try (destruct fields as [|[k v] rest]; [congruence|];
      cbn [for_]; unfold bind, fill_field_doc; rewrite Hget; reflexivity).
    apply for_fill_fields, Hget.
  - rewrite (for_fill_fields c fields _ []) by apply get_put_eq.
    rewrite put_put. reflexivity.
Qed.

Definition rows_not_empty (table : list (string * list (string * json))) : Prop :=
  Forall (fun cf => snd cf <> []) table.

(** The categories of the result of a pass that completes. *)
Lemma fill_table_doc_get table :
  rows_not_empty table -> NoDup (Dict.keys table) ->
  forall d d', fill_table_doc table d = (Ok tt, d') ->
  forall c,
    Dict.get c d'
    = match Dict.get c table with
      | Some fields =>
          option_map (fun cur => JObj (fill_fields fields cur)) (category_of d c)
      | None => Dict.get c d
      end
    /\ (Dict.mem c table = true -> category_of d c <> None).
Proof.
  unfold fill_table_doc.
  induction table as [|[c0 f0] rest IH]; intros Hrows Hnd d d' Hrun c.
  - cbn in Hrun. injection Hrun as <-. cbn. split; [reflexivity | discriminate].
  - apply Forall_cons in Hrows as [Hf0 Hrows]. cbn in Hf0.
    cbn in Hnd. apply NoDup_cons in Hnd as [Hc0 Hnd].
    cbn [for_] in Hrun. unfold bind in Hrun.
    rewrite (fill_category_doc_eq c0 f0 d Hf0) in Hrun.
    destruct (category_of d c0) as [cur0|] eqn:Hcat; [|discriminate].
    specialize (IH Hrows Hnd _ _ Hrun c). destruct IH as [IH1 IH2].
    cbn [Dict.get]. unfold Dict.mem. cbn [Dict.get].
    destruct (String.eqb_spec c c0) as [-> | Hne].
    + assert (Hrest : Dict.get c0 rest = None).
      { apply get_None_keys. rewrite <- list_elem_of_In. exact Hc0. }
      rewrite Hrest, get_put_eq in IH1. rewrite IH1, Hcat.
      split; [reflexivity | discriminate].
    + assert (Hcat' : category_of (Dict.put c0 (JObj (fill_fields f0 cur0)) d) c
                      = category_of d c).
      { unfold category_of. rewrite get_put_ne by congruence. reflexivity. }
      rewrite Hcat', get_put_ne in IH1 by congruence.
      rewrite Hcat' in IH2. split; [exact IH1 | exact IH2].
Qed.

(** The pass completes when no category of the table is bound to
    something that is not a dictionary. *)
Lemma fill_table_doc_ok table :
  rows_not_empty table ->
  forall d, (forall c, Dict.mem c table = true -> category_of d c <> None) ->
  fst (fill_table_doc table d) = Ok tt.
Proof.
  unfold fill_table_doc.
  induction table as [|[c0 f0] rest IH]; intros Hrows d H; [reflexivity|].
  apply Forall_cons in Hrows as [Hf0 Hrows]. cbn in Hf0.
  cbn [for_]. unfold bind. rewrite (fill_category_doc_eq c0 f0 d Hf0).
  destruct (category_of d c0) as [cur0|] eqn:Hcat.
  - apply IH; [assumption|]. intros c Hc.
    unfold category_of. rewrite get_put.
    destruct (String.eqb_spec c0 c) as [<- | Hne]; [discriminate|].
    apply H. unfold Dict.mem in *. cbn [Dict.get].
    destruct (String.eqb_spec c c0); [congruence | exact Hc].
  - exfalso. apply (H c0); [|exact Hcat].
    unfold Dict.mem. cbn [Dict.get]. rewrite String.eqb_refl. reflexivity.
Qed.

(** Every category and field of the table is there. *)
Definition populated (table : list (string * list (string * json)))
    (d : list (string * json)) : Prop :=
  forall c fields, In (c, fields) table ->
    exists cur, Dict.get c d = Some (JObj cur)
      /\ forall k v, In (k, v) fields -> Dict.mem k cur = true.

(** On a document that has everything the pass changes nothing. *)
Lemma fill_table_doc_populated table d :
  populated table d -> fill_table_doc table d = (Ok tt, d).
Proof.
  unfold fill_table_doc.
  induction table as [|[c0 f0] rest IH]; intros H; [reflexivity|].
  cbn [for_].
  destruct (H c0 f0) as (cur & Hget & Hall); [cbn; auto|].
  rewrite (bind_ok _ _ d tt d).
  - apply IH. intros c fields Hin. apply H. cbn. auto.
  - unfold fill_category_doc, Dict.mem. cbn [fst snd]. rewrite Hget.
    rewrite (for_fill_fields c0 f0 d cur Hget).
    rewrite fill_fields_present by assumption.
    rewrite put_same by assumption. reflexivity.
Qed.

Lemma In_get_some {V} (k : string) (v : V) d : In (k, v) d -> Dict.mem k d = true.
Proof.
  intros Hin. unfold Dict.mem.
  destruct (Dict.get k d) eqn:E; [reflexivity|].
  apply get_None_keys in E. exfalso. apply E.
  unfold Dict.keys. change k with (fst (k, v)). apply in_map, Hin.
Qed.

Lemma fill_table_doc_populates table d d' :
  rows_not_empty table -> NoDup (Dict.keys table) ->
  fill_table_doc table d = (Ok tt, d') -> populated table d'.
Proof.
  intros Hrows Hnd Hrun c fields Hin.
  destruct (fill_table_doc_get table Hrows Hnd d d' Hrun c) as [Hget Hcat].
  rewrite (In_get c fields table Hnd Hin) in Hget.
  destruct (category_of d c) as [cur|] eqn:E.
  2:{ exfalso. apply Hcat; [|reflexivity]. eapply In_get_some, Hin. }
  exists (fill_fields fields cur). split; [exact Hget|].
  intros k v Hkv. unfold Dict.mem. rewrite get_fill_fields.
  destruct (Dict.get k cur); [reflexivity|].
  apply (In_get_some k v fields Hkv).
Qed.

(* ===================================================================== *)
(** ** load_config, by the state of the file *)
(* ===================================================================== *)

Lemma document_object s d :
  document s = Some (JObj d) ->
  exists r, config_data s = Some (TDict r) /\ doc_entries s r = d.
Proof.
  unfold document. destruct (config_data s) as [[a | r] |]; cbn; try discriminate.
  - intros [= H]. destruct (json_of_atom_not_obj _ _ H).
  - intros [= H]. eauto.
Qed.

Lemma document_not_object s j :
  document s = Some j -> (forall d, j <> JObj d) ->
  exists a, config_data s = Some (TAtom a).
Proof.
  unfold document. destruct (config_data s) as [[a | r] |]; cbn; try discriminate.
  - eauto.
  - intros [= <-] H. destruct (H _ eq_refl).
Qed.

Lemma load_config_try_ok s j :
  wf s -> config_file s = Holds j ->
  exists s1, load_config_try s = (Ok tt, s1)
    /\ ui s1 = ui s /\ env s1 = env s /\ wf s1 /\ document s1 = Some j.
Proof.
  intros Hwf Hf. destruct (load_config_try_spec s Hwf) as (Hui & Henv & Hwf1 & Hcase).
  rewrite Hf in Hcase. destruct Hcase as [Hres Hdoc].
  destruct (load_config_try s) as [[[] | e] s1]; cbn [fst snd] in *; [|discriminate].
  eauto 10.
Qed.

(** A file that holds a JSON object: the document is what the defaulting
    pass makes of it, and load_config raises what the pass or
    [populate_ui] raises. *)
Lemma load_config_object s entries :
  inv s -> config_file s = Holds (JObj entries) ->
  let out := fill_table_doc DefaultsTable entries in
  document (snd (load_config s)) = Some (JObj (snd out))
  /\ fst (load_config s)
     = match fst out with
       | Ok _ => fst (for_ form_widgets populate_category_doc (snd out))
       | Raise e => Raise e
       end.
Proof.
  intros [Hwf Hui] Hf out.
  destruct (load_config_try_ok s _ Hwf Hf) as (s1 & Htry & Hui1 & Henv1 & Hwf1 & Hdoc).
  destruct (document_object _ _ Hdoc) as (r & Hcfg & Hd).
  assert (Hinv1 : inv s1) by (split; eauto using same_ui_ok).
  unfold load_config. rewrite (bind_ok _ _ _ _ _ Htry).
  destruct (load_config_rest s1 r Hinv1 Hcfg) as (H1 & _ & _ & H2).
  rewrite Hd in H1, H2. auto.
Qed.

(** A file that holds JSON that is not an object: [TypeError]. *)
Lemma load_config_not_object s j :
  inv s -> config_file s = Holds j -> (forall d, j <> JObj d) ->
  fst (load_config s) = Raise TypeError
  /\ document (snd (load_config s)) = Some j.
Proof.
  intros [Hwf Hui] Hf Hj.
  destruct (load_config_try_ok s _ Hwf Hf) as (s1 & Htry & Hui1 & Henv1 & Hwf1 & Hdoc).
  destruct (document_not_object _ _ Hdoc Hj) as (a & Hcfg).
  unfold load_config. rewrite (bind_ok _ _ _ _ _ Htry).
  destruct (fill_defaults_atom s1 a Hwf1 Hcfg) as [Hres Hext].
  destruct (fill_defaults s1) as [[[] | e] s2] eqn:Hfill;
    cbn [fst snd] in *; [discriminate|].
  rewrite (bind_raise _ _ _ _ _ Hfill). cbn [fst snd].
  split; [congruence|].
  destruct Hext as (Ht & Hc & Hcfg2 & _).
  unfold document in *. rewrite Hcfg2, Hcfg in *. cbn in *. exact Hdoc.
Qed.

Definition defaults_entries : list (string * json) :=
  map (fun cf => (fst cf, JObj (snd cf))) DefaultsTable.

Lemma defaults_filled : fill_table_doc DefaultsTable defaults_entries = (Ok tt, defaults_entries).
Proof. vm_compute. reflexivity. Qed.

Lemma defaults_populate :
  fst (for_ form_widgets populate_category_doc defaults_entries) = Ok tt.
Proof. vm_compute. reflexivity. Qed.

(** No file, or a file that is not JSON: the document is the table. *)
Lemma load_config_default s :
  inv s -> config_file s = Missing \/ config_file s = NotJson ->
  fst (load_config s) = Ok tt
  /\ document (snd (load_config s)) = Some DefaultsDocument.
Proof.
  intros [Hwf Hui] Hf.
  destruct (load_config_try_spec s Hwf) as (Hui1 & Henv1 & Hwf1 & Hcase).
  assert (Hc : fst (load_config_try s) = Ok tt
               /\ document (snd (load_config_try s)) = Some DefaultsDocument).
  { destruct Hf as [Hf | Hf]; rewrite Hf in Hcase; exact Hcase. }
  destruct Hc as [Hres Hdoc].
  destruct (load_config_try s) as [[[] | e] s1] eqn:Htry; cbn [fst snd] in *;
    [|discriminate].
  destruct (document_object _ _ Hdoc) as (r & Hcfg & Hd).
  assert (Hinv1 : inv s1) by (split; eauto using same_ui_ok).
  unfold load_config. rewrite (bind_ok _ _ _ _ _ Htry).
  destruct (load_config_rest s1 r Hinv1 Hcfg) as (H1 & _ & _ & H2).
  fold defaults_entries in Hd. rewrite Hd, defaults_filled in H1, H2.
  cbn [fst snd] in H1, H2. rewrite defaults_populate in H2. auto.
Qed.

(** A file that cannot be read or decoded: the exception passes through
    and nothing has changed. *)
Lemma load_config_unreadable s :
  inv s ->
  (config_file s = Unreadable -> load_config s = (Raise PermissionError, s))
  /\ (config_file s = NotUtf8 -> load_config s = (Raise UnicodeDecodeError, s)).
Proof.
  intros [Hwf Hui].
  destruct (load_config_try_spec s Hwf) as (_ & _ & _ & Hcase).
  split; intros Hf; rewrite Hf in Hcase; destruct Hcase as [Hres Hs];
    unfold load_config;
    (erewrite bind_raise; [reflexivity|]);
    destruct (load_config_try s) as [res s1]; cbn in *; congruence.
Qed.

(* ===================================================================== *)
(** ** save_config and reset_to_defaults *)
(* ===================================================================== *)

(** Only the file and the message boxes may differ. *)
Definition reports (s s' : MainWindow) : Prop :=
  tops s' = tops s /\ cats s' = cats s /\ config_data s' = config_data s
  /\ ui s' = ui s /\ writable s' = writable s.

#[local] Instance reports_preorder : PreOrder reports.
Proof.
  split.
  - intros s. repeat split; reflexivity.
  - intros s1 s2 s3 (? & ? & ? & ? & ?) (? & ? & ? & ? & ?).
    repeat split; congruence.
Qed.

Lemma reports_inv s s' : reports s s' -> inv s -> inv s'.
Proof.
  intros (Ht & Hc & Hcfg & Hui & _) [Hwf Hok].
  split; [eapply wf_same_store | eapply same_ui_ok]; eassumption.
Qed.

Lemma reports_document s s' : reports s s' -> document s' = document s.
Proof.
  intros (Ht & Hc & Hcfg & _). unfold document. rewrite Hcfg.
  destruct (config_data s) as [[a | r] |]; cbn; try reflexivity.
  unfold view_entries, deref_top, view_value, deref_cat. rewrite Ht, Hc.
  reflexivity.
Qed.

Lemma preserves_message m : preserves reports (message m).
Proof. apply preserves_modify. intros s. repeat split. Qed.

Lemma preserves_write_config_file x : preserves reports (write_config_file x).
Proof.
  unfold write_config_file. preserve.
  apply preserves_modify. intros s. repeat split.
Qed.

#[export] Hint Resolve preserves_message preserves_write_config_file : preserves.

Lemma preserves_write_config : preserves reports write_config.
Proof. unfold write_config. preserve. Qed.

#[export] Hint Resolve preserves_write_config : preserves.

(** The commit keeps the invariant and touches neither the widgets nor
    the environment. *)
Lemma commit_inv s :
  inv s ->
  inv (snd (commit s)) /\ ui (snd (commit s)) = ui s
  /\ env (snd (commit s)) = env s.
Proof.
  intros [Hwf Hui].
  destruct (config_data s) as [[a | r] |] eqn:Hcfg.
  - rewrite commit_no_document by (intros r; rewrite Hcfg; discriminate).
    split; [split; assumption | split; reflexivity].
  - destruct (commit_sim s r Hwf Hcfg) as [_ H].
    split; [split|]; eauto using holds_wf, holds_ui_ok. split; apply H.
  - rewrite commit_no_document by (intros r; rewrite Hcfg; discriminate).
    split; [split; assumption | split; reflexivity].
Qed.

Lemma save_config_eq s :
  save_config s
  = match save_config_try s with
    | (Ok a, s') => (Ok a, s')
    | (Raise e, s') => (Ok tt, with_shown (shown s' ++ [Critical e]) s')
    end.
Proof. reflexivity. Qed.


Lemma save_config_try_inv s :
  inv s ->
  inv (snd (save_config_try s)) /\ ui (snd (save_config_try s)) = ui s.
Proof.
  intros Hinv. destruct (commit_inv s Hinv) as (Hinv1 & Hui1 & _).
  unfold save_config_try.
  destruct (commit s) as [[[] | e] s1] eqn:Hc; cbn [fst snd] in *.
  - rewrite (bind_ok _ _ _ _ _ Hc).
    assert (Hrep : preserves reports (write_config >> message Information))
      by preserve.
    specialize (Hrep s1). split; [eapply reports_inv; eassumption|].
    destruct Hrep as (_ & _ & _ & -> & _). exact Hui1.
  - rewrite (bind_raise _ _ _ _ _ Hc). auto.
Qed.

Lemma save_config_inv s :
  inv s -> inv (snd (save_config s)) /\ ui (snd (save_config s)) = ui s.
Proof.
  intros Hinv. destruct (save_config_try_inv s Hinv) as [Hinv1 Hui1].
  rewrite save_config_eq.
  destruct (save_config_try s) as [[[] | e] s1]; cbn [fst snd] in *; [auto|].
  split; [|exact Hui1].
  eapply reports_inv; [|exact Hinv1]. repeat split.
Qed.

Lemma write_config_eq s x :
  config_data s = Some x ->
  write_config s
  = if writable s
    then (Ok tt, with_config_file (Holds (view_top s x)) s)
    else (Raise PermissionError, s).
Proof.
  intros Hcfg. unfold write_config.
  rewrite (bind_ok _ _ s x s) by (unfold get_config_data; rewrite Hcfg; reflexivity).
  unfold write_config_file. rewrite bind_gets.
  destruct (writable s); reflexivity.
Qed.

Lemma view_top_with_config_file f s x :
  view_top (with_config_file f s) x = view_top s x.
Proof. reflexivity. Qed.

(** What save_config does to a document that is a dictionary. *)
Lemma save_config_try_spec s r :
  inv s -> config_data s = Some (TDict r) ->
  let out := commit_doc (widget_at s) form_widgets (doc_entries s r) in
  let s' := snd (save_config_try s) in
  document s' = Some (JObj (snd out))
  /\ match fst out with
     | Ok _ =>
         if writable s
         then fst (save_config_try s) = Ok tt
              /\ config_file s' = Holds (JObj (snd out))
              /\ shown s' = shown s ++ [Information]
         else fst (save_config_try s) = Raise PermissionError
              /\ config_file s' = config_file s /\ shown s' = shown s
     | Raise e =>
         fst (save_config_try s) = Raise e
         /\ config_file s' = config_file s /\ shown s' = shown s
     end.
Proof.
  intros [Hwf Hui] Hcfg out s'.
  destruct (commit_sim s r Hwf Hcfg) as [Hres H].
  rewrite (ui_ok_widgets s Hui) in Hres, H. fold out in Hres, H.
  clearbody out.
  pose proof (holds_document _ _ _ _ H) as Hdoc.
  destruct H as (Hwf1 & Hcfg1 & Hd1 & Hui1 & Henv1).
  unfold env in Henv1. injection Henv1 as Hf1 Hw1 Hs1.
  subst s'. unfold save_config_try.
  destruct (commit s) as [[[] | e] s1] eqn:Hc; cbn [fst snd] in *.
  - rewrite (bind_ok _ _ _ _ _ Hc), <- Hres.
    pose proof (write_config_eq s1 _ Hcfg1) as Hw. rewrite Hw1 in Hw.
    destruct (writable s).
    + rewrite (bind_ok _ _ _ _ _ Hw). cbn [message modify fst snd].
      cbn [with_shown with_config_file config_file shown view_top].
      fold (doc_entries s1 r). rewrite Hd1, Hs1.
      split; [|auto]. rewrite <- Hdoc. reflexivity.
    + rewrite (bind_raise _ _ _ _ _ Hw). cbn [fst snd]. auto.
  - rewrite (bind_raise _ _ _ _ _ Hc), <- Hres. cbn [fst snd]. auto.
Qed.

(** reset_to_defaults with the answer Yes: the document is a new copy of
    the table. *)
Lemma reset_to_defaults_spec s :
  inv s ->
  let s' := snd (reset_to_defaults true s) in
  fst (reset_to_defaults true s) = Ok tt
  /\ document s' = Some DefaultsDocument /\ inv s' /\ env s' = env s.
Proof.
  intros [Hwf Hui] s'. subst s'. unfold reset_to_defaults.
  destruct (copy_of_defaults_spec s (wf_tops s Hwf) (wf_cats s Hwf))
    as (s1 & r & Hrun & Hext & Hv & Hown).
  set (s2 := with_config_data (Some (TDict r)) s1).
  assert (Hset : (let* x := copy_of_defaults in set_config_data x) s = (Ok tt, s2)).
  { rewrite (bind_ok _ _ _ _ _ Hrun). reflexivity. }
  rewrite (bind_ok _ _ _ _ _ Hset).
  destruct (extends_prefixes _ _ Hext Hwf) as [Hpt Hpc].
  assert (Hinv2 : inv s2).
  { split.
    - apply wf_set_config_data; assumption.
    - eapply same_ui_ok; [|exact Hui]. apply Hext. }
  assert (Hdoc2 : document s2 = Some DefaultsDocument).
  { unfold document, s2. cbn [config_data with_config_data option_map].
    f_equal. exact Hv. }
  pose proof (preserves_populate_ui s2) as Hrep.
  split; [|split; [|split]].
  - rewrite (populate_ui_result s2 r Hinv2 eq_refl).
    destruct (document_object _ _ Hdoc2) as (r' & [= <-] & ->).
    apply defaults_populate.
  - rewrite (repaints_document _ _ Hrep). exact Hdoc2.
  - eapply repaints_inv; eassumption.
  - destruct Hrep as (_ & _ & _ & _ & _ & -> & _). apply Hext.
Qed.

(* ===================================================================== *)
(** ** Every state a window can be in *)
(* ===================================================================== *)

Lemma perform_inv a s : inv s -> inv (snd (perform a s)).
Proof.
  intros Hinv. destruct a as [| | reply | w txt | w | f wr]; cbn [perform].
  - apply load_config_inv, Hinv.
  - apply save_config_inv, Hinv.
  - destruct reply; [apply reset_to_defaults_spec, Hinv | exact Hinv].
  - destruct (cls (widget_at s w)), (isEnabled s w); try exact Hinv.
    eapply repaints_inv; [apply preserves_setText | exact Hinv].
  - destruct (cls (widget_at s w)), (isEnabled s w); try exact Hinv.
    eapply repaints_inv; [apply preserves_setChecked | exact Hinv].
  - cbn. destruct Hinv as [Hwf Hui].
    split; [eapply wf_same_store; [| | |exact Hwf]
           | eapply same_ui_ok; [|exact Hui]]; reflexivity.
Qed.

Lemma run_inv acts : forall s, inv s -> inv (run acts s).
Proof.
  induction acts as [|a acts IH]; intros s Hinv; [exact Hinv|].
  cbn. apply IH, perform_inv, Hinv.
Qed.

(** A state of a window: the form was built, then anything happened. *)
Definition reachable (s : MainWindow) : Prop :=
  exists f wr acts, s = run acts (built_window f wr).

Lemma reachable_inv s : reachable s -> inv s.
Proof. intros (f & wr & acts & ->). apply run_inv, inv_built. Qed.

Lemma reachable_built f wr : reachable (built_window f wr).
Proof. exists f, wr, []. unfold run. cbn [fold_left]. reflexivity. Qed.

Lemma reachable_perform a s : reachable s -> reachable (snd (perform a s)).
Proof.
  intros (f & wr & acts & ->). exists f, wr, (acts ++ [a]).
  unfold run. rewrite fold_left_app. cbn [fold_left]. reflexivity.
Qed.

Opaque built_window form.

(* ===================================================================== *)
(** ** Documents that fit the form *)
(* ===================================================================== *)

(** No key of the document is the name of a label or of a group box of
    the form, and a category that has controls is a dictionary: what
    [populate_ui] and the commit need in order not to raise. *)
Definition shaped (ws : list (string * wentry)) (d : list (string * json)) : Prop :=
  forall k e, In (k, e) ws -> Dict.mem k d = true ->
    exists fs, e = Fields fs
      /\ (fs = [] \/ exists cur, Dict.get k d = Some (JObj cur)).

Lemma for_fixed_ok {S A} (f : A -> St S unit) xs s :
  (forall x, snd (f x s) = s) ->
  (fst (for_ xs f s) = Ok tt <-> forall x, In x xs -> fst (f x s) = Ok tt).
Proof.
  intros Hf. induction xs as [|x xs IH]; cbn [for_].
  - split; [intros _ x [] | reflexivity].
  - unfold bind. pose proof (Hf x) as Hx.
    destruct (f x s) as [[[] | e] s1] eqn:E; cbn in Hx; subst s1.
    + rewrite IH. split.
      * intros H y [<- | Hy]; [rewrite E; reflexivity | auto].
      * intros H y Hy. apply H. cbn. auto.
    + split; [discriminate|]. intros H. specialize (H x (or_introl eq_refl)).
      rewrite E in H. exact H.
Qed.

Lemma populate_category_doc_ok ce d :
  fst (populate_category_doc ce d) = Ok tt <->
  (Dict.mem (fst ce) d = true ->
   exists fs, snd ce = Fields fs
     /\ (fs = [] \/ exists cur, Dict.get (fst ce) d = Some (JObj cur))).
Proof.
  destruct ce as [c e]. unfold populate_category_doc. cbn [fst snd].
  destruct (Dict.mem c d) eqn:Hmem; [|split; [discriminate | reflexivity]].
  destruct e as [w | fs].
  - split; [discriminate|]. intros H. destruct (H eq_refl) as (fs & [=] & _).
  - rewrite for_fixed_ok by (intros x; apply populate_field_doc_state).
    split.
    + intros H _. exists fs. split; [reflexivity|].
      destruct fs as [|kw rest]; [auto|]. right.
      specialize (H kw (or_introl eq_refl)). unfold populate_field_doc in H.
      destruct (Dict.get c d) as [[]|]; try discriminate. eauto.
    + intros H. destruct (H eq_refl) as (fs' & [= <-] & [-> | (cur & Hcur)]).
      * intros x [].
      * intros x _. unfold populate_field_doc. rewrite Hcur. reflexivity.
Qed.

(** [populate_ui] returns normally exactly on the documents that fit. *)
Lemma populate_doc_shaped ws d :
  fst (for_ ws populate_category_doc d) = Ok tt <-> shaped ws d.
Proof.
  rewrite for_fixed_ok by (intros x; apply populate_category_doc_state).
  unfold shaped. split.
  - intros H k e Hin. apply (populate_category_doc_ok (k, e) d), H, Hin.
  - intros H [k e] Hin. apply populate_category_doc_ok. cbn [fst snd].
    apply H, Hin.
Qed.

(* ===================================================================== *)
(** ** The commit on values *)
(* ===================================================================== *)

(** What the commit reads in a control. *)
Inductive reading :=
  | Skip                (* neither a line edit nor a check box *)
  | Value (x : json)
  | Bad.                (* a line edit whose text is not an integer *)

Definition read_control (q : qwidget) : reading :=
  match cls q with
  | QLineEdit =>
      match entered (text q) with
      | Some n => Value (JInt n)
      | None => Bad
      end
  | QCheckBox => Value (JBool (checked q))
  | _ => Skip
  end.

(** The commit of the controls of one category into its dictionary. *)
Fixpoint commit_fields (q : wid -> qwidget) (fs : list (string * wid))
    (cur : list (string * json)) : result unit * list (string * json) :=
  match fs with
  | [] => (Ok tt, cur)
  | (k, w) :: rest =>
      match read_control (q w) with
      | Skip => commit_fields q rest cur
      | Value x => commit_fields q rest (Dict.put k x cur)
      | Bad => (Raise ValueError, cur)
      end
  end.

Lemma commit_field_doc_eq q c k w d :
  commit_field_doc q c (k, w) d
  = match read_control (q w) with
    | Skip => (Ok tt, d)
    | Value x => store_field_doc c k x d
    | Bad => (Raise ValueError, d)
    end.
Proof.
  unfold commit_field_doc, read_control. cbn [fst snd].
  destruct (cls (q w)); try reflexivity.
  unfold bind. rewrite entered_int_eq.
  destruct (entered (text (q w))); reflexivity.
Qed.

Lemma for_commit_fields q c fs : forall d cur,
  Dict.get c d = Some (JObj cur) ->
  for_ fs (commit_field_doc q c) d
  = (fst (commit_fields q fs cur),
     Dict.put c (JObj (snd (commit_fields q fs cur))) d).
Proof.
  induction fs as [|[k w] rest IH]; intros d cur Hget; cbn [for_ commit_fields].
  - cbn. rewrite put_same by assumption. reflexivity.
  - unfold bind. rewrite commit_field_doc_eq.
    destruct (read_control (q w)) as [| x |].
    + apply IH, Hget.
    + unfold store_field_doc. rewrite Hget.
      rewrite (IH _ (Dict.put k x cur)) by apply get_put_eq.
      rewrite put_put. reflexivity.
    + cbn. rewrite put_same by assumption. reflexivity.
Qed.

(** The fields of a category after the commit of its controls. *)
Lemma commit_fields_get q fs : forall cur k,
  Dict.get k (snd (commit_fields q fs cur)) = Dict.get k cur
  \/ exists w x, In (k, w) fs /\ read_control (q w) = Value x
       /\ Dict.get k (snd (commit_fields q fs cur)) = Some x.
Proof.
  induction fs as [|[k0 w0] rest IH]; intros cur k; cbn [commit_fields]; [auto|].
  destruct (read_control (q w0)) as [| x |] eqn:Hr.
  - destruct (IH cur k) as [H | (w & x & Hin & Hw & H)]; [auto|].
    right. exists w, x. cbn. auto.
  - destruct (IH (Dict.put k0 x cur) k) as [H | (w & x' & Hin & Hw & H)].
    + rewrite H, get_put. destruct (String.eqb_spec k0 k) as [<- | Hne]; [|auto].
      right. exists w0, x. cbn. auto.
    + right. exists w, x'. cbn. auto.
  - auto.
Qed.

Lemma commit_fields_ok_get q fs : forall cur,
  NoDup (Dict.keys fs) -> fst (commit_fields q fs cur) = Ok tt ->
  forall k w, In (k, w) fs ->
    match read_control (q w) with
    | Skip => Dict.get k (snd (commit_fields q fs cur)) = Dict.get k cur
    | Value x => Dict.get k (snd (commit_fields q fs cur)) = Some x
    | Bad => False
    end.
Proof.
  induction fs as [|[k0 w0] rest IH]; intros cur Hnd Hok k w Hin; [destruct Hin|].
  cbn in Hnd. apply NoDup_cons in Hnd as [Hk0 Hnd].
  assert (Hfresh : forall cur', Dict.get k0 (snd (commit_fields q rest cur'))
                                = Dict.get k0 cur').
  { intros cur'. destruct (commit_fields_get q rest cur' k0)
      as [H | (w' & x' & Hin' & _)]; [exact H|].
    exfalso. apply Hk0, list_elem_of_In.
    change k0 with (fst (k0, w')). apply in_map, Hin'. }
  cbn [commit_fields] in *.
  destruct Hin as [[= -> ->] | Hin].
  - destruct (read_control (q w)) as [| x |]; [apply Hfresh | | discriminate].
    rewrite Hfresh. apply get_put_eq.
  - assert (Hne : k0 <> k).
    { intros ->. apply Hk0, list_elem_of_In.
      change k with (fst (k, w)). apply in_map, Hin. }
    destruct (read_control (q w0)) as [| x0 |]; [| |discriminate].
    + apply IH; assumption.
    + specialize (IH (Dict.put k0 x0 cur) Hnd Hok k w Hin).
      destruct (read_control (q w)); [|assumption..].
      rewrite IH. apply get_put_ne, Hne.
Qed.

Lemma commit_fields_keys q fs : forall cur k,
  Dict.mem k cur = true -> Dict.mem k (snd (commit_fields q fs cur)) = true.
Proof.
  induction fs as [|[k0 w0] rest IH]; intros cur k Hk; cbn [commit_fields]; [exact Hk|].
  destruct (read_control (q w0)); [auto | | exact Hk].
  apply IH. rewrite mem_put, Hk. apply orb_true_r.
Qed.

Lemma commit_fields_raise q fs : forall cur e,
  fst (commit_fields q fs cur) = Raise e ->
  e = ValueError /\ exists k w, In (k, w) fs /\ read_control (q w) = Bad.
Proof.
  induction fs as [|[k0 w0] rest IH]; intros cur e; cbn [commit_fields]; [discriminate|].
  destruct (read_control (q w0)) eqn:Hr.
  - intros H. destruct (IH _ _ H) as (-> & k & w & Hin & Hw).
    split; [reflexivity|]. exists k, w. cbn. auto.
  - intros H. destruct (IH _ _ H) as (-> & k & w & Hin & Hw).
    split; [reflexivity|]. exists k, w. cbn. auto.
  - intros [= <-]. split; [reflexivity|]. exists k0, w0. cbn. auto.
Qed.

Lemma commit_fields_bad q fs : forall cur k w,
  In (k, w) fs -> read_control (q w) = Bad ->
  fst (commit_fields q fs cur) = Raise ValueError.
Proof.
  induction fs as [|[k0 w0] rest IH]; intros cur k w Hin Hbad; [destruct Hin|].
  cbn [commit_fields]. destruct Hin as [[= -> ->] | Hin].
  - rewrite Hbad. reflexivity.
  - destruct (read_control (q w0)); eauto.
Qed.

(** The commit never adds or removes a category, never turns a category
    into something else, and never removes a field. *)
Definition same_cats (d d' : list (string * json)) : Prop :=
  forall c,
    match Dict.get c d with
    | None => Dict.get c d' = None
    | Some (JObj cur) =>
        exists cur', Dict.get c d' = Some (JObj cur')
          /\ forall k, Dict.mem k cur = true -> Dict.mem k cur' = true
    | Some j => Dict.get c d' = Some j
    end.

#[local] Instance same_cats_preorder : PreOrder same_cats.
Proof.
  split.
  - intros d c. destruct (Dict.get c d) as [[]|]; eauto.
  - intros d1 d2 d3 H12 H23 c. specialize (H12 c). specialize (H23 c).
    destruct (Dict.get c d1) as [[]|];
      try (rewrite H12 in H23; exact H23).
    destruct H12 as (cur2 & H2 & Hk2). rewrite H2 in H23.
    destruct H23 as (cur3 & H3 & Hk3). eauto.
Qed.

Lemma same_cats_mem d d' c : same_cats d d' -> Dict.mem c d' = Dict.mem c d.
Proof.
  intros H. specialize (H c). unfold Dict.mem.
  destruct (Dict.get c d) as [[]|]; try (rewrite H; reflexivity).
  destruct H as (cur' & -> & _). reflexivity.
Qed.

Lemma same_cats_shaped ws d d' : same_cats d d' -> shaped ws d -> shaped ws d'.
Proof.
  intros H Hs k e Hin Hmem. rewrite (same_cats_mem _ _ _ H) in Hmem.
  destruct (Hs k e Hin Hmem) as (fs & -> & [-> | (cur & Hcur)]); eauto.
  exists fs. split; [reflexivity|]. right.
  specialize (H k). rewrite Hcur in H. destruct H as (cur' & H & _). eauto.
Qed.

Lemma same_cats_populated table d d' :
  same_cats d d' -> populated table d -> populated table d'.
Proof.
  intros H Hp c fields Hin. destruct (Hp c fields Hin) as (cur & Hcur & Hall).
  specialize (H c). rewrite Hcur in H. destruct H as (cur' & H & Hk).
  exists cur'. split; [exact H|]. intros k v Hkv. apply Hk, (Hall k v Hkv).
Qed.

Lemma same_cats_put c cur cur' d :
  Dict.get c d = Some (JObj cur) ->
  (forall k, Dict.mem k cur = true -> Dict.mem k cur' = true) ->
  same_cats d (Dict.put c (JObj cur') d).
Proof.
  intros Hget Hk c'. rewrite get_put.
  destruct (String.eqb_spec c c') as [<- | Hne].
  - rewrite Hget. eauto.
  - destruct (Dict.get c' d) as [[]|]; eauto.
Qed.

(** One category of the form, on a document in which it is well formed. *)
Lemma commit_category_doc_eq q c e d :
  commit_category_doc q (c, e) d
  = if Dict.mem c d then
      match e with
      | Widget _ => (Raise AttributeError, d)
      | Fields fs =>
          match Dict.get c d with
          | Some (JObj cur) =>
              (fst (commit_fields q fs cur),
               Dict.put c (JObj (snd (commit_fields q fs cur))) d)
          | _ => for_ fs (commit_field_doc q c) d
          end
      end
    else (Ok tt, d).
Proof.
  unfold commit_category_doc. cbn [fst snd].
  destruct (Dict.mem c d); [|reflexivity].
  destruct e as [w | fs]; [reflexivity|].
  destruct (Dict.get c d) as [[]|] eqn:Hget; try reflexivity.
  apply for_commit_fields, Hget.
Qed.

Lemma commit_fields_not_dict q c fs d :
  (forall cur, Dict.get c d <> Some (JObj cur)) ->
  snd (for_ fs (commit_field_doc q c) d) = d.
Proof.
  intros H. apply for_fixed. intros [k w]. rewrite commit_field_doc_eq.
  destruct (read_control (q w)); try reflexivity.
  unfold store_field_doc. destruct (Dict.get c d) as [[]|] eqn:E; try reflexivity.
  destruct (H _ eq_refl).
Qed.

(** What one category of the form changes in the document. *)
Lemma commit_category_doc_step q c0 e0 d :
  let d1 := snd (commit_category_doc q (c0, e0) d) in
  same_cats d d1
  /\ (forall c, c <> c0 -> Dict.get c d1 = Dict.get c d)
  /\ (forall k,
        json_field c0 k (JObj d1) = json_field c0 k (JObj d)
        \/ exists fs w x, e0 = Fields fs /\ In (k, w) fs
             /\ read_control (q w) = Value x
             /\ json_field c0 k (JObj d1) = Some x).
Proof.
  intros d1. subst d1. rewrite commit_category_doc_eq.
  assert (Hsame : same_cats d d /\ (forall c, c <> c0 -> Dict.get c d = Dict.get c d)
            /\ forall k, json_field c0 k (JObj d) = json_field c0 k (JObj d)
                 \/ exists fs w x, e0 = Fields fs /\ In (k, w) fs
                      /\ read_control (q w) = Value x
                      /\ json_field c0 k (JObj d) = Some x).
  { split; [reflexivity | auto]. }
  destruct (Dict.mem c0 d); [|exact Hsame].
  destruct e0 as [w | fs]; [exact Hsame|].
  destruct (Dict.get c0 d) as [j|] eqn:Hget.
  2:{ rewrite commit_fields_not_dict by (rewrite Hget; discriminate). exact Hsame. }
  destruct j; try (rewrite commit_fields_not_dict by (rewrite Hget; discriminate);
                   exact Hsame).
  cbn [snd]. split; [|split].
  - eapply same_cats_put; [exact Hget|]. apply commit_fields_keys.
  - intros c Hne. apply get_put_ne. congruence.
  - intros k. cbn [json_field]. rewrite get_put_eq, Hget.
    destruct (commit_fields_get q fs entries k) as [H | (w & x & Hin & Hw & H)];
      [auto|].
    right. exists fs, w, x. auto.
Qed.

Lemma commit_doc_cons q ce ws d :
  commit_doc q (ce :: ws) d
  = match commit_category_doc q ce d with
    | (Ok _, d1) => commit_doc q ws d1
    | (Raise e, d1) => (Raise e, d1)
    end.
Proof.
  unfold commit_doc. cbn [for_]. unfold bind.
  destruct (commit_category_doc q ce d) as [[[] | e] d1]; reflexivity.
Qed.

Lemma json_field_get c k d d' :
  Dict.get c d' = Dict.get c d -> json_field c k (JObj d') = json_field c k (JObj d).
Proof. intros H. cbn. rewrite H. reflexivity. Qed.

(** What the commit changes in the document, however it ends: a field
    keeps its value or holds the value read in one of its controls. *)
Lemma commit_doc_frame q ws : forall d,
  let d' := snd (commit_doc q ws d) in
  same_cats d d'
  /\ (forall c, (forall fs, ~ In (c, Fields fs) ws) -> Dict.get c d' = Dict.get c d)
  /\ (forall c k,
        json_field c k (JObj d') = json_field c k (JObj d)
        \/ exists fs w x, In (c, Fields fs) ws /\ In (k, w) fs
             /\ read_control (q w) = Value x
             /\ json_field c k (JObj d') = Some x).
Proof.
  induction ws as [|[c0 e0] ws IH]; intros d d'; subst d'.
  - cbn. split; [reflexivity | auto].
  - rewrite commit_doc_cons.
    destruct (commit_category_doc_step q c0 e0 d) as (Hs1 & Hf1 & Hk1).
    assert (Hstep : forall c k,
      json_field c k (JObj (snd (commit_category_doc q (c0, e0) d)))
        = json_field c k (JObj d)
      \/ exists fs w x, In (c, Fields fs) ((c0, e0) :: ws) /\ In (k, w) fs
           /\ read_control (q w) = Value x
           /\ json_field c k (JObj (snd (commit_category_doc q (c0, e0) d))) = Some x).
    { intros c k. destruct (String.eqb_spec c c0) as [-> | Hne].
      - destruct (Hk1 k) as [H | (fs & w & x & -> & Hin & Hw & H)]; [auto|].
        right. exists fs, w, x. cbn. auto.
      - left. apply json_field_get, Hf1, Hne. }
    assert (Hnot : forall c, (forall fs, ~ In (c, Fields fs) ((c0, e0) :: ws)) ->
      Dict.get c (snd (commit_category_doc q (c0, e0) d)) = Dict.get c d).
    { intros c Hc. destruct (String.eqb_spec c c0) as [-> | Hne]; [|auto].
      rewrite commit_category_doc_eq.
      destruct (Dict.mem c0 d); [|reflexivity].
      destruct e0 as [w | fs]; [reflexivity|].
      exfalso. apply (Hc fs). cbn. auto. }
    destruct (commit_category_doc q (c0, e0) d) as [[[] | e] d1];
      cbn [fst snd] in *; [|auto].
    destruct (IH d1) as (Hs2 & Hf2 & Hk2).
    split; [|split].
    + etransitivity; eassumption.
    + intros c Hc. rewrite Hf2; [apply Hnot, Hc|].
      intros fs Hin. apply (Hc fs). cbn. auto.
    + intros c k. destruct (Hk2 c k) as [H | (fs & w & x & Hin & Hkw & Hw & H)].
      * rewrite H. apply Hstep.
      * right. exists fs, w, x. cbn. auto.
Qed.

Lemma In_keys {V} (k : string) (v : V) d : In (k, v) d -> In k (Dict.keys d).
Proof. intros H. unfold Dict.keys. change k with (fst (k, v)). apply in_map, H. Qed.

(** A commit that completes has stored what it read in every control of
    every category that the document has. *)
Lemma commit_doc_ok q ws :
  NoDup (Dict.keys ws) ->
  (forall c fs, In (c, Fields fs) ws -> NoDup (Dict.keys fs)) ->
  forall d, fst (commit_doc q ws d) = Ok tt ->
  forall c fs k w cur,
    In (c, Fields fs) ws -> In (k, w) fs -> Dict.get c d = Some (JObj cur) ->
    match read_control (q w) with
    | Skip => json_field c k (JObj (snd (commit_doc q ws d))) = Dict.get k cur
    | Value x => json_field c k (JObj (snd (commit_doc q ws d))) = Some x
    | Bad => False
    end.
Proof.
  induction ws as [|[c0 e0] ws IH]; intros Hnd Hfs d Hok c fs k w cur Hin Hkw Hget;
    [destruct Hin|].
  cbn in Hnd. apply NoDup_cons in Hnd as [Hc0 Hnd]. rewrite list_elem_of_In in Hc0.
  rewrite commit_doc_cons in Hok |- *.
  destruct (commit_category_doc_step q c0 e0 d) as (_ & Hf1 & _).
  destruct (commit_category_doc q (c0, e0) d) as [[[] | e] d1] eqn:Hstep;
    cbn [fst snd] in *; [|discriminate].
  destruct Hin as [[= -> ->] | Hin].
  - rewrite commit_category_doc_eq in Hstep.
    unfold Dict.mem in Hstep. rewrite Hget in Hstep. injection Hstep as Hcf <-.
    destruct (commit_doc_frame q ws (Dict.put c (JObj (snd (commit_fields q fs cur))) d))
      as (_ & Hframe & _).
    rewrite (json_field_get c k _ _ (Hframe c
               (fun fs' Hin' => Hc0 (In_keys _ _ _ Hin')))).
    cbn [json_field]. rewrite get_put_eq.
    apply commit_fields_ok_get; auto.
    apply (Hfs c fs). cbn. auto.
  - assert (Hne : c <> c0).
    { intros ->. apply Hc0. eapply In_keys, Hin. }
    apply (IH Hnd (fun c' fs' H' => Hfs c' fs' (or_intror H')) d1 Hok c fs k w cur
             Hin Hkw).
    rewrite Hf1 by assumption. exact Hget.
Qed.

Lemma shaped_cons ce ws d : shaped (ce :: ws) d -> shaped ws d.
Proof. intros H k e Hin. apply H. cbn. auto. Qed.

(** On a document that fits the form the commit can only stop on a text
    that is not an integer. *)
Lemma commit_doc_raise q ws : forall d e,
  shaped ws d -> fst (commit_doc q ws d) = Raise e ->
  e = ValueError
  /\ exists c fs k w, In (c, Fields fs) ws /\ In (k, w) fs
       /\ Dict.mem c d = true /\ read_control (q w) = Bad.
Proof.
  induction ws as [|[c0 e0] ws IH]; intros d e Hs Hraise; [discriminate|].
  rewrite commit_doc_cons in Hraise.
  destruct (commit_category_doc_step q c0 e0 d) as (Hsame & _ & _).
  pose proof (commit_category_doc_eq q c0 e0 d) as Heq.
  destruct (commit_category_doc q (c0, e0) d) as [[[] | e1] d1] eqn:Hstep;
    cbn [fst snd] in *.
  - destruct (IH d1 e (same_cats_shaped _ _ _ Hsame (shaped_cons _ _ _ Hs)) Hraise)
      as (-> & c & fs & k & w & Hin & Hkw & Hmem & Hbad).
    split; [reflexivity|]. exists c, fs, k, w.
    rewrite (same_cats_mem _ _ _ Hsame) in Hmem. cbn. auto.
  - injection Hraise as ->.
    destruct (Dict.mem c0 d) eqn:Hmem; [|discriminate].
    destruct (Hs c0 e0 (or_introl eq_refl) Hmem) as (fs & -> & [-> | (cur & Hcur)]).
    + destruct (Dict.get c0 d) as [[]|]; discriminate.
    + rewrite Hcur in Heq. injection Heq as Hcf _.
      destruct (commit_fields_raise q fs cur e (eq_sym Hcf)) as (-> & k & w & Hin & Hbad).
      split; [reflexivity|]. exists c0, fs, k, w. cbn. auto.
Qed.

(** A text that is not an integer, in a control of a category that the
    document has, stops the commit with [ValueError]. *)
Lemma commit_doc_bad q ws : forall d c fs k w,
  shaped ws d -> In (c, Fields fs) ws -> In (k, w) fs ->
  Dict.mem c d = true -> read_control (q w) = Bad ->
  fst (commit_doc q ws d) = Raise ValueError.
Proof.
  intros d c fs k w Hs Hin Hkw Hmem Hbad.
  destruct (fst (commit_doc q ws d)) as [[] | e] eqn:Hres.
  2:{ destruct (commit_doc_raise q ws d e Hs Hres) as [-> _]. reflexivity. }
  exfalso. revert d Hs Hmem Hres.
  induction ws as [|[c0 e0] ws IH]; intros d Hs Hmem Hres; [destruct Hin|].
  rewrite commit_doc_cons in Hres.
  destruct (commit_category_doc_step q c0 e0 d) as (Hsame & _ & _).
  pose proof (commit_category_doc_eq q c0 e0 d) as Heq.
  destruct (commit_category_doc q (c0, e0) d) as [[[] | e1] d1] eqn:Hstep;
    cbn [fst snd] in *; [|discriminate].
  destruct Hin as [[= -> ->] | Hin].
  - rewrite Hmem in Heq.
    destruct (Hs c (Fields fs) (or_introl eq_refl) Hmem) as (fs' & [= <-] & [-> | (cur & Hcur)]);
      [destruct Hkw|].
    rewrite Hcur in Heq. injection Heq as Hcf _.
    rewrite (commit_fields_bad q fs cur k w Hkw Hbad) in Hcf. discriminate.
  - apply (IH Hin d1); [| |exact Hres].
    + eapply same_cats_shaped; [exact Hsame | eapply shaped_cons, Hs].
    + rewrite (same_cats_mem _ _ _ Hsame). exact Hmem.
Qed.

(* ===================================================================== *)
(** ** The running program

    [__init__] returned normally, then the user and the environment act;
    the program itself never calls load_config again. *)
(* ===================================================================== *)

Inductive running : MainWindow -> Prop :=
  | running_init f wr s :
      __init__ (fresh_window f wr) = (Ok tt, s) -> running s
  | running_step a s :
      running s -> a <> DoLoad -> running (snd (perform a s)).

(** The document of a running program: a dictionary that fits the form
    and has every category and field of the table. *)
Definition good_document (s : MainWindow) : Prop :=
  exists d, document s = Some (JObj d)
    /\ shaped form_widgets d /\ populated DefaultsTable d.

Lemma defaults_rows : rows_not_empty DefaultsTable.
Proof. repeat constructor; discriminate. Qed.

Lemma NoDup_keys_check {V} (d : list (string * V)) :
  (fix go (l : list string) : bool :=
     match l with
     | [] => true
     | k :: r => negb (existsb (String.eqb k) r) && go r
     end) (Dict.keys d) = true ->
  NoDup (Dict.keys d).
Proof.
  generalize (Dict.keys d). intros l. induction l as [|k r IH]; intros H.
  - constructor.
  - apply andb_true_iff in H as [Hk Hr]. constructor; [|auto].
    rewrite list_elem_of_In. intros Hin.
    apply negb_true_iff in Hk.
    assert (existsb (String.eqb k) r = true); [|congruence].
    apply existsb_exists. exists k. split; [exact Hin | apply String.eqb_refl].
Qed.

Lemma defaults_keys : NoDup (Dict.keys DefaultsTable).
Proof. apply NoDup_keys_check. vm_compute. reflexivity. Qed.

Lemma form_keys : NoDup (Dict.keys form_widgets).
Proof. apply NoDup_keys_check. vm_compute. reflexivity. Qed.

Lemma form_fields_keys c fs : In (c, Fields fs) form_widgets -> NoDup (Dict.keys fs).
Proof.
  unfold form_widgets. cbn [In]. intros H.
  repeat (destruct H as [H | H]; [try discriminate H; injection H as <- <-;
                                  apply NoDup_keys_check; vm_compute; reflexivity|]).
  destruct H.
Qed.

Lemma init_ui_built f wr : init_ui (fresh_window f wr) = (Ok tt, built_window f wr).
Proof. vm_compute. reflexivity. Qed.

Lemma init_eq f wr : __init__ (fresh_window f wr) = load_config (built_window f wr).
Proof.
  unfold __init__. rewrite (bind_ok _ _ _ _ _ (init_ui_built f wr)). reflexivity.
Qed.

(** Static facts about the form, checked on its value. *)
Definition form_fits_table : bool :=
  forallb
    (fun ke =>
       match snd ke with
       | Widget _ => negb (Dict.mem (fst ke) DefaultsTable)
       | Fields fs =>
           match Dict.get (fst ke) DefaultsTable with
           | Some fields =>
               negb (Nat.eqb (length fs) 0)
               && forallb (fun kw => Dict.mem (fst kw) fields) fs
           | None => false
           end
       end)
    form_widgets.

Lemma form_fits_table_true : form_fits_table = true.
Proof. vm_compute. reflexivity. Qed.

Lemma form_widget_not_category k w :
  In (k, Widget w) form_widgets -> Dict.get k DefaultsTable = None.
Proof.
  intros Hin. pose proof form_fits_table_true as H. unfold form_fits_table in H.
  rewrite forallb_forall in H. specialize (H _ Hin). cbn [fst snd] in H.
  apply negb_true_iff, mem_false in H. exact H.
Qed.

Lemma form_fields_category c fs :
  In (c, Fields fs) form_widgets ->
  fs <> [] /\ exists fields, In (c, fields) DefaultsTable
    /\ forall k w, In (k, w) fs -> exists v, In (k, v) fields.
Proof.
  intros Hin. pose proof form_fits_table_true as H. unfold form_fits_table in H.
  rewrite forallb_forall in H. specialize (H _ Hin). cbn [fst snd] in H.
  destruct (Dict.get c DefaultsTable) as [fields|] eqn:Hget; [|discriminate].
  apply andb_true_iff in H as [Hlen Hall]. split.
  - intros ->. discriminate.
  - exists fields. split; [apply get_In, Hget|].
    intros k w Hkw. rewrite forallb_forall in Hall. specialize (Hall _ Hkw).
    cbn [fst] in Hall. apply mem_true in Hall as [v Hv]. exists v. apply get_In, Hv.
Qed.

(** A document that has every category of the table fits the form as
    soon as it has no key named like a label or a group box. *)
Lemma populated_shaped d :
  populated DefaultsTable d ->
  (forall k w, In (k, Widget w) form_widgets -> Dict.mem k d = false) ->
  shaped form_widgets d.
Proof.
  intros Hp Hw k e Hin Hmem. destruct e as [w | fs].
  - rewrite (Hw k w Hin) in Hmem. discriminate.
  - exists fs. split; [reflexivity|]. right.
    destruct (form_fields_category k fs Hin) as (_ & fields & Hf & _).
    destruct (Hp k fields Hf) as (cur & Hcur & _). eauto.
Qed.

Lemma save_config_document s d :
  inv s -> document s = Some (JObj d) ->
  document (snd (save_config s))
  = Some (JObj (snd (commit_doc (widget_at s) form_widgets d))).
Proof.
  intros Hinv Hdoc. destruct (document_object _ _ Hdoc) as (r & Hcfg & <-).
  destruct (save_config_try_spec s r Hinv Hcfg) as [Hd _].
  rewrite save_config_eq.
  destruct (save_config_try s) as [[[] | e] s1]; cbn [fst snd] in *; exact Hd.
Qed.

Lemma good_document_same s s' :
  document s' = document s -> good_document s -> good_document s'.
Proof. intros H (d & Hd & Hs & Hp). exists d. rewrite H. auto. Qed.

Lemma defaults_good_entries :
  shaped form_widgets defaults_entries /\ populated DefaultsTable defaults_entries.
Proof.
  split.
  - apply populate_doc_shaped, defaults_populate.
  - eapply fill_table_doc_populates;
      [apply defaults_rows | apply defaults_keys | apply defaults_filled].
Qed.

Lemma defaults_from_nothing : fill_table_doc DefaultsTable [] = (Ok tt, defaults_entries).
Proof. vm_compute. reflexivity. Qed.

(** The entries of the file, when it holds a JSON object. *)
Definition file_entries (f : file_state) : list (string * json) :=
  match f with
  | Holds (JObj d) => d
  | _ => []
  end.

(** What a load that returns normally has made: the document is what the
    defaulting pass makes of the entries of the file, or of nothing. *)
Lemma load_config_returns s :
  inv s -> fst (load_config s) = Ok tt ->
  exists d',
    fill_table_doc DefaultsTable (file_entries (config_file s)) = (Ok tt, d')
    /\ document (snd (load_config s)) = Some (JObj d')
    /\ shaped form_widgets d'
    /\ match config_file s with
       | Holds j => j = JObj (file_entries (config_file s))
       | _ => True
       end.
Proof.
  intros Hinv Hok. destruct (config_file s) as [| | | | j] eqn:Hf.
  - destruct (load_config_default s Hinv (or_introl Hf)) as [_ Hdoc].
    exists defaults_entries.
    split; [apply defaults_from_nothing|]. split; [exact Hdoc|].
    split; [apply defaults_good_entries | exact I].
  - destruct (load_config_unreadable s Hinv) as [H _].
    rewrite (H Hf) in Hok. discriminate.
  - destruct (load_config_unreadable s Hinv) as [_ H].
    rewrite (H Hf) in Hok. discriminate.
  - destruct (load_config_default s Hinv (or_intror Hf)) as [_ Hdoc].
    exists defaults_entries.
    split; [apply defaults_from_nothing|]. split; [exact Hdoc|].
    split; [apply defaults_good_entries | exact I].
  - destruct (classify j) as [a | entries] eqn:Hj.
    + destruct (load_config_not_object s j Hinv Hf) as [Hres _].
      { intros d ->. discriminate. }
      rewrite Hres in Hok. discriminate.
    + apply classify_inr in Hj. subst j.
      destruct (load_config_object s entries Hinv Hf) as [Hdoc Hres].
      rewrite Hok in Hres. cbn [file_entries].
      destruct (fill_table_doc DefaultsTable entries) as [[[] | e] d'] eqn:Hfill;
        cbn [fst snd] in *; [|discriminate].
      exists d'. split; [reflexivity|]. split; [exact Hdoc|].
      split; [|reflexivity]. apply populate_doc_shaped. symmetry. exact Hres.
Qed.

Lemma file_field_entries f c k :
  file_field f c k = json_field c k (JObj (file_entries f)).
Proof. destruct f as [| | | | []]; reflexivity. Qed.

Lemma running_good s : running s -> inv s /\ good_document s.
Proof.
  induction 1 as [f wr s Hinit | a s Hrun [Hinv Hgood] Ha].
  - rewrite init_eq in Hinit.
    pose proof (load_config_inv _ (inv_built f wr)) as [Hinv _].
    destruct (load_config_returns _ (inv_built f wr)) as (d' & Hfill & Hdoc & Hs & _).
    { rewrite Hinit. reflexivity. }
    rewrite Hinit in Hinv, Hdoc. cbn [snd] in *.
    split; [exact Hinv|]. exists d'. split; [exact Hdoc|]. split; [exact Hs|].
    eapply fill_table_doc_populates;
      [apply defaults_rows | apply defaults_keys | exact Hfill].
  - split; [apply perform_inv, Hinv|].
    destruct a as [| | reply | w txt | w | f wr]; cbn [perform].
    + congruence.
    + destruct Hgood as (d & Hd & Hs & Hp).
      exists (snd (commit_doc (widget_at s) form_widgets d)).
      split; [apply save_config_document; assumption|].
      destruct (commit_doc_frame (widget_at s) form_widgets d) as (Hsame & _ & _).
      split; [eapply same_cats_shaped | eapply same_cats_populated]; eassumption.
    + destruct reply; [|exact Hgood].
      destruct (reset_to_defaults_spec s Hinv) as (_ & Hdoc & _ & _).
      exists defaults_entries. split; [exact Hdoc | apply defaults_good_entries].
    + eapply good_document_same; [|exact Hgood].
      destruct (cls (widget_at s w)), (isEnabled s w); reflexivity.
    + eapply good_document_same; [|exact Hgood].
      destruct (cls (widget_at s w)), (isEnabled s w); try reflexivity.
      apply repaints_document, preserves_setChecked.
    + eapply good_document_same; [|exact Hgood]. reflexivity.
Qed.

Lemma running_reachable s : running s -> reachable s.
Proof.
  induction 1 as [f wr s Hinit | a s Hrun IH Ha].
  - rewrite init_eq in Hinit. exists f, wr, [DoLoad].
    unfold run. cbn [fold_left perform]. rewrite Hinit. reflexivity.
  - apply reachable_perform, IH.
Qed.

(* ===================================================================== *)
(** ** The fields of the document after the defaulting pass *)
(* ===================================================================== *)

(** The default of a field in a table. *)
Definition table_default (table : list (string * list (string * json)))
    (c k : string) : option json :=
  match Dict.get c table with
  | Some fields => Dict.get k fields
  | None => None
  end.

Lemma fill_table_doc_field table d d' :
  rows_not_empty table -> NoDup (Dict.keys table) ->
  fill_table_doc table d = (Ok tt, d') ->
  forall c k,
    json_field c k (JObj d')
    = match json_field c k (JObj d) with
      | Some x => Some x
      | None => table_default table c k
      end.
Proof.
  intros Hrows Hnd Hrun c k.
  destruct (fill_table_doc_get table Hrows Hnd d d' Hrun c) as [Hget Hcat].
  unfold table_default, json_field. rewrite Hget.
  destruct (Dict.get c table) as [fields|] eqn:Ht.
  - unfold Dict.mem in Hcat. rewrite Ht in Hcat. specialize (Hcat eq_refl).
    unfold category_of in *.
    destruct (Dict.get c d) as [[]|]; cbn; try congruence;
      rewrite get_fill_fields; reflexivity.
  - destruct (Dict.get c d) as [[]|]; try reflexivity.
    destruct (Dict.get k entries); reflexivity.
Qed.

Lemma fill_table_doc_other table d d' :
  rows_not_empty table -> NoDup (Dict.keys table) ->
  fill_table_doc table d = (Ok tt, d') ->
  forall c, Dict.get c table = None -> Dict.get c d' = Dict.get c d.
Proof.
  intros Hrows Hnd Hrun c Hc.
  destruct (fill_table_doc_get table Hrows Hnd d d' Hrun c) as [Hget _].
  rewrite Hc in Hget. exact Hget.
Qed.

Lemma defaults_row_keys c fields :
  In (c, fields) DefaultsTable -> NoDup (Dict.keys fields).
Proof.
  unfold DefaultsTable. cbn [In]. intros H.
  repeat (destruct H as [H | H]; [injection H as <- <-;
                                  apply NoDup_keys_check; vm_compute; reflexivity|]).
  destruct H.
Qed.

Lemma table_default_In c fields k v :
  In (c, fields) DefaultsTable -> In (k, v) fields ->
  table_default DefaultsTable c k = Some v.
Proof.
  intros Hc Hk. unfold table_default.
  rewrite (In_get c fields DefaultsTable defaults_keys Hc).
  apply In_get; [eapply defaults_row_keys, Hc | exact Hk].
Qed.

Lemma table_default_Some c k v :
  table_default DefaultsTable c k = Some v ->
  exists fields, In (c, fields) DefaultsTable /\ In (k, v) fields.
Proof.
  unfold table_default. destruct (Dict.get c DefaultsTable) as [fields|] eqn:Hc;
    [|discriminate].
  intros Hk. exists fields. split; apply get_In; assumption.
Qed.

(** The category [c] of the document of the window. *)
Definition category (s : MainWindow) (c : string) : option json :=
  match document s with
  | Some j => json_category c j
  | None => None
  end.

Definition file_category (f : file_state) (c : string) : option json :=
  match f with
  | Holds j => json_category c j
  | _ => None
  end.

Lemma file_category_entries f c :
  file_category f c = Dict.get c (file_entries f).
Proof. destruct f as [| | | | []]; reflexivity. Qed.

(** A file the window can work with: it holds a JSON object.. *)
Definition f_partial : file_state :=
  Holds (JObj [("money", JObj [("starting_money", JInt 500)]);
               ("extra", JObj [("note", JStr "kept")]);
               ("version", JInt 7)]).

(** C1. For every file from which load_config returns, the document has
    every category of DefaultsTable as a dictionary and every field of
    DefaultsTable in it; a field holds the value of the file when the
    file has one and the default otherwise, and every value of the file
    is left as it was: the defaulting pass only adds. *)
Theorem load_config_defaulting s :
  reachable s -> fst (load_config s) = Ok tt ->
  let s' := snd (load_config s) in
  (forall c fields, In (c, fields) DefaultsTable ->
     (exists cur, category s' c = Some (JObj cur))
     /\ forall k v, In (k, v) fields ->
          field s' c k
          = Some (match file_field (config_file s) c k with
                  | Some x => x
                  | None => v
                  end))
  /\ (forall c k x, file_field (config_file s) c k = Some x ->
        field s' c k = Some x).
Proof.
  intros Hreach Hok s'. pose proof (reachable_inv s Hreach) as Hinv.
  destruct (load_config_returns s Hinv Hok) as (d' & Hfill & Hdoc & _ & _).
  pose proof (fill_table_doc_field _ _ _ defaults_rows defaults_keys Hfill) as Hfield.
  assert (Hf : forall c k, field s' c k = json_field c k (JObj d')).
  { intros c k. unfold field, s'. rewrite Hdoc. reflexivity. }
  split.
  - intros c fields Hc. split.
    + destruct (fill_table_doc_populates _ _ _ defaults_rows defaults_keys Hfill
                  c fields Hc) as (cur & Hcur & _).
      exists cur. unfold category, s'. rewrite Hdoc. exact Hcur.
    + intros k v Hk. rewrite Hf, Hfield, file_field_entries.
      rewrite (table_default_In c fields k v Hc Hk).
      destruct (json_field c k (JObj (file_entries (config_file s)))); reflexivity.
  - intros c k x Hx. rewrite Hf, Hfield, <- file_field_entries, Hx. reflexivity.
Qed.

Lemma load_config_defaulting_witness :
  field (snd (load_config (built_window f_partial true))) "money" "starting_money"
    = Some (JInt 500)
  /\ field (snd (load_config (built_window f_partial true))) "money"
       "money_per_minute_amount" = Some (JInt 10).
Proof.
  assert (Hr : reachable (built_window f_partial true)) by apply reachable_built.
  assert (Hok : fst (load_config (built_window f_partial true)) = Ok tt)
    by (vm_compute; reflexivity).
  destruct (load_config_defaulting _ Hr Hok) as [Hdef Hkeep].
  split.
  - apply Hkeep. vm_compute. reflexivity.
  - destruct (Hdef "money" defaults_money) as [_ H].
    { unfold DefaultsTable. cbn [In]. auto. }
    apply (H "money_per_minute_amount" (JInt 10)).
    unfold defaults_money. cbn [In]. auto.
Defined.

(** A file whose category [money] is a number, not a dictionary. *)
Definition f_money_number : file_state := Holds (JObj [("money", JInt 5)]).

(** C3, as stated, fails: [{"money": 5}] is valid JSON, the [try]
    statement catches nothing, and the defaulting pass calls [setdefault]
    on the number 5: load_config raises [AttributeError]. *)
Lemma load_config_surfaces_error :
  fst (load_config (built_window f_money_number true)) = Raise AttributeError.
Proof. vm_compute. reflexivity. Qed.

(** A JSON object load_config can work with: every category of
    DefaultsTable that it has is a dictionary, and none of its keys is the
    name of a label or of a group box of the form. *)
Definition loadable (d : list (string * json)) : Prop :=
  (forall c, Dict.mem c DefaultsTable = true -> category_of d c <> None)
  /\ (forall k w, In (k, Widget w) form_widgets -> Dict.mem k d = false).

Definition is_loadable (d : list (string * json)) : bool :=
  forallb (fun c => match category_of d c with Some _ => true | None => false end)
    (Dict.keys DefaultsTable)
  && forallb (fun e => match snd e with
                       | Widget _ => negb (Dict.mem (fst e) d)
                       | Fields _ => true
                       end) form_widgets.

Lemma is_loadable_loadable d : is_loadable d = true -> loadable d.
Proof.
  unfold is_loadable. intros H. apply andb_true_iff in H as [Hc Hk].
  rewrite forallb_forall in Hc, Hk. split.
  - intros c Hmem. apply mem_true in Hmem as [fields Hget].
    specialize (Hc c (In_keys _ _ _ (get_In _ _ _ Hget))).
    destruct (category_of d c); [discriminate | discriminate Hc].
  - intros k w Hin. specialize (Hk _ Hin). cbn [fst snd] in Hk.
    destruct (Dict.mem k d); [discriminate Hk | reflexivity].
Qed.

(** C3, amended. load_config returns a document, and surfaces no error,
    for a missing file, for a file that is not JSON (in both cases the
    document is a new copy of DefaultsTable), and for a file that holds a
    JSON object in which the categories of DefaultsTable are dictionaries
    and no key is the name of a label or group box of the form. *)
Theorem load_config_recovers s :
  reachable s ->
  (config_file s = Missing \/ config_file s = NotJson ->
     fst (load_config s) = Ok tt
     /\ document (snd (load_config s)) = Some DefaultsDocument)
  /\ (forall d, config_file s = Holds (JObj d) -> loadable d ->
        fst (load_config s) = Ok tt
        /\ exists d', document (snd (load_config s)) = Some (JObj d')).
Proof.
  intros Hreach. pose proof (reachable_inv s Hreach) as Hinv. split.
  - apply load_config_default, Hinv.
  - intros d Hf [Hcats Hkeys].
    destruct (load_config_object s d Hinv Hf) as [Hdoc Hres].
    pose proof (fill_table_doc_ok DefaultsTable defaults_rows d Hcats) as Hok.
    destruct (fill_table_doc DefaultsTable d) as [[[] | e] d'] eqn:Hfill;
      cbn [fst snd] in *; [|discriminate].
    split; [|eauto]. rewrite Hres. apply populate_doc_shaped, populated_shaped.
    + eapply fill_table_doc_populates;
        [apply defaults_rows | apply defaults_keys | exact Hfill].
    + intros k w Hin. unfold Dict.mem.
      rewrite (fill_table_doc_other _ _ _ defaults_rows defaults_keys Hfill k
                 (form_widget_not_category k w Hin)).
      apply (Hkeys k w Hin).
Qed.

Lemma load_config_recovers_witness :
  (fst (load_config (built_window Missing true)) = Ok tt
   /\ document (snd (load_config (built_window Missing true)))
      = Some DefaultsDocument)
  /\ (fst (load_config (built_window f_partial true)) = Ok tt
      /\ exists d', document (snd (load_config (built_window f_partial true)))
                    = Some (JObj d')).
Proof.
  split.
  - apply (load_config_recovers (built_window Missing true)).
    + apply reachable_built.
    + left. vm_compute. reflexivity.
  - refine (proj2 (load_config_recovers (built_window f_partial true) _) _ _ _).
    + apply reachable_built.
    + vm_compute. reflexivity.
    + apply is_loadable_loadable. vm_compute. reflexivity.
Defined.

(** The fields of the table, read in DefaultsDocument. *)
Lemma defaults_document_field c k :
  json_field c k DefaultsDocument = table_default DefaultsTable c k.
Proof.
  unfold DefaultsDocument, table_default. cbn [json_field].
  rewrite (get_map_values JObj c DefaultsTable).
  destruct (Dict.get c DefaultsTable); reflexivity.
Qed.

(** C5. Whatever the document was, reset_to_defaults with the answer Yes
    returns normally and leaves a document equal to DefaultsTable: every
    field of the table holds its default and nothing else is in the
    document. With the answer No nothing changes at all. *)
Theorem reset_to_defaults_total acts f wr :
  let s := run acts (built_window f wr) in
  fst (reset_to_defaults true s) = Ok tt
  /\ document (snd (reset_to_defaults true s)) = Some DefaultsDocument
  /\ (forall c k, field (snd (reset_to_defaults true s)) c k
                  = table_default DefaultsTable c k)
  /\ reset_to_defaults false s = (Ok tt, s).
Proof.
  intros s.
  assert (Hinv : inv s) by (apply run_inv, inv_built).
  destruct (reset_to_defaults_spec s Hinv) as (Hok & Hdoc & _ & _).
  split; [exact Hok|]. split; [exact Hdoc|]. split; [|reflexivity].
  intros c k. unfold field. rewrite Hdoc. apply defaults_document_field.
Qed.

(** C10. After any sequence of loads, saves, resets, edits and changes of
    the file, [FALLBACK_DEFAULTS] is the table it was when the module was
    imported, and the document of the window shares no dictionary with
    it: the document is another object and so is each of its categories. *)
Theorem defaults_never_mutated acts f wr :
  let s := run acts (built_window f wr) in
  view_top s (TDict FALLBACK_DEFAULTS) = DefaultsDocument
  /\ forall r, config_data s = Some (TDict r) ->
       r <> FALLBACK_DEFAULTS
       /\ Forall (fun r' => (length module_cats <= r')%nat) (refs_of (deref_top s r)).
Proof.
  intros s.
  assert (Hinv : inv s) by (apply run_inv, inv_built).
  destruct Hinv as [[Hpt Hpc Hdoc] _]. split.
  - destruct Hpt as [t Ht], Hpc as [c Hc].
    unfold view_top, view_entries, deref_top, view_value, deref_cat.
    rewrite Ht, Hc. reflexivity.
  - intros r Hr. destruct (Hdoc _ Hr) as (Hlen & _ & Hall). split.
    + unfold FALLBACK_DEFAULTS. cbn in Hlen. lia.
    + eapply Forall_impl; [exact Hall|]. cbv beta. intros; lia.
Qed.

Lemma form_control_default c fs k w :
  In (c, Fields fs) form_widgets -> In (k, w) fs ->
  exists v, table_default DefaultsTable c k = Some v.
Proof.
  intros Hc Hk. destruct (form_fields_category c fs Hc) as (_ & fields & Hf & Hall).
  destruct (Hall k w Hk) as [v Hv]. exists v. eapply table_default_In; eassumption.
Qed.

Lemma form_fields_in_table c fs :
  In (c, Fields fs) form_widgets -> Dict.get c DefaultsTable <> None.
Proof.
  intros Hc. destruct (form_fields_category c fs Hc) as (_ & fields & Hf & _).
  rewrite (In_get c fields DefaultsTable defaults_keys Hf). discriminate.
Qed.

(** What a save that completes has done, whatever the document is. *)
Lemma save_config_try_returns s :
  inv s -> fst (save_config_try s) = Ok tt ->
  let s' := snd (save_config_try s) in
  exists j j', document s = Some j /\ document s' = Some j'
    /\ config_file s' = Holds j'
    /\ match j with
       | JObj d =>
           commit_doc (widget_at s) form_widgets d
           = (Ok tt, match j' with JObj d' => d' | _ => [] end)
           /\ exists d', j' = JObj d'
       | _ => j' = j
       end.
Proof.
  intros Hinv Hok s'. subst s'.
  destruct (config_data s) as [[a | r] |] eqn:Hcfg.
  - assert (Hno : no_document s) by (intros r; rewrite Hcfg; discriminate).
    pose proof (commit_no_document s Hno) as Hc.
    unfold save_config_try in *.
    destruct (commit s) as [[[] | e] s1] eqn:Hcs; cbn [snd] in Hc; subst s1.
    2:{ rewrite (bind_raise _ _ _ _ _ Hcs) in Hok. discriminate. }
    rewrite (bind_ok _ _ _ _ _ Hcs) in Hok |- *.
    pose proof (write_config_eq s _ Hcfg) as Hw.
    destruct (writable s).
    + rewrite (bind_ok _ _ _ _ _ Hw). cbn [message modify snd].
      exists (json_of_atom a), (json_of_atom a).
      unfold document. cbn. rewrite Hcfg. cbn.
      repeat split; try reflexivity. destruct a; reflexivity.
    + rewrite (bind_raise _ _ _ _ _ Hw) in Hok. discriminate.
  - destruct (save_config_try_spec s r Hinv Hcfg) as [Hdoc Hcase].
    set (out := commit_doc (widget_at s) form_widgets (doc_entries s r)) in *.
    exists (JObj (doc_entries s r)), (JObj (snd out)).
    split; [unfold document; rewrite Hcfg; reflexivity|].
    split; [exact Hdoc|].
    destruct (fst out) as [[] |] eqn:Hout.
    + destruct (writable s).
      * destruct Hcase as (_ & Hfile & _). split; [exact Hfile|].
        split; [|eauto]. fold out. destruct out as [res d']. cbn in *. congruence.
      * destruct Hcase as [Hres _]. congruence.
    + destruct Hcase as [Hres _]. congruence.
  - exfalso. unfold save_config_try in Hok.
    assert (Hno : no_document s) by (intros r; rewrite Hcfg; discriminate).
    pose proof (commit_no_document s Hno) as Hc.
    destruct (commit s) as [[[] | e] s1] eqn:Hcs; cbn [snd] in Hc; subst s1.
    2:{ rewrite (bind_raise _ _ _ _ _ Hcs) in Hok. discriminate. }
    rewrite (bind_ok _ _ _ _ _ Hcs) in Hok.
    assert (Hw : write_config s = (Raise AttributeError, s)).
    { unfold write_config. apply bind_raise. unfold get_config_data.
      rewrite Hcfg. reflexivity. }
    rewrite (bind_raise _ _ _ _ _ Hw) in Hok. discriminate.
Qed.

(** C7. What a file has beyond DefaultsTable, categories and fields, is
    in the document after load_config exactly as it was in the file; a
    save that completes leaves it in the document as it was and writes
    the whole document to the file. *)
Theorem unknown_entries_kept s :
  reachable s ->
  (fst (load_config s) = Ok tt ->
     let s' := snd (load_config s) in
     (forall c, Dict.get c DefaultsTable = None ->
        category s' c = file_category (config_file s) c)
     /\ (forall c k, table_default DefaultsTable c k = None ->
           field s' c k = file_field (config_file s) c k))
  /\ (fst (save_config_try s) = Ok tt ->
        let s' := snd (save_config_try s) in
        (exists j, document s' = Some j /\ config_file s' = Holds j)
        /\ (forall c, Dict.get c DefaultsTable = None ->
              category s' c = category s c)
        /\ (forall c k, table_default DefaultsTable c k = None ->
              field s' c k = field s c k)).
Proof.
  intros Hreach. pose proof (reachable_inv s Hreach) as Hinv. split.
  - intros Hok s'.
    destruct (load_config_returns s Hinv Hok) as (d' & Hfill & Hdoc & _ & _).
    split.
    + intros c Hc. unfold category, s'. rewrite Hdoc, file_category_entries.
      apply (fill_table_doc_other _ _ _ defaults_rows defaults_keys Hfill c Hc).
    + intros c k Hk. unfold field, s'. rewrite Hdoc, file_field_entries.
      rewrite (fill_table_doc_field _ _ _ defaults_rows defaults_keys Hfill), Hk.
      destruct (json_field c k (JObj (file_entries (config_file s)))); reflexivity.
  - intros Hok s'.
    destruct (save_config_try_returns s Hinv Hok) as (j & j' & Hd & Hd' & Hfile & Hcase).
    fold s' in Hd', Hfile. split; [eauto|].
    unfold category, field. rewrite Hd, Hd'.
    destruct j; try (subst j'; split; reflexivity).
    destruct Hcase as (Hcommit & d' & ->).
    destruct (commit_doc_frame (widget_at s) form_widgets entries) as (_ & Hother & Hfields).
    rewrite Hcommit in Hother, Hfields. cbn [snd] in Hother, Hfields.
    split.
    + intros c Hc. cbn [json_category]. apply Hother.
      intros fs Hin. apply (form_fields_in_table c fs Hin Hc).
    + intros c k Hk. destruct (Hfields c k) as [H | (fs & w & x & Hc & Hkw & _)];
        [exact H|].
      destruct (form_control_default c fs k w Hc Hkw) as [v Hv]. congruence.
Qed.

Lemma unknown_entries_kept_witness :
  category (snd (load_config (built_window f_partial true))) "version"
    = Some (JInt 7)
  /\ field (snd (load_config (built_window f_partial true))) "extra" "note"
       = Some (JStr "kept")
  /\ field (snd (save_config_try (snd (load_config (built_window f_partial true)))))
       "extra" "note" = Some (JStr "kept").
Proof.
  pose proof (unknown_entries_kept _ (reachable_built f_partial true)) as [Hload _].
  destruct Hload as [Hcat Hfield]; [vm_compute; reflexivity|].
  pose proof (unknown_entries_kept _
                (reachable_perform DoLoad _ (reachable_built f_partial true)))
    as [_ Hsave].
  cbn [perform] in Hsave.
  destruct Hsave as (_ & _ & Hkept); [vm_compute; reflexivity|].
  split; [|split].
  - rewrite Hcat by reflexivity. vm_compute. reflexivity.
  - rewrite Hfield by reflexivity. vm_compute. reflexivity.
  - rewrite Hkept by reflexivity. rewrite Hfield by reflexivity.
    vm_compute. reflexivity.
Defined.

(* ===================================================================== *)
(** ** The commit of a running program *)
(* ===================================================================== *)

Lemma commit_document s d :
  inv s -> document s = Some (JObj d) ->
  fst (commit s) = fst (commit_doc (widget_at s) form_widgets d)
  /\ document (snd (commit s))
     = Some (JObj (snd (commit_doc (widget_at s) form_widgets d)))
  /\ ui (snd (commit s)) = ui s /\ env (snd (commit s)) = env s.
Proof.
  intros [Hwf Hui] Hdoc. destruct (document_object _ _ Hdoc) as (r & Hcfg & <-).
  destruct (commit_sim s r Hwf Hcfg) as [Hres H].
  rewrite (ui_ok_widgets s Hui) in Hres, H.
  split; [exact Hres|]. split; [eapply holds_document, H|]. split; apply H.
Qed.

(** The control of a field in the form. *)
Definition control (ws : list (string * wentry)) (c k : string) : option wid :=
  match Dict.get c ws with
  | Some (Fields fs) => Dict.get k fs
  | _ => None
  end.

Lemma control_In ws c k w :
  control ws c k = Some w ->
  exists fs, In (c, Fields fs) ws /\ In (k, w) fs.
Proof.
  unfold control. destruct (Dict.get c ws) as [[w' | fs] |] eqn:Hc; try discriminate.
  intros Hk. exists fs. split; apply get_In; assumption.
Qed.

Lemma In_control c fs k w :
  In (c, Fields fs) form_widgets -> In (k, w) fs -> control form_widgets c k = Some w.
Proof.
  intros Hc Hk. unfold control. rewrite (In_get c (Fields fs) form_widgets form_keys Hc).
  apply In_get; [eapply form_fields_keys, Hc | exact Hk].
Qed.

(** In a running program every category that has controls is a
    dictionary of the document. *)
Lemma running_category c fs d :
  populated DefaultsTable d -> In (c, Fields fs) form_widgets ->
  exists cur, Dict.get c d = Some (JObj cur).
Proof.
  intros Hp Hc. destruct (form_fields_category c fs Hc) as (_ & fields & Hf & _).
  destruct (Hp c fields Hf) as (cur & Hcur & _). eauto.
Qed.

(** A commit that completes, in a running program: every control was
    read, and its field holds what was read. *)
Lemma commit_reads s c k w :
  running s -> control (widgets s) c k = Some w -> fst (commit s) = Ok tt ->
  match read_control (widget_at s w) with
  | Value x => field (snd (commit s)) c k = Some x
  | Skip => field (snd (commit s)) c k = field s c k
  | Bad => False
  end.
Proof.
  intros Hrun Hctl Hok.
  destruct (running_good s Hrun) as [Hinv (d & Hdoc & Hs & Hp)].
  rewrite (ui_ok_widgets s (proj2 Hinv)) in Hctl.
  destruct (control_In _ _ _ _ Hctl) as (fs & Hc & Hk).
  destruct (commit_document s d Hinv Hdoc) as (Hres & Hdoc' & _).
  rewrite Hok in Hres. symmetry in Hres.
  destruct (running_category c fs d Hp Hc) as (cur & Hcur).
  pose proof (commit_doc_ok (widget_at s) form_widgets form_keys form_fields_keys
                d Hres c fs k w cur Hc Hk Hcur) as H.
  unfold field. rewrite Hdoc', Hdoc.
  destruct (read_control (widget_at s w)); try exact H.
  rewrite H. cbn [json_field]. rewrite Hcur. reflexivity.
Qed.

Lemma is_empty_true s : Text.is_empty s = true -> s = "".
Proof. destruct s; [reflexivity | discriminate]. Qed.

(** The window of a first run: no file, the form built and loaded. *)
Definition first_run : MainWindow :=
  snd (__init__ (fresh_window Missing true)).

Lemma running_first_run : running first_run.
Proof. apply (running_init Missing true). vm_compute. reflexivity. Qed.

(** The line edits of [money.starting_money] and of
    [general.autosave_interval_ms], and an edit of each. *)
Definition edit_starting_money : wid := 14%nat.
Definition edit_autosave : wid := 10%nat.

(** C6. In a commit that completes, a text control whose text is empty
    gives its field the value 0, and a text control whose text is not
    empty gives its field the integer the text parses to.  (The text is
    stripped first, so a text of white space alone gives 0 as well.) *)
Theorem commit_text_control s c fs k w txt :
  running s ->
  Dict.get c (widgets s) = Some (Fields fs) -> Dict.get k fs = Some w ->
  cls (widget_at s w) = QLineEdit -> text (widget_at s w) = Text txt ->
  fst (commit s) = Ok tt ->
  (txt = "" -> field (snd (commit s)) c k = Some (JInt 0))
  /\ (forall n, txt <> "" -> Text.py_int txt = Some n ->
        field (snd (commit s)) c k = Some (JInt n))
  /\ (Text.strip txt = "" -> field (snd (commit s)) c k = Some (JInt 0)).
Proof.
  intros Hrun Hc Hk Hcls Htxt Hok.
  assert (Hctl : control (widgets s) c k = Some w).
  { unfold control. rewrite Hc. exact Hk. }
  pose proof (commit_reads s c k w Hrun Hctl Hok) as H.
  unfold read_control in H. rewrite Hcls, Htxt in H. cbn [entered] in H.
  split; [|split].
  - intros ->. exact H.
  - intros n Hne Hn.
    destruct (Text.is_empty (Text.strip txt)) eqn:He.
    + apply is_empty_true in He. unfold Text.py_int in Hn. rewrite He in Hn.
      discriminate.
    + rewrite Text.py_int_strip, Hn in H. exact H.
  - intros He. rewrite He in H. exact H.
Qed.

Lemma commit_text_control_witness :
  field (snd (commit (run [DoType edit_starting_money ""; DoType edit_autosave " 42"]
                        first_run)))
    "money" "starting_money" = Some (JInt 0)
  /\ field (snd (commit (run [DoType edit_starting_money ""; DoType edit_autosave " 42"]
                           first_run)))
       "general" "autosave_interval_ms" = Some (JInt 42).
Proof.
  set (s := run [DoType edit_starting_money ""; DoType edit_autosave " 42"] first_run).
  assert (Hrun : running s).
  { unfold s, run. cbn [fold_left].
    apply running_step; [|discriminate].
    apply running_step; [|discriminate].
    apply running_first_run. }
  assert (Hok : fst (commit s) = Ok tt) by (vm_compute; reflexivity).
  split.
  - refine (proj1 (commit_text_control s "money"
       [("starting_money", 14%nat); ("money_per_minute_amount", 17%nat);
        ("money_per_minute_interval_ms", 20%nat); ("cool_message_interval_ms", 23%nat)]
       "starting_money" edit_starting_money "" Hrun _ _ _ _ Hok) eq_refl);
      vm_compute; reflexivity.
  - refine (proj1 (proj2 (commit_text_control s "general"
       [("autosave_interval_ms", 10%nat)]
       "autosave_interval_ms" edit_autosave " 42" Hrun _ _ _ _ Hok)) 42 _ _);
      try (vm_compute; reflexivity).
    discriminate.
Defined.

(** A first run in which the user has typed [5] for the autosave interval
    and [abc] for the starting money. *)
Definition s_abc : MainWindow :=
  run [DoType edit_starting_money "abc"; DoType edit_autosave "5"] first_run.

(** The same text without any typing of it: the file holds a string where
    an amount is expected, load_config shows it in the line edit, and the
    user then edits the autosave interval. *)
Definition f_abc : file_state :=
  Holds (JObj [("money", JObj [("starting_money", JStr "abc")])]).
Definition s_abc_loaded : MainWindow :=
  run [DoType edit_autosave "5"] (snd (__init__ (fresh_window f_abc true))).

(** C2, as stated, fails: the commit writes into the document as it goes,
    category after category in the order of the form, and nothing is
    rolled back when a later text is not an integer. Here [general] is
    committed before [money] raises. *)
Lemma commit_not_atomic :
  (fst (commit s_abc) = Raise ValueError
   /\ field s_abc "general" "autosave_interval_ms" = Some (JInt 120000)
   /\ field (snd (commit s_abc)) "general" "autosave_interval_ms" = Some (JInt 5)
   /\ document (snd (commit s_abc)) <> document s_abc
   /\ document (snd (save_config s_abc)) <> document s_abc)
  /\ (fst (__init__ (fresh_window f_abc true)) = Ok tt
      /\ fst (commit s_abc_loaded) = Raise ValueError
      /\ field s_abc_loaded "general" "autosave_interval_ms" = Some (JInt 120000)
      /\ field (snd (save_config s_abc_loaded)) "general" "autosave_interval_ms"
         = Some (JInt 5)).
Proof.
  assert (Hf : forall d d' : option json, d = d' ->
            match d with
            | Some j => json_field "general" "autosave_interval_ms" j
            | None => None
            end
            = match d' with
              | Some j => json_field "general" "autosave_interval_ms" j
              | None => None
              end).
  { intros d d' ->. reflexivity. }
  split.
  - split; [vm_compute; reflexivity|]. split; [vm_compute; reflexivity|].
    split; [vm_compute; reflexivity|].
    split; intros H; apply Hf in H; vm_compute in H; discriminate.
  - split; [vm_compute; reflexivity|]. split; [vm_compute; reflexivity|].
    split; vm_compute; reflexivity.
Qed.

Lemma save_config_raised s r e :
  inv s -> config_data s = Some (TDict r) ->
  fst (commit_doc (widget_at s) form_widgets (doc_entries s r)) = Raise e ->
  shown (snd (save_config s)) = shown s ++ [Critical e]
  /\ config_file (snd (save_config s)) = config_file s.
Proof.
  intros Hinv Hcfg Hraise.
  destruct (save_config_try_spec s r Hinv Hcfg) as [_ Hcase].
  rewrite Hraise in Hcase. destruct Hcase as (Hres & Hfile & Hshown).
  rewrite save_config_eq.
  destruct (save_config_try s) as [[[] | e'] s1]; cbn [fst snd] in *; [discriminate|].
  injection Hres as ->. cbn. rewrite Hshown. auto.
Qed.

(** C2, amended. When a text control holds a text that is not an
    integer, the commit raises [ValueError], save_config shows the error
    box and leaves [config.json] exactly as it was: nothing is persisted.
    The document in memory is not rolled back: a field without a control
    keeps its value, and a field with a control keeps its value or holds
    the value read in its control. *)
Theorem save_config_invalid_text s c fs k w :
  running s ->
  Dict.get c (widgets s) = Some (Fields fs) -> Dict.get k fs = Some w ->
  cls (widget_at s w) = QLineEdit -> entered (text (widget_at s w)) = None ->
  let s' := snd (save_config s) in
  fst (commit s) = Raise ValueError
  /\ shown s' = shown s ++ [Critical ValueError]
  /\ config_file s' = config_file s
  /\ (forall c' k', control (widgets s) c' k' = None ->
        field s' c' k' = field s c' k')
  /\ (forall c' k' w', control (widgets s) c' k' = Some w' ->
        field s' c' k' = field s c' k'
        \/ exists x, read_control (widget_at s w') = Value x
             /\ field s' c' k' = Some x).
Proof.
  intros Hrun Hc Hk Hcls Hent s'.
  destruct (running_good s Hrun) as [Hinv (d & Hdoc & Hs & Hp)].
  pose proof (ui_ok_widgets s (proj2 Hinv)) as Hws. rewrite Hws in *.
  pose proof (get_In _ _ _ Hc) as Hcin. pose proof (get_In _ _ _ Hk) as Hkin.
  destruct (running_category c fs d Hp Hcin) as (cur & Hcur).
  assert (Hbad : read_control (widget_at s w) = Bad).
  { unfold read_control. rewrite Hcls, Hent. reflexivity. }
  assert (Hraise : fst (commit_doc (widget_at s) form_widgets d) = Raise ValueError).
  { apply (commit_doc_bad _ _ d c fs k w Hs Hcin Hkin); [|exact Hbad].
    unfold Dict.mem. rewrite Hcur. reflexivity. }
  destruct (commit_document s d Hinv Hdoc) as (Hres & _).
  destruct (document_object _ _ Hdoc) as (r & Hcfg & Hd).
  rewrite <- Hd in Hraise.
  destruct (save_config_raised s r ValueError Hinv Hcfg Hraise) as [Hshown Hfile].
  rewrite Hd in Hraise.
  split; [congruence|]. split; [exact Hshown|]. split; [exact Hfile|].
  pose proof (save_config_document s d Hinv Hdoc) as Hdoc'.
  destruct (commit_doc_frame (widget_at s) form_widgets d) as (_ & _ & Hfields).
  unfold field, s'. rewrite Hdoc', Hdoc. split.
  - intros c' k' Hnone.
    destruct (Hfields c' k') as [H | (fs' & w' & x & Hc' & Hk' & _)]; [exact H|].
    rewrite (In_control c' fs' k' w' Hc' Hk') in Hnone. discriminate.
  - intros c' k' w' Hsome.
    destruct (Hfields c' k') as [H | (fs' & w'' & x & Hc' & Hk' & Hx & H)]; [auto|].
    rewrite (In_control c' fs' k' w'' Hc' Hk') in Hsome. injection Hsome as ->.
    right. eauto.
Qed.

Lemma save_config_invalid_text_witness :
  fst (commit s_abc) = Raise ValueError
  /\ shown (snd (save_config s_abc)) = shown s_abc ++ [Critical ValueError]
  /\ config_file (snd (save_config s_abc)) = config_file s_abc.
Proof.
  assert (Hrun : running s_abc).
  { unfold s_abc, run. cbn [fold_left].
    apply running_step; [|discriminate].
    apply running_step; [|discriminate].
    apply running_first_run. }
  destruct (save_config_invalid_text s_abc "money"
       [("starting_money", 14%nat); ("money_per_minute_amount", 17%nat);
        ("money_per_minute_interval_ms", 20%nat); ("cool_message_interval_ms", 23%nat)]
       "starting_money" edit_starting_money Hrun)
    as (H1 & H2 & H3 & _); try (vm_compute; reflexivity).
  auto.
Defined.

(** A commit that completes met no key of the document named like a
    label or a group box of the form. *)
Lemma commit_doc_ok_widgets q ws : forall d,
  fst (commit_doc q ws d) = Ok tt ->
  forall k w, In (k, Widget w) ws -> Dict.mem k d = false.
Proof.
  induction ws as [|[c0 e0] ws IH]; intros d Hok k w Hin; [destruct Hin|].
  rewrite commit_doc_cons in Hok.
  destruct (commit_category_doc_step q c0 e0 d) as (Hsame & _ & _).
  pose proof (commit_category_doc_eq q c0 e0 d) as Heq.
  destruct (commit_category_doc q (c0, e0) d) as [[[] | e1] d1]; cbn [fst snd] in *;
    [|discriminate].
  destruct Hin as [[= -> ->] | Hin].
  - destruct (Dict.mem k d); [discriminate | reflexivity].
  - rewrite <- (same_cats_mem _ _ k Hsame). apply (IH d1 Hok k w Hin).
Qed.

(** C4. When a save completes and the document saved has every category
    and field of DefaultsTable, load_config from the file just written
    returns normally and the document it makes is the document saved. *)
Theorem save_then_load s s1 d :
  reachable s ->
  save_config_try s = (Ok tt, s1) ->
  document s1 = Some (JObj d) -> populated DefaultsTable d ->
  fst (load_config s1) = Ok tt
  /\ document (snd (load_config s1)) = document s1.
Proof.
  intros Hreach Hsave Hdoc Hp. pose proof (reachable_inv s Hreach) as Hinv.
  destruct (save_config_try_inv s Hinv) as [Hinv1 _].
  destruct (save_config_try_returns s Hinv) as (j & j' & Hd & Hd' & Hfile & Hcase).
  { rewrite Hsave. reflexivity. }
  rewrite Hsave in Hinv1, Hd', Hfile. cbn [snd] in *.
  rewrite Hdoc in Hd'. injection Hd' as <-.
  assert (Hshaped : shaped form_widgets d).
  { apply populated_shaped; [exact Hp|]. intros k w Hin.
    destruct j; try discriminate Hcase. destruct Hcase as [Hcommit _].
    destruct (commit_doc_frame (widget_at s) form_widgets entries) as (Hsame & _).
    rewrite Hcommit in Hsame. cbn [snd] in Hsame.
    rewrite (same_cats_mem _ _ k Hsame).
    apply (commit_doc_ok_widgets (widget_at s) form_widgets entries) with (w := w);
      [|exact Hin].
    rewrite Hcommit. reflexivity. }
  destruct (load_config_object s1 d Hinv1 Hfile) as [Hdoc1 Hres].
  rewrite (fill_table_doc_populated _ _ Hp) in Hdoc1, Hres. cbn [fst snd] in *.
  split; [|congruence].
  rewrite Hres. apply populate_doc_shaped, Hshaped.
Qed.

(** A first run in which the user has typed [250] for the starting money. *)
Definition s_edited : MainWindow :=
  run [DoType edit_starting_money "250"] first_run.

Lemma running_s_edited : running s_edited.
Proof.
  unfold s_edited, run. cbn [fold_left].
  apply running_step; [apply running_first_run | discriminate].
Qed.

Lemma save_then_load_witness :
  fst (load_config (snd (save_config_try s_edited))) = Ok tt
  /\ document (snd (load_config (snd (save_config_try s_edited))))
     = document (snd (save_config_try s_edited)).
Proof.
  assert (Hsave : save_config_try s_edited = (Ok tt, snd (save_config_try s_edited)))
    by (vm_compute; reflexivity).
  assert (Hgood : good_document (snd (perform DoSave s_edited))).
  { apply running_good, running_step; [apply running_s_edited | discriminate]. }
  destruct Hgood as (d & Hd & _ & Hp).
  assert (Hdoc : document (snd (save_config_try s_edited)) = Some (JObj d)).
  { rewrite <- Hd. vm_compute. reflexivity. }
  exact (save_then_load s_edited _ d (running_reachable _ running_s_edited)
           Hsave Hdoc Hp).
Defined.

(* ===================================================================== *)
(** ** The types and ranges of the fields *)
(* ===================================================================== *)

Lemma digit_not_space_nor_sign c d :
  Text.digit_of c = Some d ->
  Text.isspace c = false /\ c <> "-"%char /\ c <> "+"%char /\ 0 <= d < 10.
Proof.
  destruct c as [[] [] [] [] [] [] [] []]; vm_compute; intros [= <-];
    repeat split; discriminate.
Qed.

Lemma all_digits_rstrip txt : Text.all_digits txt = true -> Text.rstrip txt = txt.
Proof.
  induction txt as [|c r IH]; cbn; [reflexivity|].
  destruct (Text.digit_of c) as [d|] eqn:Hc; [|discriminate].
  intros Hr. rewrite (IH Hr).
  destruct (digit_not_space_nor_sign c d Hc) as (-> & _). reflexivity.
Qed.

Lemma all_digits_strip txt : Text.all_digits txt = true -> Text.strip txt = txt.
Proof.
  intros H. unfold Text.strip.
  assert (Hl : Text.lstrip txt = txt).
  { destruct txt as [|c r]; [reflexivity|]. cbn in *.
    destruct (Text.digit_of c) as [d|] eqn:Hc; [|discriminate].
    destruct (digit_not_space_nor_sign c d Hc) as (-> & _). reflexivity. }
  rewrite Hl. apply all_digits_rstrip, H.
Qed.

Lemma all_digits_parse txt : forall acc prev,
  Text.all_digits txt = true -> (txt <> "" \/ prev = true) ->
  Text.parse_digits acc prev txt = Some (Text.digits_value acc txt).
Proof.
  induction txt as [|c r IH]; intros acc prev Hd Hne; cbn in *.
  - destruct Hne as [Hne | ->]; [congruence | reflexivity].
  - destruct (Text.digit_of c) as [d|]; [|discriminate].
    apply IH; auto.
Qed.

Lemma all_digits_value txt : forall acc,
  0 <= acc -> 0 <= Text.digits_value acc txt.
Proof.
  induction txt as [|c r IH]; intros acc Hacc; cbn; [exact Hacc|].
  destruct (Text.digit_of c) as [d|] eqn:Hc; [|exact Hacc].
  apply IH. destruct (digit_not_space_nor_sign c d Hc) as (_ & _ & _ & Hd). lia.
Qed.

(** A text made of digits is the integer it spells; a blank text is 0. *)
Lemma all_digits_entered txt :
  Text.all_digits txt = true ->
  entered (Text txt)
  = Some (if Text.is_empty txt then 0 else Text.digits_value 0 txt).
Proof.
  intros Hd. unfold entered. rewrite (all_digits_strip txt Hd).
  destruct txt as [|c r]; [reflexivity|]. cbn [Text.is_empty].
  unfold Text.py_int. rewrite (all_digits_strip _ Hd).
  assert (Hlit : Text.int_literal (String c r)
                 = Text.parse_digits 0 false (String c r)).
  { cbn in Hd. destruct (Text.digit_of c) as [d|] eqn:Hc; [|discriminate].
    destruct (digit_not_space_nor_sign c d Hc) as (_ & Hm & Hp & _).
    unfold Text.int_literal.
    destruct c as [[] [] [] [] [] [] [] []]; try reflexivity; congruence. }
  rewrite Hlit. apply all_digits_parse; [exact Hd | left; discriminate].
Qed.

Definition in_range (n : Z) : bool := (0 <=? n) && (n <=? 999999999).

(** A value of the type of its default: a boolean, or an integer. *)
Definition same_type (dflt x : json) : bool :=
  match dflt, x with
  | JBool _, JBool _ => true
  | JInt _, JInt _ => true
  | _, _ => false
  end.

(** A value of the type of its default, within the bounds of the spec. *)
Definition well_typed (dflt x : json) : bool :=
  match dflt, x with
  | JBool _, JBool _ => true
  | JInt _, JInt n => in_range n
  | _, _ => false
  end.

(** Every field of DefaultsTable holds a value of its type and range. *)
Definition types_stable (s : MainWindow) : Prop :=
  forall c fields k v, In (c, fields) DefaultsTable -> In (k, v) fields ->
    exists x, field s c k = Some x /\ well_typed v x = true.

(** A file with a negative amount of starting money. *)
Definition f_negative : file_state :=
  Holds (JObj [("money", JObj [("starting_money", JInt (-5))])]).

Definition s_negative : MainWindow :=
  snd (load_config (built_window f_negative true)).

(** C8, as stated, fails: load_config keeps whatever the file holds, and
    the commit that follows reads the same value back from the line edit,
    whose text populate_ui has set without asking the validator. *)
Lemma load_config_keeps_any_value :
  fst (load_config (built_window f_negative true)) = Ok tt
  /\ field s_negative "money" "starting_money" = Some (JInt (-5))
  /\ ~ types_stable s_negative
  /\ fst (commit s_negative) = Ok tt
  /\ field (snd (commit s_negative)) "money" "starting_money" = Some (JInt (-5))
  /\ ~ types_stable (snd (commit s_negative)).
Proof.
  assert (Hin : In ("money", defaults_money) DefaultsTable
                /\ In ("starting_money", JInt 3333) defaults_money).
  { split; [unfold DefaultsTable | unfold defaults_money]; cbn [In]; auto. }
  destruct Hin as (Hc & Hk).
  assert (H1 : field s_negative "money" "starting_money" = Some (JInt (-5)))
    by (vm_compute; reflexivity).
  assert (H2 : field (snd (commit s_negative)) "money" "starting_money"
               = Some (JInt (-5)))
    by (vm_compute; reflexivity).
  split; [vm_compute; reflexivity|]. split; [exact H1|]. split.
  { intros H. destruct (H _ _ _ _ Hc Hk) as (x & Hx & Hok).
    rewrite H1 in Hx. injection Hx as <-. discriminate Hok. }
  split; [vm_compute; reflexivity|]. split; [exact H2|].
  intros H. destruct (H _ _ _ _ Hc Hk) as (x & Hx & Hok).
  rewrite H2 in Hx. injection Hx as <-. discriminate Hok.
Qed.

(** What the validator of a line edit lets through, as far as the model
    spells it out: a blank text, or digits for a number within the bounds. *)
Definition accepted (q : qwidget) : bool :=
  match validator q, text q with
  | Some (lo, hi), Text txt =>
      Text.all_digits txt
      && (Text.is_empty txt
          || ((lo <=? Text.digits_value 0 txt) && (Text.digits_value 0 txt <=? hi)))
  | _, _ => false
  end.

(** Every field of the table has a control of its type in the form: a
    check box for a boolean, a line edit with the validator for an integer. *)
Definition table_fits_form : bool :=
  forallb
    (fun cf =>
       forallb
         (fun kv =>
            match control form_widgets (fst cf) (fst kv) with
            | Some w =>
                match snd kv, qt form !! w with
                | JBool _, Some q =>
                    match cls q with QCheckBox => true | _ => false end
                | JInt _, Some q =>
                    match cls q, validator q with
                    | QLineEdit, Some (lo, hi) => (lo =? 0) && (hi =? 999999999)
                    | _, _ => false
                    end
                | _, _ => false
                end
            | None => false
            end)
         (snd cf))
    DefaultsTable.

Lemma table_fits_form_true : table_fits_form = true.
Proof. vm_compute. reflexivity. Qed.

Lemma widget_at_validator s s' w :
  map shape (qt s') = map shape (qt s) ->
  validator (widget_at s' w) = validator (widget_at s w).
Proof.
  intros H. pose proof (widget_at_shape s s' w H) as Hs.
  unfold shape in Hs. congruence.
Qed.

Lemma table_control s c fields k v :
  ui_ok s -> In (c, fields) DefaultsTable -> In (k, v) fields ->
  exists w, control (widgets s) c k = Some w
    /\ match v with
       | JBool _ => cls (widget_at s w) = QCheckBox
       | JInt _ =>
           cls (widget_at s w) = QLineEdit
           /\ validator (widget_at s w) = Some (0, 999999999)
       | _ => False
       end.
Proof.
  intros Hui Hc Hk. pose proof table_fits_form_true as H.
  unfold table_fits_form in H. rewrite forallb_forall in H.
  specialize (H _ Hc). cbn [fst snd] in H. rewrite forallb_forall in H.
  specialize (H _ Hk). cbn [fst snd] in H.
  rewrite (ui_ok_widgets s Hui).
  destruct (control form_widgets c k) as [w|]; [|discriminate].
  exists w. split; [reflexivity|].
  rewrite (widget_at_cls form s w (proj2 (proj2 Hui))).
  rewrite (widget_at_validator form s w (proj2 (proj2 Hui))).
  unfold widget_at. revert H.
  generalize (qt form !! w). intros [q|] H;
    destruct v; try discriminate H; cbn [default]; unfold id.
  - destruct (cls q); try discriminate. reflexivity.
  - destruct (cls q); try discriminate.
    destruct (validator q) as [[lo hi]|]; [|discriminate].
    apply andb_true_iff in H as [Hlo Hhi].
    apply Z.eqb_eq in Hlo, Hhi. subst. auto.
Qed.

Definition defaults_typed : bool :=
  forallb (fun cf => forallb (fun kv => well_typed (snd kv) (snd kv)) (snd cf))
    DefaultsTable.

Lemma default_well_typed c fields k v :
  In (c, fields) DefaultsTable -> In (k, v) fields -> well_typed v v = true.
Proof.
  intros Hc Hk. assert (H : defaults_typed = true) by (vm_compute; reflexivity).
  unfold defaults_typed in H. rewrite forallb_forall in H.
  specialize (H _ Hc). cbn [snd] in H. rewrite forallb_forall in H.
  exact (H _ Hk).
Qed.

Lemma defaults_types_stable s :
  document s = Some DefaultsDocument -> types_stable s.
Proof.
  intros Hdoc c fields k v Hc Hk. exists v. unfold field. rewrite Hdoc.
  rewrite defaults_document_field, (table_default_In _ _ _ _ Hc Hk).
  split; [reflexivity | exact (default_well_typed _ _ _ _ Hc Hk)].
Qed.

(** C8 (amended).  The types and ranges of the fields of DefaultsTable hold
    after a reset to defaults and after a load that finds no file or no
    JSON in it.  After a commit that completes in the running program,
    every such field has a control and holds a value of the type of its
    default, a boolean from a check box and an integer from a line edit;
    the integer is within 0..999,999,999 when the text of the line edit is
    one the validator accepts.  (A load of a readable JSON file keeps the
    values of the file, whatever they are.) *)
Theorem field_types_kept s :
  reachable s ->
  types_stable (snd (reset_to_defaults true s))
  /\ (config_file s = Missing \/ config_file s = NotJson ->
      types_stable (snd (load_config s)))
  /\ (running s -> fst (commit s) = Ok tt ->
      forall c fields k v, In (c, fields) DefaultsTable -> In (k, v) fields ->
        exists w x, control (widgets s) c k = Some w
          /\ field (snd (commit s)) c k = Some x
          /\ same_type v x = true
          /\ ((cls (widget_at s w) = QLineEdit -> accepted (widget_at s w) = true) ->
              well_typed v x = true)).
Proof.
  intros Hr. pose proof (reachable_inv s Hr) as Hinv. split; [|split].
  - apply defaults_types_stable.
    exact (proj1 (proj2 (reset_to_defaults_spec s Hinv))).
  - intros Hf. apply defaults_types_stable.
    exact (proj2 (load_config_default s Hinv Hf)).
  - intros Hrun Hok c fields k v Hc Hk.
    destruct (table_control s c fields k v (proj2 Hinv) Hc Hk) as (w & Hw & Hcls).
    pose proof (commit_reads s c k w Hrun Hw Hok) as Hread.
    unfold read_control in Hread.
    destruct v as [|b|m|x|t|a|o]; try contradiction.
    + rewrite Hcls in Hread. exists w, (JBool (checked (widget_at s w))).
      repeat split; assumption.
    + destruct Hcls as (Hcls & Hval). rewrite Hcls in Hread.
      destruct (entered (text (widget_at s w))) as [n|] eqn:He; [|contradiction].
      exists w, (JInt n). split; [exact Hw|]. split; [exact Hread|].
      split; [reflexivity|]. intros Hacc. specialize (Hacc Hcls).
      unfold accepted in Hacc. rewrite Hval in Hacc.
      destruct (text (widget_at s w)) as [txt|j]; [|discriminate].
      apply andb_true_iff in Hacc as [Hd Hin].
      rewrite (all_digits_entered txt Hd) in He. injection He as <-.
      cbn [well_typed]. unfold in_range.
      destruct (Text.is_empty txt); [reflexivity | exact Hin].
Qed.

Lemma field_types_kept_witness :
  types_stable (snd (reset_to_defaults true s_edited))
  /\ types_stable (snd (load_config s_edited))
  /\ exists x, field (snd (commit s_edited)) "money" "starting_money" = Some x
       /\ well_typed (JInt 3333) x = true.
Proof.
  pose proof (field_types_kept s_edited (running_reachable _ running_s_edited))
    as (Hreset & Hload & Hcommit).
  split; [exact Hreset|].
  split; [apply Hload; left; vm_compute; reflexivity|].
  assert (Hok : fst (commit s_edited) = Ok tt) by (vm_compute; reflexivity).
  destruct (Hcommit running_s_edited Hok "money" defaults_money
              "starting_money" (JInt 3333))
    as (w & x & Hw & Hx & _ & Hfit).
  - unfold DefaultsTable. cbn [In]. auto.
  - unfold defaults_money. cbn [In]. auto.
  - exists x. split; [exact Hx|]. apply Hfit. intros _.
    assert (w = edit_starting_money) as ->.
    { vm_compute in Hw. injection Hw as <-. reflexivity. }
    vm_compute. reflexivity.
Defined.

(* ===================================================================== *)
(** ** The dependency rule is presentation only *)
(* ===================================================================== *)

(** All of a widget but its enabled flag. *)
Definition values (q : qwidget) :=
  (cls q, text q, checked q, parent q, validator q, connected q).

(** Only enabled flags may differ. *)
Definition regates (s s' : MainWindow) : Prop :=
  tops s' = tops s /\ cats s' = cats s /\ config_data s' = config_data s
  /\ widgets s' = widgets s
  /\ roleplay_dependent_widgets s' = roleplay_dependent_widgets s
  /\ env s' = env s
  /\ map values (qt s') = map values (qt s).

#[local] Instance regates_preorder : PreOrder regates.
Proof.
  split.
  - intros s. repeat split; reflexivity.
  - intros s1 s2 s3 (? & ? & ? & ? & ? & ? & ?) (? & ? & ? & ? & ? & ? & ?).
    repeat split; congruence.
Qed.

Lemma map_values_alter f w (l : list qwidget) :
  (forall q, values (f q) = values q) -> map values (alter f w l) = map values l.
Proof.
  intros Hf. revert w. induction l as [|q l IH]; intros [|w]; cbn;
    rewrite ?Hf, ?IH; reflexivity.
Qed.

Lemma regates_setEnabled w b : preserves regates (setEnabled w b).
Proof.
  apply preserves_modify. intros s.
  repeat split; try reflexivity. cbn. apply map_values_alter. reflexivity.
Qed.

#[export] Hint Resolve regates_setEnabled : preserves.

Lemma regates_apply_feature_dependencies :
  preserves regates apply_feature_dependencies.
Proof. unfold apply_feature_dependencies. preserve. Qed.

Lemma regates_repaints s s' : regates s s' -> repaints s s'.
Proof.
  intros (Ht & Hc & Hcfg & Hw & Hd & He & Hq). repeat split; try assumption.
  assert (Hs : map shape (qt s') = map (fun v => (v.1.1.1.1.1, v.1.1.2, v.1.2, v.2))
                                     (map values (qt s'))).
  { rewrite map_map. reflexivity. }
  rewrite Hs, Hq, map_map. reflexivity.
Qed.

Lemma regates_widget s s' w :
  regates s s' -> values (widget_at s' w) = values (widget_at s w).
Proof.
  intros (_ & _ & _ & _ & _ & _ & H). unfold widget_at.
  assert (Hl : values <$> (qt s' !! w) = values <$> (qt s !! w)).
  { rewrite <- !list_lookup_fmap. change (fmap values) with (map values).
    rewrite H. reflexivity. }
  destruct (qt s' !! w), (qt s !! w); cbn [fmap option_fmap option_map] in Hl;
    try discriminate; [|reflexivity].
  injection Hl as Hc Ht Hk Hp Hv Hn. unfold values. simpl. congruence.
Qed.

Lemma read_control_values q q' :
  values q = values q' -> read_control q = read_control q'.
Proof.
  unfold values, read_control. intros [= -> -> -> _ _ _]. reflexivity.
Qed.

(** The loop of the rule, as a state. *)
Lemma for_setEnabled b : forall ws s,
  for_ ws (fun w => setEnabled w b) s
  = (Ok tt, with_qt (fold_left (fun l w => alter (set_enabled b) w l) ws (qt s)) s).
Proof.
  induction ws as [|w ws IH]; intros s; cbn [for_ fold_left].
  - destruct s; reflexivity.
  - rewrite (bind_ok _ _ _ tt (with_qt (alter (set_enabled b) w (qt s)) s))
      by reflexivity.
    rewrite IH. destruct s; reflexivity.
Qed.

Lemma fold_setEnabled b : forall ws (l : list qwidget) w,
  (w < length l)%nat ->
  In w ws \/ enabled (default (plain_widget QWidget) (l !! w)) = b ->
  enabled (default (plain_widget QWidget)
             (fold_left (fun l w => alter (set_enabled b) w l) ws l !! w)) = b.
Proof.
  induction ws as [|w' ws IH]; intros l w Hlt H; cbn [fold_left].
  - destruct H as [[] | H]; exact H.
  - apply IH; [rewrite length_alter; exact Hlt|].
    destruct (Nat.eq_dec w' w) as [-> | Hne].
    + right. rewrite list_lookup_alter_eq.
      destruct (lookup_lt_is_Some_2 l w Hlt) as (q & ->). reflexivity.
    + rewrite list_lookup_alter_ne by exact Hne.
      destruct H as [[Hw | Hw] | H]; [congruence | left; exact Hw | right; exact H].
Qed.

Lemma form_dependents_bound w :
  In w form_dependents -> (w < length (qt form))%nat.
Proof.
  assert (H : forallb (fun w => w <? length (qt form))%nat form_dependents = true)
    by (vm_compute; reflexivity).
  rewrite forallb_forall in H. intros Hw. apply Nat.ltb_lt, H, Hw.
Qed.

Lemma ui_ok_length s : ui_ok s -> length (qt s) = length (qt form).
Proof.
  intros (_ & _ & H). apply (f_equal (@length _)) in H.
  rewrite !length_map in H. exact H.
Qed.

(** After the rule every dependent widget is enabled exactly when the
    check box of [roleplay_enabled] is checked. *)
Lemma apply_feature_dependencies_gates s w :
  ui_ok s -> In w (roleplay_dependent_widgets s) ->
  enabled (widget_at (snd (apply_feature_dependencies s)) w)
  = checked (widget_at s roleplay_checkbox).
Proof.
  intros Hui Hw. rewrite (apply_feature_dependencies_eq s Hui), for_setEnabled.
  cbn [snd]. unfold widget_at at 1.
  replace (qt (with_qt _ s)) with
    (fold_left (fun l w => alter (set_enabled (checked (widget_at s roleplay_checkbox))) w l)
       form_dependents (qt s)) by (destruct s; reflexivity).
  assert (Hd : roleplay_dependent_widgets s = form_dependents).
  { rewrite (proj1 (proj2 Hui)). vm_compute. reflexivity. }
  rewrite Hd in Hw.
  apply fold_setEnabled; [|left; exact Hw].
  rewrite (ui_ok_length s Hui). apply form_dependents_bound, Hw.
Qed.

(** In the form the check box of [roleplay_enabled] is the control of that
    field only. *)
Lemma roleplay_checkbox_field c fs k :
  In (c, Fields fs) form_widgets -> In (k, roleplay_checkbox) fs ->
  c = "features" /\ k = "roleplay_enabled".
Proof.
  assert (H : forallb
                (fun ce =>
                   match snd ce with
                   | Fields fs =>
                       forallb
                         (fun kw =>
                            negb (Nat.eqb (snd kw) roleplay_checkbox)
                            || (String.eqb (fst ce) "features"
                                && String.eqb (fst kw) "roleplay_enabled"))
                         fs
                   | Widget _ => true
                   end) form_widgets = true) by (vm_compute; reflexivity).
  rewrite forallb_forall in H. intros Hc Hk. specialize (H _ Hc). cbn [fst snd] in H.
  rewrite forallb_forall in H. specialize (H _ Hk). cbn [fst snd] in H.
  rewrite Nat.eqb_refl in H. cbn [negb orb] in H.
  apply andb_true_iff in H as [H1 H2].
  apply String.eqb_eq in H1, H2. auto.
Qed.

(** A click on a check box: its mark changes, then possibly the rule runs. *)
Lemma setChecked_regates w b s :
  regates (snd (update_widget w (set_checked b) s)) (snd (setChecked w b s)).
Proof.
  unfold setChecked, the_widget. rewrite bind_gets.
  rewrite (bind_ok _ _ _ tt (snd (update_widget w (set_checked b) s)))
    by reflexivity.
  destruct (connected (widget_at s w) && negb (Bool.eqb (checked (widget_at s w)) b)).
  - assert (H : preserves regates
                  (try_except apply_feature_dependencies (fun _ => ret tt))).
    { pose proof regates_apply_feature_dependencies. preserve. }
    apply H.
  - reflexivity.
Qed.

(** A click on a check box leaves what the other controls hold. *)
Lemma toggle_reads s w w' :
  w' <> w ->
  read_control (widget_at (snd (perform (DoToggle w) s)) w')
  = read_control (widget_at s w').
Proof.
  intros Hne. unfold perform.
  destruct (cls (widget_at s w)), (isEnabled s w); try reflexivity.
  apply read_control_values.
  rewrite (regates_widget _ _ w' (setChecked_regates w _ s)).
  unfold update_widget, modify, widget_at. cbn [snd].
  replace (qt (with_qt _ s)) with
    (alter (set_checked (negb (checked (default (plain_widget QWidget) (qt s !! w)))))
       w (qt s)) by (destruct s; reflexivity).
  rewrite list_lookup_alter_ne by congruence. reflexivity.
Qed.

Lemma save_config_try_writable s :
  inv s -> writable (snd (save_config_try s)) = writable s.
Proof.
  intros Hinv. destruct (commit_inv s Hinv) as (_ & _ & Henv).
  assert (Hw : writable (snd (commit s)) = writable s).
  { unfold env in Henv. congruence. }
  unfold save_config_try.
  destruct (commit s) as [[[] | e] s1] eqn:Hc; cbn [fst snd] in *.
  - rewrite (bind_ok _ _ _ _ _ Hc).
    assert (Hrep : preserves reports (write_config >> message Information))
      by preserve.
    destruct (Hrep s1) as (_ & _ & _ & _ & ->). exact Hw.
  - rewrite (bind_raise _ _ _ _ _ Hc). exact Hw.
Qed.

(** A save that returns has found the file writable. *)
Lemma save_config_try_ok_writable s :
  running s -> fst (save_config_try s) = Ok tt -> writable s = true.
Proof.
  intros Hrun Hok. destruct (running_good s Hrun) as [Hinv (d & Hdoc & _)].
  destruct (document_object _ _ Hdoc) as (r & Hcfg & _).
  destruct (save_config_try_spec s r Hinv Hcfg) as [_ Hcase].
  destruct (fst (commit_doc (widget_at s) form_widgets (doc_entries s r)))
    as [[] | e].
  - destruct (writable s); [reflexivity|]. destruct Hcase as [H _]. congruence.
  - destruct Hcase as [H _]. congruence.
Qed.

Lemma toggle_repaints w s : repaints s (snd (perform (DoToggle w) s)).
Proof.
  unfold perform. destruct (cls (widget_at s w)), (isEnabled s w);
    try reflexivity.
  apply preserves_setChecked.
Qed.

(** C9.  The dependency rule changes enabled flags only: it returns,
    leaves the document, the file and what every control holds, and
    sets the enabled flag of each dependent widget to the state of the
    check box of roleplay_enabled.  After a save that returns, a click on
    that check box (which runs the rule) leaves the document and the file;
    the next save returns too, and every field other than
    features.roleplay_enabled has in the document and in the file the
    value it had after the first save. *)
Theorem gating_is_presentation s :
  running s ->
  (fst (apply_feature_dependencies s) = Ok tt
   /\ regates s (snd (apply_feature_dependencies s))
   /\ document (snd (apply_feature_dependencies s)) = document s
   /\ forall w, In w (roleplay_dependent_widgets s) ->
        enabled (widget_at (snd (apply_feature_dependencies s)) w)
        = checked (widget_at s roleplay_checkbox))
  /\ forall s0, save_config_try s = (Ok tt, s0) ->
       let s1 := snd (perform (DoToggle roleplay_checkbox) s0) in
       let s2 := snd (save_config_try s1) in
       document s1 = document s0 /\ config_file s1 = config_file s0
       /\ fst (save_config_try s1) = Ok tt
       /\ forall c k, (c, k) <> ("features", "roleplay_enabled") ->
            file_field (config_file s0) c k = field s0 c k
            /\ field s2 c k = field s0 c k
            /\ file_field (config_file s2) c k = file_field (config_file s0) c k.
Proof.
  intros Hrun. destruct (running_good s Hrun) as [Hinv (d & Hdoc & Hsh & Hpop)].
  split.
  { split; [apply apply_feature_dependencies_ok, Hinv|].
    split; [apply regates_apply_feature_dependencies|].
    split; [apply repaints_document, regates_repaints,
              regates_apply_feature_dependencies|].
    intros w Hw. apply apply_feature_dependencies_gates; [apply Hinv | exact Hw]. }
  intros s0 Hsave s1 s2.
  assert (Hs0 : s0 = snd (perform DoSave s)).
  { cbn [perform]. rewrite save_config_eq, Hsave. reflexivity. }
  assert (Hrun0 : running s0).
  { rewrite Hs0. apply running_step; [exact Hrun | discriminate]. }
  assert (Hrun1 : running s1).
  { apply running_step; [exact Hrun0 | discriminate]. }
  (* the first save *)
  assert (Hok : fst (save_config_try s) = Ok tt) by (rewrite Hsave; reflexivity).
  pose proof (save_config_try_returns s Hinv Hok) as Hret.
  cbv zeta in Hret. rewrite Hsave in Hret. cbn [snd] in Hret.
  destruct Hret as (j & j' & Hj & Hdoc0 & Hfile0 & Hm).
  rewrite Hdoc in Hj. injection Hj as <-.
  destruct Hm as (Hcd & d0 & ->).
  assert (Hqt0 : qt s0 = qt s).
  { pose proof (proj2 (save_config_try_inv s Hinv)) as Hui.
    rewrite Hsave in Hui. cbn [snd] in Hui. unfold ui in Hui. congruence. }
  assert (Hw0 : writable s0 = true).
  { pose proof (save_config_try_writable s Hinv) as Hw.
    rewrite Hsave in Hw. cbn [snd] in Hw. rewrite Hw.
    apply save_config_try_ok_writable; assumption. }
  assert (Hread0 : forall w, read_control (widget_at s0 w) = read_control (widget_at s w)).
  { intros w. unfold widget_at. rewrite Hqt0. reflexivity. }
  (* the click *)
  pose proof (toggle_repaints roleplay_checkbox s0) as Hrep. fold s1 in Hrep.
  pose proof (repaints_document _ _ Hrep) as Hdoc1.
  assert (Henv1 : env s1 = env s0) by apply Hrep.
  assert (Hfile1 : config_file s1 = config_file s0).
  { unfold env in Henv1. congruence. }
  assert (Hw1 : writable s1 = true).
  { unfold env in Henv1. congruence. }
  split; [exact Hdoc1|]. split; [exact Hfile1|].
  rewrite Hdoc0 in Hdoc1.
  destruct (running_good s1 Hrun1) as [Hinv1 _].
  assert (Hread1 : forall w, w <> roleplay_checkbox ->
             read_control (widget_at s1 w) = read_control (widget_at s w)).
  { intros w Hne. unfold s1. rewrite (toggle_reads s0 _ w Hne). apply Hread0. }
  (* the second commit *)
  assert (Hcommit : forall c fs k w, In (c, Fields fs) form_widgets -> In (k, w) fs ->
             match read_control (widget_at s w) with
             | Value x => json_field c k (JObj d0) = Some x
             | Skip => True
             | Bad => False
             end).
  { intros c fs k w Hc Hk.
    destruct (running_category c fs d Hpop Hc) as (cur & Hcur).
    assert (Hres : fst (commit_doc (widget_at s) form_widgets d) = Ok tt)
      by (rewrite Hcd; reflexivity).
    pose proof (commit_doc_ok (widget_at s) form_widgets form_keys form_fields_keys
                  d Hres c fs k w cur Hc Hk Hcur) as H.
    rewrite Hcd in H. cbn [snd] in H.
    destruct (read_control (widget_at s w)); auto. }
  destruct (running_good s0 Hrun0) as [Hinv0 (d0' & Hd0' & Hsh0 & Hpop0)].
  rewrite Hdoc0 in Hd0'. injection Hd0' as <-.
  assert (Hres1 : fst (commit_doc (widget_at s1) form_widgets d0) = Ok tt).
  { destruct (fst (commit_doc (widget_at s1) form_widgets d0)) as [[] | e] eqn:Hres;
      [reflexivity | exfalso].
    destruct (commit_doc_raise _ _ _ _ Hsh0 Hres) as (_ & c & fs & k & w & Hc & Hk & _ & Hbad).
    destruct (Nat.eq_dec w roleplay_checkbox) as [-> | Hne].
    - unfold read_control in Hbad.
      rewrite (ui_ok_cls s1 roleplay_checkbox (proj2 Hinv1)) in Hbad.
      vm_compute in Hbad. discriminate.
    - rewrite (Hread1 w Hne) in Hbad.
      pose proof (Hcommit c fs k w Hc Hk) as H. rewrite Hbad in H. exact H. }
  destruct (document_object _ _ Hdoc1) as (r1 & Hcfg1 & Hd1).
  destruct (save_config_try_spec s1 r1 Hinv1 Hcfg1) as [Hdoc2 Hcase].
  rewrite Hd1 in Hdoc2, Hcase. rewrite Hres1, Hw1 in Hcase.
  destruct Hcase as (Hok2 & Hfile2 & _).
  split; [exact Hok2|].
  intros c k Hck. unfold field, s2. rewrite Hdoc2, Hdoc0, Hfile2, Hfile0.
  cbn [file_field].
  assert (Hsame : json_field c k (JObj (snd (commit_doc (widget_at s1) form_widgets d0)))
                  = json_field c k (JObj d0)).
  { destruct (commit_doc_frame (widget_at s1) form_widgets d0) as (_ & _ & Hfields).
    destruct (Hfields c k) as [H | (fs & w & x & Hc & Hk & Hx & H)]; [exact H|].
    destruct (Nat.eq_dec w roleplay_checkbox) as [-> | Hne].
    - destruct (roleplay_checkbox_field c fs k Hc Hk) as [-> ->]. congruence.
    - rewrite (Hread1 w Hne) in Hx.
      pose proof (Hcommit c fs k w Hc Hk) as H'. rewrite Hx in H'. congruence. }
  split; [reflexivity|]. split; [exact Hsame | exact Hsame].
Qed.

Definition edit_busted_range : wid := 64%nat.

(** The first run, with a new range typed in, saved, and then with the
    check box of roleplay_enabled cleared. *)
Definition s_police : MainWindow :=
  run [DoType edit_busted_range "175"] first_run.
Definition s_police_saved : MainWindow := snd (save_config_try s_police).
Definition s_police_gated : MainWindow :=
  snd (perform (DoToggle roleplay_checkbox) s_police_saved).

Lemma running_s_police : running s_police.
Proof.
  unfold s_police, run. cbn [fold_left].
  apply running_step; [apply running_first_run | discriminate].
Qed.

Lemma gating_is_presentation_witness :
  field s_police_saved "police" "busted_range_m" = Some (JInt 175)
  /\ checked (widget_at s_police_gated roleplay_checkbox) = false
  /\ isEnabled s_police_gated edit_busted_range = false
  /\ fst (save_config_try s_police_gated) = Ok tt
  /\ field (snd (save_config_try s_police_gated)) "police" "busted_range_m"
     = field s_police_saved "police" "busted_range_m"
  /\ file_field (config_file (snd (save_config_try s_police_gated)))
       "police" "busted_range_m"
     = file_field (config_file s_police_saved) "police" "busted_range_m".
Proof.
  assert (Hsave : save_config_try s_police = (Ok tt, s_police_saved))
    by (vm_compute; reflexivity).
  destruct (proj2 (gating_is_presentation s_police running_s_police)
              s_police_saved Hsave) as (_ & _ & Hok & Hfields).
  destruct (Hfields "police" "busted_range_m") as (_ & Hdoc & Hfile);
    [discriminate|].
  split; [vm_compute; reflexivity|]. split; [vm_compute; reflexivity|].
  split; [vm_compute; reflexivity|]. split; [exact Hok|].
  split; [exact Hdoc | exact Hfile].
Defined.

(* ===================================================================== *)
(** ** What populate_ui shows *)
(* ===================================================================== *)

Lemma for_app {S A} (f : A -> St S unit) xs ys s :
  for_ (xs ++ ys) f s = (for_ xs f >> for_ ys f) s.
Proof.
  revert s. induction xs as [|x xs IH]; intros s; cbn [for_ app].
  - reflexivity.
  - unfold bind. destruct (f x s) as [[[] | e] s1]; [|reflexivity].
    rewrite IH. reflexivity.
Qed.

(** A loop whose steps keep [I], set up [Q] at the items that [hit] and
    keep it at the others, ends in [Q] when an item hits. *)
Lemma for_establishes {A} (f : A -> M unit) (I Q : MainWindow -> Prop)
    (hit : A -> bool) : forall xs,
  (forall y s, In y xs -> I s -> I (snd (f y s))) ->
  (forall y s, In y xs -> I s -> hit y = true -> fst (f y s) = Ok tt ->
     Q (snd (f y s))) ->
  (forall y s, In y xs -> I s -> hit y = false -> Q s -> Q (snd (f y s))) ->
  forall s, I s -> fst (for_ xs f s) = Ok tt ->
    existsb hit xs = true \/ Q s -> Q (snd (for_ xs f s)).
Proof.
  induction xs as [|x xs IH]; intros HI Hset Hkeep s Hs Hok Hq.
  - cbn in *. destruct Hq as [Hq | Hq]; [discriminate | exact Hq].
  - cbn [for_] in *. unfold bind in *.
    pose proof (HI x s (or_introl eq_refl) Hs) as HI1.
    pose proof (Hset x s (or_introl eq_refl) Hs) as Hset1.
    pose proof (Hkeep x s (or_introl eq_refl) Hs) as Hkeep1.
    destruct (f x s) as [[[] | e] s1]; cbn [fst snd] in *; [|discriminate].
    apply IH; auto.
    + intros y s' Hy. apply HI. right. exact Hy.
    + intros y s' Hy. apply Hset. right. exact Hy.
    + intros y s' Hy. apply Hkeep. right. exact Hy.
    + cbn [existsb] in Hq. destruct (hit x).
      * right. apply Hset1; reflexivity.
      * destruct Hq as [Hq | Hq]; [left; exact Hq | right; apply Hkeep1; auto].
Qed.

(** The text and the check mark of a widget. *)
Definition marks (s : MainWindow) (w : wid) : content * bool :=
  (text (widget_at s w), checked (widget_at s w)).

(** Texts, check marks and enabled flags may differ, not those of [w]. *)
Definition keeps (w : wid) (s s' : MainWindow) : Prop :=
  repaints s s' /\ marks s' w = marks s w.

#[local] Instance keeps_preorder w : PreOrder (keeps w).
Proof.
  split.
  - intros s. split; reflexivity.
  - intros s1 s2 s3 [H1 H1'] [H2 H2']. split; [etransitivity; eassumption|].
    congruence.
Qed.

Lemma widget_at_update s w f w' :
  widget_at (snd (update_widget w f s)) w'
  = if Nat.eqb w' w
    then match qt s !! w with Some q => f q | None => plain_widget QWidget end
    else widget_at s w'.
Proof.
  unfold update_widget, modify, widget_at. cbn [snd].
  replace (qt (with_qt (alter f w (qt s)) s)) with (alter f w (qt s))
    by (destruct s; reflexivity).
  destruct (Nat.eqb_spec w' w) as [-> | Hne].
  - rewrite list_lookup_alter_eq. destruct (qt s !! w); reflexivity.
  - rewrite list_lookup_alter_ne by congruence. reflexivity.
Qed.

Lemma keeps_update_widget w w' f :
  (forall q, shape (f q) = shape q) -> w' <> w ->
  preserves (keeps w) (update_widget w' f).
Proof.
  intros Hf Hne s. split; [apply preserves_update_widget, Hf|].
  unfold marks. rewrite widget_at_update.
  destruct (Nat.eqb_spec w w'); [congruence | reflexivity].
Qed.

Lemma keeps_regates w s s' : regates s s' -> keeps w s s'.
Proof.
  intros H. split; [apply regates_repaints, H|].
  pose proof (regates_widget s s' w H) as Hv. unfold values in Hv.
  unfold marks. congruence.
Qed.

Lemma keeps_setText w w' t : w' <> w -> preserves (keeps w) (setText w' t).
Proof. intros Hne. apply keeps_update_widget; [reflexivity | exact Hne]. Qed.

Lemma keeps_setChecked w w' b : w' <> w -> preserves (keeps w) (setChecked w' b).
Proof.
  intros Hne s.
  transitivity (snd (update_widget w' (set_checked b) s)).
  - apply keeps_update_widget; [reflexivity | exact Hne].
  - apply keeps_regates, setChecked_regates.
Qed.

Lemma keeps_apply_feature_dependencies w :
  preserves (keeps w) apply_feature_dependencies.
Proof. intros s. apply keeps_regates, regates_apply_feature_dependencies. Qed.

Lemma keeps_populate_field w c k w' :
  w' <> w -> preserves (keeps w) (populate_field c (k, w')).
Proof.
  intros Hne. pose proof (keeps_setText w w') as H1.
  pose proof (keeps_setChecked w w') as H2.
  unfold populate_field. preserve.
Qed.

Lemma paint_self w value s :
  match cls (widget_at s w) with
  | QLineEdit =>
      text (widget_at (snd ((let* q := the_widget w in
                             match cls q with
                             | QLineEdit => setText w (py_str value)
                             | QCheckBox => setChecked w (py_bool value)
                             | _ => ret tt
                             end) s)) w) = py_str value
  | QCheckBox =>
      checked (widget_at (snd ((let* q := the_widget w in
                                match cls q with
                                | QLineEdit => setText w (py_str value)
                                | QCheckBox => setChecked w (py_bool value)
                                | _ => ret tt
                                end) s)) w) = py_bool value
  | _ => True
  end.
Proof.
  unfold the_widget. rewrite bind_gets.
  destruct (cls (widget_at s w)) eqn:Hcls; try exact I.
  - unfold setText. rewrite widget_at_update, Nat.eqb_refl.
    unfold widget_at in Hcls. destruct (qt s !! w); [reflexivity | discriminate].
  - pose proof (regates_widget _ _ w (setChecked_regates w (py_bool value) s)) as Hv.
    assert (Hc : checked (widget_at (snd (setChecked w (py_bool value) s)) w)
                 = checked (widget_at (snd (update_widget w
                                              (set_checked (py_bool value)) s)) w)).
    { unfold values in Hv. congruence. }
    rewrite Hc, widget_at_update, Nat.eqb_refl.
    unfold widget_at in Hcls. destruct (qt s !! w); [reflexivity | discriminate].
Qed.

(** One step of populate_ui shows the value of its field, unless it is
    [None]. *)
Lemma populate_field_self s r c rc k w x :
  config_data s = Some (TDict r) -> Dict.get c (deref_top s r) = Some (Cat rc) ->
  Dict.get k (deref_cat s rc) = Some x -> x <> JNull ->
  match cls (widget_at s w) with
  | QLineEdit => text (widget_at (snd (populate_field c (k, w) s)) w) = py_str x
  | QCheckBox => checked (widget_at (snd (populate_field c (k, w) s)) w) = py_bool x
  | _ => True
  end.
Proof.
  intros Hcfg Hc Hk Hx. unfold populate_field.
  assert (H1 : get_config_data s = (Ok (TDict r), s)).
  { unfold get_config_data. rewrite Hcfg. reflexivity. }
  assert (H2 : top_getitem (TDict r) c s = (Ok (Cat rc), s)).
  { rewrite top_getitem_dict, Hc. reflexivity. }
  assert (H3 : val_get (Cat rc) k s = (Ok x, s)).
  { unfold val_get, gets. rewrite Hk. reflexivity. }
  rewrite (bind_ok _ _ _ _ _ H1), (bind_ok _ _ _ _ _ H2), (bind_ok _ _ _ _ _ H3).
  pose proof (paint_self w x s) as Hp.
  destruct x; try exact Hp. contradiction.
Qed.

(** A field of the document, in the store. *)
Lemma json_field_store s r c k x :
  json_field c k (JObj (doc_entries s r)) = Some x ->
  exists rc, Dict.get c (deref_top s r) = Some (Cat rc)
    /\ Dict.get k (deref_cat s rc) = Some x.
Proof.
  cbn [json_field]. destruct (Dict.get c (doc_entries s r)) as [[]|] eqn:Hc;
    try discriminate.
  intros Hk. apply get_view_obj in Hc as (rc & Hrc & <-). eauto.
Qed.

Lemma repaints_store s s' r :
  repaints s s' ->
  config_data s' = config_data s /\ deref_top s' r = deref_top s r
  /\ (forall rc, deref_cat s' rc = deref_cat s rc)
  /\ doc_entries s' r = doc_entries s r.
Proof.
  intros (Ht & Hc & Hcfg & _).
  assert (H1 : deref_top s' r = deref_top s r) by (unfold deref_top; congruence).
  assert (H2 : forall rc, deref_cat s' rc = deref_cat s rc)
    by (intros rc; unfold deref_cat; congruence).
  repeat split; try assumption.
  unfold doc_entries, view_entries, view_value. rewrite H1.
  apply map_ext. intros [k [a | rc]]; cbn; [reflexivity|]. rewrite H2. reflexivity.
Qed.

(** In the form a control belongs to one field only. *)
Definition form_controls_apart : bool :=
  forallb
    (fun ce =>
       forallb
         (fun ce' =>
            match snd ce, snd ce' with
            | Fields fs, Fields fs' =>
                forallb
                  (fun kw =>
                     forallb
                       (fun kw' =>
                          negb (Nat.eqb (snd kw) (snd kw'))
                          || (String.eqb (fst ce) (fst ce')
                              && String.eqb (fst kw) (fst kw')))
                       fs')
                  fs
            | _, _ => true
            end)
         form_widgets)
    form_widgets.

Lemma control_unique c fs k w c' fs' k' :
  In (c, Fields fs) form_widgets -> In (k, w) fs ->
  In (c', Fields fs') form_widgets -> In (k', w) fs' ->
  c' = c /\ k' = k.
Proof.
  intros Hc Hk Hc' Hk'.
  assert (H : form_controls_apart = true) by (vm_compute; reflexivity).
  unfold form_controls_apart in H. rewrite forallb_forall in H.
  specialize (H _ Hc). rewrite forallb_forall in H. specialize (H _ Hc').
  cbn [fst snd] in H. rewrite forallb_forall in H. specialize (H _ Hk).
  rewrite forallb_forall in H. specialize (H _ Hk'). cbn [fst snd] in H.
  rewrite Nat.eqb_refl in H. cbn [negb orb] in H.
  apply andb_true_iff in H as [H1 H2].
  apply String.eqb_eq in H1, H2. auto.
Qed.

(** What a widget shows of a value: a line edit its [str], a check box
    its [bool]. *)
Definition painted (c : wclass) (x : json) (q : qwidget) : Prop :=
  match c with
  | QLineEdit => text q = py_str x
  | QCheckBox => checked q = py_bool x
  | _ => True
  end.

Lemma painted_marks c x s s' w :
  marks s' w = marks s w ->
  painted c x (widget_at s w) -> painted c x (widget_at s' w).
Proof.
  unfold marks, painted. intros [= Ht Hc]. destruct c; congruence.
Qed.

Lemma repaints_cls s s' w :
  repaints s s' -> cls (widget_at s' w) = cls (widget_at s w).
Proof. intros (_ & _ & _ & _ & _ & _ & H). apply widget_at_cls, H. Qed.

Lemma preserves_for_in {S A} (R : S -> S -> Prop) {HR : PreOrder R}
    (xs : list A) (f : A -> St S unit) :
  (forall x, In x xs -> preserves R (f x)) -> preserves R (for_ xs f).
Proof.
  induction xs as [|x xs IH]; intros Hf; cbn [for_].
  - apply preserves_ret; exact HR.
  - apply preserves_bind; [exact HR | apply Hf; left; reflexivity|].
    intros _. apply IH. intros y Hy. apply Hf. right. exact Hy.
Qed.

(** A loop keeps what each of its steps keeps, however it ends. *)
Lemma for_invariant {S A} (f : A -> St S unit) (I : S -> Prop) : forall xs,
  (forall y s, In y xs -> I s -> I (snd (f y s))) ->
  forall s, I s -> I (snd (for_ xs f s)).
Proof.
  induction xs as [|x xs IH]; intros HI s Hs; cbn [for_]; [exact Hs|].
  unfold bind. pose proof (HI x s (or_introl eq_refl) Hs) as H1.
  destruct (f x s) as [[[] | e] s1]; cbn [fst snd] in *; [|exact H1].
  apply IH; [|exact H1]. intros y s' Hy. apply HI. right. exact Hy.
Qed.

Lemma populate_fields_shows s0 r c rc fs k w x :
  config_data s0 = Some (TDict r) ->
  Dict.get c (deref_top s0 r) = Some (Cat rc) ->
  Dict.get k (deref_cat s0 rc) = Some x -> x <> JNull ->
  In (k, w) fs -> (forall k', In (k', w) fs -> k' = k) ->
  forall s, repaints s0 s -> fst (for_ fs (populate_field c) s) = Ok tt ->
  painted (cls (widget_at s0 w)) x
    (widget_at (snd (for_ fs (populate_field c) s)) w).
Proof.
  intros Hcfg Hc Hk Hx Hin Huniq s Hs Hok.
  apply (for_establishes (populate_field c) (repaints s0)
           (fun s' => painted (cls (widget_at s0 w)) x (widget_at s' w))
           (fun kw => Nat.eqb (snd kw) w)); try assumption.
  - intros y s1 _ H1. etransitivity; [exact H1 | apply preserves_populate_field].
  - intros [k' w'] s1 Hy H1 Hhit _. cbn [snd] in Hhit.
    apply Nat.eqb_eq in Hhit. subst w'. rewrite (Huniq k' Hy).
    destruct (repaints_store s0 s1 r H1) as (Hcfg1 & Ht1 & Hc1 & _).
    pose proof (populate_field_self s1 r c rc k w x) as Hself.
    rewrite Hcfg1, Ht1, Hc1, (repaints_cls s0 s1 w H1) in Hself.
    exact (Hself Hcfg Hc Hk Hx).
  - intros [k' w'] s1 _ H1 Hhit HQ. cbn [snd] in Hhit.
    apply Nat.eqb_neq in Hhit.
    eapply painted_marks; [|exact HQ].
    apply (keeps_populate_field w c k' w' Hhit s1).
  - left. apply existsb_exists. exists (k, w).
    split; [exact Hin | apply Nat.eqb_refl].
Qed.

Lemma populate_category_fields s r c fs :
  config_data s = Some (TDict r) ->
  populate_category (c, Fields fs) s
  = if Dict.mem c (deref_top s r) then for_ fs (populate_field c) s else (Ok tt, s).
Proof.
  intros Hcfg. unfold populate_category.
  assert (H1 : get_config_data s = (Ok (TDict r), s)).
  { unfold get_config_data. rewrite Hcfg. reflexivity. }
  rewrite (bind_ok _ _ _ _ _ H1). cbn [py_contains]. rewrite bind_gets.
  destruct (Dict.mem c (deref_top s r)); reflexivity.
Qed.

Lemma keeps_populate_category w c e :
  (forall fs k w', e = Fields fs -> In (k, w') fs -> w' <> w) ->
  preserves (keeps w) (populate_category (c, e)).
Proof.
  intros Hne. unfold populate_category.
  apply preserves_bind; [typeclasses eauto | eauto with preserves typeclass_instances|].
  intros cfg.
  apply preserves_bind; [typeclasses eauto | eauto with preserves typeclass_instances|].
  intros [|]; [|apply preserves_ret; typeclasses eauto].
  destruct e as [w0 | fs]; cbn [entry_items]; intros s.
  - cbn. reflexivity.
  - change (keeps w s (snd (for_ fs (populate_field c) s))).
    apply preserves_for_in; [typeclasses eauto|].
    intros [k w'] Hin. apply keeps_populate_field. eapply Hne; eauto.
Qed.

Lemma populate_categories_shows s0 r c rc fs k w x :
  config_data s0 = Some (TDict r) ->
  Dict.get c (deref_top s0 r) = Some (Cat rc) ->
  Dict.get k (deref_cat s0 rc) = Some x -> x <> JNull ->
  In (c, Fields fs) form_widgets -> In (k, w) fs ->
  forall s, repaints s0 s -> fst (for_ form_widgets populate_category s) = Ok tt ->
  painted (cls (widget_at s0 w)) x
    (widget_at (snd (for_ form_widgets populate_category s)) w).
Proof.
  intros Hcfg Hc Hk Hx Hcin Hkin s Hs Hok.
  apply (for_establishes populate_category (repaints s0)
           (fun s' => painted (cls (widget_at s0 w)) x (widget_at s' w))
           (fun ce => String.eqb (fst ce) c)); try assumption.
  - intros y s1 _ H1. etransitivity; [exact H1 | apply preserves_populate_category].
  - intros [c' e'] s1 Hy H1 Hhit Hok1. cbn [fst] in Hhit.
    apply String.eqb_eq in Hhit. subst c'.
    assert (e' = Fields fs) as ->.
    { pose proof (In_get _ _ _ form_keys Hy) as E1.
      pose proof (In_get _ _ _ form_keys Hcin) as E2. congruence. }
    destruct (repaints_store s0 s1 r H1) as (Hcfg1 & Ht1 & _).
    rewrite Hcfg in Hcfg1.
    rewrite (populate_category_fields s1 r c fs Hcfg1) in Hok1 |- *.
    assert (Hmem : Dict.mem c (deref_top s1 r) = true).
    { unfold Dict.mem. rewrite Ht1, Hc. reflexivity. }
    rewrite Hmem in Hok1 |- *.
    apply (populate_fields_shows s0 r c rc fs k w x); try assumption.
    intros k' Hk'. apply (control_unique c fs k w c fs k' Hcin Hkin Hcin Hk').
  - intros [c' e'] s1 Hy H1 Hhit HQ. cbn [fst] in Hhit.
    apply String.eqb_neq in Hhit.
    eapply painted_marks; [|exact HQ].
    apply (keeps_populate_category w c' e').
    intros fs' k' w' -> Hin' ->.
    destruct (control_unique c fs k w c' fs' k' Hcin Hkin Hy Hin') as [E _].
    contradiction.
  - left. apply existsb_exists. exists (c, Fields fs).
    split; [exact Hcin | apply String.eqb_refl].
Qed.

(** A field that is missing or [None] leaves its control as it is. *)
Lemma populate_field_null s r c k w :
  config_data s = Some (TDict r) ->
  json_field c k (JObj (doc_entries s r)) = None
  \/ json_field c k (JObj (doc_entries s r)) = Some JNull ->
  snd (populate_field c (k, w) s) = s.
Proof.
  intros Hcfg Hnull. unfold populate_field.
  assert (H1 : get_config_data s = (Ok (TDict r), s)).
  { unfold get_config_data. rewrite Hcfg. reflexivity. }
  rewrite (bind_ok _ _ _ _ _ H1).
  pose proof (top_getitem_dict s r c) as H2.
  cbn [json_field] in Hnull. rewrite get_doc_entries in Hnull.
  destruct (Dict.get c (deref_top s r)) as [[a | rc]|].
  - rewrite (bind_ok _ _ _ _ _ H2). reflexivity.
  - rewrite (bind_ok _ _ _ _ _ H2). cbn [val_get]. rewrite bind_gets.
    cbn [option_map view_value] in Hnull.
    destruct Hnull as [-> | ->]; reflexivity.
  - rewrite (bind_raise _ _ _ _ _ H2). reflexivity.
Qed.

Lemma populate_categories_null s0 r c fs k w :
  config_data s0 = Some (TDict r) ->
  In (c, Fields fs) form_widgets -> In (k, w) fs ->
  json_field c k (JObj (doc_entries s0 r)) = None
  \/ json_field c k (JObj (doc_entries s0 r)) = Some JNull ->
  keeps w s0 (snd (for_ form_widgets populate_category s0)).
Proof.
  intros Hcfg Hcin Hkin Hnull.
  apply (for_invariant populate_category (keeps w s0)); [|reflexivity].
  intros [c' e'] s1 Hy H1. etransitivity; [exact H1|].
  destruct (repaints_store s0 s1 r (proj1 H1)) as (Hcfg1 & _ & _ & Hd1).
  rewrite Hcfg in Hcfg1.
  destruct (String.eqb_spec c' c) as [-> | Hne].
  - assert (e' = Fields fs) as ->.
    { pose proof (In_get _ _ _ form_keys Hy) as E1.
      pose proof (In_get _ _ _ form_keys Hcin) as E2. congruence. }
    rewrite (populate_category_fields s1 r c fs Hcfg1).
    destruct (Dict.mem c (deref_top s1 r)); [|reflexivity].
    apply (for_invariant (populate_field c) (keeps w s1)); [|reflexivity].
    intros [k' w'] s2 Hy' H2. etransitivity; [exact H2|].
    destruct (Nat.eq_dec w' w) as [-> | Hw].
    + destruct (control_unique c fs k w c fs k' Hcin Hkin Hcin Hy') as [_ ->].
      assert (H12 : repaints s0 s2).
      { etransitivity; [exact (proj1 H1) | exact (proj1 H2)]. }
      destruct (repaints_store s0 s2 r H12) as (Hcfg2 & _ & _ & Hd2).
      rewrite Hcfg in Hcfg2.
      rewrite (populate_field_null s2 r c k w Hcfg2) by (rewrite Hd2; exact Hnull).
      reflexivity.
    + apply (keeps_populate_field w c k' w' Hw).
  - apply (keeps_populate_category w c' e').
    intros fs' k' w' -> Hin' ->.
    destruct (control_unique c fs k w c' fs' k' Hcin Hkin Hy Hin') as [E _].
    contradiction.
Qed.

Lemma populate_ui_paints s d c k w :
  inv s -> document s = Some (JObj d) -> control (widgets s) c k = Some w ->
  document (snd (populate_ui s)) = document s
  /\ (json_field c k (JObj d) = None \/ json_field c k (JObj d) = Some JNull ->
      marks (snd (populate_ui s)) w = marks s w)
  /\ (fst (populate_ui s) = Ok tt ->
      forall x, json_field c k (JObj d) = Some x -> x <> JNull ->
        match cls (widget_at s w) with
        | QLineEdit => text (widget_at (snd (populate_ui s)) w) = py_str x
        | QCheckBox => checked (widget_at (snd (populate_ui s)) w) = py_bool x
        | _ => True
        end).
Proof.
  intros Hinv Hdoc Hctl.
  rewrite (ui_ok_widgets s (proj2 Hinv)) in Hctl.
  destruct (control_In _ _ _ _ Hctl) as (fs & Hcin & Hkin).
  destruct (document_object _ _ Hdoc) as (r & Hcfg & Hd). subst d.
  split; [apply repaints_document, preserves_populate_ui|].
  assert (Hrun : populate_ui s
                 = (for_ form_widgets populate_category >> apply_feature_dependencies) s).
  { unfold populate_ui. rewrite bind_gets, (ui_ok_widgets s (proj2 Hinv)).
    reflexivity. }
  rewrite Hrun. unfold bind.
  pose proof (populate_categories_null s r c fs k w Hcfg Hcin Hkin) as Hnull.
  pose proof (populate_categories_shows s r c) as Hshows.
  destruct (for_ form_widgets populate_category s) as [[[] | e] s1] eqn:Hloop;
    cbn [fst snd] in *.
  - split.
    + intros Hn. specialize (Hnull Hn).
      pose proof (keeps_apply_feature_dependencies w s1) as Hk.
      destruct Hnull as [_ E1], Hk as [_ E2]. congruence.
    + intros _ x Hx Hnn.
      destruct (json_field_store s r c k x Hx) as (rc & Hrc & Hk).
      specialize (Hshows rc fs k w x Hcfg Hrc Hk Hnn Hcin Hkin s).
      rewrite Hloop in Hshows. cbn [fst snd] in Hshows.
      assert (Hp : painted (cls (widget_at s w)) x (widget_at s1 w)).
      { apply Hshows; reflexivity. }
      pose proof (keeps_apply_feature_dependencies w s1) as [_ E].
      exact (painted_marks _ _ _ _ _ E Hp).
  - split; [|discriminate]. intros Hn. apply (Hnull Hn).
Qed.



(* ===================================================================== *)
(** ** Showing a document and committing it *)
(* ===================================================================== *)

(** What a commit reads in a control that shows the value [x]. *)
Definition displayed (c : wclass) (x : json) : reading :=
  match c with
  | QLineEdit =>
      match entered (py_str x) with
      | Some n => Value (JInt n)
      | None => Bad
      end
  | QCheckBox => Value (JBool (py_bool x))
  | _ => Skip
  end.

Lemma populate_reads s d c k w x :
  inv s -> document s = Some (JObj d) -> fst (populate_ui s) = Ok tt ->
  control (widgets s) c k = Some w ->
  json_field c k (JObj d) = Some x -> x <> JNull ->
  read_control (widget_at (snd (populate_ui s)) w)
  = displayed (cls (widget_at s w)) x.
Proof.
  intros Hinv Hdoc Hok Hctl Hx Hnn.
  destruct (populate_ui_paints s d c k w Hinv Hdoc Hctl) as (_ & _ & H).
  specialize (H Hok x Hx Hnn).
  pose proof (repaints_cls s _ w (preserves_populate_ui s)) as Hcls.
  unfold read_control, displayed. rewrite Hcls.
  destruct (cls (widget_at s w)); try reflexivity; rewrite H; reflexivity.
Qed.

Lemma entered_str_int n : entered (py_str (JInt n)) = Some n.
Proof.
  cbn [py_str entered]. rewrite Text.py_int_strip, Text.py_int_str_int.
  destruct (Text.is_empty (Text.strip (Text.str_int n))) eqn:He; [|reflexivity].
  apply is_empty_true in He.
  pose proof (Text.py_int_str_int n) as Hn.
  rewrite <- Text.py_int_strip, He in Hn. discriminate.
Qed.

(** A control that shows an integer or a boolean gives it back. *)
Lemma displayed_same_type c v x :
  match v with JBool _ => c = QCheckBox | JInt _ => c = QLineEdit | _ => False end ->
  same_type v x = true -> displayed c x = Value x.
Proof.
  intros Hc Ht. destruct v; try contradiction; destruct x; try discriminate; subst c.
  - reflexivity.
  - unfold displayed. rewrite entered_str_int. reflexivity.
Qed.

Lemma commit_fields_same q fs : forall cur,
  (forall k w, In (k, w) fs ->
     exists x, read_control (q w) = Value x /\ Dict.get k cur = Some x) ->
  commit_fields q fs cur = (Ok tt, cur).
Proof.
  induction fs as [|[k w] rest IH]; intros cur H; cbn [commit_fields];
    [reflexivity|].
  destruct (H k w (or_introl eq_refl)) as (x & -> & Hk).
  rewrite (put_same _ _ _ Hk). apply IH. intros k' w' Hin. apply H. right. exact Hin.
Qed.

(** A commit from controls that hold what the document holds changes
    nothing. *)
Lemma commit_doc_same q : forall ws d,
  shaped ws d ->
  (forall c fs k w cur, In (c, Fields fs) ws -> In (k, w) fs ->
     Dict.get c d = Some (JObj cur) ->
     exists x, read_control (q w) = Value x /\ Dict.get k cur = Some x) ->
  commit_doc q ws d = (Ok tt, d).
Proof.
  induction ws as [|[c e] ws IH]; intros d Hs H; [reflexivity|].
  rewrite commit_doc_cons, commit_category_doc_eq.
  assert (Hrest : commit_doc q ws d = (Ok tt, d)).
  { apply IH; [exact (shaped_cons _ _ _ Hs)|].
    intros c' fs k w cur Hc. apply H. right. exact Hc. }
  destruct (Dict.mem c d) eqn:Hmem; [|exact Hrest].
  destruct (Hs c e (or_introl eq_refl) Hmem) as (fs & -> & Hcur).
  destruct (Dict.get c d) as [[| | | | | | cur]|] eqn:Hget;
    try (destruct Hcur as [-> | (cur' & [=])]; exact Hrest).
  rewrite (commit_fields_same q fs cur).
  - cbn [fst snd]. rewrite (put_same _ _ _ Hget). exact Hrest.
  - intros k w Hin. apply (H c fs k w cur (or_introl eq_refl) Hin Hget).
Qed.

(** load_config, when it returns, ends in a populate_ui that returns. *)
Lemma load_config_split s s' :
  inv s -> load_config s = (Ok tt, s') ->
  exists s1, inv s1 /\ env s1 = env s /\ ui s1 = ui s
    /\ populate_ui s1 = (Ok tt, s').
Proof.
  intros [Hwf Hui] Hload. unfold load_config in Hload.
  destruct (load_config_try_spec s Hwf) as (Hui1 & Henv1 & Hwf1 & Hcase).
  destruct (load_config_try s) as [[[] | e] s1] eqn:Htry; cbn [fst snd] in *.
  2:{ rewrite (bind_raise _ _ _ _ _ Htry) in Hload. discriminate. }
  rewrite (bind_ok _ _ _ _ _ Htry) in Hload.
  assert (Hui1' : ui_ok s1) by eauto using same_ui_ok.
  destruct (config_data s1) as [[a | r] |] eqn:Hcfg.
  - destruct (fill_defaults_atom s1 a Hwf1 Hcfg) as [Hres _].
    destruct (fill_defaults s1) as [[[] | e] s2] eqn:Hfill;
      cbn [fst snd] in *; [discriminate|].
    rewrite (bind_raise _ _ _ _ _ Hfill) in Hload. discriminate.
  - destruct (fill_defaults_sim s1 r Hwf1 Hcfg) as [_ Hholds].
    destruct (fill_defaults s1) as [[[] | e] s2] eqn:Hfill; cbn [fst snd] in *.
    + rewrite (bind_ok _ _ _ _ _ Hfill) in Hload.
      exists s2. split; [split; eauto using holds_wf, holds_ui_ok|].
      destruct Hholds as (_ & _ & _ & Hui2 & Henv2).
      split; [congruence|]. split; [congruence | exact Hload].
    + rewrite (bind_raise _ _ _ _ _ Hfill) in Hload. discriminate.
  - exfalso. destruct (config_file s); destruct Hcase as [Hr Hdoc];
      try discriminate; unfold document in Hdoc; rewrite Hcfg in Hdoc; discriminate.
Qed.

(** reset_to_defaults, confirmed, is a populate_ui of a copy of the table. *)
Lemma reset_to_defaults_split s :
  inv s ->
  exists s1, inv s1 /\ env s1 = env s /\ ui s1 = ui s
    /\ document s1 = Some DefaultsDocument
    /\ reset_to_defaults true s = populate_ui s1.
Proof.
  intros [Hwf Hui]. unfold reset_to_defaults.
  destruct (copy_of_defaults_spec s (wf_tops s Hwf) (wf_cats s Hwf))
    as (s1 & r & Hrun & Hext & Hv & Hown).
  set (s2 := with_config_data (Some (TDict r)) s1).
  assert (Hset : (let* x := copy_of_defaults in set_config_data x) s = (Ok tt, s2)).
  { rewrite (bind_ok _ _ _ _ _ Hrun). reflexivity. }
  rewrite (bind_ok _ _ _ _ _ Hset).
  destruct (extends_prefixes _ _ Hext Hwf) as [Hpt Hpc].
  exists s2. split; [split|split; [|split; [|split]]].
  - apply wf_set_config_data; assumption.
  - eapply same_ui_ok; [|exact Hui]. apply Hext.
  - apply Hext.
  - apply Hext.
  - unfold document, s2. cbn [config_data with_config_data option_map].
    f_equal. exact Hv.
  - reflexivity.
Qed.

(** Every field of the table holds a value of the type of its default. *)
Definition typed_document (d : list (string * json)) : Prop :=
  forall c fields k v, In (c, fields) DefaultsTable -> In (k, v) fields ->
    exists x, json_field c k (JObj d) = Some x /\ same_type v x = true.

Lemma same_type_not_null v x : same_type v x = true -> x <> JNull.
Proof. destruct v, x; try discriminate; intros _; discriminate. Qed.

Lemma typed_defaults : typed_document defaults_entries.
Proof.
  intros c fields k v Hc Hk. exists v.
  change (JObj defaults_entries) with DefaultsDocument.
  rewrite defaults_document_field, (table_default_In _ _ _ _ Hc Hk).
  split; [reflexivity|].
  pose proof (default_well_typed _ _ _ _ Hc Hk) as H.
  destruct v; try discriminate H; reflexivity.
Qed.

(** The control of a field of the form, and what it has to be. *)
Lemma control_default s c fs k w :
  ui_ok s -> In (c, Fields fs) form_widgets -> In (k, w) fs ->
  exists fields v, In (c, fields) DefaultsTable /\ In (k, v) fields
    /\ match v with
       | JBool _ => cls (widget_at s w) = QCheckBox
       | JInt _ => cls (widget_at s w) = QLineEdit
       | _ => False
       end.
Proof.
  intros Hui Hc Hk.
  destruct (form_control_default c fs k w Hc Hk) as (v & Hv).
  destruct (table_default_Some c k v Hv) as (fields & Hcin & Hkin).
  exists fields, v. split; [exact Hcin|]. split; [exact Hkin|].
  destruct (table_control s c fields k v Hui Hcin Hkin) as (w' & Hw' & Hcls).
  rewrite (ui_ok_widgets s Hui), (In_control c fs k w Hc Hk) in Hw'.
  injection Hw' as <-. destruct v; try exact Hcls. apply Hcls.
Qed.

(** A window that has just shown a document of the right types commits
    it back unchanged. *)
Lemma populate_commit_same s d :
  inv s -> document s = Some (JObj d) -> shaped form_widgets d ->
  typed_document d ->
  fst (populate_ui s) = Ok tt
  /\ commit_doc (widget_at (snd (populate_ui s))) form_widgets d = (Ok tt, d).
Proof.
  intros Hinv Hdoc Hs Ht.
  assert (Hok : fst (populate_ui s) = Ok tt).
  { destruct (document_object _ _ Hdoc) as (r & Hcfg & Hd).
    rewrite (populate_ui_result s r Hinv Hcfg), Hd. apply populate_doc_shaped, Hs. }
  split; [exact Hok|].
  apply commit_doc_same; [exact Hs|].
  intros c fs k w cur Hc Hk Hget.
  destruct (control_default s c fs k w (proj2 Hinv) Hc Hk)
    as (fields & v & Hcin & Hkin & Hcls).
  destruct (Ht c fields k v Hcin Hkin) as (x & Hx & Hty).
  exists x. split.
  - assert (Hctl : control (widgets s) c k = Some w).
    { rewrite (ui_ok_widgets s (proj2 Hinv)). exact (In_control c fs k w Hc Hk). }
    rewrite (populate_reads s d c k w x Hinv Hdoc Hok Hctl Hx
               (same_type_not_null v x Hty)).
    apply (displayed_same_type _ v); [|exact Hty].
    destruct v; try exact Hcls.
  - cbn [json_field] in Hx. rewrite Hget in Hx. exact Hx.
Qed.

Lemma save_config_saved s d d' :
  inv s -> document s = Some (JObj d) ->
  commit_doc (widget_at s) form_widgets d = (Ok tt, d') -> writable s = true ->
  document (snd (save_config s)) = Some (JObj d')
  /\ config_file (snd (save_config s)) = Holds (JObj d')
  /\ shown (snd (save_config s)) = shown s ++ [Information].
Proof.
  intros Hinv Hdoc Hcd Hw. destruct (document_object _ _ Hdoc) as (r & Hcfg & Hd).
  destruct (save_config_try_spec s r Hinv Hcfg) as [Hdoc' Hcase].
  rewrite Hd, Hcd in Hdoc', Hcase. cbn [fst snd] in Hdoc', Hcase.
  rewrite Hw in Hcase. destruct Hcase as (Hok & Hfile & Hshown).
  rewrite save_config_eq.
  destruct (save_config_try s) as [[[] | e] s'] eqn:E; cbn [fst snd] in *;
    [auto | discriminate].
Qed.

(** X2.  Reset, then save: whatever the controls held before, also texts
    that are no integers, the save that follows a confirmed reset
    completes and writes exactly the defaults to a writable file. *)
Theorem reset_then_save s :
  reachable s -> writable s = true ->
  fst (commit (snd (reset_to_defaults true s))) = Ok tt
  /\ document (snd (save_config (snd (reset_to_defaults true s))))
     = Some DefaultsDocument
  /\ config_file (snd (save_config (snd (reset_to_defaults true s))))
     = Holds DefaultsDocument
  /\ shown (snd (save_config (snd (reset_to_defaults true s))))
     = shown s ++ [Information].
Proof.
  intros Hr Hw. pose proof (reachable_inv s Hr) as Hinv.
  destruct (reset_to_defaults_split s Hinv)
    as (s1 & Hinv1 & Henv1 & _ & Hdoc1 & Hrun).
  destruct (reset_to_defaults_spec s Hinv) as (_ & Hdoc2 & Hinv2 & Henv2).
  rewrite Hrun in *.
  destruct (populate_commit_same s1 defaults_entries Hinv1 Hdoc1
              (proj1 defaults_good_entries) typed_defaults) as [_ Hcd].
  destruct (commit_document _ defaults_entries Hinv2 Hdoc2) as (Hres & _).
  rewrite Hcd in Hres.
  assert (Hw2 : writable (snd (populate_ui s1)) = true
                /\ shown (snd (populate_ui s1)) = shown s).
  { unfold env in Henv2. split; congruence. }
  destruct (save_config_saved _ _ _ Hinv2 Hdoc2 Hcd (proj1 Hw2)) as (H1 & H2 & H3).
  split; [exact Hres|]. split; [exact H1|]. split; [exact H2|].
  rewrite H3, (proj2 Hw2). reflexivity.
Qed.

Lemma reset_then_save_witness :
  fst (commit s_abc) = Raise ValueError
  /\ fst (commit (snd (reset_to_defaults true s_abc))) = Ok tt
  /\ config_file (snd (save_config (snd (reset_to_defaults true s_abc))))
     = Holds DefaultsDocument.
Proof.
  split; [vm_compute; reflexivity|].
  assert (Hr : reachable s_abc).
  { apply running_reachable. unfold s_abc, run. cbn [fold_left].
    apply running_step; [|discriminate].
    apply running_step; [|discriminate]. apply running_first_run. }
  assert (Hw : writable s_abc = true) by (vm_compute; reflexivity).
  destruct (reset_then_save s_abc Hr Hw) as (H1 & _ & H2 & _).
  split; [exact H1 | exact H2].
Defined.












(* ===================================================================== *)
(** ** The outcomes of save_config *)
(* ===================================================================== *)





(** A control of the form is a line edit or a check box: a commit reads
    a value in it, or fails. *)
Lemma control_not_skipped s c fs k w :
  ui_ok s -> In (c, Fields fs) form_widgets -> In (k, w) fs ->
  read_control (widget_at s w) <> Skip.
Proof.
  intros Hui Hc Hk.
  destruct (control_default s c fs k w Hui Hc Hk) as (fields & v & _ & _ & Hcls).
  unfold read_control.
  destruct v; try contradiction; rewrite Hcls; [discriminate|].
  destruct (entered (text (widget_at s w))); discriminate.
Qed.

(** X7.  Saving twice: after a save that completed, a second save with
    no edit in between completes as well and leaves the document and the
    file as the first one made them. *)
Theorem save_twice s s0 :
  running s -> save_config_try s = (Ok tt, s0) ->
  fst (commit s0) = Ok tt
  /\ document (snd (save_config s0)) = document s0
  /\ config_file (snd (save_config s0)) = config_file s0
  /\ shown (snd (save_config s0)) = shown s0 ++ [Information].
Proof.
  intros Hrun Hsave.
  destruct (running_good s Hrun) as [Hinv (d & Hdoc & Hsh & Hpop)].
  assert (Hs0 : s0 = snd (perform DoSave s)).
  { cbn [perform]. rewrite save_config_eq, Hsave. reflexivity. }
  assert (Hrun0 : running s0).
  { rewrite Hs0. apply running_step; [exact Hrun | discriminate]. }
  destruct (running_good s0 Hrun0) as [Hinv0 (d0 & Hdoc0 & Hsh0 & _)].
  assert (Hok : fst (save_config_try s) = Ok tt) by (rewrite Hsave; reflexivity).
  pose proof (save_config_try_returns s Hinv Hok) as Hret.
  cbv zeta in Hret. rewrite Hsave in Hret. cbn [snd] in Hret.
  destruct Hret as (j & j' & Hj & Hj' & Hfile0 & Hm).
  rewrite Hdoc in Hj. injection Hj as <-.
  rewrite Hdoc0 in Hj'. injection Hj' as <-. destruct Hm as (Hcd & _).
  assert (Hqt0 : qt s0 = qt s).
  { pose proof (proj2 (save_config_try_inv s Hinv)) as Hui.
    rewrite Hsave in Hui. cbn [snd] in Hui. unfold ui in Hui. congruence. }
  assert (Hw0 : writable s0 = true).
  { pose proof (save_config_try_writable s Hinv) as Hw.
    rewrite Hsave in Hw. cbn [snd] in Hw. rewrite Hw.
    apply save_config_try_ok_writable; assumption. }
  assert (Hsame : commit_doc (widget_at s0) form_widgets d0 = (Ok tt, d0)).
  { apply commit_doc_same; [exact Hsh0|].
    intros c fs k w cur0 Hc Hk Hget0.
    destruct (running_category c fs d Hpop Hc) as (cur & Hcur).
    assert (Hres : fst (commit_doc (widget_at s) form_widgets d) = Ok tt)
      by (rewrite Hcd; reflexivity).
    pose proof (commit_doc_ok (widget_at s) form_widgets form_keys form_fields_keys
                  d Hres c fs k w cur Hc Hk Hcur) as H.
    rewrite Hcd in H. cbn [snd json_field] in H. rewrite Hget0 in H.
    pose proof (control_not_skipped s c fs k w (proj2 Hinv) Hc Hk) as Hns.
    unfold widget_at. rewrite Hqt0. fold (widget_at s w).
    destruct (read_control (widget_at s w)) as [| x |]; [congruence | eauto | contradiction]. }
  destruct (commit_document s0 d0 Hinv0 Hdoc0) as (Hres0 & _).
  rewrite Hsame in Hres0.
  destruct (save_config_saved s0 d0 d0 Hinv0 Hdoc0 Hsame Hw0) as (H1 & H2 & H3).
  split; [exact Hres0|]. split; [congruence|]. split; [congruence | exact H3].
Qed.

Lemma save_twice_witness :
  field (snd (save_config_try s_edited)) "money" "starting_money" = Some (JInt 250)
  /\ document (snd (save_config (snd (save_config_try s_edited))))
     = document (snd (save_config_try s_edited))
  /\ config_file (snd (save_config (snd (save_config_try s_edited))))
     = config_file (snd (save_config_try s_edited)).
Proof.
  split; [vm_compute; reflexivity|].
  assert (Hsave : save_config_try s_edited = (Ok tt, snd (save_config_try s_edited)))
    by (vm_compute; reflexivity).
  destruct (save_twice s_edited _ running_s_edited Hsave) as (_ & H1 & H2 & _).
  split; [exact H1 | exact H2].
Defined.

(* ===================================================================== *)
(** ** The errors load_config passes on *)
(* ===================================================================== *)

Lemma load_config_not_object_ui s j :
  inv s -> config_file s = Holds j -> (forall d, j <> JObj d) ->
  ui (snd (load_config s)) = ui s.
Proof.
  intros [Hwf Hui] Hf Hj.
  destruct (load_config_try_ok s _ Hwf Hf) as (s1 & Htry & Hui1 & Henv1 & Hwf1 & Hdoc).
  destruct (document_not_object _ _ Hdoc Hj) as (a & Hcfg).
  unfold load_config. rewrite (bind_ok _ _ _ _ _ Htry).
  destruct (fill_defaults_atom s1 a Hwf1 Hcfg) as [Hres Hext].
  destruct (fill_defaults s1) as [[[] | e] s2] eqn:Hfill;
    cbn [fst snd] in *; [discriminate|].
  rewrite (bind_raise _ _ _ _ _ Hfill). cbn [fst snd].
  destruct Hext as (_ & _ & _ & Hui2 & _). congruence.
Qed.

(** X8.  load_config never writes the file and never shows a box.  A file
    that cannot be opened or decoded is not caught: PermissionError and
    UnicodeDecodeError leave the window as it was.  A file whose JSON is
    not an object makes the defaulting pass raise TypeError; by then
    [self.config_data] is bound to that value, the former document is
    gone, and the controls still show what they showed. *)
Theorem load_config_errors s :
  reachable s ->
  env (snd (load_config s)) = env s
  /\ (config_file s = Unreadable -> load_config s = (Raise PermissionError, s))
  /\ (config_file s = NotUtf8 -> load_config s = (Raise UnicodeDecodeError, s))
  /\ (forall j, config_file s = Holds j -> (forall d, j <> JObj d) ->
        fst (load_config s) = Raise TypeError
        /\ document (snd (load_config s)) = Some j
        /\ qt (snd (load_config s)) = qt s).
Proof.
  intros Hr. pose proof (reachable_inv s Hr) as Hinv.
  split; [apply load_config_inv, Hinv|].
  destruct (load_config_unreadable s Hinv) as [H1 H2].
  split; [exact H1|]. split; [exact H2|].
  intros j Hf Hj.
  destruct (load_config_not_object s j Hinv Hf Hj) as [Hres Hdoc].
  split; [exact Hres|]. split; [exact Hdoc|].
  pose proof (load_config_not_object_ui s j Hinv Hf Hj) as Hui.
  unfold ui in Hui. congruence.
Qed.

Lemma load_config_errors_witness :
  fst (load_config (snd (perform (DoDisk (Holds (JArr [JStr "features"])) true)
                           s_edited))) = Raise TypeError
  /\ document (snd (load_config
                      (snd (perform (DoDisk (Holds (JArr [JStr "features"])) true)
                              s_edited))))
     = Some (JArr [JStr "features"]).
Proof.
  set (s := snd (perform (DoDisk (Holds (JArr [JStr "features"])) true) s_edited)).
  assert (Hr : reachable s).
  { apply reachable_perform, running_reachable, running_s_edited. }
  destruct (load_config_errors s Hr) as (_ & _ & _ & H).
  destruct (H (JArr [JStr "features"])) as (H1 & H2 & _).
  - vm_compute. reflexivity.
  - intros d. discriminate.
  - split; [exact H1 | exact H2].
Defined.

(* ===================================================================== *)
(** ** Which controls can be edited *)
(* ===================================================================== *)

(** Whatever apply_feature_dependencies meets, what it does to the window
    is to set the enabled flag of some of the dependent widgets. *)
Lemma apply_feature_dependencies_state s :
  exists ds b,
    (forall d, In d ds -> In d (roleplay_dependent_widgets s))
    /\ snd (apply_feature_dependencies s)
       = snd (for_ ds (fun w => setEnabled w b) s).
Proof.
  assert (Hnone : exists ds b,
            (forall d, In d ds -> In d (roleplay_dependent_widgets s))
            /\ s = snd (for_ ds (fun w => setEnabled w b) s)).
  { exists [], true. split; [intros d []|reflexivity]. }
  assert (R1 : exists r, widgets_getitem "features" s = (r, s)).
  { unfold widgets_getitem. rewrite bind_gets.
    destruct (Dict.get "features" (widgets s)); eauto. }
  assert (R2 : forall e, exists r, entry_getitem e "roleplay_enabled" s = (r, s)).
  { intros [w0 | fs]; cbn [entry_getitem]; [eauto|].
    destruct (Dict.get "roleplay_enabled" fs); eauto. }
  assert (R3 : forall cb, exists r, isChecked cb s = (r, s)).
  { intros cb. unfold isChecked, the_widget. rewrite bind_gets.
    destruct (cls (widget_at s cb)); eauto. }
  unfold apply_feature_dependencies, try_except.
  destruct R1 as [[e | err] E1];
    [rewrite (bind_ok _ _ _ _ _ E1)
    | rewrite (bind_raise _ _ _ _ _ E1); destruct err; exact Hnone].
  destruct (R2 e) as [[cb | err] E2];
    [rewrite (bind_ok _ _ _ _ _ E2)
    | rewrite (bind_raise _ _ _ _ _ E2); destruct err; exact Hnone].
  destruct (R3 cb) as [[b | err] E3];
    [rewrite (bind_ok _ _ _ _ _ E3)
    | rewrite (bind_raise _ _ _ _ _ E3); destruct err; exact Hnone].
  rewrite bind_gets, for_setEnabled.
  exists (roleplay_dependent_widgets s), b. split; [auto|].
  rewrite for_setEnabled. reflexivity.
Qed.

Lemma fold_setEnabled_other b : forall ds (l : list qwidget) w,
  ~ In w ds ->
  fold_left (fun l w => alter (set_enabled b) w l) ds l !! w = l !! w.
Proof.
  induction ds as [|d ds IH]; intros l w Hw; cbn [fold_left]; [reflexivity|].
  rewrite IH by (intros H; apply Hw; right; exact H).
  apply list_lookup_alter_ne. intros ->. apply Hw. left. reflexivity.
Qed.

(** The enabled flags of the widgets that are not dependent stay. *)
Definition off_limits (s s' : MainWindow) : Prop :=
  repaints s s'
  /\ forall w, ~ In w (roleplay_dependent_widgets s) ->
       enabled (widget_at s' w) = enabled (widget_at s w).

#[local] Instance off_limits_preorder : PreOrder off_limits.
Proof.
  split.
  - intros s. split; [reflexivity | auto].
  - intros s1 s2 s3 [H1 H1'] [H2 H2']. split; [etransitivity; eassumption|].
    intros w Hw. rewrite H2', H1'; [reflexivity | exact Hw|].
    destruct H1 as (_ & _ & _ & _ & -> & _). exact Hw.
Qed.

Lemma off_limits_update_widget w f :
  (forall q, shape (f q) = shape q) -> (forall q, enabled (f q) = enabled q) ->
  preserves off_limits (update_widget w f).
Proof.
  intros Hf He s. split; [apply preserves_update_widget, Hf|].
  intros w' _. rewrite widget_at_update.
  destruct (Nat.eqb_spec w' w) as [-> | Hne]; [|reflexivity].
  unfold widget_at. destruct (qt s !! w); [apply He | reflexivity].
Qed.

Lemma off_limits_setText w t : preserves off_limits (setText w t).
Proof. apply off_limits_update_widget; reflexivity. Qed.

Lemma off_limits_apply_feature_dependencies :
  preserves off_limits apply_feature_dependencies.
Proof.
  intros s. split; [apply preserves_apply_feature_dependencies|].
  intros w Hw.
  destruct (apply_feature_dependencies_state s) as (ds & b & Hds & ->).
  rewrite for_setEnabled. cbn [snd]. unfold widget_at.
  replace (qt (with_qt _ s)) with
    (fold_left (fun l w => alter (set_enabled b) w l) ds (qt s))
    by (destruct s; reflexivity).
  rewrite fold_setEnabled_other; [reflexivity|].
  intros H. apply Hw, Hds, H.
Qed.

Lemma off_limits_setChecked w b : preserves off_limits (setChecked w b).
Proof.
  pose proof off_limits_apply_feature_dependencies.
  unfold setChecked. preserve.
  apply off_limits_update_widget; reflexivity.
Qed.

#[export] Hint Resolve off_limits_setText off_limits_setChecked
  off_limits_apply_feature_dependencies : preserves.

Lemma off_limits_populate_ui : preserves off_limits populate_ui.
Proof. unfold populate_ui, populate_category, populate_field. preserve. Qed.

Definition is_dependent (w : wid) : bool := existsb (Nat.eqb w) form_dependents.

Lemma is_dependent_In w : is_dependent w = true <-> In w form_dependents.
Proof.
  unfold is_dependent. rewrite existsb_exists. split.
  - intros (d & Hd & E). apply Nat.eqb_eq in E. subst. exact Hd.
  - intros H. exists w. split; [exact H | apply Nat.eqb_refl].
Qed.

Lemma ui_ok_dependents s : ui_ok s -> roleplay_dependent_widgets s = form_dependents.
Proof. intros (_ & -> & _). vm_compute. reflexivity. Qed.

(** The enabled flags of the running window: a dependent widget has the
    state of the check box of [roleplay_enabled], the others are enabled. *)
Definition flags_ok (s : MainWindow) : Prop :=
  forall w, enabled (widget_at s w)
            = if is_dependent w then checked (widget_at s roleplay_checkbox)
              else true.

Lemma flags_ok_same s s' :
  (forall w, enabled (widget_at s' w) = enabled (widget_at s w)) ->
  checked (widget_at s' roleplay_checkbox) = checked (widget_at s roleplay_checkbox) ->
  flags_ok s -> flags_ok s'.
Proof. intros He Hc H w. rewrite He, Hc. apply H. Qed.

Lemma apply_feature_dependencies_flags s :
  ui_ok s -> (forall w, is_dependent w = false -> enabled (widget_at s w) = true) ->
  flags_ok (snd (apply_feature_dependencies s)).
Proof.
  intros Hui Hfree w.
  pose proof (regates_widget _ _ roleplay_checkbox
                (regates_apply_feature_dependencies s)) as Hv.
  assert (Hc : checked (widget_at (snd (apply_feature_dependencies s)) roleplay_checkbox)
               = checked (widget_at s roleplay_checkbox)).
  { unfold values in Hv. congruence. }
  rewrite Hc. destruct (is_dependent w) eqn:Hd.
  - apply apply_feature_dependencies_gates; [exact Hui|].
    rewrite (ui_ok_dependents s Hui). apply is_dependent_In, Hd.
  - destruct (off_limits_apply_feature_dependencies s) as [_ H].
    rewrite H; [apply Hfree, Hd|].
    rewrite (ui_ok_dependents s Hui). intros Hin.
    apply is_dependent_In in Hin. congruence.
Qed.

Lemma populate_ui_flags s :
  ui_ok s -> fst (populate_ui s) = Ok tt ->
  (forall w, is_dependent w = false -> enabled (widget_at s w) = true) ->
  flags_ok (snd (populate_ui s)).
Proof.
  intros Hui Hok Hfree. unfold populate_ui in *. rewrite bind_gets in *.
  assert (Hloop : off_limits s (snd (for_ (widgets s) populate_category s))).
  { apply preserves_for; [typeclasses eauto|]. intros ce.
    unfold populate_category, populate_field. preserve. }
  destruct (for_ (widgets s) populate_category s) as [[[] | e] s1] eqn:E;
    cbn [fst snd] in *.
  - rewrite (bind_ok _ _ _ _ _ E) in Hok |- *.
    apply apply_feature_dependencies_flags.
    + eapply repaints_ui_ok; [apply Hloop | exact Hui].
    + intros w Hd. destruct Hloop as [_ H]. rewrite H; [apply Hfree, Hd|].
      rewrite (ui_ok_dependents s Hui). intros Hin.
      apply is_dependent_In in Hin. congruence.
  - rewrite (bind_raise _ _ _ _ _ E) in Hok. discriminate.
Qed.

Lemma built_qt f wr : qt (built_window f wr) = qt form.
Proof. vm_compute. reflexivity. Qed.

Lemma all_enabled (l : list qwidget) w :
  forallb enabled l = true ->
  enabled (default (plain_widget QWidget) (l !! w)) = true.
Proof.
  intros H. rewrite forallb_forall in H.
  destruct (l !! w) as [q|] eqn:Hq; [|reflexivity].
  apply H. apply list_elem_of_In. eapply list_elem_of_lookup_2, Hq.
Qed.

Lemma form_enabled w : enabled (widget_at form w) = true.
Proof.
  assert (H : forallb enabled (qt form) = true) by (vm_compute; reflexivity).
  exact (all_enabled (qt form) w H).
Qed.

Lemma same_qt_widget s s' w : qt s' = qt s -> widget_at s' w = widget_at s w.
Proof. intros H. unfold widget_at. rewrite H. reflexivity. Qed.

Lemma roleplay_connected s :
  ui_ok s -> connected (widget_at s roleplay_checkbox) = true.
Proof.
  intros (_ & _ & H).
  pose proof (widget_at_shape form s roleplay_checkbox H) as Hs.
  assert (Hf : connected (widget_at form roleplay_checkbox) = true)
    by (vm_compute; reflexivity).
  unfold shape in Hs. congruence.
Qed.

Lemma setChecked_flags s w b :
  ui_ok s -> flags_ok s ->
  (w = roleplay_checkbox -> b = negb (checked (widget_at s w))) ->
  flags_ok (snd (setChecked w b s)).
Proof.
  intros Hui Hflags Hb.
  set (s1 := snd (update_widget w (set_checked b) s)).
  assert (Hui1 : ui_ok s1).
  { eapply repaints_ui_ok; [|exact Hui].
    apply preserves_update_widget. reflexivity. }
  assert (He1 : forall w', enabled (widget_at s1 w') = enabled (widget_at s w')).
  { intros w'. unfold s1. rewrite widget_at_update.
    destruct (Nat.eqb_spec w' w) as [-> | Hne]; [|reflexivity].
    unfold widget_at. destruct (qt s !! w); reflexivity. }
  assert (Hfree : forall w', is_dependent w' = false -> enabled (widget_at s1 w') = true).
  { intros w' Hd. rewrite He1, Hflags, Hd. reflexivity. }
  unfold setChecked, the_widget. rewrite bind_gets.
  rewrite (bind_ok _ _ _ tt s1) by reflexivity.
  destruct (connected (widget_at s w) && negb (Bool.eqb (checked (widget_at s w)) b))
    eqn:Hrun.
  - pose proof (apply_feature_dependencies_flags s1 Hui1 Hfree) as H.
    unfold try_except.
    destruct (apply_feature_dependencies s1) as [[[] | e] s2]; exact H.
  - cbn [ret snd]. apply (flags_ok_same s); [exact He1 | | exact Hflags].
    unfold s1. rewrite widget_at_update.
    destruct (Nat.eqb_spec roleplay_checkbox w) as [<- | Hne]; [|reflexivity].
    exfalso. rewrite (roleplay_connected s Hui), (Hb eq_refl) in Hrun.
    destruct (checked (widget_at s roleplay_checkbox)); discriminate.
Qed.

(** The flags are right all along the run of the program. *)
Lemma running_flags s : running s -> flags_ok s.
Proof.
  induction 1 as [f wr s Hinit | a s Hrun IH Ha].
  - rewrite init_eq in Hinit.
    destruct (load_config_split _ _ (inv_built f wr) Hinit)
      as (s0 & Hinv0 & _ & Hui0 & Hpop).
    pose proof (populate_ui_flags s0 (proj2 Hinv0)) as H.
    rewrite Hpop in H. apply H; [reflexivity|].
    intros w _. unfold ui in Hui0.
    rewrite (same_qt_widget (built_window f wr) s0 w) by congruence.
    rewrite (same_qt_widget form (built_window f wr) w) by apply built_qt.
    apply form_enabled.
  - destruct (running_good s Hrun) as [Hinv _].
    destruct a as [| | reply | w txt | w | f wr]; cbn [perform].
    + contradiction.
    + pose proof (proj2 (save_config_inv s Hinv)) as Hui. unfold ui in Hui.
      apply (flags_ok_same s); [| |exact IH];
        intros; rewrite (same_qt_widget s) by congruence; reflexivity.
    + destruct reply; [|exact IH].
      destruct (reset_to_defaults_split s Hinv) as (s1 & Hinv1 & _ & Hui1 & _ & Heq).
      destruct (reset_to_defaults_spec s Hinv) as (Hok & _).
      rewrite Heq in Hok |- *.
      apply populate_ui_flags; [apply Hinv1 | exact Hok|].
      intros w' Hd. unfold ui in Hui1.
      rewrite (same_qt_widget s s1 w') by congruence.
      rewrite IH, Hd. reflexivity.
    + destruct (cls (widget_at s w)), (isEnabled s w); try exact IH.
      apply (flags_ok_same s); [| |exact IH].
      * intros w'. unfold setText. rewrite widget_at_update.
        destruct (Nat.eqb_spec w' w) as [-> | Hne]; [|reflexivity].
        unfold widget_at. destruct (qt s !! w); reflexivity.
      * unfold setText. rewrite widget_at_update.
        destruct (Nat.eqb_spec roleplay_checkbox w) as [<- | Hne]; [|reflexivity].
        unfold widget_at. destruct (qt s !! roleplay_checkbox); reflexivity.
    + destruct (cls (widget_at s w)), (isEnabled s w); try exact IH.
      apply setChecked_flags; [apply Hinv | exact IH | reflexivity].
    + exact IH.
Qed.

(** A widget and its ancestors, as [isEnabled] walks them. *)
Fixpoint chain (depth : nat) (par : wid -> option wid) (w : wid) : list wid :=
  w :: match depth, par w with
       | S d, Some p => chain d par p
       | _, _ => []
       end.

Lemma enabled_upto_chain s : forall n w,
  enabled_upto n s w
  = forallb (fun a => enabled (widget_at s a))
      (chain n (fun a => parent (widget_at s a)) w).
Proof.
  induction n as [|n IH]; intros w; cbn [enabled_upto chain forallb].
  - destruct (parent (widget_at s w)); reflexivity.
  - destruct (parent (widget_at s w)) as [p|]; [|reflexivity].
    rewrite IH. reflexivity.
Qed.

Lemma chain_ext par par' : (forall a, par a = par' a) ->
  forall n w, chain n par w = chain n par' w.
Proof.
  intros H. induction n as [|n IH]; intros w; cbn [chain].
  - try rewrite (H w). reflexivity.
  - rewrite (H w). destruct (par' w); [rewrite IH|]; reflexivity.
Qed.

Lemma widget_at_parent s s' w :
  map shape (qt s') = map shape (qt s) ->
  parent (widget_at s' w) = parent (widget_at s w).
Proof.
  intros H. pose proof (widget_at_shape s s' w H) as Hs.
  unfold shape in Hs. congruence.
Qed.

(** The ancestors of a widget of the form. *)
Definition form_chain (w : wid) : list wid :=
  chain (length (qt form)) (fun a => parent (widget_at form a)) w.

Lemma isEnabled_chain s w :
  ui_ok s ->
  isEnabled s w = forallb (fun a => enabled (widget_at s a)) (form_chain w).
Proof.
  intros Hui. unfold isEnabled, form_chain.
  rewrite enabled_upto_chain, (ui_ok_length s Hui).
  rewrite (chain_ext (fun a => parent (widget_at s a))
             (fun a => parent (widget_at form a))); [reflexivity|].
  intros a. apply widget_at_parent, Hui.
Qed.

Lemma flags_ok_chain s l :
  flags_ok s ->
  forallb (fun a => enabled (widget_at s a)) l
  = if existsb is_dependent l then checked (widget_at s roleplay_checkbox)
    else true.
Proof.
  intros H. induction l as [|a l IH]; cbn [forallb existsb]; [reflexivity|].
  rewrite IH, H.
  destruct (is_dependent a), (existsb is_dependent l),
    (checked (widget_at s roleplay_checkbox)); reflexivity.
Qed.

(** The fields that the source gates on [roleplay_enabled]: the two
    dependent group boxes and the three dependent check boxes. *)
Definition roleplay_dependent (c k : string) : bool :=
  String.eqb c "civilian" || String.eqb c "police"
  || (String.eqb c "features"
      && (String.eqb k "speeding_bonus_enabled"
          || String.eqb k "zigzag_bonus_enabled"
          || String.eqb k "police_features_enabled")).

Definition form_gating : bool :=
  forallb
    (fun ce =>
       match snd ce with
       | Fields fs =>
           forallb
             (fun kw =>
                Bool.eqb (existsb is_dependent (form_chain (snd kw)))
                  (roleplay_dependent (fst ce) (fst kw)))
             fs
       | Widget _ => true
       end)
    form_widgets.

Lemma form_gating_true : form_gating = true.
Proof. vm_compute. reflexivity. Qed.

Lemma control_gating c fs k w :
  In (c, Fields fs) form_widgets -> In (k, w) fs ->
  existsb is_dependent (form_chain w) = roleplay_dependent c k.
Proof.
  intros Hc Hk. pose proof form_gating_true as H.
  unfold form_gating in H. rewrite forallb_forall in H.
  specialize (H _ Hc). cbn [fst snd] in H. rewrite forallb_forall in H.
  specialize (H _ Hk). cbn [fst snd] in H.
  apply Bool.eqb_prop in H. exact H.
Qed.

(** X9.  Which controls the user can edit in the running program: the
    controls of the civilian and police boxes and the three dependent
    check boxes exactly when the check box of roleplay_enabled is
    checked, every other control always. *)
Theorem editable_controls s c k w :
  running s -> control (widgets s) c k = Some w ->
  isEnabled s w
  = if roleplay_dependent c k then checked (widget_at s roleplay_checkbox)
    else true.
Proof.
  intros Hrun Hctl. destruct (running_good s Hrun) as [Hinv _].
  rewrite (ui_ok_widgets s (proj2 Hinv)) in Hctl.
  destruct (control_In _ _ _ _ Hctl) as (fs & Hc & Hk).
  rewrite (isEnabled_chain s w (proj2 Hinv)).
  rewrite (flags_ok_chain s _ (running_flags s Hrun)).
  rewrite (control_gating c fs k w Hc Hk). reflexivity.
Qed.

Lemma editable_controls_witness :
  isEnabled (run [DoToggle roleplay_checkbox] first_run) edit_busted_range = false
  /\ isEnabled (run [DoToggle roleplay_checkbox] first_run) edit_starting_money = true
  /\ isEnabled (run [DoToggle roleplay_checkbox; DoToggle roleplay_checkbox] first_run)
       edit_busted_range = true.
Proof.
  assert (H1 : running (run [DoToggle roleplay_checkbox] first_run)).
  { unfold run. cbn [fold_left].
    apply running_step; [apply running_first_run | discriminate]. }
  assert (H2 : running (run [DoToggle roleplay_checkbox; DoToggle roleplay_checkbox]
                          first_run)).
  { unfold run. cbn [fold_left].
    apply running_step; [|discriminate].
    apply running_step; [apply running_first_run | discriminate]. }
  split; [|split].
  - rewrite (editable_controls _ "police" "busted_range_m" edit_busted_range H1)
      by (vm_compute; reflexivity).
    vm_compute. reflexivity.
  - rewrite (editable_controls _ "money" "starting_money" edit_starting_money H1)
      by (vm_compute; reflexivity).
    vm_compute. reflexivity.
  - rewrite (editable_controls _ "police" "busted_range_m" edit_busted_range H2)
      by (vm_compute; reflexivity).
    vm_compute. reflexivity.
Defined.

(* ===================================================================== *)
(** ** Language packs: the rest of the class

    [tr], [load_all_languages], [on_lang_changed], [change_language],
    [update_ui_language], [create_header], [create_footer], and the
    constructor and the two slots with the texts they look up. *)
(* ===================================================================== *)

(** [str.endswith], [str.replace] and [os.path.splitext], the latter on a
    file name, which has no path separator. *)
Module Path.

Definition endswith (s suffix : string) : bool :=
  let n := String.length s in
  let m := String.length suffix in
  (m <=? n)%nat && String.eqb (String.substring (n - m) m s) suffix.

(** The index of the last ["."] *)
Fixpoint rfind_dot (s : string) : option nat :=
  match s with
  | EmptyString => None
  | String c r =>
      match rfind_dot r with
      | Some i => Some (S i)
      | None => if Ascii.eqb c "." then Some 0%nat else None
      end
  end.

Fixpoint all_dots (s : string) : bool :=
  match s with
  | EmptyString => true
  | String c r => Ascii.eqb c "." && all_dots r
  end.

(** [os.path.splitext(p)]: the extension starts at the last dot, unless
    only dots come before it. *)
Definition splitext (p : string) : string * string :=
  match rfind_dot p with
  | Some i =>
      if all_dots (String.substring 0 i p) then (p, "")
      else (String.substring 0 i p, String.substring i (String.length p - i) p)
  | None => (p, "")
  end.

(** [s.replace(old, new)] for a non-empty [old]: the occurrences are
    found from the left and do not overlap. [skip] characters of an
    occurrence are still to be dropped. *)
Fixpoint replace_from (skip : nat) (old new s : string) : string :=
  match s with
  | EmptyString => EmptyString
  | String c r =>
      match skip with
      | S k => replace_from k old new r
      | O =>
          if String.prefix old s
          then (new ++ replace_from (String.length old - 1) old new r)%string
          else String c (replace_from 0 old new r)
      end
  end.

Definition replace (old new s : string) : string := replace_from 0 old new s.

Example splitext_en : splitext "en.json" = ("en", ".json").
Proof. reflexivity. Qed.
Example splitext_two_dots : splitext "pt.br.json" = ("pt.br", ".json").
Proof. reflexivity. Qed.
Example splitext_hidden : splitext ".json" = (".json", "").
Proof. reflexivity. Qed.
Example replace_label : replace "label_" "" "label_starting_money" = "starting_money".
Proof. reflexivity. Qed.
Example replace_inner : replace "label_" "" "a_label_label_b" = "a_b".
Proof. reflexivity. Qed.

End Path.

Module App.

Inductive direction := LeftToRight | RightToLeft.

(** The directory [lang], as [os.path.isdir] and [os.listdir] see it: the
    names come in the order of [listdir], each with what [open] and
    [json.load] make of the file. *)
Inductive directory :=
  | NoDirectory
  | Unlistable
  | Listing (files : list (string * file_state)).

(** The window with what the claims leave aside: the language packs, the
    texts of the title and of the two buttons, the combo box of the
    languages, the layout direction of the application, and what
    [load_all_languages] has printed. A button that does not exist yet is
    [None]. *)
Record Editor := {
  window : MainWindow;
  translations : list (string * json);
  lang_map : list (json * string);
  current_lang : string;
  lang_dir : directory;
  printed : list exn;
  window_title : string;
  lang_combobox : option (list string);
  reset_button : option string;
  save_button : option string;
  layout_direction : direction
}.

Definition with_window (x : MainWindow) (e : Editor) :=
  {| window := x; translations := translations e; lang_map := lang_map e;
     current_lang := current_lang e; lang_dir := lang_dir e;
     printed := printed e; window_title := window_title e;
     lang_combobox := lang_combobox e; reset_button := reset_button e;
     save_button := save_button e; layout_direction := layout_direction e |}.
Definition with_translations (x : list (string * json)) (e : Editor) :=
  {| window := window e; translations := x; lang_map := lang_map e;
     current_lang := current_lang e; lang_dir := lang_dir e;
     printed := printed e; window_title := window_title e;
     lang_combobox := lang_combobox e; reset_button := reset_button e;
     save_button := save_button e; layout_direction := layout_direction e |}.
Definition with_lang_map (x : list (json * string)) (e : Editor) :=
  {| window := window e; translations := translations e; lang_map := x;
     current_lang := current_lang e; lang_dir := lang_dir e;
     printed := printed e; window_title := window_title e;
     lang_combobox := lang_combobox e; reset_button := reset_button e;
     save_button := save_button e; layout_direction := layout_direction e |}.
Definition with_current_lang (x : string) (e : Editor) :=
  {| window := window e; translations := translations e; lang_map := lang_map e;
     current_lang := x; lang_dir := lang_dir e;
     printed := printed e; window_title := window_title e;
     lang_combobox := lang_combobox e; reset_button := reset_button e;
     save_button := save_button e; layout_direction := layout_direction e |}.
Definition with_printed (x : list exn) (e : Editor) :=
  {| window := window e; translations := translations e; lang_map := lang_map e;
     current_lang := current_lang e; lang_dir := lang_dir e;
     printed := x; window_title := window_title e;
     lang_combobox := lang_combobox e; reset_button := reset_button e;
     save_button := save_button e; layout_direction := layout_direction e |}.
Definition with_window_title (x : string) (e : Editor) :=
  {| window := window e; translations := translations e; lang_map := lang_map e;
     current_lang := current_lang e; lang_dir := lang_dir e;
     printed := printed e; window_title := x;
     lang_combobox := lang_combobox e; reset_button := reset_button e;
     save_button := save_button e; layout_direction := layout_direction e |}.
Definition with_lang_combobox (x : option (list string)) (e : Editor) :=
  {| window := window e; translations := translations e; lang_map := lang_map e;
     current_lang := current_lang e; lang_dir := lang_dir e;
     printed := printed e; window_title := window_title e;
     lang_combobox := x; reset_button := reset_button e;
     save_button := save_button e; layout_direction := layout_direction e |}.
Definition with_reset_button (x : option string) (e : Editor) :=
  {| window := window e; translations := translations e; lang_map := lang_map e;
     current_lang := current_lang e; lang_dir := lang_dir e;
     printed := printed e; window_title := window_title e;
     lang_combobox := lang_combobox e; reset_button := x;
     save_button := save_button e; layout_direction := layout_direction e |}.
Definition with_save_button (x : option string) (e : Editor) :=
  {| window := window e; translations := translations e; lang_map := lang_map e;
     current_lang := current_lang e; lang_dir := lang_dir e;
     printed := printed e; window_title := window_title e;
     lang_combobox := lang_combobox e; reset_button := reset_button e;
     save_button := x; layout_direction := layout_direction e |}.
Definition with_layout_direction (x : direction) (e : Editor) :=
  {| window := window e; translations := translations e; lang_map := lang_map e;
     current_lang := current_lang e; lang_dir := lang_dir e;
     printed := printed e; window_title := window_title e;
     lang_combobox := lang_combobox e; reset_button := reset_button e;
     save_button := save_button e; layout_direction := x |}.

(** A statement of the window, run in the editor. *)
Definition lift {A} (m : M A) : St Editor A :=
  fun e => let (r, w) := m (window e) in (r, with_window w e).

(* --------------------------------------------------------------------- *)
(** *** The keys of [self.lang_map] *)
(* --------------------------------------------------------------------- *)

(** A key of [lang_map] is the [lang_name] of a pack, any JSON value that
    can be hashed. Python's keys are equal when they are the same object
    or compare equal: [True], [1] and [1.0] are one key, and so are the
    [NaN] of two packs, which [json] decodes to one object. *)
Definition hashable (j : json) : bool :=
  match j with
  | JArr _ | JObj _ => false
  | _ => true
  end.

(** [float(f) == n], which Python decides exactly *)
Definition float_eq_int (f : float) (n : Z) : bool :=
  match Prim2SF f with
  | S754_zero _ => n =? 0
  | S754_finite sign m e =>
      let v := if sign then Z.neg m else Z.pos m in
      if 0 <=? e then n =? v * 2 ^ e else v =? n * 2 ^ (- e)
  | _ => false
  end.

Definition key_eqb (a b : json) : bool :=
  match a, b with
  | JNull, JNull => true
  | JStr s, JStr t => String.eqb s t
  | JBool x, JBool y => Bool.eqb x y
  | JBool x, JInt n | JInt n, JBool x => n =? Z.b2z x
  | JInt n, JInt m => n =? m
  | JFloat f, JBool x | JBool x, JFloat f => float_eq_int f (Z.b2z x)
  | JFloat f, JInt n | JInt n, JFloat f => float_eq_int f n
  | JFloat f, JFloat g =>
      PrimFloat.eqb f g || (PrimFloat.is_nan f && PrimFloat.is_nan g)
  | _, _ => false
  end.

(** [d.get(k)] *)
Fixpoint key_get (k : json) (d : list (json * string)) : option string :=
  match d with
  | [] => None
  | (k', v) :: r => if key_eqb k k' then Some v else key_get k r
  end.

(** [d[k] = v]: an equal key keeps the key object it already has. *)
Fixpoint key_put (k : json) (v : string) (d : list (json * string))
  : list (json * string) :=
  match d with
  | [] => [(k, v)]
  | (k', v') :: r =>
      if key_eqb k k' then (k', v) :: r else (k', v') :: key_put k v r
  end.

(* --------------------------------------------------------------------- *)
(** *** tr and load_all_languages *)
(* --------------------------------------------------------------------- *)

(** [default_text or key] *)
Definition fallback (key : string) (default_text : option string) : string :=
  match default_text with
  | Some t => if Text.is_empty t then key else t
  | None => key
  end.

(** tr, lines 304-305 *)
Definition tr (key : string) (default_text : option string) : St Editor json :=
  let* ts := gets translations in
  let* lang := gets current_lang in
  match Dict.get lang ts with
  | None => ret (JStr (fallback key default_text))
  | Some (JObj entries) =>
      ret (default (JStr (fallback key default_text)) (Dict.get key entries))
  | Some _ => raise AttributeError
  end.

(** [with open(path, 'r', encoding='utf-8') as f: json.load(f)] *)
Definition read_json (f : file_state) : St Editor json :=
  match f with
  | Missing => raise FileNotFoundError
  | Unreadable => raise PermissionError
  | NotUtf8 => raise UnicodeDecodeError
  | NotJson => raise JSONDecodeError
  | Holds j => ret j
  end.

(** The body of the loop of load_all_languages, lines 311-316 *)
Definition load_language (file : string * file_state) : St Editor unit :=
  let '(filename, f) := file in
  if Path.endswith filename ".json" then
    let lang_code := fst (Path.splitext filename) in
    let* data := read_json f in
    modify (fun e => with_translations (Dict.put lang_code data (translations e)) e) >>
    match data with
    | JObj entries =>
        let name := default (JStr lang_code) (Dict.get "lang_name" entries) in
        if hashable name
        then modify (fun e => with_lang_map (key_put name lang_code (lang_map e)) e)
        else raise TypeError
    | _ => raise AttributeError
    end
  else ret tt.

(** load_all_languages, lines 307-318 *)
Definition load_all_languages : St Editor unit :=
  try_except
    (let* d := gets lang_dir in
     match d with
     | NoDirectory => ret tt
     | Unlistable => raise PermissionError
     | Listing files => for_ files load_language
     end)
    (fun x => modify (fun e => with_printed (printed e ++ [x]) e)).

(* --------------------------------------------------------------------- *)
(** *** The texts of the widgets *)
(* --------------------------------------------------------------------- *)

Section Texts.

(** What the binding makes of a Python value passed where Qt takes a
    [QString] or a list of them: [None] when the call raises TypeError.
    The statements below hold for every such conversion. *)
Variable as_qstring : json -> option string.
Variable as_qstringlist : list json -> option (list string).

Definition qstring (x : json) : St Editor string :=
  match as_qstring x with
  | Some t => ret t
  | None => raise TypeError
  end.

(** create_header, lines 176-187: the combo box of the languages *)
Definition create_header : St Editor unit :=
  let* m := gets lang_map in
  match m with
  | [] => ret tt
  | _ :: _ =>
      modify (with_lang_combobox (Some [])) >>
      match as_qstringlist (map fst m) with
      | Some items => modify (with_lang_combobox (Some items))
      | None => raise TypeError
      end
  end.

(** create_footer, lines 189-199: the two buttons *)
Definition create_footer : St Editor unit :=
  modify (with_reset_button (Some "")) >>
  modify (with_save_button (Some "")).

(** init_ui, lines 139-174 *)
Definition init_ui : St Editor unit :=
  modify (with_window_title "UIMPIT Config Editor") >>
  create_header >>
  lift init_ui >>
  create_footer.

(** [widget.setText(text)] and [widget.setTitle(text)]: for a group box
    the field [text] of the widget holds its title. *)
Definition set_label (w : wid) (x : json) : St Editor unit :=
  let* t := qstring x in
  lift (setText w (Text t)).

(** The body of the loop of update_ui_language, lines 337-342 *)
Definition relabel (kw : string * wentry) : St Editor unit :=
  let '(key, widget) := kw in
  let* text := tr (Path.replace "label_" "" key) None in
  match widget with
  | Widget w =>
      let* q := lift (the_widget w) in
      match cls q with
      | QLabel | QCheckBox => set_label w text
      | QGroupBox => set_label w text
      | _ => ret tt
      end
  | Fields _ => ret tt
  end.

(** [self.save_button], [self.reset_button] *)
Definition the_button (b : Editor -> option string) : St Editor unit :=
  fun e => match b e with
           | Some _ => (Ok tt, e)
           | None => (Raise AttributeError, e)
           end.

(** update_ui_language, lines 332-344 *)
Definition update_ui_language : St Editor unit :=
  (let* x := tr "window_title" None in
   let* t := qstring x in
   modify (with_window_title t)) >>
  (the_button save_button >>
   let* x := tr "save_button" None in
   let* t := qstring x in
   modify (with_save_button (Some t))) >>
  (the_button reset_button >>
   let* x := tr "reset_button" None in
   let* t := qstring x in
   modify (with_reset_button (Some t))) >>
  let* ws := gets (fun e => widgets (window e)) in
  for_ ws relabel.

(** change_language, lines 324-330 *)
Definition change_language (lang_code : string) : St Editor unit :=
  modify (with_current_lang lang_code) >>
  let is_rtl := existsb (String.eqb lang_code) ["he"; "ar"] in
  modify (with_layout_direction (if is_rtl then RightToLeft else LeftToRight)) >>
  update_ui_language.

(** on_lang_changed, lines 320-322 *)
Definition on_lang_changed (lang_name : string) : St Editor unit :=
  let* m := gets lang_map in
  change_language (default "en" (key_get (JStr lang_name) m)).

(** save_config, lines 379-396, with the texts of its boxes *)
Definition save_config : St Editor unit :=
  try_except
    (lift commit >>
     lift write_config >>
     let* title := tr "success_save_title" None in
     let* text := tr "success_save_message" None in
     let* _ := qstring title in
     let* _ := qstring text in
     lift (message Information))
    (fun x =>
       let* title := tr "error_title" None in
       let* _ := tr "error_invalid_input" None in
       let* _ := qstring title in
       lift (message (Critical x))).

(** reset_to_defaults, lines 398-403, with the texts of its question *)
Definition reset_to_defaults (reply : bool) : St Editor unit :=
  let* title := tr "confirm_reset_title" None in
  let* text := tr "confirm_reset_message" None in
  let* _ := qstring title in
  let* _ := qstring text in
  lift (reset_to_defaults reply).

(** [MainWindow.__init__], lines 123-137 *)
Definition __init__ : St Editor unit :=
  load_all_languages >>
  init_ui >>
  lift load_config >>
  change_language "en".

End Texts.

(** The editor when the constructor starts. *)
Definition fresh_editor (d : directory) (f : file_state) (wr : bool) : Editor :=
  {| window := fresh_window f wr; translations := []; lang_map := [];
     current_lang := "en"; lang_dir := d; printed := [];
     window_title := ""; lang_combobox := None; reset_button := None;
     save_button := None; layout_direction := LeftToRight |}.

(** The conversion of PySide6: a [str] as it is, [None] as the null
    string, nothing else. *)
Definition pyside_qstring (x : json) : option string :=
  match x with
  | JStr s => Some s
  | JNull => Some ""
  | _ => None
  end.

Fixpoint pyside_qstringlist (xs : list json) : option (list string) :=
  match xs with
  | [] => Some []
  | x :: r =>
      match pyside_qstring x, pyside_qstringlist r with
      | Some s, Some l => Some (s :: l)
      | _, _ => None
      end
  end.

End App.

(* ===================================================================== *)
(** ** The language packs are loaded by file name *)
(* ===================================================================== *)

Lemma substring_all s : String.substring 0 (String.length s) s = s.
Proof. induction s as [|c r IH]; cbn; [reflexivity | rewrite IH; reflexivity]. Qed.

Lemma substring_app_l a b :
  String.substring 0 (String.length a) (a ++ b)%string = a.
Proof.
  induction a as [|c r IH]; cbn.
  - destruct b; reflexivity.
  - rewrite IH. reflexivity.
Qed.

Lemma substring_app_r a b :
  String.substring (String.length a) (String.length b) (a ++ b)%string = b.
Proof.
  induction a as [|c r IH]; cbn; [apply substring_all | exact IH].
Qed.

Lemma length_app_string a b :
  String.length (a ++ b)%string = (String.length a + String.length b)%nat.
Proof. induction a as [|c r IH]; cbn; [reflexivity | rewrite IH; reflexivity]. Qed.

Lemma endswith_app stem suffix : Path.endswith (stem ++ suffix) suffix = true.
Proof.
  unfold Path.endswith. rewrite length_app_string.
  replace (String.length stem + String.length suffix - String.length suffix)%nat
    with (String.length stem) by lia.
  rewrite substring_app_r, String.eqb_refl.
  apply andb_true_iff. split; [apply Nat.leb_le; lia | reflexivity].
Qed.

Lemma rfind_dot_json stem :
  Path.rfind_dot (stem ++ ".json") = Some (String.length stem).
Proof.
  induction stem as [|c r IH]; [reflexivity|].
  cbn [append Path.rfind_dot String.length]. rewrite IH. reflexivity.
Qed.

(** The language code of a file [stem.json] is [stem], unless [stem] is
    made of dots only. *)
Lemma splitext_json stem :
  Path.splitext (stem ++ ".json")
  = if Path.all_dots stem then ((stem ++ ".json")%string, "") else (stem, ".json").
Proof.
  unfold Path.splitext. rewrite rfind_dot_json, substring_app_l.
  destruct (Path.all_dots stem); [reflexivity|].
  rewrite length_app_string.
  replace (String.length stem + String.length ".json" - String.length stem)%nat
    with (String.length ".json") by lia.
  rewrite substring_app_r. reflexivity.
Qed.

(** X10.  A file of [lang] that is not named [*.json] is ignored.  The
    pack of [stem.json] is stored under the code [stem], or under the
    whole file name when [stem] is empty or made of dots; it is stored
    before it is looked at, so that a pack that is no JSON object, or
    whose [lang_name] cannot be a key, stays in [translations] while the
    language list does not get it. *)
Theorem load_language_code stem j e :
  let code := if Path.all_dots stem then (stem ++ ".json")%string else stem in
  let e' := snd (App.load_language ((stem ++ ".json")%string, Holds j) e) in
  App.translations e' = Dict.put code j (App.translations e)
  /\ match j with
     | JObj entries =>
         let name := default (JStr code) (Dict.get "lang_name" entries) in
         if App.hashable name
         then fst (App.load_language ((stem ++ ".json")%string, Holds j) e) = Ok tt
              /\ App.lang_map e' = App.key_put name code (App.lang_map e)
         else fst (App.load_language ((stem ++ ".json")%string, Holds j) e)
              = Raise TypeError
              /\ App.lang_map e' = App.lang_map e
     | _ =>
         fst (App.load_language ((stem ++ ".json")%string, Holds j) e)
         = Raise AttributeError
         /\ App.lang_map e' = App.lang_map e
     end
  /\ (forall name f, Path.endswith name ".json" = false ->
        App.load_language (name, f) e = (Ok tt, e)).
Proof.
  cbv zeta. unfold App.load_language.
  rewrite endswith_app, splitext_json.
  set (code := if Path.all_dots stem then (stem ++ ".json")%string else stem).
  assert (Hcode : fst (if Path.all_dots stem
                       then ((stem ++ ".json")%string, "") else (stem, ".json"))
                  = code).
  { unfold code. destruct (Path.all_dots stem); reflexivity. }
  rewrite Hcode. cbn [App.read_json]. rewrite bind_ret.
  split; [|split].
  - destruct j as [| | | | | | entries]; try reflexivity.
    cbn. destruct (App.hashable (default (JStr code) (Dict.get "lang_name" entries)));
      reflexivity.
  - destruct j as [| | | | | | entries]; try (split; reflexivity).
    cbn. destruct (App.hashable (default (JStr code) (Dict.get "lang_name" entries)));
      split; reflexivity.
  - intros name f Hn. rewrite Hn. reflexivity.
Qed.

(** Only the packs and the language list may differ. *)
Definition packs_only (e e' : App.Editor) : Prop :=
  App.window e' = App.window e /\ App.current_lang e' = App.current_lang e
  /\ App.lang_dir e' = App.lang_dir e /\ App.printed e' = App.printed e
  /\ App.window_title e' = App.window_title e
  /\ App.lang_combobox e' = App.lang_combobox e
  /\ App.reset_button e' = App.reset_button e
  /\ App.save_button e' = App.save_button e
  /\ App.layout_direction e' = App.layout_direction e.

#[local] Instance packs_only_preorder : PreOrder packs_only.
Proof.
  split.
  - intros e. repeat split; reflexivity.
  - intros e1 e2 e3 (? & ? & ? & ? & ? & ? & ? & ? & ?)
      (? & ? & ? & ? & ? & ? & ? & ? & ?).
    repeat split; congruence.
Qed.

Lemma packs_only_load_language file : preserves packs_only (App.load_language file).
Proof.
  destruct file as [filename f]. unfold App.load_language.
  destruct (Path.endswith filename ".json"); [|apply preserves_ret; typeclasses eauto].
  apply preserves_bind; [typeclasses eauto | |].
  - destruct f; cbn [App.read_json];
      (apply preserves_ret || apply preserves_raise); typeclasses eauto.
  - intros data. apply preserves_bind; [typeclasses eauto | |].
    + apply preserves_modify. intros e. repeat split; reflexivity.
    + intros _. destruct data; try (apply preserves_raise; typeclasses eauto).
      destruct (App.hashable _); [|apply preserves_raise; typeclasses eauto].
      apply preserves_modify. intros e. repeat split; reflexivity.
Qed.

(** X11.  load_all_languages never raises and touches nothing but the
    packs, the language list and its output.  Without a directory it does
    nothing.  The first file that fails, by its reading, its JSON or the
    shape of its pack, ends the loading: the exception is printed and the
    files that [listdir] gives after it are not read. *)
Theorem load_all_languages_stops e :
  fst (App.load_all_languages e) = Ok tt
  /\ App.window (snd (App.load_all_languages e)) = App.window e
  /\ App.current_lang (snd (App.load_all_languages e)) = App.current_lang e
  /\ (App.lang_dir e = App.NoDirectory -> App.load_all_languages e = (Ok tt, e))
  /\ (forall pre f post x,
        App.lang_dir e = App.Listing (pre ++ f :: post) ->
        fst (for_ pre App.load_language e) = Ok tt ->
        fst (App.load_language f (snd (for_ pre App.load_language e))) = Raise x ->
        App.load_all_languages e
        = (Ok tt,
           App.with_printed
             (App.printed (snd (App.load_language f
                                  (snd (for_ pre App.load_language e)))) ++ [x])
             (snd (App.load_language f (snd (for_ pre App.load_language e)))))).
Proof.
  assert (Hbody : forall files, packs_only e (snd (for_ files App.load_language e))).
  { intros files. apply preserves_for; [typeclasses eauto|].
    apply packs_only_load_language. }
  assert (Hall : fst (App.load_all_languages e) = Ok tt
                 /\ App.window (snd (App.load_all_languages e)) = App.window e
                 /\ App.current_lang (snd (App.load_all_languages e))
                    = App.current_lang e).
  { unfold App.load_all_languages, try_except. rewrite bind_gets.
    destruct (App.lang_dir e) as [| | files]; try (repeat split; reflexivity).
    specialize (Hbody files).
    destruct (for_ files App.load_language e) as [[[] | x] e1]; cbn [fst snd] in *;
      destruct Hbody as (Hw & Hl & _); repeat split; assumption. }
  destruct Hall as (H1 & H2 & H3).
  split; [exact H1|]. split; [exact H2|]. split; [exact H3|]. split.
  - intros Hd. unfold App.load_all_languages, try_except.
    rewrite bind_gets, Hd. reflexivity.
  - intros pre f post x Hd Hpre Hf.
    unfold App.load_all_languages, try_except. rewrite bind_gets, Hd.
    rewrite for_app. unfold bind at 1.
    destruct (for_ pre App.load_language e) as [[[] | y] e1]; cbn [fst snd] in *;
      [|discriminate].
    cbn [for_]. unfold bind at 1.
    destruct (App.load_language f e1) as [[[] | y] e2]; cbn [fst snd] in *;
      [discriminate|].
    injection Hf as ->. reflexivity.
Qed.

(** Three packs, the second of them broken. *)
Definition pack_en : json :=
  JObj [("lang_name", JStr "English"); ("save_button", JStr "Save")].
Definition pack_fr : json :=
  JObj [("lang_name", JStr "Francais"); ("save_button", JStr "Enregistrer")].
Definition e_broken : App.Editor :=
  App.fresh_editor
    (App.Listing [("en.json", Holds pack_en); ("de.json", NotJson);
                  ("fr.json", Holds pack_fr)])
    Missing true.

Lemma load_all_languages_stops_witness :
  fst (App.load_all_languages e_broken) = Ok tt
  /\ App.printed (snd (App.load_all_languages e_broken)) = [JSONDecodeError]
  /\ Dict.keys (App.translations (snd (App.load_all_languages e_broken))) = ["en"].
Proof.
  destruct (load_all_languages_stops e_broken) as (H1 & _ & _ & _ & H).
  split; [exact H1|].
  rewrite (H [("en.json", Holds pack_en)] ("de.json", NotJson)
             [("fr.json", Holds pack_fr)] JSONDecodeError);
    [split| | |]; vm_compute; reflexivity.
Defined.

(* ===================================================================== *)
(** ** The language list names packs that can be used *)
(* ===================================================================== *)

(** The codes of the packs of a listing, in its order. *)
Definition lang_codes (files : list (string * file_state)) : list string :=
  map (fun file => fst (Path.splitext (fst file)))
    (List.filter (fun file => Path.endswith (fst file) ".json") files).

Definition lang_name_of (code : string) (entries : list (string * json)) : json :=
  default (JStr code) (Dict.get "lang_name" entries).

(** Every entry of the language list leads to a pack that is an object
    and carries the key of the entry as its name. *)
Definition listed_ok (e : App.Editor) : Prop :=
  forall k code, In (k, code) (App.lang_map e) ->
    exists entries,
      Dict.get code (App.translations e) = Some (JObj entries)
      /\ App.key_eqb (lang_name_of code entries) k = true.

Lemma key_eqb_refl j : App.hashable j = true -> App.key_eqb j j = true.
Proof.
  destruct j; cbn; try discriminate; intros _; try reflexivity.
  - apply Bool.eqb_reflx.
  - apply Z.eqb_refl.
  - unfold PrimFloat.is_nan. destruct (PrimFloat.eqb f f); reflexivity.
  - apply String.eqb_refl.
Qed.

Lemma key_eqb_str_l s k : App.key_eqb (JStr s) k = true -> k = JStr s.
Proof.
  destruct k; cbn; try discriminate. intros H. apply String.eqb_eq in H.
  congruence.
Qed.

Lemma key_eqb_str_r s k : App.key_eqb k (JStr s) = true -> k = JStr s.
Proof.
  destruct k; cbn; try discriminate. intros H. apply String.eqb_eq in H.
  congruence.
Qed.

Lemma In_key_put k v d : forall k' v',
  In (k', v') (App.key_put k v d) ->
  In (k', v') d
  \/ (v' = v /\ (App.key_eqb k k' = true \/ k' = k)).
Proof.
  induction d as [|[k0 v0] d IH]; intros k' v'; cbn [App.key_put].
  - intros [[= <- <-] | []]. right. auto.
  - destruct (App.key_eqb k k0) eqn:E.
    + intros [[= <- <-] | H]; [right; auto | left; right; exact H].
    + intros [H | H]; [left; left; exact H|].
      destruct (IH _ _ H) as [H' | H']; [left; right; exact H' | right; exact H'].
Qed.

Lemma key_get_In k d v :
  App.key_get k d = Some v -> exists k', In (k', v) d /\ App.key_eqb k k' = true.
Proof.
  induction d as [|[k0 v0] d IH]; cbn [App.key_get]; [discriminate|].
  destruct (App.key_eqb k k0) eqn:E.
  - intros [= <-]. exists k0. split; [left; reflexivity | exact E].
  - intros H. destruct (IH H) as (k' & Hin & Hk). exists k'. split; [right|]; assumption.
Qed.

Lemma lang_codes_app a b : lang_codes (a ++ b) = lang_codes a ++ lang_codes b.
Proof. unfold lang_codes. rewrite List.filter_app, map_app. reflexivity. Qed.

(** What a pack file does to the packs and the list, whether or not the
    step raises. *)
Lemma load_language_step filename f e :
  let e' := snd (App.load_language (filename, f) e) in
  (App.translations e' = App.translations e /\ App.lang_map e' = App.lang_map e)
  \/ (Path.endswith filename ".json" = true
      /\ exists j, f = Holds j
         /\ App.translations e'
            = Dict.put (fst (Path.splitext filename)) j (App.translations e)
         /\ (App.lang_map e' = App.lang_map e
             \/ exists entries,
                  j = JObj entries
                  /\ App.hashable (lang_name_of (fst (Path.splitext filename)) entries)
                     = true
                  /\ App.lang_map e'
                     = App.key_put (lang_name_of (fst (Path.splitext filename)) entries)
                         (fst (Path.splitext filename)) (App.lang_map e))).
Proof.
  cbv zeta. unfold App.load_language.
  destruct (Path.endswith filename ".json"); [|left; split; reflexivity].
  destruct f as [| | | | j]; cbn [App.read_json]; try (left; split; reflexivity).
  rewrite bind_ret. right. split; [reflexivity|]. exists j. split; [reflexivity|].
  destruct j as [| | | | | | entries]; try (split; [reflexivity | left; reflexivity]).
  fold (lang_name_of (fst (Path.splitext filename)) entries).
  destruct (App.hashable (lang_name_of (fst (Path.splitext filename)) entries)) eqn:Hh.
  - split; [reflexivity|]. right. exists entries.
    split; [reflexivity|]. split; [exact Hh | reflexivity].
  - split; [reflexivity | left; reflexivity].
Qed.

Lemma load_language_listed done file e :
  listed_ok e ->
  (forall c, In c (Dict.keys (App.translations e)) -> In c (lang_codes done)) ->
  NoDup (lang_codes (done ++ [file])) ->
  listed_ok (snd (App.load_language file e))
  /\ (forall c, In c (Dict.keys (App.translations (snd (App.load_language file e)))) ->
        In c (lang_codes (done ++ [file]))).
Proof.
  intros Hok Hkeys Hnd. destruct file as [filename f].
  rewrite lang_codes_app in Hnd |- *.
  destruct (load_language_step filename f e)
    as [[Ht Hm] | (Hjson & j & -> & Ht & Hm)].
  - split.
    + intros k code Hin. rewrite Hm in Hin. rewrite Ht. apply Hok, Hin.
    + intros c Hc. rewrite Ht in Hc. apply in_or_app. left. apply Hkeys, Hc.
  - set (c0 := fst (Path.splitext filename)) in *.
    assert (Hcodes : lang_codes [(filename, Holds j)] = [c0]).
    { unfold lang_codes. cbn [List.filter fst]. rewrite Hjson. reflexivity. }
    rewrite Hcodes in Hnd |- *.
    assert (Hfresh : ~ In c0 (Dict.keys (App.translations e))).
    { intros Hin. apply Hkeys in Hin.
      apply NoDup_app in Hnd as (_ & Hdisj & _).
      apply (Hdisj c0); [apply list_elem_of_In, Hin | left]. }
    assert (Hold : forall k code, In (k, code) (App.lang_map e) ->
              exists entries,
                Dict.get code (Dict.put c0 j (App.translations e)) = Some (JObj entries)
                /\ App.key_eqb (lang_name_of code entries) k = true).
    { intros k code Hin. destruct (Hok k code Hin) as (entries & Hget & Hk).
      exists entries. split; [|exact Hk].
      rewrite get_put_ne; [exact Hget|].
      intros ->. apply Hfresh. eapply In_keys, get_In, Hget. }
    split.
    + intros k code Hin. rewrite Ht.
      destruct Hm as [Hm | (entries & -> & Hh & Hm)]; rewrite Hm in Hin.
      * apply Hold, Hin.
      * destruct (In_key_put _ _ _ _ _ Hin) as [Hin' | (-> & Hk)];
          [apply Hold, Hin'|].
        exists entries. split; [apply get_put_eq|].
        destruct Hk as [Hk | ->]; [exact Hk | apply key_eqb_refl, Hh].
    + intros c Hc. rewrite Ht, keys_put in Hc. apply in_or_app.
      destruct (Dict.mem c0 (App.translations e)).
      * left. apply Hkeys, Hc.
      * apply in_app_or in Hc as [Hc | Hc]; [left; apply Hkeys, Hc | right; exact Hc].
Qed.

(** [len(set(l)) == len(l)] *)
Fixpoint distinct (l : list string) : bool :=
  match l with
  | [] => true
  | x :: r => negb (existsb (String.eqb x) r) && distinct r
  end.

Lemma distinct_NoDup l : distinct l = true -> NoDup l.
Proof.
  induction l as [|x r IH]; cbn; [intros _; apply NoDup_nil_2|].
  intros H. apply andb_prop in H as [Hx Hr]. apply NoDup_cons_2; [|apply IH, Hr].
  rewrite list_elem_of_In. intros Hin.
  apply Bool.negb_true_iff in Hx.
  assert (existsb (String.eqb x) r = true); [|congruence].
  apply existsb_exists. exists x. split; [exact Hin | apply String.eqb_refl].
Qed.

Lemma load_languages_listed files : forall done e,
  listed_ok e ->
  (forall c, In c (Dict.keys (App.translations e)) -> In c (lang_codes done)) ->
  NoDup (lang_codes (done ++ files)) ->
  listed_ok (snd (for_ files App.load_language e)).
Proof.
  induction files as [|file files IH]; intros done e Hok Hkeys Hnd; [exact Hok|].
  assert (Hnd1 : NoDup (lang_codes (done ++ [file]))).
  { replace (done ++ file :: files) with ((done ++ [file]) ++ files) in Hnd
      by (rewrite <- app_assoc; reflexivity).
    rewrite lang_codes_app in Hnd. apply NoDup_app in Hnd as (H & _). exact H. }
  destruct (load_language_listed done file e Hok Hkeys Hnd1) as (Hok1 & Hkeys1).
  cbn [for_]. unfold bind.
  destruct (App.load_language file e) as [[[]|x] e1]; cbn [snd] in *.
  - apply (IH (done ++ [file])); [exact Hok1 | exact Hkeys1|].
    rewrite <- app_assoc. exact Hnd.
  - exact Hok1.
Qed.

Lemma listed_ok_printed x e : listed_ok e -> listed_ok (App.with_printed x e).
Proof. intros H. exact H. Qed.

Lemma load_all_languages_listed files e :
  App.lang_dir e = App.Listing files ->
  App.translations e = [] -> App.lang_map e = [] ->
  NoDup (lang_codes files) ->
  listed_ok (snd (App.load_all_languages e)).
Proof.
  intros Hdir Ht Hm Hnd.
  assert (Hloop : listed_ok (snd (for_ files App.load_language e))).
  { apply (load_languages_listed files []); [ | | exact Hnd].
    - intros k code Hin. rewrite Hm in Hin. destruct Hin.
    - intros c Hin. rewrite Ht in Hin. destruct Hin. }
  unfold App.load_all_languages, try_except, bind, gets. rewrite Hdir.
  destruct (for_ files App.load_language e) as [[[]|x] e1]; cbn [snd] in *;
    exact Hloop.
Qed.

(** X12. When the file names of the packs give pairwise different language
    codes, every name that the language list knows after
    load_all_languages leads to a pack that was loaded, is a JSON object
    and carries that name (or has no name and is listed under its code).
    Choosing such a name therefore selects a language in which tr never
    raises: it gives the entry of the pack, or the key itself when the
    pack has no such entry. *)
Theorem listed_languages files f wr name code :
  NoDup (lang_codes files) ->
  App.key_get (JStr name)
    (App.lang_map (snd (App.load_all_languages
                          (App.fresh_editor (App.Listing files) f wr))))
    = Some code ->
  exists entries,
    Dict.get code
      (App.translations (snd (App.load_all_languages
                                (App.fresh_editor (App.Listing files) f wr))))
      = Some (JObj entries)
    /\ default (JStr code) (Dict.get "lang_name" entries) = JStr name
    /\ forall e key,
         App.translations e
           = App.translations (snd (App.load_all_languages
                                      (App.fresh_editor (App.Listing files) f wr))) ->
         App.current_lang e = code ->
         App.tr key None e
         = (Ok (default (JStr key) (Dict.get key entries)), e).
Proof.
  intros Hnd Hget.
  assert (Hok := load_all_languages_listed files
                   (App.fresh_editor (App.Listing files) f wr)
                   eq_refl eq_refl eq_refl Hnd).
  revert Hok Hget.
  generalize (snd (App.load_all_languages
                     (App.fresh_editor (App.Listing files) f wr))).
  intros e' Hok Hget.
  apply key_get_In in Hget as (k & Hin & Hk).
  apply key_eqb_str_l in Hk. subst k.
  destruct (Hok _ _ Hin) as (entries & Ht & Hname).
  apply key_eqb_str_r in Hname.
  exists entries. split; [exact Ht|]. split; [exact Hname|].
  intros e key He Hc. unfold App.tr, bind, gets, ret.
  rewrite He, Hc, Ht. reflexivity.
Qed.

Lemma listed_languages_witness :
  exists entries,
    Dict.get "fr"
      (App.translations (snd (App.load_all_languages
         (App.fresh_editor (App.Listing [("en.json", Holds pack_en);
                                         ("fr.json", Holds pack_fr)])
            Missing true))))
      = Some (JObj entries)
    /\ default (JStr "fr") (Dict.get "lang_name" entries) = JStr "Francais".
Proof.
  destruct (listed_languages [("en.json", Holds pack_en); ("fr.json", Holds pack_fr)]
              Missing true "Francais" "fr") as (entries & H1 & H2 & _).
  - apply distinct_NoDup. vm_compute. reflexivity.
  - vm_compute. reflexivity.
  - exists entries. split; assumption.
Defined.

(** Without that condition the list can lead to a pack that tr cannot
    use: [a.json] and [a..json] do not collide, but [.json] (code
    [.json]) and [.json.json] (code [.json] as well) do, and the second
    pack replaces the first one under a name that the first one gave. *)
Example colliding_pack_names :
  let e := snd (App.load_all_languages
                  (App.fresh_editor
                     (App.Listing [(".json", Holds (JObj [("lang_name", JStr "X")]));
                                   (".json.json", Holds (JArr []))])
                     Missing true)) in
  App.key_get (JStr "X") (App.lang_map e) = Some ".json"
  /\ fst (App.tr "save_button" None (App.with_current_lang ".json" e))
     = Raise AttributeError.
Proof. vm_compute. split; reflexivity. Qed.

(* ===================================================================== *)
(** ** A change of language is presentation only *)
(* ===================================================================== *)

(** The classes whose text update_ui_language sets. *)
Definition labelled (c : wclass) : bool :=
  match c with
  | QLabel | QCheckBox | QGroupBox => true
  | _ => false
  end.

(** All of a widget but the text of a label, of a check box or of a group
    box. *)
Definition unlabelled (q : qwidget) :=
  (cls q, checked q, enabled q, parent q, validator q, connected q,
   if labelled (cls q) then None else Some (text q)).

(** Only the texts of labels, check boxes and group boxes may differ. *)
Definition relabels (s s' : MainWindow) : Prop :=
  tops s' = tops s /\ cats s' = cats s /\ config_data s' = config_data s
  /\ widgets s' = widgets s
  /\ roleplay_dependent_widgets s' = roleplay_dependent_widgets s
  /\ env s' = env s
  /\ map unlabelled (qt s') = map unlabelled (qt s).

#[local] Instance relabels_preorder : PreOrder relabels.
Proof.
  split.
  - intros s. repeat split; reflexivity.
  - intros s1 s2 s3 (? & ? & ? & ? & ? & ? & ?) (? & ? & ? & ? & ? & ? & ?).
    repeat split; congruence.
Qed.

Lemma map_unlabelled_set_text t (l : list qwidget) : forall w,
  labelled (cls (default (plain_widget QWidget) (l !! w))) = true ->
  map unlabelled (alter (set_text t) w l) = map unlabelled l.
Proof.
  induction l as [|q l IH]; intros [|w] H; cbn in *; try reflexivity.
  - f_equal. unfold unlabelled. cbn. rewrite H. reflexivity.
  - f_equal. apply IH, H.
Qed.

Lemma relabels_setText w t s :
  labelled (cls (widget_at s w)) = true -> relabels s (snd (setText w t s)).
Proof.
  intros H. unfold setText, update_widget, modify. cbn [snd].
  destruct s; cbn in *. repeat split; try reflexivity.
  apply map_unlabelled_set_text, H.
Qed.

Lemma relabels_widget s s' w :
  relabels s s' -> unlabelled (widget_at s' w) = unlabelled (widget_at s w).
Proof.
  intros (_ & _ & _ & _ & _ & _ & H). unfold widget_at.
  assert (Hl : unlabelled <$> (qt s' !! w) = unlabelled <$> (qt s !! w)).
  { rewrite <- !list_lookup_fmap. change (fmap unlabelled) with (map unlabelled).
    rewrite H. reflexivity. }
  destruct (qt s' !! w), (qt s !! w); cbn [fmap option_fmap option_map] in Hl;
    try discriminate; [|reflexivity].
  apply (inj Some) in Hl. exact Hl.
Qed.

Lemma read_control_unlabelled q q' :
  unlabelled q = unlabelled q' -> read_control q = read_control q'.
Proof.
  unfold unlabelled, read_control. intros [= Hc Hk _ _ _ _ Ht]. rewrite Hc in *.
  destruct (cls q'); cbn in *; try reflexivity;
    [injection Ht as ->; reflexivity | rewrite Hk; reflexivity].
Qed.

Lemma relabels_repaints s s' : relabels s s' -> repaints s s'.
Proof.
  intros (Ht & Hc & Hcfg & Hw & Hd & He & Hq). repeat split; try assumption.
  assert (Hs : forall l, map shape l
                 = map (fun v => (v.1.1.1.1.1.1, v.1.1.1.2, v.1.1.2, v.1.2))
                     (map unlabelled l)).
  { intros l. rewrite map_map. reflexivity. }
  rewrite (Hs (qt s')), Hq, <- Hs. reflexivity.
Qed.

(** The commit reads the controls only through [read_control]. *)
Lemma for_ext {S A} (f g : A -> St S unit) :
  (forall x s, f x s = g x s) -> forall xs s, for_ xs f s = for_ xs g s.
Proof.
  intros H. induction xs as [|x xs IH]; intros s; cbn [for_]; [reflexivity|].
  unfold bind. rewrite H. destruct (g x s) as [[[] | e] s1]; [apply IH | reflexivity].
Qed.

Lemma commit_doc_reads q q' :
  (forall w, read_control (q w) = read_control (q' w)) ->
  forall ws d, commit_doc q ws d = commit_doc q' ws d.
Proof.
  intros H ws d. unfold commit_doc. apply for_ext. clear ws d.
  intros [c e] d. unfold commit_category_doc. cbn [fst snd].
  destruct (Dict.mem c d); [|reflexivity].
  destruct e as [w | fs]; [reflexivity|].
  apply for_ext. intros [k w] d'. rewrite !commit_field_doc_eq, H. reflexivity.
Qed.

Lemma relabels_commit s s' d :
  relabels s s' -> inv s -> document s = Some (JObj d) ->
  fst (commit s') = fst (commit s)
  /\ document (snd (commit s')) = document (snd (commit s)).
Proof.
  intros Hrel Hinv Hdoc.
  pose proof (relabels_repaints _ _ Hrel) as Hrep.
  pose proof (repaints_inv _ _ Hrep Hinv) as Hinv'.
  assert (Hdoc' : document s' = Some (JObj d))
    by (rewrite (repaints_document _ _ Hrep); exact Hdoc).
  destruct (commit_document s d Hinv Hdoc) as (H1 & H2 & _).
  destruct (commit_document s' d Hinv' Hdoc') as (H1' & H2' & _).
  assert (Heq : commit_doc (widget_at s') form_widgets d
                = commit_doc (widget_at s) form_widgets d).
  { apply commit_doc_reads. intros w. apply read_control_unlabelled.
    apply relabels_widget, Hrel. }
  rewrite H1, H1', H2, H2', Heq. split; reflexivity.
Qed.

(** The editor: the packs, the language list and what was printed stay,
    and so do the language and the layout direction; of the window only
    labels may differ. *)
Definition restyles (e e' : App.Editor) : Prop :=
  App.translations e' = App.translations e
  /\ App.lang_map e' = App.lang_map e
  /\ App.lang_dir e' = App.lang_dir e
  /\ App.printed e' = App.printed e
  /\ App.lang_combobox e' = App.lang_combobox e
  /\ App.current_lang e' = App.current_lang e
  /\ App.layout_direction e' = App.layout_direction e
  /\ relabels (App.window e) (App.window e').

#[local] Instance restyles_preorder : PreOrder restyles.
Proof.
  split.
  - intros e. repeat split; reflexivity.
  - intros e1 e2 e3 (? & ? & ? & ? & ? & ? & ? & H) (? & ? & ? & ? & ? & ? & ? & H').
    split; [congruence|]. split; [congruence|]. split; [congruence|].
    split; [congruence|]. split; [congruence|]. split; [congruence|].
    split; [congruence|]. etransitivity; eassumption.
Qed.

Lemma tr_reads key d e : snd (App.tr key d e) = e.
Proof.
  unfold App.tr, bind, gets, ret, raise. cbn.
  destruct (Dict.get (App.current_lang e) (App.translations e)) as [[]|]; reflexivity.
Qed.

Lemma with_window_same e : App.with_window (App.window e) e = e.
Proof. destruct e; reflexivity. Qed.

Section Restyles.
Variable as_qstring : json -> option string.

Lemma qstring_reads x e : snd (App.qstring as_qstring x e) = e.
Proof. unfold App.qstring. destruct (as_qstring x); reflexivity. Qed.

Lemma restyles_tr key d : preserves restyles (App.tr key d).
Proof. intros e. rewrite tr_reads. reflexivity. Qed.

Lemma restyles_qstring x : preserves restyles (App.qstring as_qstring x).
Proof. intros e. rewrite qstring_reads. reflexivity. Qed.

Lemma restyles_set_label w x e :
  labelled (cls (widget_at (App.window e) w)) = true ->
  restyles e (snd (App.set_label as_qstring w x e)).
Proof.
  intros H. unfold App.set_label, App.qstring, bind.
  destruct (as_qstring x) as [t|]; cbn [snd ret raise]; [|reflexivity].
  unfold App.lift. pose proof (relabels_setText w (Text t) (App.window e) H) as Hrel.
  destruct (setText w (Text t) (App.window e)) as [r s1]. cbn [snd] in *.
  repeat split; try reflexivity; apply Hrel.
Qed.

Lemma restyles_relabel kw : preserves restyles (App.relabel as_qstring kw).
Proof.
  intros e. destruct kw as [key [w | fs]]; unfold App.relabel, bind.
  - pose proof (tr_reads (Path.replace "label_" "" key) None e) as Htr.
    destruct (App.tr (Path.replace "label_" "" key) None e) as [[x | err] e1];
      cbn [snd] in *; subst e1; [|reflexivity].
    unfold App.lift at 1, the_widget, gets. cbn [fst snd].
    rewrite with_window_same.
    destruct (cls (widget_at (App.window e) w)) eqn:Hc;
      try reflexivity; apply restyles_set_label; rewrite Hc; reflexivity.
  - pose proof (tr_reads (Path.replace "label_" "" key) None e) as Htr.
    destruct (App.tr (Path.replace "label_" "" key) None e) as [[x | err] e1];
      cbn [snd] in *; subst e1; reflexivity.
Qed.

Lemma restyles_the_button b : preserves restyles (App.the_button b).
Proof. intros e. unfold App.the_button. destruct (b e); reflexivity. Qed.

Lemma restyles_update_ui_language :
  preserves restyles (App.update_ui_language as_qstring).
Proof.
  unfold App.update_ui_language.
  repeat lazymatch goal with
  | |- preserves _ (App.tr _ _) => apply restyles_tr
  | |- preserves _ (App.qstring _ _) => apply restyles_qstring
  | |- preserves _ (App.the_button _) => apply restyles_the_button
  | |- preserves _ (modify _) =>
      apply preserves_modify; intros ?; repeat split; reflexivity
  | |- preserves _ (gets _) => apply preserves_gets; typeclasses eauto
  | |- preserves _ (for_ _ _) =>
      apply preserves_for; [typeclasses eauto | intros ?; apply restyles_relabel]
  | |- preserves _ (bind _ _) =>
      apply preserves_bind; [typeclasses eauto | | intros ?]
  end.
Qed.

End Restyles.

(** X13.  A change of language is presentation only, however it ends
    (also when a pack cannot be used and update_ui_language raises half
    way).  The language is the one asked for and the layout runs from
    right to left exactly for [he] and [ar]; the packs and the language
    list are as before; of the window only texts of labels, check boxes
    and group boxes can differ: the document, the file and the boxes
    shown are the same, every control reads as before, and the commit of
    a save does, and leaves, the same as it would have without the
    change.  on_lang_changed is such a change: to the code listed under
    the name, and to [en] when the name is not listed. *)
Theorem change_language_presentation
    (as_qstring : json -> option string) lang_code e :
  let e' := snd (App.change_language as_qstring lang_code e) in
  App.current_lang e' = lang_code
  /\ (App.layout_direction e' = App.RightToLeft
      <-> lang_code = "he" \/ lang_code = "ar")
  /\ App.translations e' = App.translations e
  /\ App.lang_map e' = App.lang_map e
  /\ relabels (App.window e) (App.window e')
  /\ document (App.window e') = document (App.window e)
  /\ (forall w, read_control (widget_at (App.window e') w)
                = read_control (widget_at (App.window e) w))
  /\ (forall d, inv (App.window e) -> document (App.window e) = Some (JObj d) ->
        fst (commit (App.window e')) = fst (commit (App.window e))
        /\ document (snd (commit (App.window e')))
           = document (snd (commit (App.window e))))
  /\ (forall lang_name,
        App.on_lang_changed as_qstring lang_name e
        = App.change_language as_qstring
            (default "en" (App.key_get (JStr lang_name) (App.lang_map e))) e).
Proof.
  cbv zeta.
  assert (Hon : forall lang_name,
            App.on_lang_changed as_qstring lang_name e
            = App.change_language as_qstring
                (default "en" (App.key_get (JStr lang_name) (App.lang_map e))) e)
    by reflexivity.
  revert Hon. unfold App.change_language at 1 2 3 4 5 6 7 8 9 10. intros Hon.
  set (dir := if existsb (String.eqb lang_code) ["he"; "ar"]
              then App.RightToLeft else App.LeftToRight).
  set (e2 := App.with_layout_direction dir (App.with_current_lang lang_code e)).
  assert (Hrun : snd ((modify (App.with_current_lang lang_code) >>
                       modify (App.with_layout_direction dir) >>
                       App.update_ui_language as_qstring) e)
                 = snd (App.update_ui_language as_qstring e2)) by reflexivity.
  rewrite Hrun.
  destruct (restyles_update_ui_language as_qstring e2)
    as (Ht & Hm & _ & _ & _ & Hl & Hd & Hrel).
  generalize dependent (snd (App.update_ui_language as_qstring e2)).
  intros e' _ Ht Hm Hl Hd Hrel.
  change (App.window e2) with (App.window e) in Hrel.
  split; [exact Hl|]. split.
  { rewrite Hd. change (App.layout_direction e2) with dir. unfold dir.
    cbn [existsb]. rewrite Bool.orb_false_r.
    destruct (String.eqb_spec lang_code "he") as [-> | H1]; cbn [orb].
    - split; auto.
    - destruct (String.eqb_spec lang_code "ar") as [-> | H2].
      + split; auto.
      + split; [discriminate | intros [? | ?]; contradiction]. }
  split; [exact Ht|]. split; [exact Hm|]. split; [exact Hrel|].
  split; [apply repaints_document, relabels_repaints, Hrel|].
  split; [intros w; apply read_control_unlabelled, relabels_widget, Hrel|].
  split; [|exact Hon].
  intros d Hinv Hdoc. exact (relabels_commit _ _ d Hrel Hinv Hdoc).
Qed.

(** The editor started with the packs [en] and [fr], with the window of
    [s_edited]. *)
Definition e_edited : App.Editor :=
  App.with_window s_edited
    (snd (App.__init__ App.pyside_qstring App.pyside_qstringlist
            (App.fresh_editor
               (App.Listing [("en.json", Holds pack_en); ("fr.json", Holds pack_fr)])
               Missing true))).

Lemma change_language_presentation_witness :
  App.current_lang (snd (App.change_language App.pyside_qstring "fr" e_edited)) = "fr"
  /\ App.save_button (snd (App.change_language App.pyside_qstring "fr" e_edited))
     = Some "Enregistrer"
  /\ fst (commit (App.window (snd (App.change_language App.pyside_qstring "fr"
                                     e_edited))))
     = fst (commit s_edited).
Proof.
  destruct (change_language_presentation App.pyside_qstring "fr" e_edited)
    as (H1 & _ & _ & _ & _ & _ & _ & H & _).
  split; [exact H1|]. split; [vm_compute; reflexivity|].
  apply (H defaults_entries).
  - apply reachable_inv, running_reachable, running_s_edited.
  - vm_compute. reflexivity.
Defined.

(* ===================================================================== *)
(** ** What the labels show *)
(* ===================================================================== *)

(** tr reads the packs and the language, nothing else. *)
Definition lookup_text (key : string) (default_text : option string)
    (ts : list (string * json)) (lang : string) : result json :=
  match Dict.get lang ts with
  | None => Ok (JStr (App.fallback key default_text))
  | Some (JObj entries) =>
      Ok (default (JStr (App.fallback key default_text)) (Dict.get key entries))
  | Some _ => Raise AttributeError
  end.

Lemma tr_eq key d e :
  App.tr key d e = (lookup_text key d (App.translations e) (App.current_lang e), e).
Proof.
  unfold App.tr, lookup_text, bind, gets, ret, raise. cbn.
  destruct (Dict.get (App.current_lang e) (App.translations e)) as [[]|]; reflexivity.
Qed.

Lemma qstring_eq (as_qstring : json -> option string) x e :
  App.qstring as_qstring x e
  = (match as_qstring x with Some t => Ok t | None => Raise TypeError end, e).
Proof. unfold App.qstring. destruct (as_qstring x); reflexivity. Qed.

(** The step of the loop of update_ui_language, as a state. *)
Lemma relabel_widget_eq (as_qstring : json -> option string) key w e :
  App.relabel as_qstring (key, Widget w) e
  = match lookup_text (Path.replace "label_" "" key) None
            (App.translations e) (App.current_lang e) with
    | Raise x => (Raise x, e)
    | Ok x =>
        if labelled (cls (widget_at (App.window e) w)) then
          match as_qstring x with
          | Some t =>
              (Ok tt, App.with_window (snd (setText w (Text t) (App.window e))) e)
          | None => (Raise TypeError, e)
          end
        else (Ok tt, e)
    end.
Proof.
  unfold App.relabel, bind. rewrite tr_eq.
  destruct (lookup_text _ _ _ _) as [x | err]; [|reflexivity].
  unfold App.lift at 1, the_widget, gets. cbn [fst snd].
  rewrite with_window_same.
  destruct (cls (widget_at (App.window e) w)); cbn [labelled]; try reflexivity;
    unfold App.set_label, bind; rewrite qstring_eq;
    destruct (as_qstring x); reflexivity.
Qed.

Lemma relabel_fields_eq (as_qstring : json -> option string) key fs e :
  App.relabel as_qstring (key, Fields fs) e
  = (match lookup_text (Path.replace "label_" "" key) None
             (App.translations e) (App.current_lang e) with
     | Raise x => Raise x
     | Ok _ => Ok tt
     end, e).
Proof.
  unfold App.relabel, bind. rewrite tr_eq.
  destruct (lookup_text _ _ _ _); reflexivity.
Qed.

(** In the form every widget registered under a name of its own is a
    label, a check box or a group box, and has one name only. *)
Definition form_labels_apart : bool :=
  forallb
    (fun ce =>
       match snd ce with
       | Widget w =>
           labelled (default QWidget (form_classes !! w))
           && forallb
                (fun ce' =>
                   match snd ce' with
                   | Widget w' =>
                       negb (Nat.eqb w w') || String.eqb (fst ce') (fst ce)
                   | Fields _ => true
                   end)
                form_widgets
       | Fields _ => true
       end)
    form_widgets.

Lemma form_labels_apart_true : form_labels_apart = true.
Proof. vm_compute. reflexivity. Qed.

Lemma label_unique key w key' :
  In (key, Widget w) form_widgets -> In (key', Widget w) form_widgets ->
  key' = key.
Proof.
  intros Hin Hin'. pose proof form_labels_apart_true as H.
  unfold form_labels_apart in H. rewrite forallb_forall in H.
  specialize (H _ Hin). cbn [fst snd] in H.
  apply andb_true_iff in H as [_ H]. rewrite forallb_forall in H.
  specialize (H _ Hin'). cbn [fst snd] in H.
  rewrite Nat.eqb_refl in H. cbn [negb orb] in H.
  apply String.eqb_eq, H.
Qed.

Lemma label_labelled s key w :
  ui_ok s -> In (key, Widget w) form_widgets ->
  labelled (cls (widget_at s w)) = true.
Proof.
  intros Hui Hin. rewrite (ui_ok_cls s w Hui).
  pose proof form_labels_apart_true as H.
  unfold form_labels_apart in H. rewrite forallb_forall in H.
  specialize (H _ Hin). cbn [fst snd] in H.
  apply andb_true_iff in H as [H _]. exact H.
Qed.

(** A loop whose steps keep [I], set up [Q] at the items that [hit] and
    keep it at the others, ends in [Q] when an item hits: for every kind
    of state. *)
Lemma for_sets {S A} (f : A -> St S unit) (I Q : S -> Prop)
    (hit : A -> bool) : forall xs,
  (forall y s, In y xs -> I s -> I (snd (f y s))) ->
  (forall y s, In y xs -> I s -> hit y = true -> fst (f y s) = Ok tt ->
     Q (snd (f y s))) ->
  (forall y s, In y xs -> I s -> hit y = false -> Q s -> Q (snd (f y s))) ->
  forall s, I s -> fst (for_ xs f s) = Ok tt ->
    existsb hit xs = true \/ Q s -> Q (snd (for_ xs f s)).
Proof.
  induction xs as [|x xs IH]; intros HI Hset Hkeep s Hs Hok Hq.
  - cbn in *. destruct Hq as [Hq | Hq]; [discriminate | exact Hq].
  - cbn [for_] in *. unfold bind in *.
    pose proof (HI x s (or_introl eq_refl) Hs) as HI1.
    pose proof (Hset x s (or_introl eq_refl) Hs) as Hset1.
    pose proof (Hkeep x s (or_introl eq_refl) Hs) as Hkeep1.
    destruct (f x s) as [[[] | e] s1]; cbn [fst snd] in *; [|discriminate].
    apply IH; auto.
    + intros y s' Hy. apply HI. right. exact Hy.
    + intros y s' Hy. apply Hset. right. exact Hy.
    + intros y s' Hy. apply Hkeep. right. exact Hy.
    + cbn [existsb] in Hq. destruct (hit x).
      * right. apply Hset1; reflexivity.
      * destruct Hq as [Hq | Hq]; [left; exact Hq | right; apply Hkeep1; auto].
Qed.

Lemma setText_text w t s :
  labelled (cls (widget_at s w)) = true ->
  text (widget_at (snd (setText w t s)) w) = t.
Proof.
  intros H. unfold setText. rewrite widget_at_update, Nat.eqb_refl.
  unfold widget_at in H. destruct (qt s !! w); [reflexivity | discriminate].
Qed.

Lemma setText_other w t s w' :
  w' <> w -> widget_at (snd (setText w t s)) w' = widget_at s w'.
Proof.
  intros Hne. unfold setText. rewrite widget_at_update.
  destruct (Nat.eqb_spec w' w); [contradiction | reflexivity].
Qed.

(** The titles: what update_ui_language sets before its loop. *)
Definition titles (e : App.Editor) :=
  (App.window_title e, App.save_button e, App.reset_button e).

Lemma titles_relabel (as_qstring : json -> option string) kw e :
  titles (snd (App.relabel as_qstring kw e)) = titles e.
Proof.
  destruct kw as [key [w | fs]].
  - rewrite relabel_widget_eq.
    destruct (lookup_text _ _ _ _); [|reflexivity].
    destruct (labelled _); [|reflexivity].
    destruct (as_qstring _); reflexivity.
  - rewrite relabel_fields_eq. reflexivity.
Qed.

Section Shows.
Variable as_qstring : json -> option string.

(** The text that the language [lang] gives for [key], as Qt takes it. *)
Definition translates (ts : list (string * json)) (lang key : string) (t : string)
  : Prop :=
  exists x, lookup_text key None ts lang = Ok x /\ as_qstring x = Some t.

Lemma relabel_loop_shows e0 key w :
  ui_ok (App.window e0) -> In (key, Widget w) form_widgets ->
  forall e, restyles e0 e ->
    fst (for_ form_widgets (App.relabel as_qstring) e) = Ok tt ->
    exists t,
      text (widget_at (App.window (snd (for_ form_widgets (App.relabel as_qstring) e))) w)
      = Text t
      /\ translates (App.translations e0) (App.current_lang e0)
           (Path.replace "label_" "" key) t.
Proof.
  intros Hui Hin e He Hok.
  apply (for_sets (App.relabel as_qstring) (restyles e0)
           (fun e1 => exists t,
              text (widget_at (App.window e1) w) = Text t
              /\ translates (App.translations e0) (App.current_lang e0)
                   (Path.replace "label_" "" key) t)
           (fun ce => match snd ce with
                      | Widget w' => Nat.eqb w' w
                      | Fields _ => false
                      end)); try assumption.
  - intros y e1 _ H1. etransitivity; [exact H1 | apply restyles_relabel].
  - intros [key' [w' | fs]] e1 Hy H1 Hhit Hstep; cbn [snd] in Hhit;
      [|discriminate].
    apply Nat.eqb_eq in Hhit. subst w'.
    rewrite (label_unique key w key' Hin Hy) in *.
    destruct H1 as (Ht & _ & _ & _ & _ & Hl & _ & Hrel).
    assert (Hlab : labelled (cls (widget_at (App.window e1) w)) = true).
    { apply (label_labelled _ key); [|exact Hin].
      eapply repaints_ui_ok; [apply relabels_repaints, Hrel | exact Hui]. }
    rewrite relabel_widget_eq in Hstep |- *. rewrite Ht, Hl, Hlab in *.
    destruct (lookup_text _ _ _ _) as [x | err] eqn:Hx; [|discriminate].
    destruct (as_qstring x) as [t|] eqn:Hq; [|discriminate].
    exists t. split; [|exists x; split; assumption].
    cbn [snd]. replace (App.window (App.with_window _ e1))
      with (snd (setText w (Text t) (App.window e1))) by (destruct e1; reflexivity).
    apply setText_text, Hlab.
  - intros [key' [w' | fs]] e1 Hy H1 Hhit (t & Htext & Hshows); cbn [snd] in Hhit.
    + apply Nat.eqb_neq in Hhit. exists t. split; [|exact Hshows].
      rewrite relabel_widget_eq.
      destruct (lookup_text _ _ _ _); [|exact Htext].
      destruct (labelled _); [|exact Htext].
      destruct (as_qstring _); [|exact Htext].
      cbn [snd]. replace (App.window (App.with_window _ e1))
        with (snd (setText w' (Text s) (App.window e1))) by (destruct e1; reflexivity).
      rewrite setText_other by congruence. exact Htext.
    + exists t. split; [|exact Hshows]. rewrite relabel_fields_eq. exact Htext.
  - left. apply existsb_exists. exists (key, Widget w). split; [exact Hin|].
    cbn [snd]. apply Nat.eqb_refl.
Qed.

(** update_ui_language, as a state: the three titles, then the loop. *)
Lemma update_ui_language_eq e :
  App.update_ui_language as_qstring e
  = match lookup_text "window_title" None (App.translations e) (App.current_lang e) with
    | Raise x => (Raise x, e)
    | Ok x1 =>
    match as_qstring x1 with
    | None => (Raise TypeError, e)
    | Some t1 =>
    let e1 := App.with_window_title t1 e in
    match App.save_button e with
    | None => (Raise AttributeError, e1)
    | Some _ =>
    match lookup_text "save_button" None (App.translations e) (App.current_lang e) with
    | Raise x => (Raise x, e1)
    | Ok x2 =>
    match as_qstring x2 with
    | None => (Raise TypeError, e1)
    | Some t2 =>
    let e2 := App.with_save_button (Some t2) e1 in
    match App.reset_button e with
    | None => (Raise AttributeError, e2)
    | Some _ =>
    match lookup_text "reset_button" None (App.translations e) (App.current_lang e) with
    | Raise x => (Raise x, e2)
    | Ok x3 =>
    match as_qstring x3 with
    | None => (Raise TypeError, e2)
    | Some t3 =>
        for_ (widgets (App.window e)) (App.relabel as_qstring)
          (App.with_reset_button (Some t3) e2)
    end end end end end end end end.
Proof.
  unfold App.update_ui_language, bind, App.the_button.
  rewrite tr_eq.
  destruct (lookup_text "window_title" None _ _) as [x1 | err]; [|reflexivity].
  rewrite qstring_eq.
  destruct (as_qstring x1) as [t1|]; [|reflexivity].
  cbn [modify fst snd].
  change (App.save_button (App.with_window_title t1 e)) with (App.save_button e).
  destruct (App.save_button e) as [b|]; [|reflexivity].
  rewrite tr_eq.
  change (App.translations (App.with_window_title t1 e)) with (App.translations e).
  change (App.current_lang (App.with_window_title t1 e)) with (App.current_lang e).
  destruct (lookup_text "save_button" None _ _) as [x2 | err]; [|reflexivity].
  rewrite qstring_eq.
  destruct (as_qstring x2) as [t2|]; [|reflexivity].
  cbn [modify fst snd].
  change (App.reset_button (App.with_save_button (Some t2) (App.with_window_title t1 e)))
    with (App.reset_button e).
  destruct (App.reset_button e) as [b'|]; [|reflexivity].
  rewrite tr_eq.
  change (App.translations (App.with_save_button (Some t2) (App.with_window_title t1 e)))
    with (App.translations e).
  change (App.current_lang (App.with_save_button (Some t2) (App.with_window_title t1 e)))
    with (App.current_lang e).
  destruct (lookup_text "reset_button" None _ _) as [x3 | err]; [|reflexivity].
  rewrite qstring_eq.
  destruct (as_qstring x3) as [t3|]; reflexivity.
Qed.

Lemma titles_loop ws e :
  titles (snd (for_ ws (App.relabel as_qstring) e)) = titles e.
Proof.
  apply (for_invariant (App.relabel as_qstring) (fun e1 => titles e1 = titles e));
    [|reflexivity].
  intros y e1 _ H. rewrite titles_relabel. exact H.
Qed.

End Shows.

(** X14.  When change_language returns, the window shows the language
    asked for: the title of the window, the two buttons, and every label,
    check box and group box registered under a name show the text that tr
    gives, in that language, for the name without its [label_]. *)
Theorem change_language_shows (as_qstring : json -> option string) lang_code e :
  ui_ok (App.window e) ->
  fst (App.change_language as_qstring lang_code e) = Ok tt ->
  let e' := snd (App.change_language as_qstring lang_code e) in
  let says key t :=
    exists x,
      fst (App.tr key None (App.with_current_lang lang_code e)) = Ok x
      /\ as_qstring x = Some t in
  says "window_title" (App.window_title e')
  /\ (exists t, App.save_button e' = Some t /\ says "save_button" t)
  /\ (exists t, App.reset_button e' = Some t /\ says "reset_button" t)
  /\ forall key w, In (key, Widget w) (widgets (App.window e)) ->
       exists t, text (widget_at (App.window e') w) = Text t
                 /\ says (Path.replace "label_" "" key) t.
Proof.
  intros Hui Hok. cbv zeta.
  set (dir := if existsb (String.eqb lang_code) ["he"; "ar"]
              then App.RightToLeft else App.LeftToRight).
  set (e2 := App.with_layout_direction dir (App.with_current_lang lang_code e)).
  assert (Hrun : App.change_language as_qstring lang_code e
                 = App.update_ui_language as_qstring e2) by reflexivity.
  rewrite Hrun in Hok |- *. clear Hrun.
  assert (Hsays : forall key t,
            translates as_qstring (App.translations e2) (App.current_lang e2) key t ->
            exists x,
              fst (App.tr key None (App.with_current_lang lang_code e)) = Ok x
              /\ as_qstring x = Some t).
  { intros key t (x & Hx & Ht). exists x. split; [|exact Ht].
    rewrite tr_eq. exact Hx. }
  assert (Hui2 : ui_ok (App.window e2)) by exact Hui.
  rewrite update_ui_language_eq in Hok |- *.
  destruct (lookup_text "window_title" None _ _) as [x1 | err] eqn:H1; [|discriminate].
  destruct (as_qstring x1) as [t1|] eqn:Hq1; [|discriminate].
  cbv zeta in Hok |- *.
  destruct (App.save_button e2) as [b|]; [|discriminate].
  destruct (lookup_text "save_button" None _ _) as [x2 | err] eqn:H2; [|discriminate].
  destruct (as_qstring x2) as [t2|] eqn:Hq2; [|discriminate].
  destruct (App.reset_button e2) as [b'|]; [|discriminate].
  destruct (lookup_text "reset_button" None _ _) as [x3 | err] eqn:H3; [|discriminate].
  destruct (as_qstring x3) as [t3|] eqn:Hq3; [|discriminate].
  set (e3 := App.with_reset_button (Some t3)
               (App.with_save_button (Some t2) (App.with_window_title t1 e2))) in *.
  pose proof (titles_loop as_qstring (widgets (App.window e2)) e3) as Ht.
  pose proof (f_equal (fun x => fst (fst x)) Ht) as Ht1.
  pose proof (f_equal (fun x => snd (fst x)) Ht) as Ht2.
  pose proof (f_equal snd Ht) as Ht3.
  unfold titles in Ht1, Ht2, Ht3. cbn beta iota delta [fst snd] in Ht1, Ht2, Ht3.
  rewrite Ht1, Ht2, Ht3.
  split; [apply Hsays; exists x1; split; assumption|].
  split; [exists t2; split; [reflexivity | apply Hsays; exists x2; split; assumption]|].
  split; [exists t3; split; [reflexivity | apply Hsays; exists x3; split; assumption]|].
  intros key w Hin.
  change (widgets (App.window e)) with (widgets (App.window e2)) in Hin.
  rewrite (ui_ok_widgets _ Hui2) in Hin, Hok |- *.
  destruct (relabel_loop_shows as_qstring e2 key w Hui2 Hin e3) as (t & Htext & Htr).
  - repeat split; reflexivity.
  - exact Hok.
  - exists t. split; [exact Htext | apply Hsays, Htr].
Qed.

Lemma change_language_shows_witness :
  App.save_button (snd (App.change_language App.pyside_qstring "fr" e_edited))
  = Some "Enregistrer"
  /\ text (widget_at (App.window (snd (App.change_language App.pyside_qstring "fr"
                                         e_edited))) 13)
     = Text "starting_money".
Proof.
  assert (Hui : ui_ok (App.window e_edited)).
  { apply (reachable_inv s_edited), running_reachable, running_s_edited. }
  assert (Hok : fst (App.change_language App.pyside_qstring "fr" e_edited) = Ok tt)
    by (vm_compute; reflexivity).
  destruct (change_language_shows App.pyside_qstring "fr" e_edited Hui Hok)
    as (_ & (t & Hb & x & Hx & Hq) & _ & Hlab).
  split.
  - rewrite Hb. vm_compute in Hx. injection Hx as <-.
    cbn in Hq. symmetry. exact Hq.
  - destruct (Hlab "label_starting_money" 13%nat) as (t' & Ht & x' & Hx' & Hq').
    + vm_compute. tauto.
    + rewrite Ht. vm_compute in Hx'. injection Hx' as <-.
      cbn in Hq'. injection Hq' as <-. reflexivity.
Defined.

(* ===================================================================== *)
(** ** The texts of the message boxes *)
(* ===================================================================== *)

Lemma lookup_text_unusable key d ts lang j :
  Dict.get lang ts = Some j -> (forall entries, j <> JObj entries) ->
  lookup_text key d ts lang = Raise AttributeError.
Proof.
  intros Hget Hj. unfold lookup_text. rewrite Hget.
  destruct j; try reflexivity. exfalso. eapply Hj. reflexivity.
Qed.

Lemma write_config_shown s : shown (snd (write_config s)) = shown s.
Proof.
  unfold write_config, get_config_data, write_config_file, bind, gets, modify, raise.
  destruct (config_data s); [|reflexivity].
  cbn. destruct (writable s); reflexivity.
Qed.

(** X15.  When the pack of the current language is loaded but is not a
    JSON object, every tr raises AttributeError.  update_ui_language and
    reset_to_defaults then raise before they change anything (the
    question of the reset is not even asked), and save_config raises out
    of its own exception handler: the commit has run and the file has
    been written if it could be, but no box reports it. *)
Theorem unusable_pack (as_qstring : json -> option string) e j :
  Dict.get (App.current_lang e) (App.translations e) = Some j ->
  (forall entries, j <> JObj entries) ->
  (forall key d, App.tr key d e = (Raise AttributeError, e))
  /\ App.update_ui_language as_qstring e = (Raise AttributeError, e)
  /\ (forall reply,
        App.reset_to_defaults as_qstring reply e = (Raise AttributeError, e))
  /\ App.save_config as_qstring e
     = (Raise AttributeError,
        App.with_window (snd ((commit >> write_config) (App.window e))) e)
  /\ (inv (App.window e) ->
      shown (snd ((commit >> write_config) (App.window e))) = shown (App.window e)).
Proof.
  intros Hget Hj.
  assert (Htr : forall key d e1,
            App.translations e1 = App.translations e ->
            App.current_lang e1 = App.current_lang e ->
            App.tr key d e1 = (Raise AttributeError, e1)).
  { intros key d e1 Ht Hl. rewrite tr_eq, Ht, Hl.
    rewrite (lookup_text_unusable key d _ _ j Hget Hj). reflexivity. }
  split; [intros key d; apply Htr; reflexivity|].
  split.
  { rewrite update_ui_language_eq.
    rewrite (lookup_text_unusable _ _ _ _ j Hget Hj). reflexivity. }
  split.
  { intros reply. unfold App.reset_to_defaults.
    apply bind_raise. apply Htr; reflexivity. }
  split.
  - unfold App.save_config, try_except, bind, App.lift.
    destruct (commit (App.window e)) as [[[] | x] s1]; cbv beta iota.
    + change (App.window (App.with_window s1 e)) with s1.
      destruct (write_config s1) as [[[] | y] s2]; cbv beta iota.
      * rewrite Htr by reflexivity. cbv beta iota.
        rewrite Htr by reflexivity. reflexivity.
      * rewrite Htr by reflexivity. reflexivity.
    + rewrite Htr by reflexivity. reflexivity.
  - intros Hinv. destruct (commit_inv _ Hinv) as (_ & _ & Henv).
    unfold bind. destruct (commit (App.window e)) as [[[] | x] s1]; cbn [fst snd] in *.
    + rewrite write_config_shown. unfold env in Henv. congruence.
    + unfold env in Henv. congruence.
Qed.

(** The editor of [e_edited] when [en.json] holds a list. *)
Definition e_bad : App.Editor :=
  App.with_translations [("en", JArr [])] e_edited.

Lemma unusable_pack_witness :
  fst (App.save_config App.pyside_qstring e_bad) = Raise AttributeError
  /\ shown (App.window (snd (App.save_config App.pyside_qstring e_bad)))
     = shown s_edited
  /\ option_map Holds
       (document (App.window (snd (App.save_config App.pyside_qstring e_bad))))
     = Some (config_file (App.window (snd (App.save_config App.pyside_qstring e_bad)))).
Proof.
  destruct (unusable_pack App.pyside_qstring e_bad (JArr []))
    as (_ & _ & _ & Hsave & Hshown).
  - vm_compute. reflexivity.
  - intros entries. discriminate.
  - rewrite Hsave. cbn [fst snd]. split; [reflexivity|]. split.
    + apply Hshown. apply (reachable_inv s_edited), running_reachable, running_s_edited.
    + vm_compute. reflexivity.
Defined.

(** The texts that the boxes of save_config and reset_to_defaults need. *)
Definition box_texts : list string :=
  ["success_save_title"; "success_save_message"; "error_title";
   "confirm_reset_title"; "confirm_reset_message"].

(** X16.  When tr gives, for each title and message of the boxes, a text
    that Qt takes (the pack of the current language is an object, or no
    pack is loaded for it, and the entries used are strings),
    save_config and reset_to_defaults do to the window exactly what they
    do without the language packs, and touch nothing else. *)
Theorem usable_pack (as_qstring : json -> option string) e :
  (forall key, In key box_texts ->
     exists x t, fst (App.tr key None e) = Ok x /\ as_qstring x = Some t) ->
  App.save_config as_qstring e = App.lift save_config e
  /\ forall reply,
       App.reset_to_defaults as_qstring reply e
       = App.lift (reset_to_defaults reply) e.
Proof.
  intros H.
  assert (Htr : forall key, In key box_texts ->
            forall e1, App.translations e1 = App.translations e ->
              App.current_lang e1 = App.current_lang e ->
              exists x t, App.tr key None e1 = (Ok x, e1) /\ as_qstring x = Some t).
  { intros key Hin e1 Ht Hl. destruct (H key Hin) as (x & t & Hx & Hq).
    exists x, t. split; [|exact Hq]. rewrite tr_eq in Hx |- *. cbn [fst] in Hx.
    rewrite Ht, Hl, Hx. reflexivity. }
  assert (Hany : forall key e1, App.translations e1 = App.translations e ->
              App.current_lang e1 = App.current_lang e ->
              exists x, App.tr key None e1 = (Ok x, e1)).
  { intros key e1 Ht Hl.
    destruct (H "error_title") as (x & _ & Hx & _); [unfold box_texts; cbn; tauto|].
    rewrite tr_eq in Hx |- *. cbn [fst] in Hx. rewrite Ht, Hl.
    unfold lookup_text in Hx |- *.
    destruct (Dict.get (App.current_lang e) (App.translations e)) as [[]|];
      try discriminate; eauto. }
  split.
  - unfold App.save_config, save_config, save_config_try, try_except, bind, App.lift.
    destruct (commit (App.window e)) as [[[] | x] s1]; cbv beta iota.
    + change (App.window (App.with_window s1 e)) with s1.
      destruct (write_config s1) as [[[] | y] s2]; cbv beta iota.
      * destruct (Htr "success_save_title" ltac:(unfold box_texts; cbn; tauto)
                    (App.with_window s2 (App.with_window s1 e)) eq_refl eq_refl)
          as (x1 & t1 & -> & Hq1).
        cbv beta iota.
        destruct (Htr "success_save_message" ltac:(unfold box_texts; cbn; tauto)
                    (App.with_window s2 (App.with_window s1 e)) eq_refl eq_refl)
          as (x2 & t2 & -> & Hq2).
        cbv beta iota. rewrite !qstring_eq, Hq1. cbv beta iota.
        rewrite ?qstring_eq, Hq2. reflexivity.
      * destruct (Htr "error_title" ltac:(unfold box_texts; cbn; tauto)
                    (App.with_window s2 (App.with_window s1 e)) eq_refl eq_refl)
          as (x1 & t1 & -> & Hq1).
        cbv beta iota.
        destruct (Hany "error_invalid_input"
                    (App.with_window s2 (App.with_window s1 e)) eq_refl eq_refl)
          as (x2 & ->).
        cbv beta iota. rewrite qstring_eq, Hq1. reflexivity.
    + destruct (Htr "error_title" ltac:(unfold box_texts; cbn; tauto)
                  (App.with_window s1 e) eq_refl eq_refl)
        as (x1 & t1 & -> & Hq1).
      cbv beta iota.
      destruct (Hany "error_invalid_input" (App.with_window s1 e) eq_refl eq_refl)
        as (x2 & ->).
      cbv beta iota. rewrite qstring_eq, Hq1. reflexivity.
  - intros reply. unfold App.reset_to_defaults, bind.
    destruct (Htr "confirm_reset_title" ltac:(unfold box_texts; cbn; tauto)
                e eq_refl eq_refl) as (x1 & t1 & -> & Hq1).
    destruct (Htr "confirm_reset_message" ltac:(unfold box_texts; cbn; tauto)
                e eq_refl eq_refl) as (x2 & t2 & -> & Hq2).
    rewrite !qstring_eq, Hq1. cbv beta iota. rewrite ?qstring_eq, Hq2. reflexivity.
Qed.

Lemma usable_pack_witness :
  App.save_config App.pyside_qstring e_edited = App.lift save_config e_edited.
Proof.
  assert (H : forall key, In key box_texts ->
            exists x t, fst (App.tr key None e_edited) = Ok x
                        /\ App.pyside_qstring x = Some t).
  { intros key Hin. exists (JStr key), key. split; [|reflexivity].
    unfold box_texts in Hin. cbn [In] in Hin.
    destruct Hin as [<- | [<- | [<- | [<- | [<- | []]]]]]; vm_compute; reflexivity. }
  destruct (usable_pack App.pyside_qstring e_edited H) as [Hsave _].
  exact Hsave.
Defined.

(* ===================================================================== *)
(** ** The constructor *)
(* ===================================================================== *)

(** load_all_languages returns, and but for what it prints it changes the
    packs and the language list only. *)
Lemma load_all_languages_packs e :
  fst (App.load_all_languages e) = Ok tt
  /\ packs_only e (App.with_printed (App.printed e) (snd (App.load_all_languages e))).
Proof.
  assert (Hbody : forall files, packs_only e (snd (for_ files App.load_language e))).
  { intros files. apply preserves_for; [typeclasses eauto|].
    apply packs_only_load_language. }
  unfold App.load_all_languages, try_except. rewrite bind_gets.
  destruct (App.lang_dir e) as [| | files]; try (repeat split; reflexivity).
  specialize (Hbody files).
  destruct (for_ files App.load_language e) as [[[] | x] e1]; cbn [fst snd] in *;
    (split; [reflexivity|]);
    destruct Hbody as (? & ? & ? & ? & ? & ? & ? & ? & ?);
    repeat split; assumption.
Qed.

Section Constructor.
Variable as_qstring : json -> option string.
Variable as_qstringlist : list json -> option (list string).

Lemma create_header_eq e :
  App.create_header as_qstringlist e
  = match App.lang_map e with
    | [] => (Ok tt, e)
    | _ :: _ =>
        match as_qstringlist (map fst (App.lang_map e)) with
        | Some items => (Ok tt, App.with_lang_combobox (Some items) e)
        | None => (Raise TypeError, App.with_lang_combobox (Some []) e)
        end
    end.
Proof.
  unfold App.create_header. rewrite bind_gets.
  destruct (App.lang_map e) as [|p m]; [reflexivity|].
  unfold bind, modify. destruct (as_qstringlist _); reflexivity.
Qed.

(** init_ui on a fresh window. *)
Lemma app_init_ui_eq e f wr :
  App.window e = fresh_window f wr ->
  App.init_ui as_qstringlist e
  = match App.create_header as_qstringlist
            (App.with_window_title "UIMPIT Config Editor" e) with
    | (Ok _, e1) =>
        (Ok tt,
         App.with_save_button (Some "")
           (App.with_reset_button (Some "")
              (App.with_window (built_window f wr) e1)))
    | (Raise x, e1) => (Raise x, e1)
    end.
Proof.
  intros Hw. unfold App.init_ui, bind at 1 2 3. unfold modify at 1.
  assert (Hw1 : App.window (snd (App.create_header as_qstringlist
                  (App.with_window_title "UIMPIT Config Editor" e)))
                = fresh_window f wr).
  { rewrite create_header_eq. cbn [App.lang_map App.with_window_title].
    destruct (App.lang_map e); [exact Hw|].
    destruct (as_qstringlist _); exact Hw. }
  destruct (App.create_header as_qstringlist
              (App.with_window_title "UIMPIT Config Editor" e))
    as [[[] | x] e1]; [|reflexivity].
  cbn [snd] in Hw1. unfold App.lift. rewrite Hw1, init_ui_built. reflexivity.
Qed.

End Constructor.

Lemma lookup_text_ok key d ts lang x j :
  lookup_text key d ts lang = Ok x -> Dict.get lang ts = Some j ->
  exists entries, j = JObj entries.
Proof.
  unfold lookup_text. intros H Hget. rewrite Hget in H.
  destruct j; try discriminate. eauto.
Qed.

(** X17.  When the constructor returns, the window is the one that the
    constructor without the language packs builds, but for the texts of
    labels, check boxes and group boxes: load_config has returned on it.
    The language is [en] and the layout runs from left to right; the
    packs and the language list are those that load_all_languages left;
    the combo box of the languages exists exactly when the list is not
    empty and then offers its names; and the pack [en], when there is
    one, is a JSON object. *)
Theorem constructor_window (as_qstring : json -> option string)
    (as_qstringlist : list json -> option (list string)) d f wr :
  let e0 := App.fresh_editor d f wr in
  fst (App.__init__ as_qstring as_qstringlist e0) = Ok tt ->
  let e' := snd (App.__init__ as_qstring as_qstringlist e0) in
  fst (__init__ (fresh_window f wr)) = Ok tt
  /\ relabels (snd (__init__ (fresh_window f wr))) (App.window e')
  /\ App.current_lang e' = "en"
  /\ App.layout_direction e' = App.LeftToRight
  /\ App.translations e' = App.translations (snd (App.load_all_languages e0))
  /\ App.lang_map e' = App.lang_map (snd (App.load_all_languages e0))
  /\ App.lang_combobox e'
     = match App.lang_map e' with
       | [] => None
       | _ :: _ => as_qstringlist (map fst (App.lang_map e'))
       end
  /\ (forall j, Dict.get "en" (App.translations e') = Some j ->
        exists entries, j = JObj entries).
Proof.
  cbv zeta. set (e0 := App.fresh_editor d f wr). intros Hok.
  destruct (load_all_languages_packs e0) as (H1 & Hpk).
  rewrite init_eq.
  remember (App.__init__ as_qstring as_qstringlist e0) as out eqn:Hout.
  unfold App.__init__ in Hout. unfold bind at 1 in Hout.
  destruct (App.load_all_languages e0) as [r1 e1]. cbn [fst snd] in H1, Hpk |- *.
  subst r1.
  destruct Hpk as (Hw & _ & _ & _ & _ & Hcb & _ & _ & _).
  cbn [App.window App.lang_combobox App.with_printed] in Hw, Hcb.
  change (App.window e0) with (fresh_window f wr) in Hw.
  change (App.lang_combobox e0) with (@None (list string)) in Hcb.
  unfold bind at 1 in Hout.
  rewrite (app_init_ui_eq as_qstringlist e1 f wr Hw), create_header_eq in Hout.
  cbn [App.lang_map App.with_window_title] in Hout.
  set (e2 := fun e : App.Editor =>
               App.with_save_button (Some "")
                 (App.with_reset_button (Some "")
                    (App.with_window (built_window f wr) e))) in *.
  assert (Hrest : forall e,
            App.translations e = App.translations e1 ->
            App.lang_map e = App.lang_map e1 ->
            App.lang_combobox e
            = match App.lang_map e1 with
              | [] => None
              | _ :: _ => as_qstringlist (map fst (App.lang_map e1))
              end ->
            fst ((App.lift load_config >> App.change_language as_qstring "en") (e2 e))
            = Ok tt ->
            let e' := snd ((App.lift load_config >> App.change_language as_qstring "en")
                             (e2 e)) in
            fst (load_config (built_window f wr)) = Ok tt
            /\ relabels (snd (load_config (built_window f wr))) (App.window e')
            /\ App.current_lang e' = "en"
            /\ App.layout_direction e' = App.LeftToRight
            /\ App.translations e' = App.translations e1
            /\ App.lang_map e' = App.lang_map e1
            /\ App.lang_combobox e'
               = match App.lang_map e' with
                 | [] => None
                 | _ :: _ => as_qstringlist (map fst (App.lang_map e'))
                 end
            /\ (forall j, Dict.get "en" (App.translations e') = Some j ->
                  exists entries, j = JObj entries)).
  { clear Hok Hout out. intros e Ht Hm Hc Hok. cbv zeta.
    unfold bind, App.lift in Hok |- *.
    change (App.window (e2 e)) with (built_window f wr) in Hok |- *.
    destruct (load_config (built_window f wr)) as [[[] | x] s3];
      cbv beta iota in Hok |- *; [|discriminate].
    set (e3 := App.with_layout_direction App.LeftToRight
                 (App.with_current_lang "en" (App.with_window s3 (e2 e)))).
    assert (Hrun : App.change_language as_qstring "en" (App.with_window s3 (e2 e))
                   = App.update_ui_language as_qstring e3) by reflexivity.
    rewrite Hrun in Hok |- *. clear Hrun.
    destruct (restyles_update_ui_language as_qstring e3)
      as (Ht' & Hm' & _ & _ & Hc' & Hl' & Hd' & Hrel).
    assert (Hen : exists x, lookup_text "window_title" None (App.translations e3) "en"
                            = Ok x).
    { rewrite update_ui_language_eq in Hok.
      change (App.current_lang e3) with "en" in Hok.
      destruct (lookup_text "window_title" None (App.translations e3) "en");
        [eauto | discriminate]. }
    revert Ht' Hm' Hc' Hl' Hd' Hrel.
    generalize (snd (App.update_ui_language as_qstring e3)).
    intros e' Ht' Hm' Hc' Hl' Hd' Hrel.
    split; [reflexivity|]. split; [exact Hrel|]. split; [exact Hl'|].
    split; [exact Hd'|]. split; [rewrite Ht'; exact Ht|].
    split; [rewrite Hm'; exact Hm|].
    split; [rewrite Hc', Hm'; change (App.lang_map e3) with (App.lang_map e);
            rewrite Hm; exact Hc|].
    intros j Hj. rewrite Ht' in Hj. destruct Hen as (x & Hx).
    exact (lookup_text_ok _ _ _ _ _ _ Hx Hj). }
  destruct (App.lang_map e1) as [|p m] eqn:Hmap.
  - subst out.
    apply (Hrest (App.with_window_title "UIMPIT Config Editor" e1));
      try reflexivity; [exact Hmap | exact Hcb | exact Hok].
  - destruct (as_qstringlist (map fst (p :: m))) as [items|] eqn:Hitems;
      subst out; [|discriminate].
    apply (Hrest (App.with_lang_combobox (Some items)
                    (App.with_window_title "UIMPIT Config Editor" e1)));
      try reflexivity; [exact Hmap | exact Hok].
Qed.

Lemma constructor_window_witness :
  fst (__init__ (fresh_window Missing true)) = Ok tt
  /\ App.lang_combobox
       (snd (App.__init__ App.pyside_qstring App.pyside_qstringlist
               (App.fresh_editor
                  (App.Listing [("en.json", Holds pack_en); ("fr.json", Holds pack_fr)])
                  Missing true)))
     = Some ["English"; "Francais"].
Proof.
  destruct (constructor_window App.pyside_qstring App.pyside_qstringlist
              (App.Listing [("en.json", Holds pack_en); ("fr.json", Holds pack_fr)])
              Missing true)
    as (H1 & _ & _ & _ & _ & Hm & Hc & _).
  - vm_compute. reflexivity.
  - split; [exact H1|]. rewrite Hc, Hm. vm_compute. reflexivity.
Defined.

(* --------------------------------------------------------------------- *)
(** *** When the program starts *)
(* --------------------------------------------------------------------- *)

(** The keys whose texts update_ui_language hands to Qt. *)
Definition ui_texts : list string :=
  ["window_title"; "save_button"; "reset_button"]
  ++ flat_map
       (fun ce =>
          match snd ce with
          | Widget _ => [Path.replace "label_" "" (fst ce)]
          | Fields _ => []
          end)
       form_widgets.

Lemma lookup_text_any key d ts lang x key' d' :
  lookup_text key d ts lang = Ok x -> exists y, lookup_text key' d' ts lang = Ok y.
Proof.
  unfold lookup_text. destruct (Dict.get lang ts) as [[]|]; try discriminate; eauto.
Qed.

Lemma In_ui_texts_label key w :
  In (key, Widget w) form_widgets -> In (Path.replace "label_" "" key) ui_texts.
Proof.
  intros Hin. unfold ui_texts. apply in_or_app. right.
  apply in_flat_map. exists (key, Widget w). split; [exact Hin | left; reflexivity].
Qed.

Section Starts.
Variable as_qstring : json -> option string.

Lemma relabel_loop_ok e0 :
  (forall key, In key ui_texts ->
     exists t, translates as_qstring (App.translations e0) (App.current_lang e0) key t) ->
  forall ws, (forall ce, In ce ws -> In ce form_widgets) ->
  forall e, restyles e0 e -> fst (for_ ws (App.relabel as_qstring) e) = Ok tt.
Proof.
  intros Htexts. induction ws as [|[key entry] ws IH]; intros Hsub e He; [reflexivity|].
  cbn [for_]. unfold bind.
  pose proof (restyles_relabel as_qstring (key, entry) e) as Hstep.
  assert (Hok : fst (App.relabel as_qstring (key, entry) e) = Ok tt).
  { destruct He as (Ht & _ & _ & _ & _ & Hl & _).
    destruct entry as [w | fs].
    - destruct (Htexts _ (In_ui_texts_label key w (Hsub _ (or_introl eq_refl))))
        as (t & x & Hx & Hq).
      rewrite relabel_widget_eq, Ht, Hl, Hx, Hq.
      destruct (labelled _); reflexivity.
    - destruct (Htexts "window_title") as (t & x & Hx & _);
        [unfold ui_texts; cbn; tauto|].
      destruct (lookup_text_any _ _ _ _ _ (Path.replace "label_" "" key) None Hx)
        as (y & Hy).
      rewrite relabel_fields_eq, Ht, Hl, Hy. reflexivity. }
  destruct (App.relabel as_qstring (key, entry) e) as [[[] | x] e1];
    cbn [fst snd] in *; [|discriminate].
  apply IH.
  - intros ce Hce. apply Hsub. right. exact Hce.
  - etransitivity; eassumption.
Qed.

(** update_ui_language returns exactly when tr gives, for each of its
    keys, a text that Qt takes. *)
Lemma update_ui_language_returns e :
  ui_ok (App.window e) ->
  App.save_button e <> None -> App.reset_button e <> None ->
  (fst (App.update_ui_language as_qstring e) = Ok tt
   <-> forall key, In key ui_texts ->
         exists t, translates as_qstring (App.translations e) (App.current_lang e)
                     key t).
Proof.
  intros Hui Hsave Hreset. split.
  - intros Hok key Hin. unfold ui_texts in Hin. apply in_app_or in Hin as [Hin | Hin].
    + rewrite update_ui_language_eq in Hok.
      destruct (lookup_text "window_title" None _ _) as [x1 | err] eqn:H1;
        [|discriminate].
      destruct (as_qstring x1) as [t1|] eqn:Hq1; [|discriminate].
      cbv zeta in Hok.
      destruct (App.save_button e) as [b|]; [|discriminate].
      destruct (lookup_text "save_button" None _ _) as [x2 | err] eqn:H2;
        [|discriminate].
      destruct (as_qstring x2) as [t2|] eqn:Hq2; [|discriminate].
      destruct (App.reset_button e) as [b'|]; [|discriminate].
      destruct (lookup_text "reset_button" None _ _) as [x3 | err] eqn:H3;
        [|discriminate].
      destruct (as_qstring x3) as [t3|] eqn:Hq3; [|discriminate].
      cbn [In] in Hin. destruct Hin as [<- | [<- | [<- | []]]].
      * exists t1, x1. split; assumption.
      * exists t2, x2. split; assumption.
      * exists t3, x3. split; assumption.
    + apply in_flat_map in Hin as ([k [w | fs]] & Hce & Hk); cbn [fst snd] in Hk;
        [|destruct Hk].
      destruct Hk as [<- | []].
      rewrite update_ui_language_eq in Hok.
      destruct (lookup_text "window_title" None _ _) as [x1 | err]; [|discriminate].
      destruct (as_qstring x1) as [t1|]; [|discriminate].
      cbv zeta in Hok.
      destruct (App.save_button e) as [b|]; [|discriminate].
      destruct (lookup_text "save_button" None _ _) as [x2 | err]; [|discriminate].
      destruct (as_qstring x2) as [t2|]; [|discriminate].
      destruct (App.reset_button e) as [b'|]; [|discriminate].
      destruct (lookup_text "reset_button" None _ _) as [x3 | err]; [|discriminate].
      destruct (as_qstring x3) as [t3|]; [|discriminate].
      rewrite (ui_ok_widgets _ Hui) in Hok.
      destruct (relabel_loop_shows as_qstring e k w Hui Hce
                  (App.with_reset_button (Some t3)
                     (App.with_save_button (Some t2) (App.with_window_title t1 e)))
                  ltac:(repeat split; reflexivity) Hok) as (t & _ & Ht).
      exists t. exact Ht.
  - intros Htexts. rewrite update_ui_language_eq.
    destruct (Htexts "window_title") as (t1 & x1 & -> & ->);
      [unfold ui_texts; cbn; tauto|].
    cbv zeta.
    destruct (App.save_button e) as [b|]; [|contradiction].
    destruct (Htexts "save_button") as (t2 & x2 & -> & ->);
      [unfold ui_texts; cbn; tauto|].
    destruct (App.reset_button e) as [b'|]; [|contradiction].
    destruct (Htexts "reset_button") as (t3 & x3 & -> & ->);
      [unfold ui_texts; cbn; tauto|].
    apply (relabel_loop_ok e Htexts).
    + intros ce Hce. rewrite <- (ui_ok_widgets _ Hui). exact Hce.
    + repeat split; reflexivity.
Qed.

End Starts.

(** X18.  The program starts, that is the constructor returns, exactly
    when the three of these hold: the constructor without the language
    packs returns (load_config does not raise); the names of the language
    list, if there are any, can be the items of the combo box; and tr
    gives in the language [en], for the title of the window, for the two
    buttons and for each label, check box and group box, a text that Qt
    takes. *)
Theorem constructor_starts (as_qstring : json -> option string)
    (as_qstringlist : list json -> option (list string)) d f wr :
  let e0 := App.fresh_editor d f wr in
  let e1 := snd (App.load_all_languages e0) in
  fst (App.__init__ as_qstring as_qstringlist e0) = Ok tt
  <-> fst (__init__ (fresh_window f wr)) = Ok tt
      /\ (App.lang_map e1 = []
          \/ exists items, as_qstringlist (map fst (App.lang_map e1)) = Some items)
      /\ forall key, In key ui_texts ->
           exists x t, fst (App.tr key None e1) = Ok x /\ as_qstring x = Some t.
Proof.
  cbv zeta. set (e0 := App.fresh_editor d f wr).
  destruct (load_all_languages_packs e0) as (H1 & Hpk).
  rewrite init_eq.
  remember (App.__init__ as_qstring as_qstringlist e0) as out eqn:Hout.
  unfold App.__init__ in Hout. unfold bind at 1 in Hout.
  destruct (App.load_all_languages e0) as [r1 e1]. cbn [fst snd] in H1, Hpk |- *.
  subst r1.
  destruct Hpk as (Hw & Hl & _).
  cbn [App.window App.current_lang App.with_printed] in Hw, Hl.
  change (App.window e0) with (fresh_window f wr) in Hw.
  change (App.current_lang e0) with "en" in Hl.
  unfold bind at 1 in Hout.
  rewrite (app_init_ui_eq as_qstringlist e1 f wr Hw), create_header_eq in Hout.
  cbn [App.lang_map App.with_window_title] in Hout.
  set (e2 := fun e : App.Editor =>
               App.with_save_button (Some "")
                 (App.with_reset_button (Some "")
                    (App.with_window (built_window f wr) e))) in *.
  assert (Htexts : forall e : App.Editor,
            App.translations e = App.translations e1 ->
            App.current_lang e = "en" ->
            (forall key, In key ui_texts ->
               exists t, translates as_qstring (App.translations e)
                           (App.current_lang e) key t)
            <-> (forall key, In key ui_texts ->
                   exists x t, fst (App.tr key None e1) = Ok x /\ as_qstring x = Some t)).
  { intros e Ht Hc. rewrite Ht, Hc. unfold translates.
    split; intros H key Hin; destruct (H key Hin) as (a & b & Ha & Hb).
    - exists b, a. split; [|exact Hb]. rewrite tr_eq, Hl. exact Ha.
    - exists b, a. split; [|exact Hb]. rewrite tr_eq, Hl in Ha. exact Ha. }
  assert (Hrest : forall e,
            App.translations e = App.translations e1 ->
            fst ((App.lift load_config >> App.change_language as_qstring "en") (e2 e))
            = Ok tt
            <-> fst (load_config (built_window f wr)) = Ok tt
                /\ forall key, In key ui_texts ->
                     exists x t, fst (App.tr key None e1) = Ok x
                                 /\ as_qstring x = Some t).
  { clear Hout out. intros e Ht.
    unfold bind, App.lift.
    change (App.window (e2 e)) with (built_window f wr).
    pose proof (load_config_inv _ (inv_built f wr)) as [[_ Hui] _].
    destruct (load_config (built_window f wr)) as [[[] | x] s3];
      cbv beta iota; cbn [fst snd] in Hui |- *.
    2:{ split; [discriminate | intros [? _]; discriminate]. }
    set (e3 := App.with_layout_direction App.LeftToRight
                 (App.with_current_lang "en" (App.with_window s3 (e2 e)))).
    assert (Hrun : App.change_language as_qstring "en" (App.with_window s3 (e2 e))
                   = App.update_ui_language as_qstring e3) by reflexivity.
    rewrite Hrun. clear Hrun.
    rewrite (update_ui_language_returns as_qstring e3 Hui)
      by (cbn; discriminate).
    rewrite (Htexts e3 Ht eq_refl). tauto. }
  destruct (App.lang_map e1) as [|p m] eqn:Hmap.
  - subst out.
    pose proof (Hrest (App.with_window_title "UIMPIT Config Editor" e1) eq_refl)
      as [Hr1 Hr2].
    split.
    + intros H. destruct (Hr1 H) as [Ha Hb].
      split; [exact Ha|]. split; [left; reflexivity | exact Hb].
    + intros (Ha & _ & Hb). apply Hr2. split; assumption.
  - destruct (as_qstringlist (map fst (p :: m))) as [items|] eqn:Hitems; subst out.
    + pose proof (Hrest (App.with_lang_combobox (Some items)
                           (App.with_window_title "UIMPIT Config Editor" e1)) eq_refl)
        as [Hr1 Hr2].
      split.
      * intros H. destruct (Hr1 H) as [Ha Hb].
        split; [exact Ha|]. split; [right; eauto | exact Hb].
      * intros (Ha & _ & Hb). apply Hr2. split; assumption.
    + cbn [fst]. split; [discriminate|].
      intros (_ & [Hnil | (items & Hsome)] & _); discriminate.
Qed.

Lemma constructor_starts_witness :
  fst (App.__init__ App.pyside_qstring App.pyside_qstringlist
         (App.fresh_editor App.NoDirectory Missing true)) = Ok tt.
Proof.
  apply (constructor_starts App.pyside_qstring App.pyside_qstringlist
           App.NoDirectory Missing true).
  split; [vm_compute; reflexivity|]. split; [left; reflexivity|].
  intros key Hin. exists (JStr key), key. split; reflexivity.
Defined.
